(** * ADPKD segmentation: dataset indexing and per-study statistics

    A shallow embedding of
    - [adpkd_segmentation/datasets/datasets.py]: [SegmentationDataset],
      [InferenceDataset] (slice ordering, slice indexing) and
      [JsonDatasetGetter];
    - [notebooks/evaluate_patients_notebook.py]: [resized_stack],
      [exam_preds_to_stat] and [compute_inference_stats].

    Numbers that Python holds as floats are exact rationals here (the
    canonical fractions [Qc]); a standard deviation is kept as the
    radicand of its square root.  Python exceptions are results
    [Raise cls] carrying the class name. *)

From Stdlib Require Import ZArith QArith Qcanon Lia List String Ascii.
From Stdlib Require Import Permutation Sorted.
From stdpp Require Import base option list list_numbers gmap strings fin_maps.

Local Open Scope Z_scope.
Set Warnings "-register-all".

(* ===================================================================== *)
(** * Part I: definitions *)
(* ===================================================================== *)

(** ** Python values shared by both files *)

Module Py.

(** The outcome of a Python call: a value, or a raised exception named
    by its class. *)
Inductive result (A : Type) : Type :=
| Ok (a : A)
| Raise (cls : string).
Arguments Ok {A} a.
Arguments Raise {A} cls.

Definition bind {A B} (r : result A) (k : A -> result B) : result B :=
  match r with
  | Ok a => k a
  | Raise e => Raise e
  end.

(** A list comprehension whose body may raise: the first exception
    leaves the comprehension. *)
Fixpoint comprehension {A B} (f : A -> result B) (l : list A)
  : result (list B) :=
  match l with
  | [] => Ok []
  | x :: l' =>
      bind (f x) (fun y =>
      bind (comprehension f l') (fun ys => Ok (y :: ys)))
  end.

(** [seq[i]] for a Python list and an int: negative indices count from
    the end, anything outside raises [IndexError]. *)
Definition list_getitem {A} (l : list A) (i : Z) : result A :=
  let n := Z.of_nat (length l) in
  let j := if i <? 0 then i + n else i in
  if (j <? 0) || (n <=? j) then Raise "IndexError"
  else match l !! Z.to_nat j with
       | Some x => Ok x
       | None => Raise "IndexError"
       end.

(** [slice(start, stop, step)]; [None] for an omitted component. *)
Record slice : Type := Slice {
  slice_start : option Z;
  slice_stop : option Z;
  slice_step : option Z
}.

(** [slice.indices(length)]: CPython's normalisation of the three
    components against a sequence length. *)
Definition slice_indices (s : slice) (length : Z) : result (Z * Z * Z) :=
  let step := default 1 (slice_step s) in
  if step =? 0 then Raise "ValueError"
  else
    let lower := if step <? 0 then -1 else 0 in
    let upper := if step <? 0 then length - 1 else length in
    let clamp (v : Z) :=
      if v <? 0 then Z.max (v + length) lower else Z.min v upper in
    let start :=
      match slice_start s with
      | None => if step <? 0 then upper else lower
      | Some v => clamp v
      end in
    let stop :=
      match slice_stop s with
      | None => if step <? 0 then lower else upper
      | Some v => clamp v
      end in
    Ok (start, stop, step).

(** [len(range(start, stop, step))]. *)
Definition range_len (start stop step : Z) : Z :=
  if 0 <? step then
    (if start <? stop then (stop - start - 1) / step + 1 else 0)
  else
    (if stop <? start then (start - stop - 1) / (- step) + 1 else 0).

(** [list(range(start, stop, step))]. *)
Definition range (start stop step : Z) : result (list Z) :=
  if step =? 0 then Raise "ValueError"
  else Ok ((fun i => start + i * step) <$> seqZ 0 (range_len start stop step)).

(** The range that [index.indices(n)] unpacks into. *)
Definition range_of_slice (s : slice) (n : Z) : result (list Z) :=
  bind (slice_indices s n) (fun '(start, stop, step) => range start stop step).

(** The argument of [__getitem__]: an int or a slice. *)
Inductive index : Type :=
| Int (i : Z)
| Slc (s : slice).

(** What [__getitem__] hands back: one sample, or the list built for a
    slice. *)
Inductive item (S : Type) : Type :=
| One (x : S)
| Many (xs : list S).
Arguments One {S} x.
Arguments Many {S} xs.

End Py.

Import Py.

Notation "x <- e ;; k" := (Py.bind e (fun x => k))
  (at level 100, e at next level, k at level 200, right associativity).

(** ** [datasets.py] *)

Module Datasets.

(** A [pathlib.Path], by its [parts]. *)
Definition Path : Type := list string.

(** Comparison of two [Path] objects: [pathlib] compares the tuples of
    parts, each part as a string. *)
Definition Path_compare (p q : Path) : comparison :=
  list_compare String.compare p q.

Definition Path_leb (p q : Path) : bool :=
  match Path_compare p q with Gt => false | _ => true end.

(** [path.parent.name]: the last part of the parent, empty when the
    parent is the root or the current directory. *)
Definition parent_name (p : Path) : string :=
  match last (removelast p) with
  | Some n => if String.eqb n "/" then EmptyString else n
  | None => EmptyString
  end.

Section Getitem.

Context {sample : Type}.

(** ** [SegmentationDataset.__getitem__]

    [make_sample im_path label_path index] stands for lines 84 to 122:
    decoding, normalisation, mask encoding, augmentation and channel
    stacking, all of them collaborators of the dataset. *)
Record SegmentationDataset : Type := {
  seg_dcm_paths : list Path;
  seg_get_y_Path : Path -> Path;
  seg_make_sample : Path -> Path -> Z -> result sample
}.

(** [self.label_paths = [get_y_Path(dcm) for dcm in self.dcm_paths]] *)
Definition seg_label_paths (d : SegmentationDataset) : list Path :=
  seg_get_y_Path d <$> seg_dcm_paths d.

Definition SegmentationDataset_len (d : SegmentationDataset) : Z :=
  Z.of_nat (length (seg_dcm_paths d)).

Definition SegmentationDataset_getitem_int (d : SegmentationDataset)
    (index : Z) : result sample :=
  bind (list_getitem (seg_dcm_paths d) index) (fun im_path =>
  bind (list_getitem (seg_label_paths d) index) (fun label_path =>
  seg_make_sample d im_path label_path index)).

Definition SegmentationDataset_getitem (d : SegmentationDataset)
    (index : Py.index) : result (item sample) :=
  match index with
  | Slc s =>
      bind (range_of_slice s (SegmentationDataset_len d)) (fun r =>
      bind (comprehension (SegmentationDataset_getitem_int d) r) (fun xs =>
      Ok (Many xs)))
  | Int i => bind (SegmentationDataset_getitem_int d i) (fun x => Ok (One x))
  end.

(** ** [InferenceDataset.__getitem__]

    The part of an [InferenceDataset] that indexing reads;
    [make_sample im_path index] stands for lines 389 to 418. *)
Record InferenceSamples : Type := {
  inf_dcm_paths : list Path;
  inf_make_sample : Path -> Z -> result sample
}.

Definition InferenceDataset_len (d : InferenceSamples) : Z :=
  Z.of_nat (length (inf_dcm_paths d)).

Definition InferenceDataset_getitem_int (d : InferenceSamples)
    (index : Z) : result sample :=
  bind (list_getitem (inf_dcm_paths d) index) (fun im_path =>
  inf_make_sample d im_path index).

Definition InferenceDataset_getitem (d : InferenceSamples)
    (index : Py.index) : result (item sample) :=
  match index with
  | Slc s =>
      bind (range_of_slice s (InferenceDataset_len d)) (fun r =>
      bind (comprehension (InferenceDataset_getitem_int d) r) (fun xs =>
      Ok (Many xs)))
  | Int i => bind (InferenceDataset_getitem_int d i) (fun x => Ok (One x))
  end.

End Getitem.

(** ** [JsonDatasetGetter.__init__]

    [made] is what [make_dcmdicts] returned for the labelled files,
    [dataset_split] the object [json.load] read from [json_path], and
    [PatientFiltering] the filter of [datasets/filters.py]. *)
Section JsonDatasetGetter.

Context {dcm2attribs_t patient2dcm_t : Type}.

Record JsonDatasetGetter : Type := {
  json_patient_IDS : list string;
  json_dcm2attribs : dcm2attribs_t;
  json_patient2dcm : patient2dcm_t
}.

Definition JsonDatasetGetter_init
    (made : dcm2attribs_t * patient2dcm_t)
    (dataset_split : gmap string (list string))
    (splitter_key : string)
    (PatientFiltering :
       list string -> dcm2attribs_t -> patient2dcm_t ->
       dcm2attribs_t * patient2dcm_t)
  : result JsonDatasetGetter :=
  let '(dcm2attribs, patient2dcm) := made in
  match dataset_split !! splitter_key with
  | None => Raise "KeyError"
  | Some patient_IDS =>
      let '(dcm2attribs', patient2dcm') :=
        PatientFiltering patient_IDS dcm2attribs patient2dcm in
      Ok {| json_patient_IDS := patient_IDS;
            json_dcm2attribs := dcm2attribs';
            json_patient2dcm := patient2dcm' |}
  end.

End JsonDatasetGetter.

(** ** [InferenceDataset.__init__]: slice ordering *)

(** An element of a header as [pydicom] hands it over: [Absent] when
    the file has no such element, so that reading the attribute raises
    [AttributeError]; [Empty] when the element is there and reads as
    [None], as a number without a value does; or a value.  (A text
    element without a value that [pydicom] reads as the empty string is
    the value [Value EmptyString].) *)
Inductive element (A : Type) : Type :=
| Absent
| Empty
| Value (a : A).
Arguments Absent {A}.
Arguments Empty {A}.
Arguments Value {A} a.

(** [header.<name>] *)
Definition getattr {A} (e : element A) : result (option A) :=
  match e with
  | Absent => Raise "AttributeError"
  | Empty => Ok None
  | Value a => Ok (Some a)
  end.

(** The header fields read through [pydicom.dcmread].  A component of
    [ImagePositionPatient] is an integer number of a fixed sub-unit of
    length (only its order and equality are used). *)
Record dcm_header : Type := {
  SeriesDescription : element string;
  PatientID : element string;
  Rows : element Z;
  Columns : element Z;
  ImagePositionPatient : element (list Z);
  AccessionNumber : element string;
  SeriesNumber : element Z
}.

(** [literal_eval(str(v))[2]] for the value [v] of
    [ImagePositionPatient]: [None] and a single number read back as
    what they are and cannot be subscripted; several values read back as
    a list. *)
Definition third_of (v : option (list Z)) : result Z :=
  match v with
  | None => Raise "TypeError"
  | Some [_] => Raise "TypeError"
  | Some vs => list_getitem vs 2
  end.

(** One row of the data frame [dataset]; its index label is its
    position.  [None] is a value that pandas counts as missing ([None]
    or NaN).  [col_slice_pos] starts as the empty string, here [None]. *)
Record row : Type := {
  col_dcm_paths : Path;
  col_folders : string;
  col_studies : option string;
  col_patients : option string;
  col_x_dims : option Z;
  col_y_dims : option Z;
  col_z_pos : option Z;
  col_acc_nums : option string;
  col_ser_nums : option Z;
  col_slice_pos : option nat
}.

Definition set_slice_pos (v : option nat) (r : row) : row :=
  {| col_dcm_paths := col_dcm_paths r; col_folders := col_folders r;
     col_studies := col_studies r; col_patients := col_patients r;
     col_x_dims := col_x_dims r; col_y_dims := col_y_dims r;
     col_z_pos := col_z_pos r; col_acc_nums := col_acc_nums r;
     col_ser_nums := col_ser_nums r; col_slice_pos := v |}.

Definition group_key : Type :=
  (string * string * string * Z * Z * string * Z)%type.

(** The values of the columns [group_keys] in one row; [None] when one
    of them is missing: [groupby] leaves such a row out of every
    group. *)
Definition group_keys (r : row) : option group_key :=
  match col_studies r, col_patients r, col_x_dims r, col_y_dims r,
        col_acc_nums r, col_ser_nums r with
  | Some s, Some p, Some x, Some y, Some a, Some n =>
      Some (col_folders r, s, p, x, y, a, n)
  | _, _, _, _, _, _ => None
  end.

Definition lex (c1 c2 : comparison) : comparison :=
  match c1 with Eq => c2 | _ => c1 end.

(** Tuples compare component by component. *)
Definition group_key_leb (k1 k2 : group_key) : bool :=
  let '(f1, s1, p1, x1, y1, a1, n1) := k1 in
  let '(f2, s2, p2, x2, y2, a2, n2) := k2 in
  match lex (String.compare f1 f2) (lex (String.compare s1 s2)
       (lex (String.compare p1 p2) (lex (x1 ?= x2) (lex (y1 ?= y2)
       (lex (String.compare a1 a2) (n1 ?= n2)))))) with
  | Gt => false
  | _ => true
  end.

Fixpoint insert_sorted {A} (leb : A -> A -> bool) (x : A) (l : list A)
  : list A :=
  match l with
  | [] => [x]
  | y :: l' => if leb x y then x :: l else y :: insert_sorted leb x l'
  end.

Definition isort {A} (leb : A -> A -> bool) (l : list A) : list A :=
  foldr (insert_sorted leb) [] l.

(** A frame with its index labels. *)
Definition indexed {A} (l : list A) : list (nat * A) :=
  zip (seq 0 (length l)) l.

(** [dataset.groupby(group_keys)]: the groups in key order, each with
    the index labels and rows that carry the key, in frame order.  A
    row with a missing key value is in none of them. *)
Definition groupby (dataset : list row)
  : list (group_key * list (nat * row)) :=
  (fun k =>
     (k, filter (fun ir => group_keys ir.2 = Some k) (indexed dataset)))
    <$> isort group_key_leb (remove_dups (omap group_keys dataset)).

(** [np.argsort(zs)].  NumPy's default sort may order equal values
    either way; the one here keeps them in place. *)
Definition argsort {V} (leb : V -> V -> bool) (zs : list V) : list nat :=
  (isort (fun a b => leb a.2 b.2) (indexed zs)).*1.

(** [{zs[idx]: pos for idx, pos in zip(sorted_idxs, range(len(zs)))}]:
    a later position replaces an earlier one under the same key. *)
Definition slice_map_of `{Countable V} (zs : list V) (sorted_idxs : list nat)
  : gmap V nat :=
  foldl (fun m '(idx, pos) =>
           match zs !! idx with
           | Some z => <[z := pos]> m
           | None => m
           end)
        ∅ (zip sorted_idxs (seq 0 (length zs))).

(** [group[sort_key].map(slice_map)] for the values [zs] of the sort
    column. *)
Definition rank_column `{Countable V} (leb : V -> V -> bool) (zs : list V)
  : list (option nat) :=
  let sorted_idxs := argsort leb zs in
  let slice_map := slice_map_of zs sorted_idxs in
  (fun z => slice_map !! z) <$> zs.

(** The body of the first loop up to [zs_slice_pos]: the sort column is
    [z_pos], or [dcm_paths] as soon as one position of the group is
    missing ([mapM] is [None] exactly then). *)
Definition group_slice_pos (group : list (nat * row)) : list (option nat) :=
  match mapM (fun ir => col_z_pos ir.2) group with
  | Some zs => rank_column Z.leb zs
  | None => rank_column Path_leb ((fun ir => col_dcm_paths ir.2) <$> group)
  end.

(** [for i in group.index: dataset.at[i, "slice_pos"] = zs_slice_pos.get(i)] *)
Definition assign_group (dataset : list row) (group : list (nat * row))
  : list row :=
  foldl (fun ds '(i, v) => alter (set_slice_pos v) i ds)
        dataset (zip group.*1 (group_slice_pos group)).

(** The first loop over the groups. *)
Definition assign_slice_pos (dataset : list row) : list row :=
  foldl (fun ds '(name, group) => assign_group ds group)
        dataset (groupby dataset).

Definition slice_pos_leb (a b : option nat) : bool :=
  match a, b with
  | Some x, Some y => (x <=? y)%nat
  | None, _ => false
  | Some _, None => true
  end.

(** [group.sort_values(by="slice_pos", inplace=True)]: the rows of the
    group in rank order. *)
Definition sort_values_slice_pos (group : list (nat * row))
  : list (nat * row) :=
  isort (fun a b => slice_pos_leb (col_slice_pos a.2) (col_slice_pos b.2))
        group.

(** [patient2dcm] is an insertion-ordered dict. *)
Definition dict_get {K V} `{EqDecision K} (d : list (K * V)) (k : K)
  : option V :=
  (fun found => found.2.2) <$> list_find (fun kv => kv.1 = k) d.

Record InferenceDataset : Type := {
  df : list row;
  dcm_paths : list Path
}.

(** [self.dcm_paths] as first built from [patient2dcm]. *)
Definition collect_dcm_paths (patient2dcm : list (string * list Path))
  : list Path :=
  let patients := patient2dcm.*1 in
  foldl (fun acc p => acc ++ default [] (dict_get patient2dcm p)) [] patients.

(** One column read from the headers:
    [[pydicom.dcmread(path).<name> for path in self.dcm_paths]];
    [dcmread] itself raises for a file that cannot be read. *)
Definition read_column {A} (dcmread : Path -> result dcm_header)
    (attribute : dcm_header -> result A) (paths : list Path)
  : result (list A) :=
  comprehension (fun path => h <- dcmread path;; attribute h) paths.

(** [pd.DataFrame.from_dict(data)] with the empty [slice_pos] column;
    the nine lists have one length. *)
Fixpoint from_dict (dcm_paths : list Path) (folders : list string)
    (studies patients : list (option string)) (x_dims y_dims : list (option Z))
    (z_pos : list Z) (acc_nums : list (option string))
    (ser_nums : list (option Z)) : list row :=
  match dcm_paths, folders, studies, patients, x_dims, y_dims, z_pos,
        acc_nums, ser_nums with
  | path :: dcm_paths', folder :: folders', study :: studies',
    patient :: patients', x :: x_dims', y :: y_dims', z :: z_pos',
    acc :: acc_nums', ser :: ser_nums' =>
      {| col_dcm_paths := path;
         col_folders := folder;
         col_studies := study;
         col_patients := patient;
         col_x_dims := x;
         col_y_dims := y;
         col_z_pos := Some z;
         col_acc_nums := acc;
         col_ser_nums := ser;
         col_slice_pos := None |}
      :: from_dict dcm_paths' folders' studies' patients' x_dims' y_dims'
           z_pos' acc_nums' ser_nums'
  | _, _, _, _, _, _, _, _, _ => []
  end.

(** Lines 313 to 347: the columns, read one after the other, and the
    frame made of them. *)
Definition make_frame (dcmread : Path -> result dcm_header)
    (paths : list Path) : result (list row) :=
  studies <- read_column dcmread (fun h => getattr (SeriesDescription h))
               paths;;
  let folders := parent_name <$> paths in
  patients <- read_column dcmread (fun h => getattr (PatientID h)) paths;;
  x_dims <- read_column dcmread (fun h => getattr (Rows h)) paths;;
  y_dims <- read_column dcmread (fun h => getattr (Columns h)) paths;;
  z_pos <- read_column dcmread
             (fun h => v <- getattr (ImagePositionPatient h);; third_of v)
             paths;;
  acc_nums <- read_column dcmread (fun h => getattr (AccessionNumber h))
                paths;;
  ser_nums <- read_column dcmread (fun h => getattr (SeriesNumber h)) paths;;
  Ok (from_dict paths folders studies patients x_dims y_dims z_pos acc_nums
        ser_nums).

(** The row of one file, its fields read in the order of the
    columns. *)
Definition read_row (dcmread : Path -> result dcm_header) (path : Path)
  : result row :=
  h <- dcmread path;;
  study <- getattr (SeriesDescription h);;
  patient <- getattr (PatientID h);;
  x <- getattr (Rows h);;
  y <- getattr (Columns h);;
  v <- getattr (ImagePositionPatient h);;
  z <- third_of v;;
  acc <- getattr (AccessionNumber h);;
  ser <- getattr (SeriesNumber h);;
  Ok {| col_dcm_paths := path;
        col_folders := parent_name path;
        col_studies := study;
        col_patients := patient;
        col_x_dims := x;
        col_y_dims := y;
        col_z_pos := Some z;
        col_acc_nums := acc;
        col_ser_nums := ser;
        col_slice_pos := None |}.

(** The elements read before the position are in the header. *)
Definition described (h : dcm_header) : Prop :=
  SeriesDescription h <> Absent /\ PatientID h <> Absent /\
  Rows h <> Absent /\ Columns h <> Absent.

(** The position has a third component to read. *)
Definition positioned (h : dcm_header) : Prop :=
  exists vs, ImagePositionPatient h = Value vs /\ (3 <= length vs)%nat.

(** A header with every element that the frame is built from. *)
Definition complete (h : dcm_header) : Prop :=
  described h /\ positioned h /\
  AccessionNumber h <> Absent /\ SeriesNumber h <> Absent.

Definition InferenceDataset_init (patient2dcm : list (string * list Path))
    (dcmread : Path -> result dcm_header) : result InferenceDataset :=
  let dcm_paths0 := collect_dcm_paths patient2dcm in
  frame <- make_frame dcmread dcm_paths0;;
  let dataset := assign_slice_pos frame in
  (* the second loop sorts each group it was handed, a frame of its
     own; [dataset] is not written to *)
  let sorted_groups :=
    (fun ng => sort_values_slice_pos ng.2) <$> groupby dataset in
  Ok {| df := dataset; dcm_paths := col_dcm_paths <$> dataset |}.

(** How many values of [l] are at most [v]. *)
Definition count_le {V} (leb : V -> V -> bool) (v : V) (l : list V) : nat :=
  length (filter (fun x => leb x v = true) l).

(** The rank that the first loop computes for a row [r] of a group
    with rows [G], in closed form. *)
Definition rank_of (G : list row) (r : row) : option nat :=
  match mapM col_z_pos G with
  | Some zs => Some (count_le Z.leb (default 0%Z (col_z_pos r)) zs - 1)%nat
  | None =>
      Some (count_le Path_leb (col_dcm_paths r) (col_dcm_paths <$> G) - 1)%nat
  end.

(** What one group writes: under each of its index labels, the rank
    of the row. *)
Definition group_updates (g : list (nat * row)) : list (nat * option nat) :=
  (fun ir => (ir.1, rank_of g.*2 ir.2)) <$> g.

(** The group of a row, and the two orders a group is ranked by. *)
Definition group_of (dataset : list row) (r : row) : list row :=
  filter (fun r' => group_keys r' = group_keys r) dataset.

(** A row of [dataset] as the first loop leaves it: ranked within its
    group, or as it was when it is in no group. *)
Definition ranked (dataset : list row) (r : row) : row :=
  match group_keys r with
  | Some _ => set_slice_pos (rank_of (group_of dataset r) r) r
  | None => r
  end.

Definition z_before (r' r : row) : Prop :=
  match col_z_pos r', col_z_pos r with
  | Some a, Some b => a < b
  | _, _ => False
  end.

Definition path_upto (r' r : row) : Prop :=
  Path_leb (col_dcm_paths r') (col_dcm_paths r) = true.

#[global] Instance z_before_dec r' r : Decision (z_before r' r).
Proof. unfold z_before. destruct (col_z_pos r'), (col_z_pos r); apply _. Defined.

#[global] Instance path_upto_dec r' r : Decision (path_upto r' r).
Proof. unfold path_upto. apply _. Defined.

(** Index lists as a reader of a slice meets them. *)
Definition ascending (l : list Z) : Prop :=
  forall (j k : nat) (a b : Z),
    (j < k)%nat -> l !! j = Some a -> l !! k = Some b -> a < b.

Definition descending (l : list Z) : Prop :=
  forall (j k : nat) (a b : Z),
    (j < k)%nat -> l !! j = Some a -> l !! k = Some b -> b < a.

(** What a slice of a dataset is made of: the indices [idxs], all of
    them valid, each sample built from the path at its index. *)
Definition slice_result {sample} (paths : list Path)
    (getitem_int : Z -> result sample) (sample_of : Path -> Z -> result sample)
    (got : result (item sample)) (idxs : list Z) : Prop :=
  (forall i, i ∈ idxs -> 0 <= i < Z.of_nat (length paths)) /\
  (forall i, i ∈ idxs ->
     exists p, paths !! Z.to_nat i = Some p /\ getitem_int i = sample_of p i) /\
  got = bind (comprehension getitem_int idxs) (fun xs => Ok (Many xs)).

(** Three files of one folder, and a dataset whose samples are the
    path and the index themselves. *)
Definition three_paths : list Path :=
  [["/"; "data"; "s1"; "a.dcm"]; ["/"; "data"; "s1"; "b.dcm"];
   ["/"; "data"; "s1"; "c.dcm"]]%string.

Definition three_samples : @InferenceSamples (Path * Z) :=
  {| inf_dcm_paths := three_paths;
     inf_make_sample := fun p i => Ok (p, i) |}.

Definition three_labelled : @SegmentationDataset (Path * Path * Z) :=
  {| seg_dcm_paths := three_paths;
     seg_get_y_Path := fun p => p ++ ["label"%string];
     seg_make_sample := fun p l i => Ok (p, l, i) |}.

(** Two files of one series, listed against their depth: [a.dcm] lies
    at 5, [b.dcm] at 3. *)
Definition two_paths : list Path :=
  [["/"; "data"; "s1"; "a.dcm"]; ["/"; "data"; "s1"; "b.dcm"]]%string.

Definition header_of (position : element (list Z)) (number : element Z)
  : dcm_header :=
  {| SeriesDescription := Value "T2"%string; PatientID := Value "P1"%string;
     Rows := Value 256; Columns := Value 256;
     ImagePositionPatient := position;
     AccessionNumber := Value "A1"%string; SeriesNumber := number |}.

Definition header_at (z : Z) : dcm_header :=
  header_of (Value [0; 0; z]) (Value 1).

Definition is_a_dcm (p : Path) : Prop :=
  p = ["/"; "data"; "s1"; "a.dcm"]%string.

#[global] Instance is_a_dcm_dec (p : Path) : Decision (is_a_dcm p).
Proof. unfold is_a_dcm. apply _. Defined.

Definition two_headers (p : Path) : result dcm_header :=
  if decide (is_a_dcm p) then Ok (header_at 5) else Ok (header_at 3).

Definition two_files : list (string * list Path) :=
  [("P1"%string, two_paths)].

(** The same two files when [b.dcm] has no [ImagePositionPatient], and
    when it has one without a value. *)
Definition two_headers_gap (p : Path) : result dcm_header :=
  if decide (is_a_dcm p) then Ok (header_at 5)
  else Ok (header_of Absent (Value 1)).

Definition two_headers_blank (p : Path) : result dcm_header :=
  if decide (is_a_dcm p) then Ok (header_at 5)
  else Ok (header_of Empty (Value 1)).

(** The same two files when [b.dcm] has a [SeriesNumber] without a
    value. *)
Definition two_headers_unnumbered (p : Path) : result dcm_header :=
  if decide (is_a_dcm p) then Ok (header_at 5)
  else Ok (header_of (Value [0; 0; 3]) Empty).

(** A frame of one group in which the second position is missing, as
    the first loop provides for. *)
Definition row_at (path : Path) (z : option Z) : row :=
  {| col_dcm_paths := path; col_folders := parent_name path;
     col_studies := Some "T2"%string; col_patients := Some "P1"%string;
     col_x_dims := Some 256; col_y_dims := Some 256; col_z_pos := z;
     col_acc_nums := Some "A1"%string; col_ser_nums := Some 1;
     col_slice_pos := None |}.

Definition gap_frame : list row :=
  [row_at ["/"; "data"; "s1"; "a.dcm"]%string (Some 3);
   row_at ["/"; "data"; "s1"; "b.dcm"]%string None].

(** A split file with a training and a validation list only. *)
Definition train_val_split : gmap string (list string) :=
  {[ "TRAIN"%string := ["P1"; "P2"]%string; "VAL"%string := ["P3"%string] ]}.

(** [d[::-1]] and [d[-100:100]] *)
Definition reversed : slice := Slice None None (Some (-1)).
Definition wide : slice := Slice (Some (-100)) (Some 100) None.

End Datasets.

(** ** [evaluate_patients_notebook.py] *)

Module Notebook.

Local Open Scope Qc_scope.

(** *** NumPy arrays *)

(** An array is its shape and its buffer in row-major order. *)
Record ndarray : Type := {
  shape : list nat;
  data : list Qc
}.

Definition prod_shape (s : list nat) : nat := foldr Nat.mul 1%nat s.

Definition sumQ (l : list Qc) : Qc := foldr Qcplus 0 l.

Definition Qc_of_nat (n : nat) : Qc := Qc_of_Z (Z.of_nat n).

(** Element [i, j] of a buffer read as a matrix with rows of [R]
    entries. *)
Definition at2 (D : list Qc) (R i j : nat) : Qc :=
  default 0 (D !! (i * R + j)%nat).

(** The buffer of the transpose of an [n] by [R] matrix. *)
Definition transpose_buffer (n R : nat) (D : list Qc) : list Qc :=
  seq 0 R ≫= fun j => (fun i => at2 D R i j) <$> seq 0 n.

(** [np.stack(arrays)]: a new leading axis; the arrays must exist and
    agree in shape. *)
Definition np_stack (arrays : list ndarray) : result ndarray :=
  match arrays with
  | [] => Raise "ValueError"
  | a :: rest =>
      if bool_decide (Forall (fun b => shape b = shape a) rest)
      then Ok {| shape := length arrays :: shape a;
                 data := arrays ≫= data |}
      else Raise "ValueError"
  end.

(** [np.moveaxis(arr, 0, -1)] *)
Definition moveaxis_0_last (a : ndarray) : ndarray :=
  match shape a with
  | [] => a
  | n :: rest =>
      {| shape := rest ++ [n];
         data := transpose_buffer n (prod_shape rest) (data a) |}
  end.

(** [np.moveaxis(arr, -1, 0)] *)
Definition moveaxis_last_0 (a : ndarray) : ndarray :=
  match reverse (shape a) with
  | [] => a
  | n :: rest_rev =>
      let rest := reverse rest_rev in
      {| shape := n :: rest;
         data := transpose_buffer (prod_shape rest) n (data a) |}
  end.

(** [np.squeeze(arr)]: every axis of length one goes, the buffer stays. *)
Definition np_squeeze (a : ndarray) : ndarray :=
  {| shape := filter (fun d => d <> 1%nat) (shape a); data := data a |}.

(** [np.expand_dims(arr, axis=1)] *)
Definition expand_dims_1 (a : ndarray) : result ndarray :=
  match shape a with
  | [] => Raise "AxisError"
  | n :: rest => Ok {| shape := n :: 1%nat :: rest; data := data a |}
  end.

(** [np.mean(arr, axis=0)] *)
Definition np_mean_axis0 (a : ndarray) : ndarray :=
  match shape a with
  | [] => a
  | n :: rest =>
      let R := prod_shape rest in
      {| shape := rest;
         data := (fun j => sumQ ((fun i => at2 (data a) R i j) <$> seq 0 n)
                           / Qc_of_nat n) <$> seq 0 R |}
  end.

(** A square root, kept as its radicand. *)
Inductive root : Type := Sqrt (radicand : Qc).

Definition root_is_zero (r : root) : Prop :=
  match r with Sqrt v => v = 0 end.

(** [np.std(arr)]: over all entries of the array, whatever its axes. *)
Definition np_std (a : ndarray) : root :=
  let N := Qc_of_nat (length (data a)) in
  let mean := sumQ (data a) / N in
  Sqrt (sumQ ((fun x => (x - mean) * (x - mean)) <$> data a) / N).

(** *** The loss and metric helpers of [adpkd_segmentation.utils.losses] *)

(** Modelled from the spec: [SigmoidBinarize(thresholds=[0.5])], absent
    from the sources, "binarization via a fixed-threshold sigmoid rule,
    threshold 0.5".  The sigmoid of [x] exceeds one half exactly when
    [x] is positive. *)
Definition SigmoidBinarize (x : Qc) : Qc :=
  if decide (0 < x) then 1 else 0.

(** A prediction post-processing acts entry by entry. *)
Definition apply_process (pred_process : Qc -> Qc) (a : ndarray) : ndarray :=
  {| shape := shape a; data := pred_process <$> data a |}.

(** Modelled from the spec: [Dice(pred_process, use_as_loss=False,
    power=1, dim=(0, 1, 2, 3))], absent from the sources,
    "Dice = (2|P n G| + e)/(|P| + |G| + e), with intersection/union
    computed as elementwise products/sums over all voxel positions
    jointly", [P] the processed prediction and [G] the target. *)
Definition Dice (pred_process : Qc -> Qc) (epsilon : Qc)
    (pred target : ndarray) : Qc :=
  let P := pred_process <$> data pred in
  let G := data target in
  (2 * sumQ (zip_with Qcmult P G) + epsilon)
  / (sumQ P + sumQ G + epsilon).

(** *** Attribute dictionaries *)

Inductive pyval : Type :=
| VNone
| VNum (q : Qc)
| VStr (s : string)
| VList (l : list pyval)
| VRoot (r : root).

(** Dict objects live in a store and are passed by reference. *)
Abbreviation ref := nat (only parsing).
Abbreviation store := (list (gmap string pyval)) (only parsing).

Definition deref (h : store) (r : ref) : gmap string pyval :=
  default ∅ (h !! r).

(** [d[key]] *)
Definition dict_item (d : gmap string pyval) (key : string) : result pyval :=
  match d !! key with
  | Some v => Ok v
  | None => Raise "KeyError"
  end.

(** [v[0] ** 2] for a JSON value [v]: the empty list and the empty
    string have no item 0; a character, like anything that is not a
    number, cannot be squared. *)
Definition item0_squared (v : pyval) : result Qc :=
  match v with
  | VList (VNum x :: _) => Ok (x * x)
  | VList [] => Raise "IndexError"
  | VStr EmptyString => Raise "IndexError"
  | _ => Raise "TypeError"
  end.

(** Python's [/] *)
Definition truediv (x y : Qc) : result Qc :=
  if decide (y = 0) then Raise "ZeroDivisionError" else Ok (x / y).

Definition as_number (v : pyval) : result Qc :=
  match v with
  | VNum x => Ok x
  | _ => Raise "TypeError"
  end.

(** [a + b] as used for the study name *)
Definition py_add (a b : pyval) : result pyval :=
  match a, b with
  | VStr x, VStr y => Ok (VStr (x ++ y))
  | VNum x, VNum y => Ok (VNum (x + y))
  | VList x, VList y => Ok (VList (x ++ y))
  | _, _ => Raise "TypeError"
  end.

(** The study name as a dict key.  [patient] and [MR] are strings in
    every attributes file: [inference_to_disk] uses them as directory
    names. *)
Definition as_key (v : pyval) : result string :=
  match v with
  | VStr k => Ok k
  | _ => Raise "TypeError"
  end.

Definition option_root (pred_std : option root) : pyval :=
  match pred_std with
  | Some r => VRoot r
  | None => VNone
  end.

(** *** [exam_preds_to_stat] *)

(** The body of [exam_preds_to_stat] on the contents [d] of
    [attrib_dict]: the contents after [attrib_dict.update(...)]. *)
Definition exam_stats (epsilon : Qc) (pred_vol ground_vol : ndarray)
    (pred_process : Qc -> Qc) (d : gmap string pyval)
    (pred_std : option root) : result (gmap string pyval) :=
  let dice_val := Dice pred_process epsilon pred_vol ground_vol in
  dim <- dict_item d "dim";;
  num <- item0_squared dim;;
  resize_dim <- dict_item d "transform_resize_dim";;
  den <- item0_squared resize_dim;;
  scale_factor <- truediv num den;;
  let pred_pixel_count := sumQ (data (apply_process pred_process pred_vol)) in
  vv <- dict_item d "vox_vol";;
  vox_vol <- as_number vv;;
  let volume_pred := scale_factor * vox_vol * pred_pixel_count in
  let ground_pixel_count :=
    sumQ (data (apply_process pred_process ground_vol)) in
  let volume_ground := scale_factor * vox_vol * ground_pixel_count in
  patient <- dict_item d "patient";;
  MR <- dict_item d "MR";;
  study <- py_add patient MR;;
  Ok (<["Pred_stdev" := option_root pred_std]>
      (<["scale_factor" := VNum scale_factor]>
      (<["study" := study]>
      (<["patient_dice" := VNum dice_val]>
      (<["TKV_Pred" := VNum volume_pred]>
      (<["TKV_GT" := VNum volume_ground]> d)))))).

(** [exam_preds_to_stat(pred_vol, ground_vol, pred_process, attrib_dict,
    pred_std)]: the dict behind [attrib_dict] is updated where it
    stands, and the reference comes back. *)
Definition exam_preds_to_stat (epsilon : Qc) (h : store)
    (pred_vol ground_vol : ndarray) (pred_process : Qc -> Qc)
    (attrib_dict : ref) (pred_std : option root) : result (ref * store) :=
  d' <- exam_stats epsilon pred_vol ground_vol pred_process
          (deref h attrib_dict) pred_std;;
  Ok (attrib_dict, <[attrib_dict := d']> h).

(** The fields of an attribute dict that [exam_preds_to_stat] reads. *)
Definition attrib_fields (d : gmap string pyval) (rows target vox_vol : Qc)
    (patient MR : string) : Prop :=
  (exists tl, d !! "dim"%string = Some (VList (VNum rows :: tl))) /\
  (exists tl, d !! "transform_resize_dim"%string
              = Some (VList (VNum target :: tl))) /\
  d !! "vox_vol"%string = Some (VNum vox_vol) /\
  d !! "patient"%string = Some (VStr patient) /\
  d !! "MR"%string = Some (VStr MR).

(** The dict that [exam_preds_to_stat] leaves behind [attrib_dict] when
    the fields above are in place. *)
Definition summary_of (epsilon : Qc) (pred_vol ground_vol : ndarray)
    (pred_process : Qc -> Qc) (d : gmap string pyval) (pred_std : option root)
    (rows target vox_vol : Qc) (patient MR : string) : gmap string pyval :=
  let scale_factor := rows * rows / (target * target) in
  <["Pred_stdev" := option_root pred_std]>
  (<["scale_factor" := VNum scale_factor]>
  (<["study" := VStr (patient ++ MR)]>
  (<["patient_dice" := VNum (Dice pred_process epsilon pred_vol ground_vol)]>
  (<["TKV_Pred" :=
       VNum (scale_factor * vox_vol * sumQ (pred_process <$> data pred_vol))]>
  (<["TKV_GT" :=
       VNum (scale_factor * vox_vol
             * sumQ (pred_process <$> data ground_vol))]> d))))).

(** The six keys that [exam_preds_to_stat] writes. *)
Definition summary_keys : list string :=
  ["TKV_GT"; "TKV_Pred"; "patient_dice"; "study"; "scale_factor";
   "Pred_stdev"]%string.

(** The number of positive voxels of a volume once binarized. *)
Definition count_positive (pred_process : Qc -> Qc) (a : ndarray) : nat :=
  length (filter (fun x => 0 < x) (data (apply_process pred_process a))).

(** A volume of zeros and ones, one that has a voxel set, and one that
    has none. *)
Definition binary_volume (a : ndarray) : Prop :=
  Forall (fun x => x = 0 \/ x = 1) (data a).

Definition non_empty_volume (a : ndarray) : Prop :=
  Exists (fun x => x = 1) (data a).

Definition empty_volume (a : ndarray) : Prop :=
  Forall (fun x => x = 0) (data a).

(** A post-processing that binarizes. *)
Definition binarizes (pred_process : Qc -> Qc) : Prop :=
  forall x, pred_process x = 0 \/ pred_process x = 1.

(** *** [resized_stack] *)

Definition shape_at (a : ndarray) (k : nat) : result nat :=
  match shape a !! k with
  | Some d => Ok d
  | None => Raise "IndexError"
  end.

Definition py_assert (b : bool) : result unit :=
  if b then Ok tt else Raise "AssertionError".

(** The inner [reshape]: slices to the end, then the axes of length one
    removed. *)
Definition reshape (arr : ndarray) : ndarray :=
  np_squeeze (moveaxis_0_last arr).

(** [cv2_resize src dsize] stands for
    [cv2.resize(src, dsize, interpolation=cv2.INTER_CUBIC)], which
    raises for an array it does not take as an image. *)
Definition resized_stack (cv2_resize : ndarray -> list nat -> result ndarray)
    (numpy_list : list ndarray) : result ndarray :=
  match numpy_list with
  | [] => Raise "IndexError"
  | first :: _ =>
      c <- shape_at first 1;;
      _ <- py_assert (Nat.eqb c 1);;
      hh <- shape_at first 2;;
      ww <- shape_at first 3;;
      _ <- py_assert (Nat.eqb hh ww);;
      let reshaped := reshape <$> numpy_list in
      let dsize := take 2 (shape (reshape first)) in
      resized <- comprehension (fun src => cv2_resize src dsize) reshaped;;
      np_stack resized
  end.

(** What the theorems on ensembles ask of [cv2.resize]: a square
    image, of one or several channels and without an axis of length
    one, resized to the size it has comes back as it is. *)
Definition same_size_is_identity
    (cv2_resize : ndarray -> list nat -> result ndarray) : Prop :=
  forall (src : ndarray) (k : nat),
    1%nat ∉ shape src -> take 2 (shape src) = [k; k] ->
    (length (shape src) <= 3)%nat ->
    cv2_resize src [k; k] = Ok src.

(** [cv2.resize] changes height and width only: what it returns for
    an array without an axis of length one has the axes of the array
    after the first two. *)
Definition keeps_channels
    (cv2_resize : ndarray -> list nat -> result ndarray) : Prop :=
  forall (src : ndarray) (dsize : list nat) (r : ndarray),
    1%nat ∉ shape src -> cv2_resize src dsize = Ok r ->
    drop 2 (shape r) = drop 2 (shape src).

(** *** [compute_inference_stats] *)

(** Insertion-ordered dicts ([OrderedDict], [defaultdict]). *)
Fixpoint odict_set {V} (k : string) (v : V) (d : list (string * V))
  : list (string * V) :=
  match d with
  | [] => [(k, v)]
  | (k', v') :: d' =>
      if decide (k' = k) then (k, v) :: d' else (k', v') :: odict_set k v d'
  end.

Fixpoint odict_get {V} (k : string) (d : list (string * V)) : option V :=
  match d with
  | [] => None
  | (k', v') :: d' => if decide (k' = k) then Some v' else odict_get k d'
  end.

(** [d[k].append(v)] on a [defaultdict(list)] *)
Definition odict_append {V} (k : string) (v : V) (d : list (string * list V))
  : list (string * list V) :=
  odict_set k (default [] (odict_get k d) ++ [v]) d.

(** What [np.load] and [json.load] give for the files of one study
    directory, each list in sorted file-name order. *)
Record study_dir : Type := {
  imgs : list ndarray;
  preds : list ndarray;
  grounds : list ndarray;
  attribs : list (gmap string pyval)
}.

(** One directory of [root.glob("*")] with the study directories that
    [model_dir.glob("*/*")] finds ([patient_ID=None]). *)
Record model_dir : Type := {
  model_name : string;
  studies : list study_dir
}.

(** The local variables of [compute_inference_stats], the store of dict
    objects, and the tables written so far (name and rows). *)
Record stats : Type := {
  Metric_data : list (string * ref);
  Combined_metric_data : list (string * ref);
  all_pred_vol : list (string * list ndarray);
  all_ground_vol : list (string * list ndarray);
  all_summaries : list (string * list ref);
  stacked_pred_vol : list (string * ndarray);
  heap : store;
  csvs : list (string * list (string * gmap string pyval))
}.

Definition init_stats : stats :=
  {| Metric_data := []; Combined_metric_data := []; all_pred_vol := [];
     all_ground_vol := []; all_summaries := []; stacked_pred_vol := [];
     heap := []; csvs := [] |}.

(** [pd.DataFrame(table).transpose()]: the rows as they are now. *)
Definition to_frame (h : store) (table : list (string * ref))
  : list (string * gmap string pyval) :=
  (fun kr => (kr.1, deref h kr.2)) <$> table.

(** Running a loop body over a list, leaving at the first exception. *)
Fixpoint foldM {S A} (body : S -> A -> result S) (st : S) (l : list A)
  : result S :=
  match l with
  | [] => Ok st
  | x :: l' => st' <- body st x;; foldM body st' l'
  end.

Section Stats.

Variable epsilon : Qc.
Variable cv2_resize : ndarray -> list nat -> result ndarray.

(** The body of [for study_dir in studies] (lines 376 to 406, with
    [display=False]). *)
Definition process_study (st : stats) (sd : study_dir) : result stats :=
  let pred_process := SigmoidBinarize in
  let attribs_dicts := seq (length (heap st)) (length (attribs sd)) in
  let h := heap st ++ attribs sd in
  img_vol <- np_stack (imgs sd);;
  pred_vol <- np_stack (preds sd);;
  ground_vol <- np_stack (grounds sd);;
  attrib0 <- list_getitem attribs_dicts 0;;
  returned <-
    exam_preds_to_stat epsilon h pred_vol ground_vol pred_process attrib0 None;;
  let '(summary, h') := returned in
  study <- dict_item (deref h' summary) "study";;
  key <- as_key study;;
  Ok {| Metric_data := odict_set key summary (Metric_data st);
        Combined_metric_data := Combined_metric_data st;
        all_pred_vol := odict_append key pred_vol (all_pred_vol st);
        all_ground_vol := odict_append key ground_vol (all_ground_vol st);
        all_summaries := odict_append key summary (all_summaries st);
        stacked_pred_vol := stacked_pred_vol st;
        heap := h';
        csvs := csvs st |}.

(** The body of [for model_dir in tqdm(model_inferences)]. *)
Definition process_model (output : bool) (st : stats) (m : model_dir)
  : result stats :=
  st' <- foldM process_study st (studies m);;
  let df := to_frame (heap st') (Metric_data st') in
  Ok {| Metric_data := Metric_data st';
        Combined_metric_data := Combined_metric_data st';
        all_pred_vol := all_pred_vol st';
        all_ground_vol := all_ground_vol st';
        all_summaries := all_summaries st';
        stacked_pred_vol := stacked_pred_vol st';
        heap := heap st';
        csvs := if output
                then csvs st' ++ [(("stats-" ++ model_name m ++ ".csv")%string, df)]
                else csvs st' |}.

(** The body of [for key, value in all_pred_vol.items()] (lines 413 to
    433). *)
Definition combine_study (st : stats) (kv : string * list ndarray)
  : result stats :=
  let pred_process := SigmoidBinarize in
  let '(key, value) := kv in
  stacked <- resized_stack cv2_resize value;;
  let pred_vol := np_mean_axis0 stacked in
  let pred_std := np_std stacked in
  let pred_vol := moveaxis_last_0 pred_vol in
  pred_vol <- expand_dims_1 pred_vol;;
  ground_vol <- list_getitem (default [] (odict_get key (all_ground_vol st))) 0;;
  summary0 <- list_getitem (default [] (odict_get key (all_summaries st))) 0;;
  returned <-
    exam_preds_to_stat epsilon (heap st) pred_vol ground_vol pred_process
      summary0 (Some pred_std);;
  let '(summary, h') := returned in
  study <- dict_item (deref h' summary) "study";;
  key' <- as_key study;;
  Ok {| Metric_data := Metric_data st;
        Combined_metric_data := odict_set key' summary (Combined_metric_data st);
        all_pred_vol := all_pred_vol st;
        all_ground_vol := all_ground_vol st;
        all_summaries := all_summaries st;
        stacked_pred_vol := odict_set key stacked (stacked_pred_vol st);
        heap := h';
        csvs := csvs st |}.

(** [compute_inference_stats(save_dir, output)]; the final state stands
    for what the call has built and written when it returns. *)
Definition compute_inference_stats (model_inferences : list model_dir)
    (output : bool) : result stats :=
  st <- foldM (process_model output) init_stats model_inferences;;
  st' <- foldM combine_study st (all_pred_vol st);;
  let df := to_frame (heap st') (Combined_metric_data st') in
  Ok {| Metric_data := Metric_data st';
        Combined_metric_data := Combined_metric_data st';
        all_pred_vol := all_pred_vol st';
        all_ground_vol := all_ground_vol st';
        all_summaries := all_summaries st';
        stacked_pred_vol := stacked_pred_vol st';
        heap := heap st';
        csvs := if output
                then csvs st' ++ [("stats-combined_models.csv"%string, df)]
                else csvs st' |}.

End Stats.

(** *** Sample artifacts *)

(** Two slices of 2 by 2 pixels, as saved for one study. *)
Definition pred_slice_1 : ndarray :=
  {| shape := [1; 2; 2]%nat; data := [1; 1; 0; 0] |}.
Definition pred_slice_2 : ndarray :=
  {| shape := [1; 2; 2]%nat; data := [0; 0; 0; 1] |}.
Definition ground_slice_1 : ndarray :=
  {| shape := [1; 2; 2]%nat; data := [1; 0; 0; 0] |}.
Definition ground_slice_2 : ndarray :=
  {| shape := [1; 2; 2]%nat; data := [0; 0; 1; 1] |}.

(** Its attributes: images of 4 rows resized to 2, voxels of 3/2. *)
Definition sample_attrib : gmap string pyval :=
  {[ "dim"%string := VList [VNum (Qc_of_Z 4); VNum (Qc_of_Z 4)];
     "transform_resize_dim"%string :=
       VList [VNum (Qc_of_Z 2); VNum (Qc_of_Z 2)];
     "vox_vol"%string := VNum (Q2Qc (3 # 2));
     "patient"%string := VStr "P1";
     "MR"%string := VStr "MR1" ]}.

(** Attributes of images that were not resized: 2 rows, target 2. *)
Definition same_size_attrib : gmap string pyval :=
  <["dim"%string := VList [VNum (Qc_of_Z 2); VNum (Qc_of_Z 2)]]> sample_attrib.

Definition sample_study : study_dir :=
  {| imgs := [pred_slice_1; pred_slice_2];
     preds := [pred_slice_1; pred_slice_2];
     grounds := [ground_slice_1; ground_slice_2];
     attribs := [sample_attrib; sample_attrib] |}.

(** A study directory that holds no artifact at all. *)
Definition empty_study : study_dir :=
  {| imgs := []; preds := []; grounds := []; attribs := [] |}.

(** A study directory whose slices were saved without any attributes. *)
Definition bare_study : study_dir :=
  {| imgs := [pred_slice_1; pred_slice_2];
     preds := [pred_slice_1; pred_slice_2];
     grounds := [ground_slice_1; ground_slice_2];
     attribs := [] |}.

(** Two models that saved the same predictions for the study. *)
Definition model_a : model_dir :=
  {| model_name := "model_a"; studies := [sample_study] |}.
Definition model_b : model_dir :=
  {| model_name := "model_b"; studies := [sample_study] |}.
Definition two_models : list model_dir := [model_a; model_b].

(** A run with an empty study directory ahead of a good one, and a run
    with the bare one ahead. *)
Definition run_with_empty : list model_dir :=
  [ {| model_name := "model_a"; studies := [empty_study; sample_study] |} ].

Definition run_with_bare : list model_dir :=
  [ {| model_name := "model_a"; studies := [bare_study; sample_study] |} ].

(** A stand-in for [cv2.resize] in the examples, which only ask for
    the size that the image has: a square image of one or several
    channels, without an axis of length one, is handed back as it is,
    and an array of more than three axes raises [cv2.error].
    Interpolation to another size is not modelled. *)
Definition keep_size (src : ndarray) (dsize : list nat) : result ndarray :=
  if decide (3 < length (shape src))%nat then Raise "cv2.error"
  else match dsize with
       | [h; w] =>
           if decide (h = w /\ take 2 (shape src) = dsize
                      /\ 1%nat ∉ shape src)
           then Ok src
           else Raise "NotImplementedError"
       | _ => Raise "NotImplementedError"
       end.

Definition eps : Qc := Q2Qc (1 # 100000000).

(** The volumes of the sample study. *)
Definition sample_pred_vol : ndarray :=
  {| shape := [2; 1; 2; 2]%nat; data := [1; 1; 0; 0; 0; 0; 0; 1] |}.
Definition sample_ground_vol : ndarray :=
  {| shape := [2; 1; 2; 2]%nat; data := [1; 0; 0; 0; 0; 0; 1; 1] |}.

End Notebook.

(** ** Ranks with repeated positions *)

Module Ranking.
Import Datasets.

(** Positions compared with equality allowed. *)
Definition z_upto (r' r : row) : Prop :=
  match col_z_pos r', col_z_pos r with
  | Some a, Some b => a <= b
  | _, _ => False
  end.

#[global] Instance z_upto_dec r' r : Decision (z_upto r' r).
Proof. unfold z_upto. destruct (col_z_pos r'), (col_z_pos r); apply _. Defined.

(** Two files of one series stored at the same depth. *)
Definition two_headers_tie (p : Path) : result dcm_header :=
  Ok (header_at 3).

End Ranking.

(** ** [display_volumes], and further attributes and directories *)

Module Viewing.
Import Notebook.

(** The keys of [attrib_dict] that [exam_preds_to_stat] reads. *)
Definition read_keys : list string :=
  ["dim"; "transform_resize_dim"; "vox_vol"; "patient"; "MR"]%string.

(** ** [display_volumes] *)

(** [k * (pred_vol.shape[0] // 6)] for [k] from 1 to 5 *)
Definition display_slices (n : Z) : list Z :=
  (fun k => k * (n / 6)) <$> [1; 2; 3; 4; 5].

(** [vol[s, 0]] for a slice index [s] that is not negative *)
Definition slice_channel_0 (vol : ndarray) (s : Z) : result unit :=
  match shape vol with
  | n :: c :: _ =>
      if (s <? Z.of_nat n) && (0 <? Z.of_nat c) then Ok tt
      else Raise "IndexError"
  | _ => Raise "IndexError"
  end.

(** [display_volumes(img_vol, pred_vol, ground_vol)] up to the drawing
    itself: the slice indices, then the images read for the left and the
    right column, then the overlays. *)
Definition display_volumes (img_vol pred_vol ground_vol : ndarray)
  : result (list Z) :=
  n <- shape_at pred_vol 0;;
  let slices := display_slices (Z.of_nat n) in
  _ <- comprehension
         (fun s => _ <- slice_channel_0 img_vol s;; slice_channel_0 img_vol s)
         slices;;
  _ <- comprehension
         (fun s => _ <- slice_channel_0 pred_vol s;;
                   slice_channel_0 ground_vol s)
         slices;;
  Ok slices.

(** Attributes as they are before [inference_to_disk] adds the resize
    target, and attributes with a resize target of zero. *)
Definition raw_attrib : gmap string pyval :=
  delete "transform_resize_dim"%string sample_attrib.

Definition zero_target_attrib : gmap string pyval :=
  <["transform_resize_dim"%string := VList [VNum 0%Qc; VNum 0%Qc]]>
    sample_attrib.

(** A model directory with no study in it. *)
Definition idle_model : model_dir :=
  {| model_name := "model_c"; studies := [] |}.

(** A model directory with the study of another patient. *)
Definition other_attrib : gmap string pyval :=
  <["patient"%string := VStr "P2"]> sample_attrib.

Definition other_study : study_dir :=
  {| imgs := [pred_slice_1; pred_slice_2];
     preds := [pred_slice_1; pred_slice_2];
     grounds := [ground_slice_1; ground_slice_2];
     attribs := [other_attrib; other_attrib] |}.

Definition other_model : model_dir :=
  {| model_name := "model_p2"; studies := [other_study] |}.

End Viewing.

(** ** [SegmentationDataset.__init__] *)

Module Construction.
Import Datasets Notebook.

(** [patient2dcm[p]] *)
Definition dict_getitem {V} (d : list (string * V)) (k : string) : result V :=
  match dict_get d k with
  | Some v => Ok v
  | None => Raise "KeyError"
  end.

(** Lines 63 to 71: the patients are the keys of [patient2dcm], or
    [patient_IDS] when it is given, and [dcm_paths] is extended by the
    files of each patient in turn. *)
Definition collect_paths (patient2dcm : list (string * list Path))
    (patient_IDS : option (list string)) : result (list Path) :=
  let patients := default patient2dcm.*1 patient_IDS in
  foldM (fun dcm_paths p =>
           files <- dict_getitem patient2dcm p;; Ok (dcm_paths ++ files))
        [] patients.

(** The exceptions that end an iteration through [__getitem__]. *)
Definition ends_iteration (cls : string) : bool :=
  String.eqb cls "IndexError" || String.eqb cls "StopIteration".

(** [for idx, _ in enumerate(self)]: a dataset has no [__iter__], so the
    loop asks [self[0]], [self[1]], ... and ends at the first
    [IndexError]; [self[len(self)]] raises one, hence the list of
    indices stops there. *)
Fixpoint for_enumerate {X S} (getitem : Z -> result X)
    (body : S -> nat -> result S) (idxs : list nat) (st : S) : result S :=
  match idxs with
  | [] => Ok st
  | idx :: rest =>
      match getitem (Z.of_nat idx) with
      | Ok _ => st' <- body st idx;; for_enumerate getitem body rest st'
      | Raise cls => if ends_iteration cls then Ok st else Raise cls
      end
  end.

Section Tensors.

Context {sample V E dtype studies_t : Type}.

(** The collaborators of construction: [get_y_Path] and [TKV_update] of
    [data_utils], the sample pipeline of [__getitem__] (lines 84 to
    122), and of [torch] the attribute lookup [getattr(torch, v)], the
    zero of a dtype and the conversion that [v[idx] = value] applies. *)
Variable get_y_Path : Path -> Path.
Variable make_sample : Path -> Path -> Z -> result sample.
Variable TKV_update :
  gmap Path (gmap string V) -> studies_t * gmap Path (gmap string V).
Variable torch_dtype : string -> result dtype.
Variable zero : dtype -> E.
Variable convert : dtype -> V -> result E.

(** A one-dimensional tensor. *)
Record tensor : Type := {
  tensor_dtype : dtype;
  tensor_values : list E
}.

(** [torch.zeros(len(self), dtype=getattr(torch, v))] for every
    attribute type. *)
Definition zeros_dict (n : nat) (attrib_types : list (string * string))
  : result (list (string * tensor)) :=
  foldM (fun tensor_dict kv =>
           dt <- torch_dtype kv.2;;
           Ok (odict_set kv.1
                 {| tensor_dtype := dt;
                    tensor_values := replicate n (zero dt) |} tensor_dict))
        [] attrib_types.

(** The body of the loop of [prepare_tensor_dict] (lines 154 to 157). *)
Definition fill_row (dcm_paths : list Path)
    (dcm2attribs : gmap Path (gmap string V))
    (tensor_dict : list (string * tensor)) (idx : nat)
  : result (list (string * tensor)) :=
  dcm_path <- list_getitem dcm_paths (Z.of_nat idx);;
  attribs <- match dcm2attribs !! dcm_path with
             | Some a => Ok a
             | None => Raise "KeyError"
             end;;
  comprehension
    (fun kv =>
       value <- match attribs !! kv.1 with
                | Some x => Ok x
                | None => Raise "KeyError"
                end;;
       e <- convert (tensor_dtype kv.2) value;;
       Ok (kv.1, {| tensor_dtype := tensor_dtype kv.2;
                    tensor_values := <[idx := e]> (tensor_values kv.2) |}))
    tensor_dict.

Definition prepare_tensor_dict (d : @SegmentationDataset sample)
    (dcm2attribs : gmap Path (gmap string V))
    (attrib_types : list (string * string))
  : result (list (string * tensor)) :=
  let n := length (seg_dcm_paths d) in
  tensor_dict <- zeros_dict n attrib_types;;
  for_enumerate (SegmentationDataset_getitem_int d)
    (fill_row (seg_dcm_paths d) dcm2attribs)
    (seq 0 (Datatypes.S n)) tensor_dict.

(** How a tensor of the dict stands after the rows below [built] have
    been filled. *)
Definition filled (paths : list Path) (dcm2attribs : gmap Path (gmap string V))
    (built : nat) (kt0 kt : string * tensor) : Prop :=
  kt.1 = kt0.1 /\ tensor_dtype kt.2 = tensor_dtype kt0.2 /\
  length (tensor_values kt.2) = length (tensor_values kt0.2) /\
  (forall i, (built <= i)%nat ->
             tensor_values kt.2 !! i = tensor_values kt0.2 !! i) /\
  (forall i p, (i < built)%nat -> (i < length (tensor_values kt0.2))%nat ->
     paths !! i = Some p ->
     exists attribs x e,
       dcm2attribs !! p = Some attribs /\ attribs !! kt.1 = Some x /\
       convert (tensor_dtype kt.2) x = Ok e /\
       tensor_values kt.2 !! i = Some e).

(** What construction leaves on the object. *)
Record segmentation_dataset : Type := {
  sd_samples : @SegmentationDataset sample;
  sd_studies : studies_t;
  sd_dcm2attribs : gmap Path (gmap string V);
  sd_tensor_dict : list (string * tensor)
}.

(** [SegmentationDataset(label2mask, dcm2attribs, patient2dcm,
    patient_IDS, ..., attrib_types)]; [attrib_types] is the dict after
    the default has been filled in. *)
Definition SegmentationDataset_init
    (dcm2attribs : gmap Path (gmap string V))
    (patient2dcm : list (string * list Path))
    (patient_IDS : option (list string))
    (attrib_types : list (string * string)) : result segmentation_dataset :=
  dcm_paths <- collect_paths patient2dcm patient_IDS;;
  let d := {| seg_dcm_paths := dcm_paths;
              seg_get_y_Path := get_y_Path;
              seg_make_sample := make_sample |} in
  let updated := TKV_update dcm2attribs in
  tensor_dict <- prepare_tensor_dict d updated.2 attrib_types;;
  Ok {| sd_samples := d;
        sd_studies := updated.1;
        sd_dcm2attribs := updated.2;
        sd_tensor_dict := tensor_dict |}.

End Tensors.

(** A dataset of the two files of [two_files], each with a voxel volume,
    built with collaborators that do nothing: the pipeline is the
    argument. *)
Definition plain_attribs : gmap Path (gmap string Z) :=
  {[ ["/"; "data"; "s1"; "a.dcm"]%string := {[ "vox_vol"%string := 7 ]};
     ["/"; "data"; "s1"; "b.dcm"]%string := {[ "vox_vol"%string := 9 ]} ]}.

Definition build (make_sample : Path -> Path -> Z -> result unit)
  : result (@segmentation_dataset unit Z Z string unit) :=
  SegmentationDataset_init (fun p => p) make_sample (fun d => (tt, d))
    (fun name => Ok name) (fun _ => 0) (fun _ v => Ok v)
    plain_attribs two_files None [("vox_vol", "float32")]%string.

Definition decodes_all (p l : Path) (i : Z) : result unit := Ok tt.

Definition stops_at_1 (p l : Path) (i : Z) : result unit :=
  if i =? 1 then Raise "IndexError" else Ok tt.

End Construction.

(** ** [inference_to_disk] and the files it leaves *)

Module Artifacts.
Import Datasets Notebook.

(** A transform of the augmentation pipeline: [Resize] or any other. *)
Inductive transform : Type :=
| Resize (height width : Z)
| OtherTransform (name : string).

(** What a file holds: an array saved by [np.save], or a JSON object
    as [json.load] reads it. *)
Inductive file : Type :=
| NpyFile (a : ndarray)
| JsonFile (d : gmap string pyval).

(** The file system and the store of dict objects.  [disk] holds the
    files by absolute path, [dirs] the directories that have been made;
    a path with a file or a directory below it is a directory as well.
    Paths have no [..] part and no links. *)
Record world : Type := {
  disk : gmap Path file;
  dirs : list Path;
  dicts : list (gmap string pyval)
}.

(** Code that reads and writes the world and may raise; what it wrote
    before raising stays written. *)
Definition action (A : Type) : Type := world -> result A * world.

Definition and_then {A B} (m : action A) (k : A -> action B) : action B :=
  fun w =>
    match m w with
    | (Ok a, w') => k a w'
    | (Raise cls, w') => (Raise cls, w')
    end.

Definition pure_result {A} (r : result A) : action A := fun w => (r, w).

Notation "x <~ m ;; k" := (and_then m (fun x => k))
  (at level 100, m at next level, k at level 200, right associativity).

(** *** Paths *)

(** [s.split("/")], [cur] being the piece read so far. *)
Fixpoint segments (s cur : string) : list string :=
  match s with
  | EmptyString => [cur]
  | String c s' =>
      if Ascii.eqb c "/" then cur :: segments s' EmptyString
      else segments s' (cur ++ String c EmptyString)
  end.

(** The parts of a string that is read as a path, its root apart:
    empty pieces and [.] are dropped. *)
Definition parts_of (s : string) : list string :=
  filter (fun x => x <> EmptyString /\ x <> "."%string)
         (segments s EmptyString).

(** The root of an absolute path: exactly two leading slashes are
    kept. *)
Definition anchor_of (s : string) : string :=
  if String.prefix "///" s then "/"%string
  else if String.prefix "//" s then "//"%string
  else "/"%string.

(** [p / s] for a string [s] *)
Definition Path_truediv (p : Path) (s : string) : Path :=
  if String.prefix "/" s then anchor_of s :: parts_of s
  else p ++ parts_of s.

(** A string that is one part of a path when joined, and not [..]. *)
Definition component (s : string) : Prop :=
  String.prefix "/" s = false /\ parts_of s = [s] /\ s <> ".."%string.

Definition is_root (p : Path) : Prop :=
  p = ["/"%string] \/ p = ["//"%string].

#[global] Instance is_root_dec (p : Path) : Decision (is_root p).
Proof. unfold is_root. apply _. Defined.

(** [p.parent] *)
Definition Path_parent (p : Path) : Path :=
  if decide (is_root p) then p else removelast p.

(** [path.name] *)
Definition Path_name (p : Path) : string :=
  match last p with
  | Some n => if decide (is_root [n]) then EmptyString else n
  | None => EmptyString
  end.

(** The path that the string [str(p) + suffix] names, for a suffix
    without a slash. *)
Definition str_plus (p : Path) (suffix : string) : Path :=
  match last p with
  | None => [("." ++ suffix)%string]
  | Some n =>
      if decide (is_root p) then p ++ [suffix]
      else removelast p ++ [(n ++ suffix)%string]
  end.

(** [q] lies below [d]. *)
Definition under (d q : Path) : Prop :=
  take (length d) q = d /\ (length d < length q)%nat.

#[global] Instance under_dec (d q : Path) : Decision (under d q).
Proof. unfold under. apply _. Defined.

(** Every path that is known to be there. *)
Definition entries (w : world) : list Path :=
  (map_to_list (disk w)).*1 ++ dirs w.

Definition is_dir (w : world) (p : Path) : Prop :=
  is_root p \/ p ∈ dirs w \/ Exists (under p) (entries w).

#[global] Instance is_dir_dec (w : world) (p : Path) : Decision (is_dir w p).
Proof. unfold is_dir. apply _. Defined.

(** [d] and the directories above it. *)
Definition prefixes (d : Path) : list Path :=
  (fun k => take k d) <$> seq 1 (length d).

(** [d.mkdir(parents=True, exist_ok=True)] *)
Definition mkdir_parents (d : Path) : action unit :=
  fun w =>
    if decide (is_Some (disk w !! d)) then (Raise "FileExistsError", w)
    else if decide (Exists (fun q => is_Some (disk w !! q)) (prefixes d))
    then (Raise "NotADirectoryError", w)
    else (Ok tt, {| disk := disk w; dirs := prefixes d ++ dirs w;
                    dicts := dicts w |}).

(** Opening [path] for writing and writing [f], the directory of
    [path] being there. *)
Definition write_file (path : Path) (f : file) : action unit :=
  fun w =>
    if decide (is_dir w path) then (Raise "IsADirectoryError", w)
    else (Ok tt, {| disk := <[path := f]> (disk w); dirs := dirs w;
                    dicts := dicts w |}).

(** *** Saving *)

(** [next(v for v in transforms if isinstance(v, Resize))] *)
Fixpoint first_Resize (transforms : list transform) : result (Z * Z) :=
  match transforms with
  | [] => Raise "StopIteration"
  | Resize height width :: _ => Ok (height, width)
  | OtherTransform _ :: rest => first_Resize rest
  end.

(** What a loader yields: the three batched parts of the samples of a
    [SegmentationDataset] with [output_idx], or the two of an
    [InferenceDataset]. *)
Inductive batch : Type :=
| Triple (x_batch y_batch : list ndarray) (idxs_batch : list Z)
| Pair (x_batch : list ndarray) (idxs_batch : list Z).

(** One turn of [zip(file_names, file_attribs, x_batch,
    y_batch_hat_binary, y_batch)]. *)
Record slice_item : Type := {
  file_name : string;
  file_attrib : ref;
  img : ndarray;
  pred : ndarray;
  ground : ndarray
}.

Fixpoint zip5 (names : list string) (attribs : list ref)
    (xs ps ys : list ndarray) : list slice_item :=
  match names, attribs, xs, ps, ys with
  | n :: names', a :: attribs', x :: xs', p :: ps', y :: ys' =>
      {| file_name := n; file_attrib := a; img := x; pred := p;
         ground := y |} :: zip5 names' attribs' xs' ps' ys'
  | _, _, _, _, _ => []
  end.

(** A loop whose body writes; it is left at the first exception. *)
Fixpoint for_each {A} (body : A -> action unit) (l : list A) : action unit :=
  match l with
  | [] => pure_result (Ok tt)
  | x :: l' => _ <~ body x;; for_each body l'
  end.

(** The four files of a slice. *)
Definition suffixes : list string :=
  ["_img.npy"; "_pred.npy"; "_ground.npy"; "_attrib.json"]%string.

(** [file_attrib] once the resize target has been added. *)
Definition with_resize_dim (attribs : gmap string pyval) (hw : Z * Z)
  : gmap string pyval :=
  <["transform_resize_dim"%string :=
      VList [VNum (Qc_of_Z hw.1); VNum (Qc_of_Z hw.2)]]> attribs.

(** [file_attrib["transform_resize_dim"] = (height, width)], on the
    dict object itself. *)
Definition set_resize_dim (r : ref) (hw : Z * Z)
  : action (gmap string pyval) :=
  fun w =>
    let attribs := with_resize_dim (deref (dicts w) r) hw in
    (Ok attribs, {| disk := disk w; dirs := dirs w;
                    dicts := <[r := attribs]> (dicts w) |}).

(** The patient and the study of a slice, read for [out_dir]. *)
Definition read_study (attribs : gmap string pyval)
  : result (string * string) :=
  patient <- dict_item attribs "patient";;
  patient <- as_key patient;;
  MR <- dict_item attribs "MR";;
  MR <- as_key MR;;
  Ok (patient, MR).

Section Inference.

Context {sample : Type}.

(** [stem name] stands for [Path(name).stem]; [predict x_batch] for
    [binarize_func(model(x_batch))]; [root] is
    [Path.cwd() / Path(save_dir)]. *)
Variable stem : string -> string.
Variable predict : list ndarray -> list ndarray.
Variable root : Path.
Variable model_name : string.

(** The dataset as [inference_to_disk] reads it: the samples, the
    attribute dict object of every file, whether it has an
    [output_idx] that is [True], and the transforms of [augmentation]
    ([None] when there is none). *)
Record eval_dataset : Type := {
  ev_samples : @SegmentationDataset sample;
  ev_dcm2attribs : gmap Path ref;
  ev_output_idx : bool;
  ev_augmentation : option (list transform)
}.

(** [dataset.get_verbose(index)] for an int index (lines 127 to 141) *)
Definition get_verbose (dataset : eval_dataset) (index : Z)
  : result (sample * Path * ref) :=
  sample <- SegmentationDataset_getitem_int (ev_samples dataset) index;;
  dcm_path <- list_getitem (seg_dcm_paths (ev_samples dataset)) index;;
  attribs <- match ev_dcm2attribs dataset !! dcm_path with
             | Some r => Ok r
             | None => Raise "KeyError"
             end;;
  Ok (sample, dcm_path, attribs).

(** [out_dir] of a slice, and the directory of its study. *)
Definition study_path (patient MR : string) : Path :=
  Path_truediv (Path_truediv (Path_truediv root model_name) patient) MR.

Definition out_dir_of (patient MR name : string) : Path :=
  Path_truediv (study_path patient MR) name.

(** The file of a slice: [str(out_dir) + suffix]. *)
Definition artifact (patient MR name suffix : string) : Path :=
  str_plus (out_dir_of patient MR name) suffix.

(** The body of the loop over the slices of a batch (lines 155 to
    201); [np.save] appends [.npy] to the name it is given. *)
Definition save_slice (dataset : eval_dataset) (it : slice_item)
  : action unit :=
  study <~ (fun w => (read_study (deref (dicts w) (file_attrib it)), w));;
  let out_dir := out_dir_of study.1 study.2 (file_name it) in
  _ <~ mkdir_parents (Path_parent out_dir);;
  _ <~ write_file (str_plus out_dir "_img.npy") (NpyFile (img it));;
  _ <~ write_file (str_plus out_dir "_pred.npy") (NpyFile (pred it));;
  _ <~ write_file (str_plus out_dir "_ground.npy") (NpyFile (ground it));;
  hw <~ pure_result
          (transforms <- match ev_augmentation dataset with
                         | Some ts => Ok ts
                         | None => Raise "AttributeError"
                         end;;
           first_Resize transforms);;
  attribs <~ set_resize_dim (file_attrib it) hw;;
  write_file (str_plus out_dir "_attrib.json") (JsonFile attribs).

(** The body of the loop over the batches (lines 137 to 201). *)
Definition process_batch (dataset : eval_dataset) (output : batch)
  : action unit :=
  match output with
  | Pair _ _ => pure_result (Raise "ValueError")
  | Triple x_batch y_batch idxs_batch =>
      names_attribs <~
        pure_result
          (file_names <-
             comprehension
               (fun idx => v <- get_verbose dataset idx;;
                           Ok (stem (Path_name v.1.2))) idxs_batch;;
           file_attribs <-
             comprehension
               (fun idx => v <- get_verbose dataset idx;; Ok v.2)
               idxs_batch;;
           Ok (file_names, file_attribs));;
      let y_batch_hat_binary := predict x_batch in
      for_each (save_slice dataset)
        (zip5 names_attribs.1 names_attribs.2 x_batch y_batch_hat_binary
           y_batch)
  end.

(** [inference_to_disk(dataloader, model, device, binarize_func,
    save_dir, model_name)], the loader given by the batches it
    yields. *)
Definition inference_to_disk (dataset : eval_dataset) (batches : list batch)
  : action unit :=
  if ev_output_idx dataset
  then for_each (process_batch dataset) batches
  else pure_result (Raise "AssertionError").

End Inference.

(** [w'] has what [w] has and more: every file and directory of [w] is
    still there, no dict object has come or gone, and a dict differs at
    most in its resize target. *)
Definition extends (w w' : world) : Prop :=
  (forall p, is_Some (disk w !! p) -> is_Some (disk w' !! p)) /\
  (forall q, q ∈ dirs w -> q ∈ dirs w') /\
  length (dicts w') = length (dicts w) /\
  (forall r, deref (dicts w') r = deref (dicts w) r \/
             exists hw, deref (dicts w') r
                        = with_resize_dim (deref (dicts w) r) hw).

(** *** Reading a study directory back (lines 377 to 387) *)

Fixpoint rev_onto (s acc : string) : string :=
  match s with
  | EmptyString => acc
  | String c s' => rev_onto s' (String c acc)
  end.

(** [name] matches the pattern that is a star and then [suffix]. *)
Definition ends_with (suffix name : string) : bool :=
  String.prefix (rev_onto suffix EmptyString) (rev_onto name EmptyString).

(** What lies in the directory [d] itself. *)
Definition children (w : world) (d : Path) : list Path :=
  remove_dups (take (S (length d)) <$> filter (under d) (entries w)).

(** [study_dir.glob("*" + suffix)], in no particular order. *)
Definition glob_suffix (w : world) (study_dir : Path) (suffix : string)
  : list Path :=
  filter (fun p => ends_with suffix (Path_name p) = true)
         (children w study_dir).

Definition sorted (paths : list Path) : list Path := isort Path_leb paths.

(** The order of two file names. *)
Definition string_leb (a b : string) : bool :=
  match String.compare a b with Gt => false | _ => true end.

Definition missing (w : world) (p : Path) : string :=
  if decide (is_dir w p) then "IsADirectoryError"%string
  else "FileNotFoundError"%string.

Definition np_load (w : world) (p : Path) : result ndarray :=
  match disk w !! p with
  | Some (NpyFile a) => Ok a
  | Some (JsonFile _) => Raise "ValueError"
  | None => Raise (missing w p)
  end.

Definition json_load (w : world) (p : Path) : result (gmap string pyval) :=
  match disk w !! p with
  | Some (JsonFile d) => Ok d
  | Some (NpyFile _) => Raise "UnicodeDecodeError"
  | None => Raise (missing w p)
  end.

Definition read_study_dir (w : world) (dir : Path) : result study_dir :=
  imgs_np <- comprehension (np_load w)
               (sorted (glob_suffix w dir "_img.npy"));;
  preds_np <- comprehension (np_load w)
                (sorted (glob_suffix w dir "_pred.npy"));;
  grounds_np <- comprehension (np_load w)
                  (sorted (glob_suffix w dir "_ground.npy"));;
  attribs_dicts <- comprehension (json_load w)
                     (sorted (glob_suffix w dir "_attrib.json"));;
  Ok {| imgs := imgs_np; preds := preds_np; grounds := grounds_np;
        attribs := attribs_dicts |}.

(** *** Sample data *)

Definition flip_then_resize : list transform :=
  [OtherTransform "HorizontalFlip"; Resize 2 2].

Definition resizing : @eval_dataset (Path * Path * Z) :=
  {| ev_samples := three_labelled; ev_dcm2attribs := ∅;
     ev_output_idx := true; ev_augmentation := Some flip_then_resize |}.

Definition flipping : @eval_dataset (Path * Path * Z) :=
  {| ev_samples := three_labelled; ev_dcm2attribs := ∅;
     ev_output_idx := true;
     ev_augmentation := Some [OtherTransform "HorizontalFlip"] |}.

Definition unindexed : @eval_dataset (Path * Path * Z) :=
  {| ev_samples := three_labelled; ev_dcm2attribs := ∅;
     ev_output_idx := false; ev_augmentation := Some flip_then_resize |}.

Definition save_root : Path := ["/"; "work"; "saved_inference"]%string.

(** Nothing on disk yet, and one attribute dict per slice. *)
Definition empty_disk : world :=
  {| disk := ∅; dirs := []; dicts := [sample_attrib; sample_attrib] |}.

(** A file where the directory of the patient should be. *)
Definition patient_is_a_file : world :=
  {| disk := {[ save_root ++ ["model_a"; "P1"]%string
                := NpyFile pred_slice_1 ]};
     dirs := []; dicts := [sample_attrib; sample_attrib] |}.

Definition slice_s1 : slice_item :=
  {| file_name := "s1"; file_attrib := 0%nat; img := pred_slice_1;
     pred := pred_slice_1; ground := ground_slice_1 |}.

Definition slice_s2 : slice_item :=
  {| file_name := "s2"; file_attrib := 1%nat; img := pred_slice_2;
     pred := pred_slice_2; ground := ground_slice_2 |}.

Definition slice_s1_left : slice_item :=
  {| file_name := "s1_left"; file_attrib := 1%nat; img := pred_slice_2;
     pred := pred_slice_2; ground := ground_slice_2 |}.

End Artifacts.

(* ===================================================================== *)
(** * Part II: theorems *)
(* ===================================================================== *)

Module PyFacts.

Lemma bind_Ok {A B} (r : result A) (k : A -> result B) a :
  r = Ok a -> bind r k = k a.
Proof. intros ->. reflexivity. Qed.

(** A comprehension that returns ran its body on every element. *)
Lemma comprehension_Ok {A B} (f : A -> result B) (l : list A) (l' : list B) :
  comprehension f l = Ok l' -> Forall2 (fun x y => f x = Ok y) l l'.
Proof.
  revert l'. induction l as [|x l IH]; intros l' H; simpl in H.
  - inversion H. constructor.
  - destruct (f x) as [y|] eqn:E; [|discriminate]. simpl in H.
    destruct (comprehension f l) as [ys|]; [|discriminate]. simpl in H.
    inversion H. constructor; auto.
Qed.

Lemma comprehension_returns {A B} (f : A -> result B) (l : list A) :
  Forall (fun x => exists y, f x = Ok y) l ->
  exists ys, comprehension f l = Ok ys.
Proof.
  induction 1 as [|x l [y Hy] _ [ys IH]]; [exists []; reflexivity|].
  exists (y :: ys). cbn [comprehension]. rewrite Hy, IH. reflexivity.
Qed.

Lemma comprehension_raises {A B} (f : A -> result B) (l1 l2 : list A)
    (x : A) (cls : string) :
  Forall (fun y => exists z, f y = Ok z) l1 -> f x = Raise cls ->
  comprehension f (l1 ++ x :: l2) = Raise cls.
Proof.
  intros Hall Hx. induction Hall as [|y l1 [z Hz] _ IH]; simpl.
  - rewrite Hx. reflexivity.
  - rewrite Hz, IH. reflexivity.
Qed.

(** In range, [list_getitem] is the plain lookup. *)
Lemma list_getitem_in_range {A} (l : list A) (i : Z) :
  0 <= i < Z.of_nat (length l) ->
  exists x, l !! Z.to_nat i = Some x /\ list_getitem l i = Ok x.
Proof.
  intros Hi. unfold list_getitem.
  destruct (Z.ltb_spec i 0) as [?|_]; [lia|].
  destruct (Z.ltb_spec i 0) as [?|_]; [lia|].
  destruct (Z.leb_spec (Z.of_nat (length l)) i) as [?|_]; [lia|]. simpl.
  destruct (lookup_lt_is_Some_2 l (Z.to_nat i)) as [x Hx]; [lia|].
  exists x. rewrite Hx. auto.
Qed.

(** With a non-zero step, [slice.indices] succeeds whatever the bounds
    are, and clamps them. *)
Lemma slice_indices_clamped (s : slice) (n : Z) :
  0 <= n -> slice_step s <> Some 0 ->
  exists start stop step,
    slice_indices s n = Ok (start, stop, step) /\
    step = default 1 (slice_step s) /\ step <> 0 /\
    (0 < step -> 0 <= start <= n /\ 0 <= stop <= n) /\
    (step < 0 -> -1 <= start <= n - 1 /\ -1 <= stop <= n - 1).
Proof.
  intros Hn Hstep. unfold slice_indices.
  set (step := default 1 (slice_step s)).
  assert (Hne : step <> 0).
  { subst step. destruct (slice_step s) as [z|]; simpl; [congruence|lia]. }
  destruct (Z.eqb_spec step 0) as [?|_]; [contradiction|].
  eexists _, _, step. split; [reflexivity|].
  split; [reflexivity|]. split; [exact Hne|].
  destruct (Z.ltb_spec step 0) as [Hneg|Hpos]; split; intros Hs; try lia;
    destruct (slice_start s) as [a|], (slice_stop s) as [b|];
    repeat match goal with
           | |- context [?x <? 0] => destruct (Z.ltb_spec x 0)
           end; lia.
Qed.

Lemma range_len_nonneg start stop step : 0 <= range_len start stop step.
Proof.
  unfold range_len.
  destruct (Z.ltb_spec 0 step).
  - destruct (Z.ltb_spec start stop); [|lia].
    assert (0 <= (stop - start - 1) / step) by (apply Z.div_pos; lia). lia.
  - destruct (Z.ltb_spec stop start); [|lia].
    destruct (Z.eq_dec step 0) as [->|]; [simpl; rewrite Z.div_0_r; lia|].
    assert (0 <= (start - stop - 1) / (- step)) by (apply Z.div_pos; lia). lia.
Qed.

(** Every element of a range lies between its start (included) and its
    stop (excluded), on the side the step points to. *)
Lemma range_elem start stop step (i : Z) :
  step <> 0 -> 0 <= i < range_len start stop step ->
  (0 < step -> start <= start + i * step < stop) /\
  (step < 0 -> stop < start + i * step <= start).
Proof.
  intros Hne [Hi0 Hi]. unfold range_len in Hi.
  destruct (Z.ltb_spec 0 step) as [Hpos|Hneg].
  - split; [intros _|lia].
    destruct (Z.ltb_spec start stop); [|lia].
    pose proof (Z.mul_div_le (stop - start - 1) step Hpos). nia.
  - split; [lia|intros _].
    destruct (Z.ltb_spec stop start); [|lia].
    assert (Hpos : 0 < - step) by lia.
    pose proof (Z.mul_div_le (start - stop - 1) (- step) Hpos). nia.
Qed.

Lemma range_lookup start stop step (k : nat) (x : Z) :
  step <> 0 ->
  ((fun i => start + i * step) <$> seqZ 0 (range_len start stop step)) !! k
    = Some x ->
  x = start + Z.of_nat k * step /\
  0 <= Z.of_nat k < range_len start stop step.
Proof.
  intros Hne H. rewrite list_lookup_fmap in H.
  destruct (seqZ 0 (range_len start stop step) !! k) as [i|] eqn:E;
    [|discriminate].
  apply lookup_seqZ in E as [-> Hk]. simpl in H. inversion H. lia.
Qed.

End PyFacts.

Module DatasetsFacts.
Import Datasets PyFacts.

Lemma range_of_slice_spec (s : slice) (n : Z) :
  0 <= n -> slice_step s <> Some 0 ->
  exists idxs,
    range_of_slice s n = Ok idxs /\
    (forall i, i ∈ idxs -> 0 <= i < n) /\
    (0 < default 1 (slice_step s) -> ascending idxs) /\
    (default 1 (slice_step s) < 0 -> descending idxs).
Proof.
  intros Hn Hs.
  destruct (slice_indices_clamped s n Hn Hs)
    as (start & stop & step & Hind & Hstep & Hne & Hpos & Hneg).
  unfold range_of_slice. rewrite Hind. simpl. unfold range.
  destruct (Z.eqb_spec step 0) as [?|_]; [contradiction|].
  eexists. split; [reflexivity|]. rewrite <- Hstep.
  split; [|split].
  - intros i Hi. apply list_elem_of_lookup in Hi as [k Hk].
    apply range_lookup in Hk as [-> Hk]; [|exact Hne].
    destruct (range_elem start stop step (Z.of_nat k) Hne Hk) as [Hp Hq].
    destruct (Z.lt_trichotomy step 0) as [Hlt|[?|Hgt]]; [|contradiction|].
    + specialize (Hq Hlt). specialize (Hneg Hlt). lia.
    + specialize (Hp Hgt). specialize (Hpos Hgt). lia.
  - intros Hgt j k a b Hjk Ha Hb.
    apply range_lookup in Ha as [-> _]; [|exact Hne].
    apply range_lookup in Hb as [-> _]; [|exact Hne]. nia.
  - intros Hlt j k a b Hjk Ha Hb.
    apply range_lookup in Ha as [-> _]; [|exact Hne].
    apply range_lookup in Hb as [-> _]; [|exact Hne]. nia.
Qed.

Lemma InferenceDataset_getitem_int_valid {sample}
    (d : @InferenceSamples sample) (i : Z) :
  0 <= i < InferenceDataset_len d ->
  exists p, inf_dcm_paths d !! Z.to_nat i = Some p /\
            InferenceDataset_getitem_int d i = inf_make_sample d p i.
Proof.
  intros Hi. destruct (list_getitem_in_range (inf_dcm_paths d) i Hi)
    as (p & Hp & Hget).
  exists p. split; [exact Hp|].
  unfold InferenceDataset_getitem_int. rewrite Hget. reflexivity.
Qed.

Lemma SegmentationDataset_getitem_int_valid {sample}
    (d : @SegmentationDataset sample) (i : Z) :
  0 <= i < SegmentationDataset_len d ->
  exists p, seg_dcm_paths d !! Z.to_nat i = Some p /\
            SegmentationDataset_getitem_int d i
            = seg_make_sample d p (seg_get_y_Path d p) i.
Proof.
  intros Hi. destruct (list_getitem_in_range (seg_dcm_paths d) i Hi)
    as (p & Hp & Hget).
  assert (Hi' : 0 <= i < Z.of_nat (length (seg_label_paths d))).
  { unfold seg_label_paths. rewrite length_fmap. exact Hi. }
  destruct (list_getitem_in_range (seg_label_paths d) i Hi')
    as (q & Hq & Hgetq).
  unfold seg_label_paths in Hq. rewrite list_lookup_fmap, Hp in Hq.
  simpl in Hq. inversion Hq; subst q.
  exists p. split; [exact Hp|].
  unfold SegmentationDataset_getitem_int. rewrite Hget. simpl.
  rewrite Hgetq. reflexivity.
Qed.

Lemma filter_none {A} (P : A -> Prop) `{forall x, Decision (P x)}
    (l : list A) :
  Forall (fun x => ~ P x) l -> filter P l = [].
Proof.
  induction 1 as [|x l Hx _ IH]; [reflexivity|].
  rewrite filter_cons_False by exact Hx. exact IH.
Qed.

(** *** Sorting *)

Section Sorting.

Context {A : Type} (leb : A -> A -> bool).

Lemma insert_sorted_perm (x : A) (l : list A) :
  insert_sorted leb x l ≡ₚ x :: l.
Proof.
  induction l as [|y l IH]; simpl; [reflexivity|].
  destruct (leb x y); [reflexivity|].
  rewrite IH. apply Permutation_swap.
Qed.

Lemma isort_perm (l : list A) : isort leb l ≡ₚ l.
Proof.
  induction l as [|x l IH]; simpl; [reflexivity|].
  rewrite insert_sorted_perm. f_equiv. exact IH.
Qed.

Hypothesis leb_total : forall a b, leb a b = true \/ leb b a = true.
Hypothesis leb_trans :
  forall a b c, leb a b = true -> leb b c = true -> leb a c = true.

Lemma insert_sorted_sorted (x : A) (l : list A) :
  StronglySorted (fun a b => leb a b = true) l ->
  StronglySorted (fun a b => leb a b = true) (insert_sorted leb x l).
Proof.
  induction 1 as [|y l Hs IH Hy]; simpl.
  - constructor; constructor.
  - destruct (leb x y) eqn:E.
    + constructor; [constructor; assumption|].
      constructor; [exact E|].
      eapply Forall_impl; [exact Hy|]. intros z Hz. simpl in Hz.
      eapply leb_trans; eassumption.
    + constructor; [exact IH|].
      rewrite insert_sorted_perm. constructor; [|exact Hy].
      destruct (leb_total x y) as [H|H]; [congruence|exact H].
Qed.

Lemma isort_sorted (l : list A) :
  StronglySorted (fun a b => leb a b = true) (isort leb l).
Proof.
  induction l as [|x l IH]; simpl; [constructor|].
  apply insert_sorted_sorted, IH.
Qed.

End Sorting.

(** *** The rank that [slice_map] gives a value *)

Section Ranks.

Context `{Countable V} (leb : V -> V -> bool).
Hypothesis leb_total : forall a b, leb a b = true \/ leb b a = true.
Hypothesis leb_trans :
  forall a b c, leb a b = true -> leb b c = true -> leb a c = true.
Hypothesis leb_antisym :
  forall a b, leb a b = true -> leb b a = true -> a = b.

Lemma leb_refl a : leb a a = true.
Proof. destruct (leb_total a a); assumption. Qed.

Lemma count_le_perm (v : V) (l l' : list V) :
  l ≡ₚ l' -> count_le leb v l = count_le leb v l'.
Proof. intros Hp. unfold count_le. rewrite Hp. reflexivity. Qed.

(** Filling the dict from values in sorted order leaves, under each
    value, the last position it occupies. *)
Lemma sorted_fill_lookup (vs : list V) (k : nat) (m0 : gmap V nat) (v : V) :
  StronglySorted (fun a b => leb a b = true) vs ->
  foldl (fun m '(z, pos) => <[z := pos]> m) m0
        (zip vs (seq k (length vs))) !! v
  = if decide (v ∈ vs) then Some (k + count_le leb v vs - 1)%nat
    else m0 !! v.
Proof.
  intros Hs. revert k m0.
  induction Hs as [|x vs Hs IH Hx]; intros k m0; simpl.
  - destruct (decide (v ∈ [])) as [Hin|_]; [|reflexivity].
    apply elem_of_nil in Hin. contradiction.
  - rewrite IH. unfold count_le. rewrite filter_cons.
    destruct (decide (v ∈ vs)) as [Hin|Hnin].
    + rewrite decide_True by (right; exact Hin).
      rewrite Forall_forall in Hx.
      rewrite decide_True by (apply Hx; exact Hin).
      simpl. f_equal. lia.
    + destruct (decide (x = v)) as [->|Hne].
      * rewrite decide_True by left.
        rewrite lookup_insert_eq, decide_True by apply leb_refl.
        assert (filter (fun y => leb y v = true) vs = []) as ->.
        { apply filter_none, Forall_forall. intros y Hy Hle.
          rewrite Forall_forall in Hx.
          apply Hnin. rewrite (leb_antisym v y); auto. }
        simpl. f_equal. lia.
      * rewrite lookup_insert_ne by exact Hne.
        rewrite decide_False; [reflexivity|].
        intros Hin. apply elem_of_cons in Hin as [->|?]; auto.
Qed.

(** Looking the value up through [zs[idx]] is looking at the sorted
    values themselves. *)
Lemma fill_by_index (zs : list V) (sp : list (nat * V)) (ps : list nat)
    (m0 : gmap V nat) :
  Forall (fun iz => zs !! iz.1 = Some iz.2) sp ->
  foldl (fun m '(idx, pos) =>
           match zs !! idx with
           | Some z => <[z := pos]> m
           | None => m
           end) m0 (zip sp.*1 ps)
  = foldl (fun m '(z, pos) => <[z := pos]> m) m0 (zip sp.*2 ps).
Proof.
  intros Hsp. revert ps m0.
  induction Hsp as [|[i z] sp Hiz Hsp IH]; intros ps m0; [reflexivity|].
  destruct ps as [|p ps]; [reflexivity|]. simpl in *.
  rewrite Hiz. apply IH.
Qed.

Lemma indexed_lookup (zs : list V) (iz : nat * V) :
  iz ∈ indexed zs -> zs !! iz.1 = Some iz.2.
Proof.
  unfold indexed. intros Hin.
  apply list_elem_of_lookup in Hin as [j Hj].
  apply lookup_zip_with_Some in Hj as (a & b & -> & Ha & Hb).
  apply lookup_seq in Ha as [-> _]. exact Hb.
Qed.

Lemma indexed_snd (zs : list V) : (indexed zs).*2 = zs.
Proof. unfold indexed. apply snd_zip. rewrite length_seq. lia. Qed.

Lemma indexed_fst (zs : list V) : (indexed zs).*1 = seq 0 (length zs).
Proof. unfold indexed. apply fst_zip. rewrite length_seq. lia. Qed.

(** Every value is ranked by the number of values that do not exceed
    it, less one: equal values share the highest of their positions. *)
Lemma rank_column_count (zs : list V) :
  rank_column leb zs
  = (fun z => Some (count_le leb z zs - 1)%nat) <$> zs.
Proof.
  unfold rank_column, slice_map_of, argsort.
  set (sp := isort (fun a b => leb a.2 b.2) (indexed zs)).
  assert (Hperm : sp ≡ₚ indexed zs) by apply isort_perm.
  assert (Hvals : sp.*2 ≡ₚ zs).
  { rewrite Hperm. rewrite indexed_snd. reflexivity. }
  assert (Hsorted : StronglySorted (fun a b => leb a b = true) sp.*2).
  { assert (Hs : StronglySorted (fun a b => leb a.2 b.2 = true) sp).
    { apply isort_sorted; [intros; apply leb_total|].
      intros a b c; apply leb_trans. }
    clear -Hs. induction Hs as [|x l Hs IH Hx]; simpl; constructor; auto.
    apply Forall_fmap. exact Hx. }
  rewrite fill_by_index.
  2:{ apply Forall_forall. intros iz Hiz. apply indexed_lookup.
      rewrite <- Hperm. exact Hiz. }
  apply list_fmap_ext. intros i z Hz.
  assert (Hin : z ∈ sp.*2).
  { rewrite Hvals. apply list_elem_of_lookup. eauto. }
  assert (Hlen : length zs = length sp.*2) by (rewrite Hvals; reflexivity).
  rewrite Hlen, (sorted_fill_lookup _ 0 ∅ z Hsorted).
  rewrite decide_True by exact Hin.
  rewrite (count_le_perm z _ _ Hvals). reflexivity.
Qed.

End Ranks.

(** *** The two orders: positions and paths *)

Lemma Zleb_total a b : (a <=? b) = true \/ (b <=? a) = true.
Proof. destruct (Z.leb_spec a b), (Z.leb_spec b a); auto; lia. Qed.

Lemma Zleb_trans a b c :
  (a <=? b) = true -> (b <=? c) = true -> (a <=? c) = true.
Proof. rewrite !Z.leb_le. lia. Qed.

Lemma Zleb_antisym a b : (a <=? b) = true -> (b <=? a) = true -> a = b.
Proof. rewrite !Z.leb_le. lia. Qed.

Lemma string_compare_refl (x : string) : String.compare x x = Eq.
Proof.
  induction x as [|a x IH]; simpl; [reflexivity|].
  unfold Ascii.compare. rewrite N.compare_refl. exact IH.
Qed.

Lemma string_compare_eq (x y : string) : String.compare x y = Eq <-> x = y.
Proof.
  split; [apply String.compare_eq_iff|intros ->; apply string_compare_refl].
Qed.

Lemma string_compare_sym (x y : string) :
  String.compare y x = CompOpp (String.compare x y).
Proof. apply String.compare_antisym. Qed.

Lemma string_compare_lt_trans (x y z : string) :
  String.compare x y = Lt -> String.compare y z = Lt ->
  String.compare x z = Lt.
Proof.
  revert y z. induction x as [|a x IH]; intros [|b y] [|c z]; simpl;
    try congruence.
  unfold Ascii.compare.
  destruct (N.compare_spec (N_of_ascii a) (N_of_ascii b)) as [Hab|Hab|Hab];
    destruct (N.compare_spec (N_of_ascii b) (N_of_ascii c)) as [Hbc|Hbc|Hbc];
    try congruence; intros H1 H2.
  - rewrite Hab, Hbc, N.compare_refl. eapply IH; eassumption.
  - rewrite Hab. apply N.compare_lt_iff in Hbc. rewrite Hbc. reflexivity.
  - rewrite <- Hbc. apply N.compare_lt_iff in Hab. rewrite Hab. reflexivity.
  - assert (Hac : (N_of_ascii a < N_of_ascii c)%N) by lia.
    apply N.compare_lt_iff in Hac. rewrite Hac. reflexivity.
Qed.

Lemma string_compare_trans (x y z : string) (c : comparison) :
  String.compare x y = c -> String.compare y z = c -> String.compare x z = c.
Proof.
  destruct c; intros H1 H2.
  - apply string_compare_eq in H1, H2. subst. apply string_compare_refl.
  - eapply string_compare_lt_trans; eassumption.
  - rewrite string_compare_sym in H1, H2 |- *.
    rewrite (string_compare_lt_trans z y x); [reflexivity| |].
    + destruct (String.compare z y); simpl in H2; congruence.
    + destruct (String.compare y x); simpl in H1; congruence.
Qed.

Lemma Path_compare_eq (p q : Path) : Path_compare p q = Eq <-> p = q.
Proof. apply list_compare_refl, string_compare_eq. Qed.

Lemma Path_compare_sym (p q : Path) :
  Path_compare q p = CompOpp (Path_compare p q).
Proof.
  apply list_compare_antisym;
    [apply string_compare_eq|apply string_compare_sym].
Qed.

Lemma Path_leb_total p q : Path_leb p q = true \/ Path_leb q p = true.
Proof.
  unfold Path_leb. rewrite (Path_compare_sym p q).
  destruct (Path_compare p q); simpl; auto.
Qed.

Lemma Path_leb_antisym p q :
  Path_leb p q = true -> Path_leb q p = true -> p = q.
Proof.
  unfold Path_leb. rewrite (Path_compare_sym p q).
  destruct (Path_compare p q) eqn:E; simpl; try congruence.
  intros _ _. apply Path_compare_eq, E.
Qed.

Lemma Path_leb_trans p q r :
  Path_leb p q = true -> Path_leb q r = true -> Path_leb p r = true.
Proof.
  unfold Path_leb.
  destruct (Path_compare p q) eqn:E1; try congruence;
    destruct (Path_compare q r) eqn:E2; try congruence; intros _ _.
  - apply Path_compare_eq in E1. subst. rewrite E2. reflexivity.
  - apply Path_compare_eq in E1. subst. rewrite E2. reflexivity.
  - apply Path_compare_eq in E2. subst. rewrite E1. reflexivity.
  - unfold Path_compare in *.
    assert (Hpr : list_compare String.compare p r = Lt).
    { eapply list_compare_trans; [apply string_compare_eq|
        apply string_compare_trans|apply string_compare_sym|
        exact E1|exact E2]. }
    rewrite Hpr. reflexivity.
Qed.

(** *** The first loop, row by row *)

Lemma assign_lookup {A B} (f : B -> A -> A) (l : list (nat * B))
    (ds : list A) (i : nat) :
  NoDup l.*1 ->
  (i ∉ l.*1 ->
   foldl (fun ds '(i, v) => alter (f v) i ds) ds l !! i = ds !! i) /\
  (forall v, (i, v) ∈ l ->
   foldl (fun ds '(i, v) => alter (f v) i ds) ds l !! i = f v <$> ds !! i).
Proof.
  revert ds. induction l as [|[i0 v0] l IH]; intros ds Hnd; simpl.
  - split; [reflexivity|]. intros v Hv. apply elem_of_nil in Hv. contradiction.
  - apply NoDup_cons in Hnd as [Hi0 Hnd]. simpl in *.
    destruct (IH (alter (f v0) i0 ds) Hnd) as [IH1 IH2]. split.
    + intros Hi. rewrite IH1 by (intros ?; apply Hi; right; assumption).
      apply list_lookup_alter_ne. intros ->. apply Hi. left.
    + intros v Hv. apply elem_of_cons in Hv as [Heq|Hv].
      * inversion Heq; subst. rewrite IH1 by exact Hi0.
        apply list_lookup_alter_eq.
      * rewrite (IH2 v Hv). rewrite list_lookup_alter_ne; [reflexivity|].
        intros ->. apply Hi0.
        apply list_elem_of_fmap. exists (i, v). auto.
Qed.

Lemma indexed_from_filter_snd {A} (P : A -> Prop) `{forall x, Decision (P x)}
    (l : list A) (a : nat) :
  (filter (fun ir : nat * A => P ir.2) (zip (seq a (length l)) l)).*2
  = filter P l.
Proof.
  revert a. induction l as [|x l IH]; intros a; [reflexivity|].
  simpl. rewrite !filter_cons. simpl.
  destruct (decide (P x)); simpl; rewrite IH; reflexivity.
Qed.

Lemma indexed_elem {A} (l : list A) (i : nat) (x : A) :
  (i, x) ∈ indexed l <-> l !! i = Some x.
Proof.
  unfold indexed. split.
  - intros Hin. apply list_elem_of_lookup in Hin as [j Hj].
    apply lookup_zip_with_Some in Hj as (a & b & Heq & Ha & Hb).
    inversion Heq; subst. apply lookup_seq in Ha as [-> _]. exact Hb.
  - intros Hi. apply list_elem_of_lookup. exists i.
    apply lookup_zip_with_Some. exists i, x. split; [reflexivity|].
    split; [|exact Hi]. apply lookup_seq. split; [reflexivity|].
    eapply lookup_lt_Some, Hi.
Qed.

Lemma indexed_NoDup_fst {A} (l : list A) : NoDup (indexed l).*1.
Proof.
  unfold indexed. rewrite fst_zip by (rewrite length_seq; lia).
  apply NoDup_seq.
Qed.

Lemma mapM_default {A B} (f : A -> option B) (d : B) (l : list A)
    (k : list B) :
  mapM f l = Some k -> k = (fun x => default d (f x)) <$> l.
Proof.
  intros Hk. apply mapM_Some in Hk.
  induction Hk as [|x y l k Hxy _ IH]; [reflexivity|].
  simpl. rewrite Hxy. simpl. f_equal. exact IH.
Qed.

Lemma mapM_snd {A B C} (f : B -> option C) (g : list (A * B)) :
  mapM (fun ir => f ir.2) g = mapM f g.*2.
Proof.
  induction g as [|[a b] g IH]; [reflexivity|].
  simpl. rewrite IH. reflexivity.
Qed.

(** The ranks of a group, in closed form. *)
Lemma group_slice_pos_closed (g : list (nat * row)) :
  group_slice_pos g = (fun ir => rank_of g.*2 ir.2) <$> g.
Proof.
  unfold group_slice_pos, rank_of. rewrite mapM_snd.
  destruct (mapM col_z_pos g.*2) as [zs|] eqn:E.
  - rewrite (rank_column_count Z.leb Zleb_total Zleb_trans Zleb_antisym).
    rewrite (mapM_default _ 0 _ _ E) at 1.
    rewrite <- !list_fmap_compose. apply list_fmap_ext. intros i [j r] _.
    reflexivity.
  - rewrite (rank_column_count Path_leb Path_leb_total Path_leb_trans
               Path_leb_antisym).
    rewrite <- !list_fmap_compose. apply list_fmap_ext. intros i [j r] _.
    reflexivity.
Qed.

Lemma foldl_groups {A G U} (F : A -> U -> A) (h : G -> list U)
    (F' : A -> G -> A) (gs : list G) (a : A) :
  (forall acc g, F' acc g = foldl F acc (h g)) ->
  foldl F' a gs = foldl F a (gs ≫= h).
Proof.
  intros HF. revert a. induction gs as [|g gs IH]; intros a; [reflexivity|].
  simpl. rewrite foldl_app, HF. apply IH.
Qed.

Lemma group_updates_zip (g : list (nat * row)) :
  zip g.*1 (group_slice_pos g) = group_updates g.
Proof.
  rewrite group_slice_pos_closed. unfold group_updates.
  generalize (rank_of g.*2). intros f.
  induction g as [|[i r] g IH]; [reflexivity|]. simpl. f_equal. exact IH.
Qed.

Lemma group_updates_fst (g : list (nat * row)) : (group_updates g).*1 = g.*1.
Proof.
  unfold group_updates. rewrite <- list_fmap_compose. reflexivity.
Qed.

(** No row is written twice: the groups have distinct keys. *)
Lemma groupby_updates_NoDup (dataset : list row) (keys : list group_key) :
  NoDup keys ->
  NoDup ((keys ≫= fun k =>
            group_updates
              (filter (fun ir => group_keys ir.2 = Some k)
                 (indexed dataset))).*1).
Proof.
  induction 1 as [|k keys Hk Hnd IH]; [constructor|].
  simpl. rewrite fmap_app. apply NoDup_app. split; [|split; [|exact IH]].
  - rewrite group_updates_fst.
    apply (sublist_NoDup _ (indexed dataset).*1);
      [apply indexed_NoDup_fst|apply fmap_sublist, sublist_filter].
  - rewrite group_updates_fst. intros i Hi Hi'.
    apply list_elem_of_fmap in Hi as ([i1 r1] & -> & H1).
    apply list_elem_of_filter in H1 as [Hk1 H1]. simpl in *.
    apply list_elem_of_fmap in Hi' as ([i2 v2] & Heq & H2). simpl in Heq.
    subst i2.
    apply list_elem_of_bind in H2 as (k' & H2 & Hk').
    apply list_elem_of_fmap in H2 as ([i3 r3] & Heq & H3).
    inversion Heq; subst.
    apply list_elem_of_filter in H3 as [Hk3 H3]. simpl in *.
    apply indexed_elem in H1, H3. rewrite H1 in H3. inversion H3; subst.
    rewrite Hk1 in Hk3. inversion Hk3; subst. contradiction.
Qed.

Lemma assign_groups_fold (idf : list (nat * row)) (keys : list group_key)
    (ds : list row) :
  foldl (fun ds '(name, group) => assign_group ds group) ds
    ((fun k => (k, filter (fun ir => group_keys ir.2 = Some k) idf))
       <$> keys)
  = foldl (fun (ds : list row) (iv : nat * option nat) =>
             let '(i, v) := iv in alter (set_slice_pos v) i ds) ds
      (keys ≫= fun k =>
         group_updates (filter (fun ir => group_keys ir.2 = Some k) idf)).
Proof.
  revert ds. induction keys as [|k keys IH]; intros ds; [reflexivity|].
  simpl. rewrite foldl_app, <- IH. f_equal.
  unfold assign_group. rewrite group_updates_zip. reflexivity.
Qed.

(** After the first loop every row of a group carries the rank of its
    value within the group, a row in no group is as it was, and nothing
    else of a row has changed. *)
Lemma assign_slice_pos_lookup (dataset : list row) (i : nat) (r : row) :
  dataset !! i = Some r ->
  assign_slice_pos dataset !! i = Some (ranked dataset r).
Proof.
  intros Hi. unfold assign_slice_pos, groupby.
  set (keys := isort group_key_leb (remove_dups (omap group_keys dataset))).
  set (F := fun (ds : list row) (iv : nat * option nat) =>
              let '(i, v) := iv in alter (set_slice_pos v) i ds).
  set (U := keys ≫= fun k =>
              group_updates
                (filter (fun ir => group_keys ir.2 = Some k)
                   (indexed dataset))).
  assert (Hfold :
    foldl (fun ds '(name, group) => assign_group ds group) dataset
      ((fun k => (k, filter (fun ir => group_keys ir.2 = Some k)
                       (indexed dataset))) <$> keys)
    = foldl F dataset U).
  { subst U F. apply assign_groups_fold. }
  rewrite Hfold.
  assert (Hnd : NoDup U.*1).
  { apply groupby_updates_NoDup. subst keys.
    rewrite isort_perm. apply NoDup_remove_dups. }
  destruct (assign_lookup set_slice_pos U dataset i Hnd) as [Hout Hin].
  unfold ranked. destruct (group_keys r) as [k|] eqn:Hk.
  - assert (HG :
      (filter (fun ir => group_keys ir.2 = Some k) (indexed dataset)).*2
      = group_of dataset r).
    { unfold group_of. rewrite Hk.
      exact (@indexed_from_filter_snd row
               (fun r' => group_keys r' = Some k)
               (fun r' => decide (group_keys r' = Some k))
               dataset 0%nat). }
    subst F. rewrite (Hin (rank_of (group_of dataset r) r)).
    + rewrite Hi. reflexivity.
    + subst U. apply list_elem_of_bind. exists k. split.
      * unfold group_updates. apply list_elem_of_fmap. exists (i, r).
        split.
        -- rewrite HG. reflexivity.
        -- apply list_elem_of_filter. split; [exact Hk|].
           apply indexed_elem, Hi.
      * subst keys. rewrite isort_perm. apply elem_of_remove_dups.
        apply list_elem_of_omap. exists r. split; [|exact Hk].
        apply list_elem_of_lookup. eauto.
  - subst F. rewrite Hout; [exact Hi|].
    intros Hmem. apply list_elem_of_fmap in Hmem as ([i' v] & Heq & Hmem).
    simpl in Heq. subst i'. subst U.
    apply list_elem_of_bind in Hmem as (k & Hmem & _).
    apply list_elem_of_fmap in Hmem as ([i' r'] & Heq & Hmem).
    inversion Heq; subst.
    apply list_elem_of_filter in Hmem as [Hk' Hmem]. simpl in Hk'.
    apply indexed_elem in Hmem. rewrite Hi in Hmem. inversion Hmem; subst.
    congruence.
Qed.

(** *** Counting within a group *)

Lemma length_filter_fmap {A B} (f : A -> B) (Q : B -> Prop)
    `{forall y, Decision (Q y)} (l : list A) :
  length (filter Q (f <$> l)) = length (filter (fun x => Q (f x)) l).
Proof.
  induction l as [|x l IH]; [reflexivity|].
  rewrite fmap_cons, !filter_cons.
  destruct (decide (Q (f x))); simpl; rewrite IH; reflexivity.
Qed.

Lemma length_filter_lt_of {A} (P Q : A -> Prop) `{forall x, Decision (P x)}
    `{forall x, Decision (Q x)} (l : list A) (y : A) :
  (forall x, x ∈ l -> P x -> Q x) -> y ∈ l -> Q y -> ~ P y ->
  (length (filter P l) < length (filter Q l))%nat.
Proof.
  intros HPQ Hy HQ HnP.
  assert (Hle : forall k : list A, (forall x, x ∈ k -> P x -> Q x) ->
                (length (filter P k) <= length (filter Q k))%nat).
  { induction k as [|x k IH]; intros Hk; [reflexivity|].
    rewrite !filter_cons.
    assert (IH' : (length (filter P k) <= length (filter Q k))%nat).
    { apply IH. intros z Hz. apply Hk. right. exact Hz. }
    destruct (decide (P x)) as [HP|_], (decide (Q x)) as [_|HnQ]; simpl;
      try lia.
    exfalso. apply HnQ, Hk; [left|exact HP]. }
  induction l as [|x l IH]; [apply elem_of_nil in Hy; contradiction|].
  rewrite !filter_cons.
  assert (Htl : (length (filter P l) <= length (filter Q l))%nat).
  { apply Hle. intros z Hz. apply HPQ. right. exact Hz. }
  apply elem_of_cons in Hy as [<-|Hy].
  - destruct (decide (P y)) as [?|_]; [contradiction|].
    destruct (decide (Q y)) as [_|?]; [|contradiction].
    simpl. lia.
  - assert (IH' : (length (filter P l) < length (filter Q l))%nat).
    { apply IH; [|exact Hy]. intros z Hz. apply HPQ. right. exact Hz. }
    destruct (decide (P x)) as [HP|_], (decide (Q x)) as [_|HnQ]; simpl;
      try lia.
    exfalso. apply HnQ, HPQ; [left|exact HP].
Qed.

(** With distinct positions, all present, the values at most [z] are
    the values below [z], and [z] itself when the group has it. *)
Lemma count_le_unique (G : list row) (r : row) (z : Z) :
  col_z_pos r = Some z ->
  Forall (fun r' => is_Some (col_z_pos r')) G ->
  NoDup (col_z_pos <$> G) ->
  length (filter (fun r' => (default 0 (col_z_pos r') <=? z) = true) G)
  = ((if decide (Some z ∈ col_z_pos <$> G) then 1 else 0)
     + length (filter (fun r' => z_before r' r) G))%nat.
Proof.
  intros Hz Hall Hnd.
  induction Hall as [|r' G [z' Hz'] Hall IH]; [reflexivity|].
  simpl in Hnd. apply NoDup_cons in Hnd as [Hnin Hnd].
  specialize (IH Hnd). rewrite !filter_cons.
  assert (Hzb : z_before r' r <-> z' < z).
  { unfold z_before. rewrite Hz', Hz. reflexivity. }
  assert (HP : (default 0 (col_z_pos r') <=? z) = true <-> z' <= z).
  { rewrite Hz'. simpl. apply Z.leb_le. }
  assert (Hmem : Some z ∈ col_z_pos <$> r' :: G
                 <-> z' = z \/ Some z ∈ col_z_pos <$> G).
  { rewrite fmap_cons, elem_of_cons, Hz'.
    split; intros [?|?]; auto; left; congruence. }
  assert (Hnin' : z' = z -> Some z ∉ col_z_pos <$> G).
  { intros <-. rewrite <- Hz'. exact Hnin. }
  repeat case_decide; simpl; rewrite ?IH; repeat case_decide; simpl;
    try lia; exfalso;
    destruct (Z.lt_trichotomy z' z) as [?|[?|?]]; intuition lia.
Qed.

Lemma rank_of_z (G : list row) (r : row) (z : Z) :
  col_z_pos r = Some z -> r ∈ G ->
  Forall (fun r' => is_Some (col_z_pos r')) G ->
  NoDup (col_z_pos <$> G) ->
  rank_of G r = Some (length (filter (fun r' => z_before r' r) G)).
Proof.
  intros Hz Hr Hall Hnd. unfold rank_of.
  destruct (mapM col_z_pos G) as [zs|] eqn:E.
  - rewrite (mapM_default _ 0 _ _ E). unfold count_le.
    rewrite length_filter_fmap, Hz. simpl.
    rewrite (count_le_unique G r z Hz Hall Hnd).
    rewrite decide_True.
    + f_equal. lia.
    + rewrite <- Hz. apply list_elem_of_fmap_2, Hr.
  - apply mapM_None_1 in E. apply Exists_exists in E as (r' & Hr' & Hn).
    rewrite Forall_forall in Hall. destruct (Hall r' Hr') as [z' Hz'].
    congruence.
Qed.

Lemma rank_of_path (G : list row) (r : row) :
  Exists (fun r' => col_z_pos r' = None) G ->
  rank_of G r
  = Some (length (filter (fun r' => path_upto r' r) G) - 1)%nat.
Proof.
  intros Hex. unfold rank_of. rewrite (mapM_None_2 _ _ Hex).
  unfold count_le. rewrite length_filter_fmap. reflexivity.
Qed.

Lemma group_of_elem (dataset : list row) (i : nat) (r r0 : row) :
  dataset !! i = Some r -> group_keys r = group_keys r0 ->
  r ∈ group_of dataset r0.
Proof.
  intros Hi Hk. apply list_elem_of_filter. split; [exact Hk|].
  apply list_elem_of_lookup. eauto.
Qed.

Lemma group_of_same (dataset : list row) (r r0 : row) :
  group_keys r = group_keys r0 -> group_of dataset r = group_of dataset r0.
Proof.
  intros Hk. unfold group_of. apply list_filter_iff. intros x.
  rewrite Hk. reflexivity.
Qed.

(** *** The frame *)

Ltac split_binds H :=
  repeat match type of H with
         | bind ?e _ = Ok _ =>
             let E := fresh "E" in
             destruct e eqn:E; cbn [bind] in H; [|discriminate H]
         end.

Lemma third_of_Ok (v : option (list Z)) (z : Z) :
  third_of v = Ok z -> exists vs, v = Some vs /\ vs !! 2%nat = Some z.
Proof.
  destruct v as [vs|]; [|discriminate]. intros H. exists vs.
  split; [reflexivity|].
  assert (Hget : list_getitem vs 2 = Ok z)
    by (destruct vs as [|a [|b vs]]; [exact H|discriminate H|exact H]).
  unfold list_getitem in Hget. simpl in Hget.
  destruct (Z.of_nat (length vs) <=? 2); [discriminate|].
  change (Z.to_nat 2) with 2%nat in Hget.
  destruct (vs !! 2%nat); [|discriminate]. congruence.
Qed.

Lemma getattr_Ok {A} (e : element A) (v : option A) :
  getattr e = Ok v ->
  match v with Some a => e = Value a | None => e = Empty end.
Proof. destruct e; intros H; inversion H; reflexivity. Qed.

(** What a row holds is what the header of its file holds; the file has
    a position of three components at least. *)
Lemma read_row_inv (dcmread : Path -> result dcm_header) (p : Path)
    (r : row) :
  read_row dcmread p = Ok r ->
  col_dcm_paths r = p /\ col_folders r = parent_name p /\
  col_slice_pos r = None /\
  exists h vs z,
    dcmread p = Ok h /\
    ImagePositionPatient h = Value vs /\ vs !! 2%nat = Some z /\
    col_z_pos r = Some z /\
    getattr (SeriesDescription h) = Ok (col_studies r) /\
    getattr (PatientID h) = Ok (col_patients r) /\
    getattr (Rows h) = Ok (col_x_dims r) /\
    getattr (Columns h) = Ok (col_y_dims r) /\
    getattr (AccessionNumber h) = Ok (col_acc_nums r) /\
    getattr (SeriesNumber h) = Ok (col_ser_nums r).
Proof.
  unfold read_row. intros H. split_binds H. inversion H; subst; clear H.
  cbn [col_dcm_paths col_folders col_slice_pos col_z_pos col_studies
       col_patients col_x_dims col_y_dims col_acc_nums col_ser_nums].
  split; [reflexivity|]. split; [reflexivity|]. split; [reflexivity|].
  match goal with
  | Eh : dcmread p = Ok ?h, Ev : third_of ?v = Ok ?z |- _ =>
      apply third_of_Ok in Ev as (vs & -> & Hz); exists h, vs, z
  end.
  match goal with
  | Ev : getattr (ImagePositionPatient _) = Ok (Some _) |- _ =>
      apply getattr_Ok in Ev
  end.
  repeat split; assumption.
Qed.

Lemma from_dict_rows (dcmread : Path -> result dcm_header)
    (paths : list Path) (studies patients : list (option string))
    (x_dims y_dims : list (option Z)) (z_pos : list Z)
    (acc_nums : list (option string)) (ser_nums : list (option Z)) :
  let column {A} (attribute : dcm_header -> result A) :=
    Forall2 (fun path y => (h <- dcmread path;; attribute h) = Ok y) paths in
  column (fun h => getattr (SeriesDescription h)) studies ->
  column (fun h => getattr (PatientID h)) patients ->
  column (fun h => getattr (Rows h)) x_dims ->
  column (fun h => getattr (Columns h)) y_dims ->
  column (fun h => v <- getattr (ImagePositionPatient h);; third_of v)
    z_pos ->
  column (fun h => getattr (AccessionNumber h)) acc_nums ->
  column (fun h => getattr (SeriesNumber h)) ser_nums ->
  Forall2 (fun p r => read_row dcmread p = Ok r) paths
    (from_dict paths (parent_name <$> paths) studies patients x_dims y_dims
       z_pos acc_nums ser_nums).
Proof.
  cbv zeta.
  revert studies patients x_dims y_dims z_pos acc_nums ser_nums.
  induction paths as [|p paths IH];
    intros studies patients x_dims y_dims z_pos acc_nums ser_nums
      H1 H2 H3 H4 H5 H6 H7.
  - constructor.
  - inversion H1 as [|? s ? ss E1 T1]; subst.
    inversion H2 as [|? q ? qs E2 T2]; subst.
    inversion H3 as [|? x ? xs E3 T3]; subst.
    inversion H4 as [|? y ? ys E4 T4]; subst.
    inversion H5 as [|? z ? zs E5 T5]; subst.
    inversion H6 as [|? a ? accs E6 T6]; subst.
    inversion H7 as [|? n ? ns E7 T7]; subst.
    rewrite fmap_cons. cbn [from_dict]. constructor.
    + unfold read_row. destruct (dcmread p) as [h|]; [|discriminate E1].
      cbn [bind] in *. rewrite E1, E2, E3, E4. cbn [bind].
      destruct (getattr (ImagePositionPatient h)) as [v|]; [|discriminate E5].
      cbn [bind] in *. rewrite E5, E6, E7. reflexivity.
    + apply IH; assumption.
Qed.

(** Reading the columns one after the other gives, when it goes
    through, the rows of the files. *)
Lemma make_frame_rows (dcmread : Path -> result dcm_header)
    (paths : list Path) (frame : list row) :
  make_frame dcmread paths = Ok frame ->
  Forall2 (fun p r => read_row dcmread p = Ok r) paths frame.
Proof.
  unfold make_frame, read_column. intros H. split_binds H.
  inversion H; subst; clear H.
  apply from_dict_rows;
    match goal with
    | E : comprehension ?f paths = Ok ?l
      |- Forall2 _ paths ?l => exact (comprehension_Ok _ _ _ E)
    end.
Qed.

Lemma make_frame_lookup (dcmread : Path -> result dcm_header)
    (paths : list Path) (frame : list row) (i : nat) (r : row) :
  make_frame dcmread paths = Ok frame -> frame !! i = Some r ->
  exists p, paths !! i = Some p /\ read_row dcmread p = Ok r.
Proof.
  intros H Hi. apply make_frame_rows in H.
  destruct (Forall2_lookup_r _ _ _ _ _ H Hi) as (p & Hp & Hr). eauto.
Qed.

Lemma make_frame_paths (dcmread : Path -> result dcm_header)
    (paths : list Path) (frame : list row) :
  make_frame dcmread paths = Ok frame -> col_dcm_paths <$> frame = paths.
Proof.
  intros H. apply make_frame_rows in H.
  induction H as [|p r paths frame Hr _ IH]; [reflexivity|].
  rewrite fmap_cons, IH. apply read_row_inv in Hr as (-> & _). reflexivity.
Qed.

Lemma make_frame_unranked (dcmread : Path -> result dcm_header)
    (paths : list Path) (frame : list row) (r : row) :
  make_frame dcmread paths = Ok frame -> r ∈ frame ->
  set_slice_pos None r = r.
Proof.
  intros H Hr. apply list_elem_of_lookup in Hr as [i Hi].
  destruct (make_frame_lookup _ _ _ _ _ H Hi) as (p & _ & Hrow).
  apply read_row_inv in Hrow as (_ & _ & Hnone & _).
  destruct r. simpl in Hnone. subst. reflexivity.
Qed.

Lemma make_frame_positions (dcmread : Path -> result dcm_header)
    (paths : list Path) (frame : list row) :
  make_frame dcmread paths = Ok frame ->
  Forall (fun r => is_Some (col_z_pos r)) frame.
Proof.
  intros H. apply Forall_forall. intros r Hr.
  apply list_elem_of_lookup in Hr as [i Hi].
  destruct (make_frame_lookup _ _ _ _ _ H Hi) as (p & _ & Hrow).
  apply read_row_inv in Hrow
    as (_ & _ & _ & h & vs & z & _ & _ & _ & Hz & _).
  eauto.
Qed.

Lemma getattr_present {A} (e : element A) :
  e <> Absent -> exists v, getattr e = Ok v.
Proof. destruct e; [congruence|eexists; reflexivity..]. Qed.

Lemma third_of_returns (vs : list Z) :
  (3 <= length vs)%nat -> exists z, third_of (Some vs) = Ok z.
Proof.
  intros Hlen.
  destruct (list_getitem_in_range vs 2) as (z & _ & Hz); [lia|].
  exists z. destruct vs as [|a [|b vs]]; simpl in Hlen; try lia. exact Hz.
Qed.

(** The frame is built when every file can be read and its header is
    complete. *)
Lemma make_frame_returns (dcmread : Path -> result dcm_header)
    (paths : list Path) :
  Forall (fun p => exists h, dcmread p = Ok h /\ complete h) paths ->
  exists frame, make_frame dcmread paths = Ok frame.
Proof.
  intros Hall. unfold make_frame, read_column.
  assert (Hcol : forall A (attribute : dcm_header -> result A),
            (forall h, complete h -> exists v, attribute h = Ok v) ->
            exists ys,
              comprehension (fun path => h <- dcmread path;; attribute h)
                paths = Ok ys).
  { intros A attribute Hattr. apply comprehension_returns.
    eapply Forall_impl; [exact Hall|].
    intros p (h & Hh & Hc). rewrite Hh. cbn [bind]. apply Hattr, Hc. }
  destruct (Hcol _ (fun h => getattr (SeriesDescription h))) as [c1 ->];
    [intros h Hc; apply getattr_present, Hc|].
  destruct (Hcol _ (fun h => getattr (PatientID h))) as [c2 ->];
    [intros h Hc; apply getattr_present, Hc|].
  destruct (Hcol _ (fun h => getattr (Rows h))) as [c3 ->];
    [intros h Hc; apply getattr_present, Hc|].
  destruct (Hcol _ (fun h => getattr (Columns h))) as [c4 ->];
    [intros h Hc; apply getattr_present, Hc|].
  destruct (Hcol _ (fun h => v <- getattr (ImagePositionPatient h);;
                             third_of v)) as [c5 ->].
  { intros h (_ & (vs & -> & Hlen) & _). cbn [getattr bind].
    apply third_of_returns, Hlen. }
  destruct (Hcol _ (fun h => getattr (AccessionNumber h))) as [c6 ->];
    [intros h Hc; apply getattr_present, Hc|].
  destruct (Hcol _ (fun h => getattr (SeriesNumber h))) as [c7 ->];
    [intros h Hc; apply getattr_present, Hc|].
  cbn [bind]. eexists. reflexivity.
Qed.

(** *** The frame after the first loop *)

Lemma assign_slice_pos_length (dataset : list row) :
  length (assign_slice_pos dataset) = length dataset.
Proof.
  unfold assign_slice_pos, groupby. rewrite assign_groups_fold.
  generalize (isort group_key_leb (remove_dups (omap group_keys dataset))
              ≫= fun k => group_updates
                   (filter (fun ir => group_keys ir.2 = Some k)
                      (indexed dataset))).
  intros U. revert dataset.
  induction U as [|[i v] U IH]; intros ds; [reflexivity|].
  simpl. rewrite IH. apply length_alter.
Qed.

(** The first loop as one pass over the rows. *)
Lemma assign_slice_pos_fmap (dataset : list row) :
  assign_slice_pos dataset = ranked dataset <$> dataset.
Proof.
  apply list_eq. intros i. rewrite list_lookup_fmap.
  destruct (dataset !! i) as [r|] eqn:E.
  - rewrite (assign_slice_pos_lookup _ i r E). reflexivity.
  - simpl. apply lookup_ge_None. rewrite assign_slice_pos_length.
    apply lookup_ge_None. exact E.
Qed.

(** Ranking a row changes its rank and nothing else. *)
Lemma ranked_keeps (dataset : list row) (r : row) :
  col_dcm_paths (ranked dataset r) = col_dcm_paths r /\
  col_z_pos (ranked dataset r) = col_z_pos r /\
  group_keys (ranked dataset r) = group_keys r /\
  set_slice_pos None (ranked dataset r) = set_slice_pos None r.
Proof.
  unfold ranked. destruct (group_keys r) eqn:E; [|auto].
  repeat split. exact E.
Qed.

Lemma group_of_fmap (f : row -> row) (dataset : list row) (r : row) :
  (forall r', group_keys (f r') = group_keys r') ->
  group_of (f <$> dataset) (f r) = f <$> group_of dataset r.
Proof.
  intros Hf. unfold group_of. rewrite Hf.
  induction dataset as [|r' ds IH]; [reflexivity|].
  rewrite fmap_cons, !filter_cons, !Hf.
  destruct (decide (group_keys r' = group_keys r));
    rewrite IH; reflexivity.
Qed.

(** What a construction that returns has built. *)
Lemma InferenceDataset_init_inv (patient2dcm : list (string * list Path))
    (dcmread : Path -> result dcm_header) (d : InferenceDataset) :
  InferenceDataset_init patient2dcm dcmread = Ok d ->
  exists frame,
    make_frame dcmread (collect_dcm_paths patient2dcm) = Ok frame /\
    df d = ranked frame <$> frame /\
    dcm_paths d = col_dcm_paths <$> df d.
Proof.
  unfold InferenceDataset_init. intros H.
  destruct (make_frame dcmread (collect_dcm_paths patient2dcm))
    as [frame|]; [|discriminate H].
  cbn [bind] in H. inversion H; subst; clear H. cbn [df dcm_paths].
  exists frame. rewrite assign_slice_pos_fmap. auto.
Qed.

(** Construction returns as soon as the frame is built. *)
Lemma InferenceDataset_init_of_frame
    (patient2dcm : list (string * list Path))
    (dcmread : Path -> result dcm_header) (frame : list row) :
  make_frame dcmread (collect_dcm_paths patient2dcm) = Ok frame ->
  exists d,
    InferenceDataset_init patient2dcm dcmread = Ok d /\
    df d = ranked frame <$> frame.
Proof.
  intros H. unfold InferenceDataset_init. rewrite H. cbn [bind].
  eexists. split; [reflexivity|]. cbn [df]. apply assign_slice_pos_fmap.
Qed.

(** A construction that returns found, in every file, a position of
    three components at least: a file without one ends construction
    before a frame exists. *)
Lemma constructed_rows_have_positions
    (patient2dcm : list (string * list Path))
    (dcmread : Path -> result dcm_header) (d : InferenceDataset) (i : nat)
    (r : row) :
  InferenceDataset_init patient2dcm dcmread = Ok d ->
  df d !! i = Some r ->
  exists h vs z,
    dcmread (col_dcm_paths r) = Ok h /\
    ImagePositionPatient h = Value vs /\ vs !! 2%nat = Some z /\
    col_z_pos r = Some z.
Proof.
  intros H Hi.
  apply InferenceDataset_init_inv in H as (frame & Hframe & Hdf & _).
  rewrite Hdf, list_lookup_fmap in Hi.
  destruct (frame !! i) as [r0|] eqn:E; [|discriminate].
  simpl in Hi. inversion Hi; subst r; clear Hi.
  destruct (make_frame_lookup _ _ _ _ _ Hframe E) as (p & _ & Hrow).
  apply read_row_inv in Hrow
    as (Hp & _ & _ & h & vs & z & Hh & Hv & Hz & Hcol & _).
  destruct (ranked_keeps frame r0) as (-> & -> & _).
  rewrite Hp. eauto 10.
Qed.

(** A construction that met a file whose position cannot be read has
    raised. *)
Lemma unreadable_position_raises (patient2dcm : list (string * list Path))
    (dcmread : Path -> result dcm_header) (p : Path) :
  p ∈ collect_dcm_paths patient2dcm ->
  (forall h, dcmread p = Ok h -> ~ positioned h) ->
  exists cls, InferenceDataset_init patient2dcm dcmread = Raise cls.
Proof.
  intros Hp Hbad.
  destruct (InferenceDataset_init patient2dcm dcmread) as [d|cls] eqn:Hd;
    [|eauto].
  exfalso.
  pose proof (InferenceDataset_init_inv _ _ _ Hd)
    as (frame & Hframe & Hdf & Hcol).
  rewrite <- (make_frame_paths _ _ _ Hframe) in Hp.
  apply list_elem_of_fmap in Hp as (r0 & -> & Hr0).
  apply list_elem_of_lookup in Hr0 as [i Hi].
  destruct (make_frame_lookup _ _ _ _ _ Hframe Hi) as (q & _ & Hrow).
  apply read_row_inv in Hrow
    as (Hq & _ & _ & h & vs & z & Hh & Hv & Hz & _).
  rewrite Hq in Hbad. apply (Hbad h Hh). exists vs. split; [exact Hv|].
  apply lookup_lt_Some in Hz. lia.
Qed.

(** The exception that ends construction at the first file whose
    position cannot be read, when the columns before [z_pos] were
    read. *)
Lemma first_unreadable_position (patient2dcm : list (string * list Path))
    (dcmread : Path -> result dcm_header) (before after : list Path)
    (p : Path) (h : dcm_header) (cls : string) :
  collect_dcm_paths patient2dcm = before ++ p :: after ->
  Forall (fun q => exists h', dcmread q = Ok h' /\ described h')
    (before ++ p :: after) ->
  Forall (fun q => exists h', dcmread q = Ok h' /\ positioned h') before ->
  dcmread p = Ok h ->
  (v <- getattr (ImagePositionPatient h);; third_of v) = Raise cls ->
  InferenceDataset_init patient2dcm dcmread = Raise cls.
Proof.
  intros Hpaths Hdesc Hpos Hh Hcls.
  unfold InferenceDataset_init. rewrite Hpaths.
  unfold make_frame, read_column.
  assert (Hcol : forall A (attribute : dcm_header -> result A),
            (forall h, described h -> exists v, attribute h = Ok v) ->
            exists ys,
              comprehension (fun path => h <- dcmread path;; attribute h)
                (before ++ p :: after) = Ok ys).
  { intros A attribute Hattr. apply comprehension_returns.
    eapply Forall_impl; [exact Hdesc|].
    intros q (h' & Hh' & Hc). rewrite Hh'. cbn [bind]. apply Hattr, Hc. }
  destruct (Hcol _ (fun h => getattr (SeriesDescription h))) as [c1 ->];
    [intros h' Hc; apply getattr_present, Hc|].
  destruct (Hcol _ (fun h => getattr (PatientID h))) as [c2 ->];
    [intros h' Hc; apply getattr_present, Hc|].
  destruct (Hcol _ (fun h => getattr (Rows h))) as [c3 ->];
    [intros h' Hc; apply getattr_present, Hc|].
  destruct (Hcol _ (fun h => getattr (Columns h))) as [c4 ->];
    [intros h' Hc; apply getattr_present, Hc|].
  cbn [bind].
  rewrite (comprehension_raises _ before after p cls); [reflexivity| |].
  - eapply Forall_impl; [exact Hpos|].
    intros q (h' & -> & vs & Hv & Hlen). cbn [bind]. rewrite Hv.
    cbn [getattr bind]. apply third_of_returns, Hlen.
  - rewrite Hh. exact Hcls.
Qed.

(** The fallback of the first loop, on any frame: when a position of
    the group is missing, the rank of a row is the number of rows of the
    group whose path does not exceed its own, less one, and a path that
    compares lower has a lower rank.  Construction never hands the loop
    such a frame ([constructed_rows_have_positions]). *)
Lemma fallback_ranks_by_path (dataset : list row) (i j : nat)
    (ri rj : row) :
  dataset !! i = Some ri -> dataset !! j = Some rj ->
  is_Some (group_keys ri) -> group_keys rj = group_keys ri ->
  let G := group_of dataset ri in
  Exists (fun r => col_z_pos r = None) G ->
  exists vi vj : nat,
    assign_slice_pos dataset !! i = Some (set_slice_pos (Some vi) ri) /\
    assign_slice_pos dataset !! j = Some (set_slice_pos (Some vj) rj) /\
    vi = (length (filter (fun r => path_upto r ri) G) - 1)%nat /\
    (vi < length G)%nat /\
    (path_upto ri rj -> col_dcm_paths ri <> col_dcm_paths rj ->
     (vi < vj)%nat).
Proof.
  intros Hi Hj [k Hki] Hk G Hex.
  assert (Hdi := assign_slice_pos_lookup dataset i ri Hi).
  assert (Hdj := assign_slice_pos_lookup dataset j rj Hj).
  unfold ranked in Hdi, Hdj. rewrite Hk, Hki in Hdj. rewrite Hki in Hdi.
  rewrite (group_of_same dataset rj ri Hk) in Hdj. fold G in Hdi, Hdj.
  assert (Hri : ri ∈ G) by (eapply group_of_elem; eauto).
  assert (Hrj : rj ∈ G) by (eapply group_of_elem; eauto).
  rewrite (rank_of_path G ri Hex) in Hdi.
  rewrite (rank_of_path G rj Hex) in Hdj.
  eexists _, _. split; [exact Hdi|]. split; [exact Hdj|].
  split; [reflexivity|].
  assert (Hpos : forall r, r ∈ G ->
            (0 < length (filter (fun r' => path_upto r' r) G))%nat).
  { intros r Hr.
    assert (Hin : r ∈ filter (fun r' => path_upto r' r) G).
    { apply list_elem_of_filter. split; [|exact Hr].
      unfold path_upto.
      destruct (Path_leb_total (col_dcm_paths r) (col_dcm_paths r)); auto. }
    destruct (filter (fun r' => path_upto r' r) G);
      [apply elem_of_nil in Hin; contradiction|simpl; lia]. }
  split.
  - pose proof (length_filter (fun r => path_upto r ri) G).
    pose proof (Hpos ri Hri). lia.
  - intros Hle Hne.
    assert ((length (filter (fun r => path_upto r ri) G)
             < length (filter (fun r => path_upto r rj) G))%nat).
    { apply (length_filter_lt_of _ _ G rj); [|exact Hrj| |].
      - intros x _ Hx. unfold path_upto in *.
        eapply Path_leb_trans; eassumption.
      - unfold path_upto.
        destruct (Path_leb_total (col_dcm_paths rj) (col_dcm_paths rj));
          auto.
      - unfold path_upto in *. intros Hge. apply Hne.
        apply Path_leb_antisym; assumption. }
    pose proof (Hpos ri Hri). lia.
Qed.

Lemma gap_frame_ranked_by_path :
  col_z_pos <$> gap_frame = [Some 3; None] /\
  col_slice_pos <$> assign_slice_pos gap_frame = [Some 0%nat; Some 1%nat].
Proof. vm_compute. split; reflexivity. Qed.

(** The ranks of a group with distinct positions. *)
Lemma unique_positions_rank_ascending
    (patient2dcm : list (string * list Path))
    (dcmread : Path -> result dcm_header) (d : InferenceDataset)
    (i j : nat) (ri rj : row) :
  InferenceDataset_init patient2dcm dcmread = Ok d ->
  df d !! i = Some ri -> df d !! j = Some rj ->
  is_Some (group_keys ri) -> group_keys rj = group_keys ri ->
  let G := group_of (df d) ri in
  Forall (fun r => is_Some (col_z_pos r)) G /\
  (NoDup (col_z_pos <$> G) ->
   exists vi vj : nat,
     col_slice_pos ri = Some vi /\ col_slice_pos rj = Some vj /\
     vi = length (filter (fun r => z_before r ri) G) /\
     (vi < length G)%nat /\
     (z_before ri rj -> (vi < vj)%nat)).
Proof.
  intros H Hi Hj [k Hk] Hkj G. subst G.
  apply InferenceDataset_init_inv in H as (frame & Hframe & Hdf & _).
  rewrite Hdf in *. rewrite list_lookup_fmap in Hi, Hj.
  destruct (frame !! i) as [fi|] eqn:Ei; [|discriminate].
  destruct (frame !! j) as [fj|] eqn:Ej; [|discriminate].
  simpl in Hi, Hj. inversion Hi; subst ri; clear Hi.
  inversion Hj; subst rj; clear Hj.
  destruct (ranked_keeps frame fi) as (_ & Hzi & Hki & _).
  destruct (ranked_keeps frame fj) as (_ & Hzj & Hkj' & _).
  rewrite Hki in Hk. rewrite Hki, Hkj' in Hkj.
  rewrite (group_of_fmap (ranked frame) frame fi) in *
    by (intros r'; apply ranked_keeps).
  set (G := group_of frame fi) in *.
  assert (Hzs : col_z_pos <$> (ranked frame <$> G) = col_z_pos <$> G).
  { rewrite <- list_fmap_compose. apply list_fmap_ext. intros ? r' _.
    simpl. apply ranked_keeps. }
  rewrite Hzs.
  assert (Hall : Forall (fun r => is_Some (col_z_pos r)) G).
  { apply Forall_forall. intros r' Hr'.
    apply list_elem_of_filter in Hr' as [_ Hr'].
    pose proof (make_frame_positions _ _ _ Hframe) as Hp.
    rewrite Forall_forall in Hp. apply Hp, Hr'. }
  split.
  { apply Forall_fmap. eapply Forall_impl; [exact Hall|].
    intros r' Hr'. simpl.
    destruct (ranked_keeps frame r') as (_ & -> & _). exact Hr'. }
  intros Hnd.
  assert (Hcount : forall r0,
            length (filter (fun r => z_before r (ranked frame r0))
                      (ranked frame <$> G))
            = length (filter (fun r => z_before r r0) G)).
  { intros r0. rewrite length_filter_fmap. f_equal.
    apply list_filter_iff. intros r'. unfold z_before.
    destruct (ranked_keeps frame r') as (_ & -> & _).
    destruct (ranked_keeps frame r0) as (_ & -> & _). reflexivity. }
  assert (Hri : fi ∈ G) by (eapply group_of_elem; eauto).
  assert (Hrj : fj ∈ G) by (eapply group_of_elem; eauto).
  pose proof Hall as Hall'. rewrite Forall_forall in Hall'.
  destruct (Hall' fi Hri) as [zi Hzi']. destruct (Hall' fj Hrj) as [zj Hzj'].
  assert (Ri : col_slice_pos (ranked frame fi)
               = Some (length (filter (fun r => z_before r fi) G))).
  { unfold ranked. rewrite Hk. cbn [col_slice_pos set_slice_pos].
    fold G. apply (rank_of_z G fi zi); assumption. }
  assert (Rj : col_slice_pos (ranked frame fj)
               = Some (length (filter (fun r => z_before r fj) G))).
  { unfold ranked. rewrite Hkj, Hk. cbn [col_slice_pos set_slice_pos].
    rewrite (group_of_same frame fj fi) by congruence. fold G.
    apply (rank_of_z G fj zj); assumption. }
  eexists _, _. split; [exact Ri|]. split; [exact Rj|].
  rewrite Hcount, length_fmap. split; [reflexivity|]. split.
  - eapply length_filter_lt; [exact Hri|].
    unfold z_before. rewrite Hzi'. lia.
  - unfold z_before at 1. rewrite Hzi, Hzj, Hzi', Hzj'. intros Hlt.
    apply (length_filter_lt_of _ _ G fi); [|exact Hri| |].
    + intros x _. unfold z_before. rewrite Hzi', Hzj'.
      destruct (col_z_pos x); [lia|auto].
    + unfold z_before. rewrite Hzi', Hzj'. exact Hlt.
    + unfold z_before. rewrite Hzi'. lia.
Qed.

(** C2.  Take two rows [ri], [rj] of one group [G] of the frame that
    construction leaves (same folder, series description, patient,
    rows, columns, accession number and series number, all of them
    present).  Every row of [G] has a position, and when the positions
    of [G] are distinct the ranks [vi], [vj] in the column [slice_pos]
    are such that [vi] is the number of rows of [G] lying below [ri],
    that is the index of its position in ascending order; it is less
    than the size of [G], and a lower position has a lower rank.

    A group with a missing position is never ranked by path: a file
    whose position cannot be read ends construction.  Reading the
    column [z_pos] raises at the first such file, with the exception of
    the read ([AttributeError] for a file without
    [ImagePositionPatient], [TypeError] for one without a value), once
    the columns before it were read. *)
Theorem slice_pos_ranks_group (patient2dcm : list (string * list Path))
    (dcmread : Path -> result dcm_header) :
  (forall (d : InferenceDataset) (i j : nat) (ri rj : row),
     InferenceDataset_init patient2dcm dcmread = Ok d ->
     df d !! i = Some ri -> df d !! j = Some rj ->
     is_Some (group_keys ri) -> group_keys rj = group_keys ri ->
     let G := group_of (df d) ri in
     Forall (fun r => is_Some (col_z_pos r)) G /\
     (NoDup (col_z_pos <$> G) ->
      exists vi vj : nat,
        col_slice_pos ri = Some vi /\ col_slice_pos rj = Some vj /\
        vi = length (filter (fun r => z_before r ri) G) /\
        (vi < length G)%nat /\
        (z_before ri rj -> (vi < vj)%nat))) /\
  (forall p : Path,
     p ∈ collect_dcm_paths patient2dcm ->
     (forall h, dcmread p = Ok h -> ~ positioned h) ->
     exists cls, InferenceDataset_init patient2dcm dcmread = Raise cls) /\
  (forall (before after : list Path) (p : Path) (h : dcm_header)
          (cls : string),
     collect_dcm_paths patient2dcm = before ++ p :: after ->
     Forall (fun q => exists h', dcmread q = Ok h' /\ described h')
       (before ++ p :: after) ->
     Forall (fun q => exists h', dcmread q = Ok h' /\ positioned h')
       before ->
     dcmread p = Ok h ->
     (v <- getattr (ImagePositionPatient h);; third_of v) = Raise cls ->
     InferenceDataset_init patient2dcm dcmread = Raise cls).
Proof.
  split; [|split].
  - intros d i j ri rj. apply unique_positions_rank_ascending.
  - apply unreadable_position_raises.
  - apply first_unreadable_position.
Qed.

Lemma slice_pos_ranks_group_witness :
  (exists d ri rj,
     InferenceDataset_init two_files two_headers = Ok d /\
     df d !! 0%nat = Some ri /\ df d !! 1%nat = Some rj /\
     col_slice_pos ri = Some 1%nat /\ col_slice_pos rj = Some 0%nat) /\
  InferenceDataset_init two_files two_headers_gap = Raise "AttributeError" /\
  InferenceDataset_init two_files two_headers_blank = Raise "TypeError".
Proof.
  assert (Hdesc : forall number (position : element (list Z)),
            described (header_of position number)).
  { intros number position. unfold described. simpl.
    repeat split; discriminate. }
  assert (Hpos : positioned (header_at 5)).
  { eexists. split; [reflexivity|]. simpl. lia. }
  split; [|split].
  - destruct (slice_pos_ranks_group two_files two_headers) as (Hranks & _).
    eexists _, _, _. split; [vm_compute; reflexivity|].
    split; [reflexivity|]. split; [reflexivity|]. split.
    + destruct (Hranks _ 0%nat 1%nat _ _ eq_refl eq_refl eq_refl
                  (ex_intro _ _ eq_refl) eq_refl) as (_ & Hz).
      destruct Hz as (vi & vj & Hi & _ & Hvi & _).
      { apply (bool_decide_unpack _). vm_compute. reflexivity. }
      etransitivity; [exact Hi|]. f_equal. exact Hvi.
    + destruct (Hranks _ 1%nat 0%nat _ _ eq_refl eq_refl eq_refl
                  (ex_intro _ _ eq_refl) eq_refl) as (_ & Hz).
      destruct Hz as (vi & vj & Hi & _ & Hvi & _).
      { apply (bool_decide_unpack _). vm_compute. reflexivity. }
      etransitivity; [exact Hi|]. f_equal. exact Hvi.
  - destruct (slice_pos_ranks_group two_files two_headers_gap)
      as (_ & _ & Hfirst).
    apply (Hfirst [["/"; "data"; "s1"; "a.dcm"]%string] []
             ["/"; "data"; "s1"; "b.dcm"]%string
             (header_of Absent (Value 1))); try reflexivity.
    + repeat constructor; eexists; (split; [reflexivity|apply Hdesc]).
    + repeat constructor. eexists. split; [reflexivity|exact Hpos].
  - destruct (slice_pos_ranks_group two_files two_headers_blank)
      as (_ & _ & Hfirst).
    apply (Hfirst [["/"; "data"; "s1"; "a.dcm"]%string] []
             ["/"; "data"; "s1"; "b.dcm"]%string
             (header_of Empty (Value 1))); try reflexivity.
    + repeat constructor; eexists; (split; [reflexivity|apply Hdesc]).
    + repeat constructor. eexists. split; [reflexivity|exact Hpos].
Defined.

(** *** The exposed path list *)

(** The list [self.dcm_paths] that construction leaves is the list it
    started from: the ranks are written to the frame, the order of the
    rows never changes. *)
Lemma InferenceDataset_dcm_paths_input_order
    (patient2dcm : list (string * list Path))
    (dcmread : Path -> result dcm_header) (d : InferenceDataset) :
  InferenceDataset_init patient2dcm dcmread = Ok d ->
  dcm_paths d = collect_dcm_paths patient2dcm.
Proof.
  intros H.
  apply InferenceDataset_init_inv in H as (frame & Hframe & Hdf & ->).
  rewrite Hdf, <- list_fmap_compose.
  rewrite <- (make_frame_paths _ _ _ Hframe).
  apply list_fmap_ext. intros ? r _. simpl. apply ranked_keeps.
Qed.

(** C1, on two files of one series stored against their depth
    ([a.dcm] at 5 before [b.dcm] at 3): construction ranks them 1 and
    0, and [self.dcm_paths] still lists [a.dcm] first, so index 0 and
    index 1 are in one group with ranks in descending order. *)
Theorem InferenceDataset_dcm_paths_unsorted :
  exists d,
    InferenceDataset_init two_files two_headers = Ok d /\
    dcm_paths d = two_paths /\
    col_dcm_paths <$> df d = two_paths /\
    col_slice_pos <$> df d = [Some 1%nat; Some 0%nat] /\
    group_keys <$> df d
    = [Some ("s1", "T2", "P1", 256, 256, "A1", 1);
       Some ("s1", "T2", "P1", 256, 256, "A1", 1)]%string.
Proof.
  eexists. split; [vm_compute; reflexivity|].
  vm_compute. repeat split; reflexivity.
Qed.

(** *** [JsonDatasetGetter] *)

(** C7 (as amended).  When [splitter_key] is not a key of the loaded
    split object, construction fails: the lookup
    [dataset_split[splitter_key]] raises [KeyError]. *)
Theorem JsonDatasetGetter_missing_key {D P : Type} (made : D * P)
    (dataset_split : gmap string (list string)) (splitter_key : string)
    (PatientFiltering : list string -> D -> P -> D * P) :
  dataset_split !! splitter_key = None ->
  JsonDatasetGetter_init made dataset_split splitter_key PatientFiltering
  = Raise "KeyError".
Proof.
  intros Hkey. unfold JsonDatasetGetter_init. destruct made as [d p].
  rewrite Hkey. reflexivity.
Qed.

Lemma JsonDatasetGetter_missing_key_witness :
  train_val_split !! "TEST"%string = None /\
  JsonDatasetGetter_init (tt, tt) train_val_split "TEST"
    (fun _ d p => (d, p))
  = Raise "KeyError".
Proof.
  assert (Hkey : train_val_split !! "TEST"%string = None)
    by (vm_compute; reflexivity).
  split; [exact Hkey|].
  apply (JsonDatasetGetter_missing_key (tt, tt) train_val_split "TEST"
           (fun _ d p => (d, p)) Hkey).
Defined.

(** C7 as stated fails: with the key [TEST] absent from the split
    file, what construction raises is not a [ConfigurationError]. *)
Lemma JsonDatasetGetter_not_ConfigurationError :
  train_val_split !! "TEST"%string = None /\
  JsonDatasetGetter_init (tt, tt) train_val_split "TEST"
    (fun _ d p => (d, p))
  <> Raise "ConfigurationError".
Proof.
  split; [vm_compute; reflexivity|].
  vm_compute. intros H. discriminate H.
Qed.

(** C10 (as amended).  For a slice [s] whose step is not zero, [d[s]]
    is the list of the samples [d[i]] for [i] running over
    [range] of [s.indices(len(d))]: every such [i] is a valid index
    (bounds are clamped, no [IndexError]), each sample is the one built
    from [dcm_paths[i]], and the indices ascend for a positive step and
    descend for a negative one.  Holds for [InferenceDataset] and for
    [SegmentationDataset]. *)
Theorem getitem_slice_is_range {sample sample'} (s : slice)
    (d : @InferenceSamples sample) (d' : @SegmentationDataset sample') :
  slice_step s <> Some 0 ->
  (exists idxs,
     range_of_slice s (InferenceDataset_len d) = Ok idxs /\
     (0 < default 1 (slice_step s) -> ascending idxs) /\
     (default 1 (slice_step s) < 0 -> descending idxs) /\
     slice_result (inf_dcm_paths d) (InferenceDataset_getitem_int d)
       (inf_make_sample d) (InferenceDataset_getitem d (Slc s)) idxs) /\
  (exists idxs,
     range_of_slice s (SegmentationDataset_len d') = Ok idxs /\
     (0 < default 1 (slice_step s) -> ascending idxs) /\
     (default 1 (slice_step s) < 0 -> descending idxs) /\
     slice_result (seg_dcm_paths d') (SegmentationDataset_getitem_int d')
       (fun p i => seg_make_sample d' p (seg_get_y_Path d' p) i)
       (SegmentationDataset_getitem d' (Slc s)) idxs).
Proof.
  intros Hs. split.
  - destruct (range_of_slice_spec s (InferenceDataset_len d))
      as (idxs & Hr & Hin & Hasc & Hdesc);
      [unfold InferenceDataset_len; lia|exact Hs|].
    exists idxs. repeat split; try assumption.
    + apply Hin; assumption.
    + apply Hin; assumption.
    + intros i Hi. apply InferenceDataset_getitem_int_valid, Hin, Hi.
    + simpl. rewrite Hr. reflexivity.
  - destruct (range_of_slice_spec s (SegmentationDataset_len d'))
      as (idxs & Hr & Hin & Hasc & Hdesc);
      [unfold SegmentationDataset_len; lia|exact Hs|].
    exists idxs. repeat split; try assumption.
    + apply Hin; assumption.
    + apply Hin; assumption.
    + intros i Hi. apply SegmentationDataset_getitem_int_valid, Hin, Hi.
    + simpl. rewrite Hr. reflexivity.
Qed.

Lemma getitem_slice_is_range_witness :
  slice_step wide <> Some 0 /\
  InferenceDataset_getitem three_samples (Slc wide)
  = Ok (Many (zip three_paths [0; 1; 2])).
Proof.
  assert (Hs : slice_step wide <> Some 0) by (simpl; congruence).
  split; [exact Hs|].
  destruct (getitem_slice_is_range wide three_samples three_labelled Hs)
    as [(idxs & Hr & _ & _ & _ & _ & Hgot) _].
  rewrite Hgot.
  assert (idxs = [0; 1; 2]) as -> by (vm_compute in Hr; congruence).
  reflexivity.
Defined.

(** C10 as stated fails: [d[::-1]] lists the samples from the last
    index down to the first. *)
Lemma getitem_slice_not_ascending :
  InferenceDataset_getitem three_samples (Slc reversed)
  = Ok (Many (zip (reverse three_paths) [2; 1; 0])) /\
  range_of_slice reversed (InferenceDataset_len three_samples)
  = Ok [2; 1; 0] /\
  ~ ascending [2; 1; 0].
Proof.
  split; [reflexivity|]. split; [reflexivity|].
  intros H. specialize (H 0%nat 1%nat 2 1).
  assert (2 < 1) by (apply H; [lia|reflexivity|reflexivity]). lia.
Qed.

End DatasetsFacts.

Module NotebookFacts.
Import Notebook PyFacts.

Local Open Scope Qc_scope.

(** *** Buffers read as matrices *)

Lemma grid_length {A} (f : nat -> nat -> A) (a b : nat) :
  length (seq 0 a ≫= fun x => f x <$> seq 0 b) = (a * b)%nat.
Proof.
  induction a as [|a IH]; [reflexivity|].
  rewrite seq_S, bind_app, length_app, IH. simpl.
  rewrite app_nil_r, length_fmap, length_seq. lia.
Qed.

Lemma grid_lookup {A} (f : nat -> nat -> A) (a b x y : nat) :
  (x < a)%nat -> (y < b)%nat ->
  (seq 0 a ≫= fun x => f x <$> seq 0 b) !! (x * b + y)%nat = Some (f x y).
Proof.
  intros Hx Hy. induction a as [|a IH]; [lia|].
  rewrite seq_S, bind_app. simpl. rewrite app_nil_r.
  destruct (decide (x < a)%nat) as [Hlt|Hge].
  - rewrite lookup_app_l by (rewrite grid_length; nia). apply IH, Hlt.
  - assert (x = a) by lia. subst x.
    rewrite lookup_app_r by (rewrite grid_length; lia).
    rewrite grid_length.
    replace (a * b + y - a * b)%nat with y by lia.
    rewrite list_lookup_fmap, lookup_seq_lt by exact Hy. reflexivity.
Qed.

Lemma grid_ext {A} (f g : nat -> nat -> A) (a b : nat) :
  (forall x y, (x < a)%nat -> (y < b)%nat -> f x y = g x y) ->
  (seq 0 a ≫= fun x => f x <$> seq 0 b)
  = (seq 0 a ≫= fun x => g x <$> seq 0 b).
Proof.
  intros Hfg. induction a as [|a IH]; [reflexivity|].
  rewrite !seq_S, !bind_app. simpl. rewrite !app_nil_r. f_equal.
  - apply IH. intros x y Hx Hy. apply Hfg; lia.
  - apply list_fmap_ext. intros i y Hy.
    apply lookup_seq in Hy as [-> Hy]. apply Hfg; lia.
Qed.

(** Reading a buffer of [n * R] entries row by row gives it back. *)
Lemma grid_buffer (D : list Qc) (n R : nat) :
  length D = (n * R)%nat ->
  (seq 0 n ≫= fun i => (fun j => at2 D R i j) <$> seq 0 R) = D.
Proof.
  intros Hlen. apply list_eq. intros k.
  destruct (decide (k < n * R)%nat) as [Hk|Hk].
  - assert (HR : (0 < R)%nat) by nia.
    assert (Hdiv : k = (k / R * R + k mod R)%nat).
    { rewrite Nat.mul_comm. apply Nat.div_mod. lia. }
    rewrite Hdiv at 1.
    rewrite grid_lookup.
    + unfold at2. rewrite <- Hdiv.
      destruct (lookup_lt_is_Some_2 D k) as [x Hx]; [lia|].
      rewrite Hx. reflexivity.
    + apply Nat.Div0.div_lt_upper_bound. lia.
    + apply Nat.mod_upper_bound. lia.
  - rewrite !(proj2 (lookup_ge_None _ _)); [reflexivity|lia|].
    rewrite grid_length. lia.
Qed.

Lemma transpose_buffer_length (n R : nat) (D : list Qc) :
  length (transpose_buffer n R D) = (R * n)%nat.
Proof. apply grid_length. Qed.

(** Transposing twice gives the buffer back. *)
Lemma transpose_buffer_twice (n R : nat) (D : list Qc) :
  length D = (n * R)%nat ->
  transpose_buffer R n (transpose_buffer n R D) = D.
Proof.
  intros Hlen.
  transitivity (seq 0 n ≫= fun i => (fun j => at2 D R i j) <$> seq 0 R);
    [|apply grid_buffer, Hlen].
  unfold transpose_buffer at 1.
  apply grid_ext. intros i j Hi Hj.
  unfold at2 at 1. unfold transpose_buffer.
  rewrite grid_lookup by assumption. reflexivity.
Qed.

(** *** Two identical volumes through [resized_stack] and back *)

Lemma Qc_of_nat_2 : Qc_of_nat 2 = 2.
Proof. apply Qc_is_canon. reflexivity. Qed.

Lemma half_of_twice (x : Qc) : (x + (x + 0)) / Qc_of_nat 2 = x.
Proof. rewrite Qc_of_nat_2. field. discriminate. Qed.

Lemma lookup_default_seq (T : list Qc) (R : nat) :
  length T = R -> (fun j => default 0 (T !! j)) <$> seq 0 R = T.
Proof.
  intros <-. apply list_eq. intros k. rewrite list_lookup_fmap.
  destruct (T !! k) as [x|] eqn:E.
  - rewrite lookup_seq_lt by (eapply lookup_lt_Some, E). simpl.
    rewrite E. reflexivity.
  - rewrite lookup_seq_ge by (apply lookup_ge_None; exact E). reflexivity.
Qed.

(** The mean over the model axis of two copies of one volume is the
    volume. *)
Lemma mean_of_twins (sh : list nat) (T : list Qc) :
  length T = prod_shape sh ->
  np_mean_axis0 {| shape := 2%nat :: sh; data := T ++ T |}
  = {| shape := sh; data := T |}.
Proof.
  intros Hlen. unfold np_mean_axis0. simpl. f_equal.
  transitivity ((fun j => default 0 (T !! j)) <$> seq 0 (prod_shape sh));
    [|apply lookup_default_seq, Hlen].
  apply list_fmap_ext. intros i j Hj. apply lookup_seq in Hj as [-> Hi].
  unfold at2. simpl.
  rewrite lookup_app_l by lia.
  replace (prod_shape sh + 0 + i)%nat with (length T + i)%nat by lia.
  rewrite lookup_app_r by lia.
  replace (length T + i - length T)%nat with i by lia.
  apply half_of_twice.
Qed.

Lemma keep_size_same_size : same_size_is_identity keep_size.
Proof.
  intros src k H1 Hk Hlen. unfold keep_size.
  rewrite decide_False by lia.
  rewrite decide_True by (split; [reflexivity|split; [exact Hk|exact H1]]).
  reflexivity.
Qed.

Lemma keep_size_keeps_channels : keeps_channels keep_size.
Proof.
  intros src dsize r _ H. unfold keep_size in H.
  destruct (decide (3 < length (shape src))%nat); [discriminate|].
  destruct dsize as [|h [|w [|? ?]]]; try discriminate.
  destruct (decide _); [|discriminate]. inversion H. reflexivity.
Qed.

(** The shape that [reshape] leaves has no axis of length one. *)
Lemma reshape_no_unit_axis (arr : ndarray) : 1%nat ∉ shape (reshape arr).
Proof.
  unfold reshape, np_squeeze. cbn [shape]. intros H.
  apply list_elem_of_filter in H as [H _]. apply H. reflexivity.
Qed.

Section Twins.

Variable cv2_resize : ndarray -> list nat -> result ndarray.

Hypothesis cv2_resize_same_size : same_size_is_identity cv2_resize.

Variables (S n : nat) (D : list Qc).
Hypothesis several_slices : S <> 1%nat.
Hypothesis several_pixels : n <> 1%nat.
Hypothesis buffer_size : length D = prod_shape [S; 1; n; n]%nat.

Let P : ndarray := {| shape := [S; 1; n; n]%nat; data := D |}.
Let T : list Qc := transpose_buffer S (prod_shape [1; n; n]%nat) D.

Lemma reshape_volume :
  reshape P = {| shape := [n; n; S]; data := T |}.
Proof.
  unfold reshape, np_squeeze, moveaxis_0_last. simpl. f_equal.
  rewrite !filter_cons, filter_nil.
  rewrite decide_False by (intros H; apply H; reflexivity).
  rewrite !(decide_True (P := n <> 1%nat)) by exact several_pixels.
  rewrite decide_True by exact several_slices. reflexivity.
Qed.

Lemma resized_stack_twins :
  resized_stack cv2_resize [P; P]
  = Ok {| shape := [2; n; n; S]%nat; data := T ++ T |}.
Proof.
  assert (Hsh : shape (reshape P) = [n; n; S])
    by (rewrite reshape_volume; reflexivity).
  unfold reshape, np_squeeze, moveaxis_0_last in Hsh. simpl in Hsh.
  unfold resized_stack. simpl. rewrite Nat.eqb_refl. simpl.
  rewrite reshape_volume, Hsh. simpl.
  pose proof (cv2_resize_same_size {| shape := [n; n; S]; data := T |} n)
    as Hr.
  rewrite Hr; [|rewrite <- reshape_volume; apply reshape_no_unit_axis
               |reflexivity|apply le_n]. simpl. unfold np_stack.
  rewrite bool_decide_eq_true_2 by (repeat constructor).
  simpl. rewrite app_nil_r. reflexivity.
Qed.

(** The volume that the second loop hands to [exam_preds_to_stat] is
    the volume both models predicted. *)
Lemma combined_volume_twins :
  expand_dims_1
    (moveaxis_last_0
       (np_mean_axis0 {| shape := [2; n; n; S]%nat; data := T ++ T |}))
  = Ok P.
Proof.
  rewrite mean_of_twins.
  2:{ subst T. rewrite transpose_buffer_length. simpl. lia. }
  unfold moveaxis_last_0. simpl. unfold expand_dims_1. simpl.
  subst P T. f_equal. f_equal.
  replace (prod_shape [1; n; n]%nat) with (prod_shape [n; n]%nat)
    by (simpl; lia).
  apply transpose_buffer_twice. rewrite buffer_size. simpl. lia.
Qed.

End Twins.

(** *** [exam_preds_to_stat] *)

Lemma square_nonzero (b : Qc) : b <> 0 -> b * b <> 0.
Proof.
  intros Hb H. apply Qcmult_integral in H. destruct H; contradiction.
Qed.

(** With the fields it reads in place and a non-zero target size,
    [exam_preds_to_stat] returns, and the dict holds the six values. *)
Lemma exam_stats_Ok (epsilon : Qc) (pred_vol ground_vol : ndarray)
    (pred_process : Qc -> Qc) (d : gmap string pyval) (pred_std : option root)
    (a b vv : Qc) (p m : string) :
  attrib_fields d a b vv p m -> b <> 0 ->
  exam_stats epsilon pred_vol ground_vol pred_process d pred_std
  = Ok (summary_of epsilon pred_vol ground_vol pred_process d pred_std
          a b vv p m).
Proof.
  intros ([tl Hdim] & [tl' Hres] & Hvv & Hp & Hm) Hb.
  unfold exam_stats, dict_item. rewrite Hdim, Hres, Hvv, Hp, Hm. simpl.
  unfold truediv. rewrite decide_False by (apply square_nonzero, Hb).
  reflexivity.
Qed.

(** The summary keeps the fields that were read. *)
Lemma summary_of_fields (epsilon : Qc) (pred_vol ground_vol : ndarray)
    (pred_process : Qc -> Qc) (d : gmap string pyval) (pred_std : option root)
    (a b vv : Qc) (p m : string) :
  attrib_fields d a b vv p m ->
  attrib_fields
    (summary_of epsilon pred_vol ground_vol pred_process d pred_std a b vv p m)
    a b vv p m.
Proof.
  intros ([tl Hdim] & [tl' Hres] & Hvv & Hp & Hm). unfold summary_of.
  split; [exists tl|split; [exists tl'|repeat split]];
    rewrite !lookup_insert_ne by done; assumption.
Qed.

Lemma summary_of_lookup (epsilon : Qc) (pred_vol ground_vol : ndarray)
    (pred_process : Qc -> Qc) (d : gmap string pyval) (pred_std : option root)
    (a b vv : Qc) (p m : string) :
  let d' := summary_of epsilon pred_vol ground_vol pred_process d pred_std
              a b vv p m in
  d' !! "Pred_stdev"%string = Some (option_root pred_std) /\
  d' !! "scale_factor"%string = Some (VNum (a * a / (b * b))) /\
  d' !! "study"%string = Some (VStr (p ++ m)) /\
  d' !! "patient_dice"%string
  = Some (VNum (Dice pred_process epsilon pred_vol ground_vol)) /\
  d' !! "TKV_Pred"%string
  = Some (VNum (a * a / (b * b) * vv * sumQ (pred_process <$> data pred_vol))) /\
  d' !! "TKV_GT"%string
  = Some (VNum (a * a / (b * b) * vv
                * sumQ (pred_process <$> data ground_vol))).
Proof.
  unfold summary_of. simpl.
  repeat split; rewrite ?lookup_insert_ne by done; apply lookup_insert_eq.
Qed.

Lemma exam_preds_to_stat_Ok (epsilon : Qc) (h : store)
    (pred_vol ground_vol : ndarray) (pred_process : Qc -> Qc) (r : ref)
    (pred_std : option root) (d : gmap string pyval)
    (a b vv : Qc) (p m : string) :
  h !! r = Some d -> attrib_fields d a b vv p m -> b <> 0 ->
  let d' := summary_of epsilon pred_vol ground_vol pred_process d pred_std
              a b vv p m in
  exam_preds_to_stat epsilon h pred_vol ground_vol pred_process r pred_std
  = Ok (r, <[r := d']> h) /\
  deref (<[r := d']> h) r = d'.
Proof.
  intros Hr Hd Hb d'. unfold exam_preds_to_stat, deref. rewrite Hr. simpl.
  rewrite (exam_stats_Ok _ _ _ _ _ _ a b vv p m Hd Hb).
  split; [reflexivity|].
  rewrite list_lookup_insert_eq by (eapply lookup_lt_Some, Hr). reflexivity.
Qed.

Lemma Qc_of_nat_S (k : nat) : Qc_of_nat (Datatypes.S k) = 1 + Qc_of_nat k.
Proof.
  unfold Qc_of_nat. rewrite Nat2Z.inj_succ, <- Z.add_1_l, Z2Qc_inj_add.
  rewrite Z2Qc_inj_1. reflexivity.
Qed.

(** The sum of a binarized volume is the number of its positive
    voxels. *)
Lemma sum_is_count (pred_process : Qc -> Qc) (a : ndarray) :
  binarizes pred_process ->
  sumQ (pred_process <$> data a)
  = Qc_of_nat (count_positive pred_process a).
Proof.
  intros Hbin. unfold count_positive, apply_process. simpl.
  induction (data a) as [|x D IH]; [symmetry; apply Z2Qc_inj_0|].
  rewrite fmap_cons, filter_cons. simpl. rewrite IH.
  destruct (Hbin x) as [Hx|Hx]; rewrite Hx.
  - rewrite decide_False by (intros H; inversion H).
    apply Qcplus_0_l.
  - rewrite decide_True by reflexivity. simpl. symmetry. apply Qc_of_nat_S.
Qed.

Lemma SigmoidBinarize_binarizes : binarizes SigmoidBinarize.
Proof.
  intros x. unfold SigmoidBinarize. destruct (decide (0 < x)); auto.
Qed.

Lemma sample_attrib_fields :
  attrib_fields sample_attrib (Qc_of_Z 4) (Qc_of_Z 2) (Q2Qc (3 # 2)) "P1" "MR1".
Proof. repeat split; try (eexists; reflexivity); reflexivity. Qed.

Lemma two_nonzero : Qc_of_Z 2 <> 0.
Proof. intros H. inversion H. Qed.

Lemma same_size_attrib_fields :
  attrib_fields same_size_attrib (Qc_of_Z 2) (Qc_of_Z 2) (Q2Qc (3 # 2))
    "P1" "MR1".
Proof. repeat split; try (eexists; reflexivity); reflexivity. Qed.

(** C3.  When [exam_preds_to_stat] has the fields it reads, with
    [dim[0] = a] and a resize target [transform_resize_dim[0] = b]
    other than zero, it returns with [scale_factor] set to
    [a * a / (b * b)], and [TKV_Pred] and [TKV_GT] set to that scale
    factor times voxel volume times the number of positive voxels of
    the binarized prediction, respectively ground-truth, volume.  With
    a scale factor of one, as when the images were not resized
    ([a = b]), this is the voxel count times the voxel volume. *)
Theorem TKV_is_scaled_count (epsilon : Qc) (h : store)
    (pred_vol ground_vol : ndarray) (pred_process : Qc -> Qc) (r : ref)
    (pred_std : option root) (d : gmap string pyval)
    (a b vox_vol : Qc) (p m : string) :
  h !! r = Some d -> attrib_fields d a b vox_vol p m -> b <> 0 ->
  binarizes pred_process ->
  let scale_factor := a * a / (b * b) in
  let pred_count := Qc_of_nat (count_positive pred_process pred_vol) in
  let ground_count := Qc_of_nat (count_positive pred_process ground_vol) in
  exists h',
    exam_preds_to_stat epsilon h pred_vol ground_vol pred_process r pred_std
    = Ok (r, h') /\
    deref h' r !! "scale_factor"%string = Some (VNum scale_factor) /\
    deref h' r !! "TKV_Pred"%string
    = Some (VNum (scale_factor * vox_vol * pred_count)) /\
    deref h' r !! "TKV_GT"%string
    = Some (VNum (scale_factor * vox_vol * ground_count)) /\
    (a = b -> scale_factor = 1) /\
    (scale_factor = 1 ->
     deref h' r !! "TKV_Pred"%string = Some (VNum (pred_count * vox_vol)) /\
     deref h' r !! "TKV_GT"%string = Some (VNum (ground_count * vox_vol))).
Proof.
  intros Hr Hd Hb Hbin scale_factor pred_count ground_count.
  destruct (exam_preds_to_stat_Ok epsilon h pred_vol ground_vol pred_process
              r pred_std d a b vox_vol p m Hr Hd Hb) as (Hex & Hde).
  destruct (summary_of_lookup epsilon pred_vol ground_vol pred_process d
              pred_std a b vox_vol p m) as (_ & Hsf & _ & _ & Hpred & Hgt).
  eexists.
  split; [exact Hex|]. rewrite Hde.
  unfold pred_count, ground_count.
  rewrite <- !(sum_is_count pred_process) by exact Hbin.
  split; [exact Hsf|]. split; [exact Hpred|]. split; [exact Hgt|].
  split.
  - intros ->. unfold scale_factor. field. exact Hb.
  - intros Hone. rewrite Hpred, Hgt. fold scale_factor. rewrite Hone.
    split; do 2 f_equal; ring.
Qed.

Ltac qc_value :=
  try (do 2 f_equal); try (apply Qc_is_canon); reflexivity.

Lemma TKV_is_scaled_count_witness :
  let ground :=
    {| shape := [2; 1; 2; 2]%nat; data := [1; 0; 0; 0; 0; 0; 0; 1] |} in
  (exists h',
     exam_preds_to_stat eps [sample_attrib] sample_pred_vol ground
       SigmoidBinarize 0 None = Ok (0%nat, h') /\
     deref h' 0 !! "scale_factor"%string = Some (VNum (Qc_of_Z 4)) /\
     deref h' 0 !! "TKV_Pred"%string = Some (VNum (Qc_of_Z 18)) /\
     deref h' 0 !! "TKV_GT"%string = Some (VNum (Qc_of_Z 12))) /\
  (exists h',
     exam_preds_to_stat eps [same_size_attrib] sample_pred_vol ground
       SigmoidBinarize 0 None = Ok (0%nat, h') /\
     deref h' 0 !! "scale_factor"%string = Some (VNum 1) /\
     deref h' 0 !! "TKV_Pred"%string = Some (VNum (Q2Qc (9 # 2))) /\
     deref h' 0 !! "TKV_GT"%string = Some (VNum (Qc_of_Z 3))).
Proof.
  intros ground. split.
  - destruct (TKV_is_scaled_count eps [sample_attrib] sample_pred_vol
                ground SigmoidBinarize 0 None sample_attrib
                (Qc_of_Z 4) (Qc_of_Z 2) (Q2Qc (3 # 2)) "P1" "MR1"
                eq_refl sample_attrib_fields two_nonzero
                SigmoidBinarize_binarizes)
      as (h' & Hex & Hsf & Hpred & Hgt & _).
    exists h'. split; [exact Hex|].
    split; [|split].
    + etransitivity; [exact Hsf|]. qc_value.
    + etransitivity; [exact Hpred|]. qc_value.
    + etransitivity; [exact Hgt|]. qc_value.
  - destruct (TKV_is_scaled_count eps [same_size_attrib] sample_pred_vol
                ground SigmoidBinarize 0 None same_size_attrib
                (Qc_of_Z 2) (Qc_of_Z 2) (Q2Qc (3 # 2)) "P1" "MR1"
                eq_refl same_size_attrib_fields two_nonzero
                SigmoidBinarize_binarizes)
      as (h' & Hex & Hsf & _ & _ & Hsame & Hone).
    destruct (Hone (Hsame eq_refl)) as [Hpred Hgt].
    exists h'. split; [exact Hex|].
    split; [|split].
    + etransitivity; [exact Hsf|]. do 2 f_equal. exact (Hsame eq_refl).
    + etransitivity; [exact Hpred|]. qc_value.
    + etransitivity; [exact Hgt|]. qc_value.
Defined.

(** C4.  The scale factor that [exam_preds_to_stat] stores is the
    square of the row count [dim[0]] over the square of the resize
    target [transform_resize_dim[0]], that is the square of their ratio;
    it is at least one whenever the target is positive and not above the
    row count. *)
Theorem scale_factor_is_squared_ratio (epsilon : Qc) (h : store)
    (pred_vol ground_vol : ndarray) (pred_process : Qc -> Qc) (r : ref)
    (pred_std : option root) (d : gmap string pyval)
    (a b vox_vol : Qc) (p m : string) :
  h !! r = Some d -> attrib_fields d a b vox_vol p m -> b <> 0 ->
  exists h',
    exam_preds_to_stat epsilon h pred_vol ground_vol pred_process r pred_std
    = Ok (r, h') /\
    deref h' r !! "scale_factor"%string = Some (VNum (a * a / (b * b))) /\
    a * a / (b * b) = (a / b) * (a / b) /\
    (0 < b -> b <= a -> 1 <= a * a / (b * b)).
Proof.
  intros Hr Hd Hb.
  destruct (exam_preds_to_stat_Ok epsilon h pred_vol ground_vol pred_process
              r pred_std d a b vox_vol p m Hr Hd Hb) as (Hex & Hde).
  destruct (summary_of_lookup epsilon pred_vol ground_vol pred_process d
              pred_std a b vox_vol p m) as (_ & Hsf & _).
  eexists. split; [exact Hex|]. rewrite Hde.
  split; [|split].
  - exact Hsf.
  - field. exact Hb.
  - intros Hpos Hle.
    assert (Hbb : 0 < b * b) by (apply Qcmult_pos_pos; assumption).
    apply (Qcmult_le_mono_pos_r _ _ (b * b) Hbb).
    replace (a * a / (b * b) * (b * b)) with (a * a)
      by (field; exact Hb).
    rewrite Qcmult_1_l.
    assert (Ha : 0 <= a)
      by (eapply Qcle_trans; [apply Qclt_le_weak, Hpos|exact Hle]).
    apply Qcle_trans with (a * b).
    + apply Qcmult_le_mono_nonneg_r; [apply Qclt_le_weak, Hpos|exact Hle].
    + apply Qcmult_le_mono_nonneg_l; assumption.
Qed.

Lemma scale_factor_is_squared_ratio_witness :
  [sample_attrib] !! 0%nat = Some sample_attrib /\
  Qc_of_Z 2 <> 0 /\
  exists h',
    exam_preds_to_stat eps [sample_attrib] sample_pred_vol sample_ground_vol
      SigmoidBinarize 0 None = Ok (0%nat, h') /\
    deref h' 0 !! "scale_factor"%string
    = Some (VNum (Qc_of_Z 4 * Qc_of_Z 4 / (Qc_of_Z 2 * Qc_of_Z 2))) /\
    1 <= Qc_of_Z 4 * Qc_of_Z 4 / (Qc_of_Z 2 * Qc_of_Z 2).
Proof.
  split; [reflexivity|]. split; [exact two_nonzero|].
  destruct (scale_factor_is_squared_ratio eps [sample_attrib] sample_pred_vol
              sample_ground_vol SigmoidBinarize 0 None sample_attrib
              (Qc_of_Z 4) (Qc_of_Z 2) (Q2Qc (3 # 2)) "P1" "MR1"
              eq_refl sample_attrib_fields two_nonzero)
    as (h' & Hex & Hsf & _ & Hge).
  exists h'. split; [exact Hex|]. split; [exact Hsf|].
  apply Hge; vm_compute; [reflexivity|discriminate].
Defined.

(** *** Dice *)

Lemma SigmoidBinarize_binary (x : Qc) :
  x = 0 \/ x = 1 -> SigmoidBinarize x = x.
Proof. intros [->| ->]; reflexivity. Qed.

Lemma binarize_binary (D : list Qc) :
  Forall (fun x => x = 0 \/ x = 1) D -> SigmoidBinarize <$> D = D.
Proof.
  induction 1 as [|x D Hx _ IH]; [reflexivity|].
  rewrite fmap_cons, IH, (SigmoidBinarize_binary x Hx). reflexivity.
Qed.

Lemma sum_squares_binary (D : list Qc) :
  Forall (fun x => x = 0 \/ x = 1) D -> sumQ (zip_with Qcmult D D) = sumQ D.
Proof.
  induction 1 as [|x D Hx _ IH]; [reflexivity|].
  simpl. rewrite IH. f_equal. destruct Hx as [->| ->]; ring.
Qed.

Lemma sum_products_empty (D Z : list Qc) :
  Forall (fun x => x = 0) Z -> sumQ (zip_with Qcmult D Z) = 0.
Proof.
  intros HZ. revert D. induction HZ as [|z Z Hz _ IH]; intros [|x D];
    try reflexivity.
  simpl. rewrite IH, Hz. ring.
Qed.

Lemma sum_empty (Z : list Qc) : Forall (fun x => x = 0) Z -> sumQ Z = 0.
Proof.
  induction 1 as [|z Z Hz _ IH]; [reflexivity|].
  simpl. rewrite IH, Hz. ring.
Qed.

Lemma sum_binary_nonneg (D : list Qc) :
  Forall (fun x => x = 0 \/ x = 1) D -> 0 <= sumQ D.
Proof.
  induction 1 as [|x D Hx _ IH]; [apply Qcle_refl|].
  simpl. apply Qcplus_nonneg_nonneg; [|exact IH].
  destruct Hx as [->| ->]; [apply Qcle_refl|discriminate].
Qed.

Lemma sum_binary_pos (D : list Qc) :
  Forall (fun x => x = 0 \/ x = 1) D -> Exists (fun x => x = 1) D ->
  0 < sumQ D.
Proof.
  intros Hbin Hex. induction Hex as [x D Hx|x D Hex IH];
    apply Forall_cons in Hbin as [Hb Hbin]; simpl.
  - subst x. apply Qcplus_pos_nonneg; [reflexivity|].
    apply sum_binary_nonneg, Hbin.
  - apply Qcplus_nonneg_pos; [|apply IH, Hbin].
    destruct Hb as [->| ->]; [apply Qcle_refl|discriminate].
Qed.

(** C5.  With a positive smoothing term [epsilon]: the Dice value that
    the statistics engine stores is (2|P n G| + e)/(|P| + |G| + e), the
    products and sums running over all voxels of the binarized prediction
    [P] and of the ground truth [G] at once; a non-empty binary volume
    has Dice 1 with itself; against an empty ground truth its Dice is
    e/(|P| + e), which is below 1. *)
Theorem Dice_of_whole_volumes (epsilon : Qc) :
  0 < epsilon ->
  (forall (h : store) (pred_vol ground_vol : ndarray) (r : ref)
          (pred_std : option root) (d : gmap string pyval)
          (a b vox_vol : Qc) (p m : string),
     h !! r = Some d -> attrib_fields d a b vox_vol p m -> b <> 0 ->
     exists h',
       exam_preds_to_stat epsilon h pred_vol ground_vol SigmoidBinarize r
         pred_std = Ok (r, h') /\
       deref h' r !! "patient_dice"%string
       = Some (VNum
           ((2 * sumQ (zip_with Qcmult
                         (data (apply_process SigmoidBinarize pred_vol))
                         (data ground_vol)) + epsilon)
            / (sumQ (data (apply_process SigmoidBinarize pred_vol))
               + sumQ (data ground_vol) + epsilon)))) /\
  (forall P : ndarray,
     binary_volume P -> non_empty_volume P ->
     Dice SigmoidBinarize epsilon P P = 1) /\
  (forall P Z : ndarray,
     binary_volume P -> non_empty_volume P -> empty_volume Z ->
     Dice SigmoidBinarize epsilon P Z
     = epsilon / (Qc_of_nat (count_positive SigmoidBinarize P) + epsilon) /\
     Dice SigmoidBinarize epsilon P Z < 1).
Proof.
  intros Heps. split; [|split].
  - intros h pred_vol ground_vol r pred_std d a b vox_vol p m Hr Hd Hb.
    destruct (exam_preds_to_stat_Ok epsilon h pred_vol ground_vol
                SigmoidBinarize r pred_std d a b vox_vol p m Hr Hd Hb)
      as (Hex & Hde).
    destruct (summary_of_lookup epsilon pred_vol ground_vol SigmoidBinarize d
                pred_std a b vox_vol p m) as (_ & _ & _ & Hdice & _).
    eexists. split; [exact Hex|]. rewrite Hde. exact Hdice.
  - intros P Hbin Hne. unfold Dice.
    rewrite (binarize_binary _ Hbin), (sum_squares_binary _ Hbin).
    pose proof (sum_binary_pos _ Hbin Hne) as Hpos.
    field. intros Hz.
    assert (Hlt : 0 < sumQ (data P) + sumQ (data P) + epsilon).
    { apply Qcplus_pos_pos; [apply Qcplus_pos_pos; exact Hpos|exact Heps]. }
    rewrite Hz in Hlt. inversion Hlt.
  - intros P Z Hbin Hne Hempty. unfold Dice.
    rewrite (sum_products_empty _ _ Hempty), (sum_empty _ Hempty).
    rewrite <- (sum_is_count SigmoidBinarize P SigmoidBinarize_binarizes).
    rewrite (binarize_binary _ Hbin).
    pose proof (sum_binary_pos _ Hbin Hne) as Hpos.
    assert (Hden : 0 < sumQ (data P) + epsilon)
      by (apply Qcplus_pos_pos; assumption).
    assert (Hnz : sumQ (data P) + epsilon <> 0).
    { intros Hz. rewrite Hz in Hden. inversion Hden. }
    replace ((2 * 0 + epsilon) / (sumQ (data P) + 0 + epsilon))
      with (epsilon / (sumQ (data P) + epsilon)) by (field; exact Hnz).
    split; [reflexivity|].
    apply (Qcmult_lt_mono_pos_r _ _ (sumQ (data P) + epsilon) Hden).
    replace (epsilon / (sumQ (data P) + epsilon) * (sumQ (data P) + epsilon))
      with epsilon by (field; exact Hnz).
    rewrite Qcmult_1_l.
    rewrite <- (Qcplus_0_l epsilon) at 1.
    apply Qcplus_lt_mono_r. exact Hpos.
Qed.

Lemma eps_positive : 0 < eps.
Proof. reflexivity. Qed.

Lemma sample_pred_binary :
  binary_volume sample_pred_vol /\ non_empty_volume sample_pred_vol.
Proof.
  split.
  - unfold binary_volume. simpl.
    repeat (apply Forall_cons; split;
            [first [left; reflexivity|right; reflexivity]|]).
    apply Forall_nil_2.
  - constructor. reflexivity.
Qed.

Lemma Dice_of_whole_volumes_witness :
  0 < eps /\
  Dice SigmoidBinarize eps sample_pred_vol sample_pred_vol = 1.
Proof.
  split; [exact eps_positive|].
  destruct (Dice_of_whole_volumes eps eps_positive) as (_ & Hself & _).
  apply Hself; apply sample_pred_binary.
Defined.

(** *** Failures during aggregation *)

Lemma foldM_raise {S A} (body : S -> A -> result S) (l : list A) (x : A) :
  x ∈ l -> (forall st, exists e, body st x = Raise e) ->
  forall st, exists e, foldM body st l = Raise e.
Proof.
  intros Hx Hraise. induction l as [|y l IH]; intros st.
  - apply elem_of_nil in Hx. contradiction.
  - simpl. apply elem_of_cons in Hx as [<-|Hx].
    + destruct (Hraise st) as [e He]. rewrite He. eauto.
    + destruct (body st y) as [st'|e]; simpl; [apply IH, Hx|eauto].
Qed.

Section Aggregation.

Variable epsilon : Qc.
Variable cv2_resize : ndarray -> list nat -> result ndarray.

Lemma process_study_empty (st : stats) (sd : study_dir) :
  imgs sd = [] -> process_study epsilon st sd = Raise "ValueError".
Proof. intros Himgs. unfold process_study. rewrite Himgs. reflexivity. Qed.

Lemma process_study_no_attribs (st : stats) (sd : study_dir)
    (I P G : ndarray) :
  np_stack (imgs sd) = Ok I -> np_stack (preds sd) = Ok P ->
  np_stack (grounds sd) = Ok G -> attribs sd = [] ->
  process_study epsilon st sd = Raise "IndexError".
Proof.
  intros HI HP HG Hat. unfold process_study.
  rewrite HI, HP, HG, Hat. reflexivity.
Qed.

Lemma run_aborts (model_inferences : list model_dir) (output : bool)
    (m : model_dir) (sd : study_dir) :
  m ∈ model_inferences -> sd ∈ studies m ->
  (forall st, exists e, process_study epsilon st sd = Raise e) ->
  exists e,
    compute_inference_stats epsilon cv2_resize model_inferences output
    = Raise e.
Proof.
  intros Hm Hsd Hraise. unfold compute_inference_stats.
  destruct (foldM_raise (process_model epsilon output) model_inferences m Hm)
    with (st := init_stats) as [e He].
  - intros st. unfold process_model.
    destruct (foldM_raise (process_study epsilon) (studies m) sd Hsd Hraise st)
      as [e He].
    rewrite He. eauto.
  - rewrite He. eauto.
Qed.

(** C8 (as amended).  A study directory without slice artifacts makes
    [np.stack] raise [ValueError], and a study directory with slices but
    no attribute file makes [attribs_dicts[0]] raise [IndexError];
    nothing catches either, so a run that holds such a directory does
    not complete. *)
Theorem empty_study_aborts_run (model_inferences : list model_dir)
    (output : bool) (m : model_dir) (sd : study_dir) :
  m ∈ model_inferences -> sd ∈ studies m ->
  (imgs sd = [] ->
   (forall st, process_study epsilon st sd = Raise "ValueError") /\
   exists e,
     compute_inference_stats epsilon cv2_resize model_inferences output
     = Raise e) /\
  (forall I P G,
     np_stack (imgs sd) = Ok I -> np_stack (preds sd) = Ok P ->
     np_stack (grounds sd) = Ok G -> attribs sd = [] ->
     (forall st, process_study epsilon st sd = Raise "IndexError") /\
     exists e,
       compute_inference_stats epsilon cv2_resize model_inferences output
       = Raise e).
Proof.
  intros Hm Hsd. split.
  - intros Himgs.
    assert (H : forall st, process_study epsilon st sd = Raise "ValueError")
      by (intros st; apply process_study_empty, Himgs).
    split; [exact H|].
    eapply run_aborts; eauto.
  - intros I P G HI HP HG Hat.
    assert (H : forall st, process_study epsilon st sd = Raise "IndexError")
      by (intros st; eapply process_study_no_attribs; eassumption).
    split; [exact H|].
    eapply run_aborts; eauto.
Qed.

Lemma list_getitem_head {A} (x : A) (l : list A) :
  list_getitem (x :: l) 0 = Ok x.
Proof.
  unfold list_getitem. simpl.
  destruct (Z.leb_spec (Z.pos (Pos.of_succ_nat (length l))) 0); [lia|].
  reflexivity.
Qed.

(** A study directory with its volumes and attributes in place adds one
    summary, kept in the dict object loaded for its first slice. *)
Lemma process_study_Ok (st : stats) (sd : study_dir) (I P G : ndarray)
    (d : gmap string pyval) (tl : list (gmap string pyval))
    (a b vv : Qc) (p m : string) :
  np_stack (imgs sd) = Ok I -> np_stack (preds sd) = Ok P ->
  np_stack (grounds sd) = Ok G -> attribs sd = d :: tl ->
  attrib_fields d a b vv p m -> b <> 0 ->
  let r := length (heap st) in
  let key := (p ++ m)%string in
  process_study epsilon st sd
  = Ok {| Metric_data := odict_set key r (Metric_data st);
          Combined_metric_data := Combined_metric_data st;
          all_pred_vol := odict_append key P (all_pred_vol st);
          all_ground_vol := odict_append key G (all_ground_vol st);
          all_summaries := odict_append key r (all_summaries st);
          stacked_pred_vol := stacked_pred_vol st;
          heap := <[r := summary_of epsilon P G SigmoidBinarize d None
                           a b vv p m]> (heap st ++ d :: tl);
          csvs := csvs st |}.
Proof.
  intros HI HP HG Hat Hd Hb r key. unfold process_study.
  rewrite HI, HP, HG, Hat. cbn [bind length seq].
  rewrite list_getitem_head. cbn [bind].
  assert (Hr : (heap st ++ d :: tl) !! r = Some d)
    by (apply list_lookup_middle; reflexivity).
  destruct (exam_preds_to_stat_Ok epsilon (heap st ++ d :: tl) P G
              SigmoidBinarize r None d a b vv p m Hr Hd Hb) as (Hex & Hde).
  fold r. rewrite Hex. cbn [bind]. rewrite Hde.
  destruct (summary_of_lookup epsilon P G SigmoidBinarize d None a b vv p m)
    as (_ & _ & Hstudy & _).
  unfold dict_item. rewrite Hstudy. reflexivity.
Qed.

End Aggregation.

(** *** The standard deviation over a whole array *)

Lemma square_nonneg (y : Qc) : 0 <= y * y.
Proof.
  destruct (Qclt_le_dec y 0) as [Hneg|Hpos].
  - replace (y * y) with ((- y) * (- y)) by ring.
    assert (0 <= - y).
    { apply Qclt_le_weak in Hneg. apply Qcopp_le_compat in Hneg.
      exact Hneg. }
    apply Qcmult_nonneg_nonneg; assumption.
  - apply Qcmult_nonneg_nonneg; assumption.
Qed.

Lemma square_zero (y : Qc) : y * y = 0 -> y = 0.
Proof. intros H. apply Qcmult_integral in H. destruct H; assumption. Qed.

Lemma sumQ_nonneg (l : list Qc) : Forall (fun x => 0 <= x) l -> 0 <= sumQ l.
Proof.
  induction 1 as [|x l Hx _ IH]; [apply Qcle_refl|].
  simpl. apply Qcplus_nonneg_nonneg; assumption.
Qed.

Lemma sumQ_zero (l : list Qc) :
  Forall (fun x => 0 <= x) l -> sumQ l = 0 -> Forall (fun x => x = 0) l.
Proof.
  induction 1 as [|x l Hx Hl IH]; intros Hsum; [constructor|].
  simpl in Hsum. pose proof (sumQ_nonneg l Hl) as Hs.
  assert (Hx0 : x = 0).
  { apply Qcle_antisym; [|exact Hx].
    rewrite <- Hsum. rewrite <- (Qcplus_0_r x) at 1.
    apply Qcplus_le_mono_l. exact Hs. }
  constructor; [exact Hx0|]. apply IH.
  rewrite Hx0, Qcplus_0_l in Hsum. exact Hsum.
Qed.

Lemma sumQ_const (c : Qc) (l : list Qc) :
  Forall (fun x => x = c) l -> sumQ l = Qc_of_nat (length l) * c.
Proof.
  induction 1 as [|x l Hx _ IH].
  - simpl. replace (Qc_of_nat 0) with (Q2Qc 0)
      by (apply Qc_is_canon; reflexivity). ring.
  - simpl length. rewrite Qc_of_nat_S. simpl. rewrite IH, Hx. ring.
Qed.

Lemma Qc_of_nat_pos (k : nat) : 0 < Qc_of_nat (Datatypes.S k).
Proof.
  unfold Qc_of_nat. rewrite <- Z2Qc_inj_0.
  apply (proj1 (Z2Qc_inj_lt 0 (Z.of_nat (Datatypes.S k)))). lia.
Qed.

(** [np.std] of an array is zero exactly when all its entries are one
    value. *)
Lemma np_std_zero_iff (a : ndarray) :
  data a <> [] ->
  root_is_zero (np_std a) <-> forall x y, x ∈ data a -> y ∈ data a -> x = y.
Proof.
  intros Hne. unfold np_std, root_is_zero.
  destruct (data a) as [|x0 D] eqn:E; [contradiction|]. clear Hne.
  set (N := Qc_of_nat (length (x0 :: D))).
  assert (HN : N <> 0).
  { intros H0. pose proof (Qc_of_nat_pos (length D)) as Hpos.
    subst N. simpl length in H0. rewrite H0 in Hpos. inversion Hpos. }
  set (mean := sumQ (x0 :: D) / N).
  split.
  - intros Hv.
    assert (Hsum : sumQ ((fun x => (x - mean) * (x - mean)) <$> x0 :: D) = 0).
    { apply (Qcmult_integral_l (/ N)).
      - intros Hinv. apply HN.
        rewrite <- (Qcmult_1_l N), <- (Qcmult_inv_r N HN) at 1.
        rewrite Hinv. ring.
      - rewrite Qcmult_comm. exact Hv. }
    apply sumQ_zero in Hsum.
    2:{ apply Forall_fmap, Forall_forall. intros x _. apply square_nonneg. }
    rewrite Forall_fmap, Forall_forall in Hsum.
    assert (Hall : forall x, x ∈ x0 :: D -> x = mean).
    { intros x Hx. specialize (Hsum x Hx). simpl in Hsum.
      apply square_zero in Hsum.
      rewrite <- (Qcplus_0_l mean), <- Hsum. ring. }
    intros x y Hx Hy. rewrite (Hall x Hx), (Hall y Hy). reflexivity.
  - intros Hall.
    assert (Hc : Forall (fun x => x = x0) (x0 :: D)).
    { apply Forall_forall. intros x Hx. apply Hall; [exact Hx|left]. }
    assert (Hmean : mean = x0).
    { subst mean. rewrite (sumQ_const x0 _ Hc). fold N. field. exact HN. }
    assert (Hsum : sumQ ((fun x => (x - mean) * (x - mean)) <$> x0 :: D) = 0).
    { apply sum_empty. apply Forall_fmap, Forall_forall. intros x Hx.
      simpl. rewrite Forall_forall in Hc. rewrite (Hc x Hx), Hmean. ring. }
    rewrite Hsum. field. exact HN.
Qed.

(** A transposed buffer holds the entries of the buffer. *)
Lemma transpose_buffer_elem_1 (k R : nat) (D : list Qc) (x : Qc) :
  length D = (k * R)%nat -> x ∈ transpose_buffer k R D -> x ∈ D.
Proof.
  intros Hlen Hx. unfold transpose_buffer in Hx.
  apply list_elem_of_bind in Hx as (j & Hx & Hj).
  apply list_elem_of_fmap in Hx as (i & -> & Hi).
  apply elem_of_seq in Hj, Hi.
  unfold at2.
  destruct (lookup_lt_is_Some_2 D (i * R + j)) as [y Hy]; [nia|].
  rewrite Hy. simpl. apply list_elem_of_lookup. eauto.
Qed.

Lemma transpose_buffer_elem (k R : nat) (D : list Qc) (x : Qc) :
  length D = (k * R)%nat -> x ∈ transpose_buffer k R D <-> x ∈ D.
Proof.
  intros Hlen. split; [apply transpose_buffer_elem_1, Hlen|].
  intros Hx. rewrite <- (transpose_buffer_twice k R D Hlen) in Hx.
  apply transpose_buffer_elem_1 in Hx; [exact Hx|].
  apply transpose_buffer_length.
Qed.

Lemma nonempty_elem {A} (l : list A) : l <> [] -> exists x, x ∈ l.
Proof. destruct l as [|x l]; [contradiction|]. intros _. exists x. left. Qed.

(** *** What a returning call has done *)

Ltac bind_inv H :=
  repeat match type of H with
         | bind ?e _ = Ok _ =>
             let E := fresh "E" in
             destruct e eqn:E; simpl in H; [|discriminate H]
         end.

Lemma exam_stats_frame (epsilon : Qc) (pred_vol ground_vol : ndarray)
    (pred_process : Qc -> Qc) (d d' : gmap string pyval)
    (pred_std : option root) :
  exam_stats epsilon pred_vol ground_vol pred_process d pred_std = Ok d' ->
  forall k, k ∉ summary_keys -> d' !! k = d !! k.
Proof.
  intros H k Hk. unfold exam_stats in H. bind_inv H.
  inversion H as [Hd']. clear H.
  rewrite !lookup_insert_ne; [reflexivity|..];
    intros <-; apply Hk; unfold summary_keys;
    repeat first [left; reflexivity|right].
Qed.

Lemma exam_preds_to_stat_inv (epsilon : Qc) (h h' : store)
    (pred_vol ground_vol : ndarray) (pred_process : Qc -> Qc) (r r' : ref)
    (pred_std : option root) :
  exam_preds_to_stat epsilon h pred_vol ground_vol pred_process r pred_std
  = Ok (r', h') ->
  r' = r /\
  exists d',
    exam_stats epsilon pred_vol ground_vol pred_process (deref h r) pred_std
    = Ok d' /\
    h' = <[r := d']> h.
Proof.
  intros H. unfold exam_preds_to_stat in H. bind_inv H.
  inversion H; subst. split; [reflexivity|]. eauto.
Qed.

(** The combined call of the second loop writes into the first summary
    stored for the study, and that reference is what
    [Combined_metric_data] receives. *)
Lemma combine_study_shares (epsilon : Qc)
    (cv2_resize : ndarray -> list nat -> result ndarray) (st st' : stats)
    (key : string) (value : list ndarray) :
  combine_study epsilon cv2_resize st (key, value) = Ok st' ->
  exists r rest d' key',
    odict_get key (all_summaries st) = Some (r :: rest) /\
    heap st' = <[r := d']> (heap st) /\
    Combined_metric_data st' = odict_set key' r (Combined_metric_data st) /\
    all_summaries st' = all_summaries st /\
    forall k, k ∉ summary_keys -> d' !! k = deref (heap st) r !! k.
Proof.
  intros H. unfold combine_study in H. bind_inv H.
  match type of H with
  | context [let '(_, _) := ?x in _] => destruct x as [summary h']
  end.
  bind_inv H. inversion H; subst; clear H. simpl.
  match goal with
  | E : exam_preds_to_stat _ _ _ _ _ _ _ = Ok _ |- _ =>
      apply exam_preds_to_stat_inv in E as (-> & d' & Hd' & ->)
  end.
  match goal with
  | E : list_getitem (default [] (odict_get key (all_summaries st))) 0 = Ok ?r
    |- _ => rename E into Eget; rename r into r0
  end.
  destruct (odict_get key (all_summaries st)) as [[|r rest]|] eqn:Hsum;
    try (unfold list_getitem in Eget; simpl in Eget; discriminate Eget).
  simpl in Eget. rewrite list_getitem_head in Eget. inversion Eget; subst.
  eexists r0, rest, d', _. repeat split; try reflexivity.
  eapply exam_stats_frame; eassumption.
Qed.

(** *** Two models, one study, identical predictions *)

Lemma odict_set_same {V} (k : string) (v v' : V) (d : list (string * V)) :
  odict_set k v ((k, v') :: d) = (k, v) :: d.
Proof. simpl. rewrite decide_True by reflexivity. reflexivity. Qed.

Lemma odict_get_same {V} (k : string) (v : V) (d : list (string * V)) :
  odict_get k ((k, v) :: d) = Some v.
Proof. simpl. rewrite decide_True by reflexivity. reflexivity. Qed.

Lemma odict_append_nil {V} (k : string) (v : V) :
  odict_append k v [] = [(k, [v])].
Proof. reflexivity. Qed.

Lemma odict_append_same {V} (k : string) (v : V) (l : list V)
    (d : list (string * list V)) :
  odict_append k v ((k, l) :: d) = (k, l ++ [v]) :: d.
Proof.
  unfold odict_append. rewrite odict_get_same, odict_set_same. reflexivity.
Qed.

Section TwoModels.

Variable epsilon : Qc.
Variable cv2_resize : ndarray -> list nat -> result ndarray.
Hypothesis cv2_resize_same_size : same_size_is_identity cv2_resize.

Variables (S n : nat) (D : list Qc).
Hypothesis several_slices : S <> 1%nat.
Hypothesis several_pixels : n <> 1%nat.
Hypothesis buffer_size : length D = prod_shape [S; 1; n; n]%nat.

Variables (m1 m2 : model_dir) (sd1 sd2 : study_dir).
Variables (I1 I2 G1 G2 : ndarray).
Variables (d1 d2 : gmap string pyval) (tl1 tl2 : list (gmap string pyval)).
Variables (a1 b1 v1 a2 b2 v2 : Qc) (p m : string).

Hypothesis one_study_1 : studies m1 = [sd1].
Hypothesis one_study_2 : studies m2 = [sd2].
Hypothesis imgs_1 : np_stack (imgs sd1) = Ok I1.
Hypothesis imgs_2 : np_stack (imgs sd2) = Ok I2.
Hypothesis preds_1 :
  np_stack (preds sd1) = Ok {| shape := [S; 1; n; n]%nat; data := D |}.
Hypothesis preds_2 :
  np_stack (preds sd2) = Ok {| shape := [S; 1; n; n]%nat; data := D |}.
Hypothesis grounds_1 : np_stack (grounds sd1) = Ok G1.
Hypothesis grounds_2 : np_stack (grounds sd2) = Ok G2.
Hypothesis attribs_1 : attribs sd1 = d1 :: tl1.
Hypothesis attribs_2 : attribs sd2 = d2 :: tl2.
Hypothesis fields_1 : attrib_fields d1 a1 b1 v1 p m.
Hypothesis fields_2 : attrib_fields d2 a2 b2 v2 p m.
Hypothesis target_1 : b1 <> 0.
Hypothesis target_2 : b2 <> 0.

(** The state in which the run of the two models ends. *)
Lemma two_models_run (output : bool) :
  let P := {| shape := [S; 1; n; n]%nat; data := D |} in
  let key := (p ++ m)%string in
  let n1 := Datatypes.S (length tl1) in
  let s1 := summary_of epsilon P G1 SigmoidBinarize d1 None a1 b1 v1 p m in
  let s2 := summary_of epsilon P G2 SigmoidBinarize d2 None a2 b2 v2 p m in
  let heap2 := <[n1 := s2]> ((s1 :: tl1) ++ d2 :: tl2) in
  exists stacked st,
    resized_stack cv2_resize [P; P] = Ok stacked /\
    compute_inference_stats epsilon cv2_resize [m1; m2] output = Ok st /\
    Metric_data st = [(key, n1)] /\
    Combined_metric_data st = [(key, 0%nat)] /\
    all_summaries st = [(key, [0%nat; n1])] /\
    heap st
    = <[0%nat := summary_of epsilon P G1 SigmoidBinarize s1
                   (Some (np_std stacked)) a1 b1 v1 p m]> heap2 /\
    stacked_pred_vol st = [(key, stacked)] /\
    data stacked
    = transpose_buffer S (prod_shape [1; n; n]%nat) D
      ++ transpose_buffer S (prod_shape [1; n; n]%nat) D /\
    csvs st
    = if output
      then [(("stats-" ++ model_name m1 ++ ".csv")%string, [(key, s1)]);
            (("stats-" ++ model_name m2 ++ ".csv")%string, [(key, s2)]);
            ("stats-combined_models.csv"%string,
             [(key, summary_of epsilon P G1 SigmoidBinarize s1
                      (Some (np_std stacked)) a1 b1 v1 p m)])]
      else [].
Proof.
  intros P key n1 s1 s2 heap2.
  eexists _, _. split; [apply resized_stack_twins; assumption|].
  unfold compute_inference_stats.
  cbn [foldM]. unfold process_model at 1. rewrite one_study_1. cbn [foldM].
  rewrite (process_study_Ok epsilon init_stats sd1 I1 P G1 d1 tl1 a1 b1 v1 p m
             imgs_1 preds_1 grounds_1 attribs_1 fields_1 target_1).
  cbn [bind heap Metric_data Combined_metric_data all_pred_vol all_ground_vol
       all_summaries stacked_pred_vol csvs init_stats length app].
  rewrite !odict_append_nil. cbn [odict_set app].
  unfold process_model at 1. rewrite one_study_2. cbn [foldM].
  erewrite (process_study_Ok epsilon _ sd2 I2 P G2 d2 tl2 a2 b2 v2 p m
              imgs_2 preds_2 grounds_2 attribs_2 fields_2 target_2).
  cbn [bind heap Metric_data Combined_metric_data all_pred_vol all_ground_vol
       all_summaries stacked_pred_vol csvs].
  rewrite !odict_append_same, odict_set_same. cbn [app].
  change (<[0%nat := summary_of epsilon P G1 SigmoidBinarize d1 None
                       a1 b1 v1 p m]> (d1 :: tl1)) with (s1 :: tl1).
  change (length (s1 :: tl1)) with n1.
  fold s2. fold key. fold heap2.
  cbn [foldM all_pred_vol]. unfold combine_study at 1.
  cbn [all_ground_vol all_summaries heap Metric_data Combined_metric_data
       all_pred_vol stacked_pred_vol csvs].
  set (T := transpose_buffer S (prod_shape [1; n; n]%nat) D).
  assert (Hrs : resized_stack cv2_resize [P; P]
                = Ok {| shape := [2; n; n; S]%nat; data := T ++ T |})
    by (apply resized_stack_twins; assumption).
  assert (Hcv : expand_dims_1
                  (moveaxis_last_0
                     (np_mean_axis0
                        {| shape := [2; n; n; S]%nat; data := T ++ T |}))
                = Ok P)
    by (apply combined_volume_twins; assumption).
  rewrite Hrs. cbn [bind]. rewrite Hcv. cbn [bind].
  rewrite !odict_get_same. cbn [from_option id].
  rewrite !list_getitem_head. cbn [bind].
  set (stacked := {| shape := [2; n; n; S]%nat; data := T ++ T |}).
  assert (Hh0 : heap2 !! 0%nat = Some s1) by reflexivity.
  assert (Hf1 : attrib_fields s1 a1 b1 v1 p m)
    by (apply summary_of_fields, fields_1).
  destruct (exam_preds_to_stat_Ok epsilon heap2 P G1 SigmoidBinarize 0
              (Some (np_std stacked)) s1 a1 b1 v1 p m Hh0 Hf1 target_1)
    as (Hex & Hde).
  rewrite Hex. cbn [bind]. rewrite Hde.
  destruct (summary_of_lookup epsilon P G1 SigmoidBinarize s1
              (Some (np_std stacked)) a1 b1 v1 p m) as (_ & _ & Hstudy & _).
  unfold dict_item. rewrite Hstudy. cbn [bind as_key].
  fold key. cbn [odict_set Metric_data Combined_metric_data all_pred_vol
                 all_ground_vol all_summaries stacked_pred_vol heap csvs].
  split; [reflexivity|]. split; [reflexivity|]. split; [reflexivity|].
  split; [reflexivity|]. split; [reflexivity|]. split; [reflexivity|].
  split; [reflexivity|].
  unfold to_frame. cbn [fmap list_fmap fst snd csvs].
  unfold stacked, T in *. rewrite Hde.
  assert (Hd2 : deref heap2 n1 = s2).
  { unfold deref, heap2.
    rewrite list_lookup_insert_eq; [reflexivity|].
    rewrite length_app. simpl. lia. }
  rewrite Hd2.
  destruct output; reflexivity.
Qed.



(** C9.  [exam_preds_to_stat] returns the reference it was given and
    replaces the dict behind it by one that differs at most under the
    six summary keys, all other dict objects untouched: so it does
    when the fields it reads are in place, and so has every call that
    returned.  Each turn of the second loop therefore hands
    [Combined_metric_data] the reference stored first in
    [all_summaries] for the study.  In the run of the two models these
    are one reference, and the dict behind it, written with
    [Pred_stdev = None] for the first model, ends with the values of the
    combined call. *)
Theorem summary_object_is_shared (output : bool) :
  let P := {| shape := [S; 1; n; n]%nat; data := D |} in
  let key := (p ++ m)%string in
  (forall (h : store) (pred_vol ground_vol : ndarray)
          (pred_process : Qc -> Qc) (r : ref) (pred_std : option root)
          (d : gmap string pyval) (a b vv : Qc) (p' m' : string),
     h !! r = Some d -> attrib_fields d a b vv p' m' -> b <> 0 ->
     exists d',
       exam_preds_to_stat epsilon h pred_vol ground_vol pred_process r
         pred_std = Ok (r, <[r := d']> h) /\
       (forall k, k ∉ summary_keys -> d' !! k = d !! k) /\
       (forall k, k ∈ summary_keys -> is_Some (d' !! k)) /\
       (forall r', r' <> r -> <[r := d']> h !! r' = h !! r')) /\
  (forall (h h' : store) (pred_vol ground_vol : ndarray)
          (pred_process : Qc -> Qc) (r r' : ref) (pred_std : option root),
     exam_preds_to_stat epsilon h pred_vol ground_vol pred_process r
       pred_std = Ok (r', h') ->
     r' = r /\
     (forall r'', r'' <> r -> h' !! r'' = h !! r'') /\
     (forall k, k ∉ summary_keys -> deref h' r !! k = deref h r !! k)) /\
  (forall (st st' : stats) (key' : string) (value : list ndarray),
     combine_study epsilon cv2_resize st (key', value) = Ok st' ->
     exists r rest study,
       odict_get key' (all_summaries st) = Some (r :: rest) /\
       all_summaries st' = all_summaries st /\
       Combined_metric_data st'
       = odict_set study r (Combined_metric_data st) /\
       (forall r'', r'' <> r -> heap st' !! r'' = heap st !! r'')) /\
  (exists stacked st r r2 first_summary,
     resized_stack cv2_resize [P; P] = Ok stacked /\
     compute_inference_stats epsilon cv2_resize [m1; m2] output = Ok st /\
     odict_get key (all_summaries st) = Some [r; r2] /\
     odict_get key (Combined_metric_data st) = Some r /\
     first_summary
     = summary_of epsilon P G1 SigmoidBinarize d1 None a1 b1 v1 p m /\
     first_summary !! "Pred_stdev"%string = Some VNone /\
     deref (heap st) r
     = summary_of epsilon P G1 SigmoidBinarize first_summary
         (Some (np_std stacked)) a1 b1 v1 p m /\
     deref (heap st) r !! "Pred_stdev"%string
     = Some (VRoot (np_std stacked))).
Proof.
  intros P key. split; [|split; [|split]].
  - intros h pred_vol ground_vol pred_process r pred_std d a b vv p' m'
      Hr Hd Hb.
    destruct (exam_preds_to_stat_Ok epsilon h pred_vol ground_vol pred_process
                r pred_std d a b vv p' m' Hr Hd Hb) as (Hex & _).
    eexists. split; [exact Hex|]. split; [|split].
    + intros k Hk. unfold summary_of.
      rewrite !lookup_insert_ne; [reflexivity|..];
        intros <-; apply Hk; unfold summary_keys;
        repeat first [left; reflexivity|right].
    + intros k Hk. unfold summary_keys in Hk.
      destruct (summary_of_lookup epsilon pred_vol ground_vol pred_process d
                  pred_std a b vv p' m') as (H1 & H2 & H3 & H4 & H5 & H6).
      repeat (apply elem_of_cons in Hk as [->|Hk]; [eauto|]).
      apply elem_of_nil in Hk. contradiction.
    + intros r' Hne. apply list_lookup_insert_ne. auto.
  - intros h h' pred_vol ground_vol pred_process r r' pred_std Hex.
    apply exam_preds_to_stat_inv in Hex as (-> & d' & Hd' & ->).
    split; [reflexivity|]. split.
    + intros r'' Hne. apply list_lookup_insert_ne. auto.
    + intros k Hk. unfold deref at 1.
      destruct (decide (r < length h)%nat) as [Hlt|Hge].
      * rewrite list_lookup_insert_eq by exact Hlt. simpl.
        eapply exam_stats_frame; eassumption.
      * rewrite list_insert_ge by lia. reflexivity.
  - intros st st' key' value Hc.
    destruct (combine_study_shares _ _ _ _ _ _ Hc)
      as (r & rest & d' & study & Hsum & Hheap & Hcomb & Hall & _).
    exists r, rest, study. split; [exact Hsum|]. split; [exact Hall|].
    split; [exact Hcomb|].
    intros r'' Hne. rewrite Hheap. apply list_lookup_insert_ne. auto.
  - destruct (two_models_run output)
      as (stacked & st & Hrs & Hrun & _ & Hcomb & Hall & Hheap & _ & _ & _).
    exists stacked, st, 0%nat, (Datatypes.S (length tl1)).
    eexists. split; [exact Hrs|]. split; [exact Hrun|].
    rewrite Hall, Hcomb, !odict_get_same.
    split; [reflexivity|]. split; [reflexivity|]. split; [reflexivity|].
    split; [apply summary_of_lookup|].
    assert (Hde : deref (heap st) 0
                  = summary_of epsilon P G1 SigmoidBinarize
                      (summary_of epsilon P G1 SigmoidBinarize d1 None
                         a1 b1 v1 p m)
                      (Some (np_std stacked)) a1 b1 v1 p m)
      by (rewrite Hheap; reflexivity).
    split; [exact Hde|]. rewrite Hde. apply summary_of_lookup.
Qed.

End TwoModels.



Lemma summary_object_is_shared_witness :
  exists stacked st r r2,
    resized_stack keep_size [sample_pred_vol; sample_pred_vol] = Ok stacked /\
    compute_inference_stats eps keep_size two_models true = Ok st /\
    odict_get "P1MR1" (all_summaries st) = Some [r; r2] /\
    odict_get "P1MR1" (Combined_metric_data st) = Some r /\
    deref (heap st) r !! "Pred_stdev"%string = Some (VRoot (np_std stacked)).
Proof.
  assert (H21 : 2%nat <> 1%nat) by discriminate.
  destruct (summary_object_is_shared eps keep_size
              keep_size_same_size 2 2 (data sample_pred_vol) H21 H21 eq_refl
              model_a model_b sample_study sample_study
              sample_pred_vol sample_pred_vol
              sample_ground_vol sample_ground_vol
              sample_attrib sample_attrib [sample_attrib] [sample_attrib]
              (Qc_of_Z 4) (Qc_of_Z 2) (Q2Qc (3 # 2))
              (Qc_of_Z 4) (Qc_of_Z 2) (Q2Qc (3 # 2)) "P1" "MR1"
              eq_refl eq_refl eq_refl eq_refl eq_refl eq_refl eq_refl eq_refl
              eq_refl eq_refl sample_attrib_fields sample_attrib_fields
              two_nonzero two_nonzero true)
    as (_ & _ & _ & stacked & st & r & r2 & fs & Hrs & Hrun & Hall & Hcomb
        & _ & _ & _ & Hstd).
  exists stacked, st, r, r2. auto.
Defined.

Lemma empty_study_aborts_run_witness :
  {| model_name := "model_a"; studies := [empty_study; sample_study] |}
    ∈ run_with_empty /\
  empty_study ∈ [empty_study; sample_study] /\
  exists e,
    compute_inference_stats eps keep_size run_with_empty true = Raise e.
Proof.
  assert (Hm : {| model_name := "model_a";
                  studies := [empty_study; sample_study] |} ∈ run_with_empty)
    by (unfold run_with_empty; left).
  assert (Hsd : empty_study ∈ [empty_study; sample_study]) by left.
  split; [exact Hm|]. split; [exact Hsd|].
  destruct (empty_study_aborts_run eps keep_size run_with_empty true _ _
              Hm Hsd) as [Hempty _].
  destruct (Hempty eq_refl) as [_ Hrun]. exact Hrun.
Defined.

(** C8 as stated fails: with an empty study directory ahead of a good
    one the run ends in [ValueError] instead of going on to the good
    one, and a study without attribute files ends it in [IndexError],
    not in a [MissingMetadataError]. *)
Lemma empty_study_not_skipped :
  compute_inference_stats eps keep_size run_with_empty true
  = Raise "ValueError" /\
  compute_inference_stats eps keep_size run_with_bare true
  = Raise "IndexError" /\
  compute_inference_stats eps keep_size run_with_bare true
  <> Raise "MissingMetadataError".
Proof.
  split; [reflexivity|]. split; [reflexivity|].
  intros H. vm_compute in H. discriminate H.
Qed.

End NotebookFacts.

Module IndexingFacts.
Import Datasets PyFacts DatasetsFacts Ranking.

Lemma list_getitem_negative {A} (l : list A) (i : Z) :
  - Z.of_nat (length l) <= i < 0 ->
  exists x, l !! Z.to_nat (Z.of_nat (length l) + i) = Some x /\
            list_getitem l i = Ok x.
Proof.
  intros Hi. unfold list_getitem.
  destruct (Z.ltb_spec i 0) as [_|?]; [|lia].
  destruct (Z.ltb_spec (i + Z.of_nat (length l)) 0) as [?|_]; [lia|].
  destruct (Z.leb_spec (Z.of_nat (length l)) (i + Z.of_nat (length l)))
    as [?|_]; [lia|]. simpl.
  replace (Z.of_nat (length l) + i) with (i + Z.of_nat (length l)) by lia.
  destruct (lookup_lt_is_Some_2 l (Z.to_nat (i + Z.of_nat (length l))))
    as [x Hx]; [lia|].
  exists x. rewrite Hx. auto.
Qed.

Lemma list_getitem_outside {A} (l : list A) (i : Z) :
  i < - Z.of_nat (length l) \/ Z.of_nat (length l) <= i ->
  list_getitem l i = Raise "IndexError".
Proof.
  intros Hi. unfold list_getitem.
  destruct (Z.ltb_spec i 0).
  - destruct (Z.ltb_spec (i + Z.of_nat (length l)) 0); [reflexivity|lia].
  - destruct (Z.ltb_spec i 0); [lia|].
    destruct (Z.leb_spec (Z.of_nat (length l)) i); [reflexivity|lia].
Qed.

(** X1.  A negative index that lies within the length of the dataset
    counts from the end: [d[i]] reads the file at position
    [len(d) + i], and the sample pipeline is handed the index [i] as it
    was given, so with [output_idx] the sample carries the negative
    index.  Holds for [InferenceDataset] and for
    [SegmentationDataset]. *)
Theorem getitem_negative_index {sample sample'}
    (d : @InferenceSamples sample) (d' : @SegmentationDataset sample')
    (i i' : Z) :
  - InferenceDataset_len d <= i < 0 ->
  - SegmentationDataset_len d' <= i' < 0 ->
  (exists p,
     inf_dcm_paths d !! Z.to_nat (InferenceDataset_len d + i) = Some p /\
     InferenceDataset_getitem d (Int i)
     = bind (inf_make_sample d p i) (fun x => Ok (One x))) /\
  (exists p,
     seg_dcm_paths d' !! Z.to_nat (SegmentationDataset_len d' + i') = Some p /\
     SegmentationDataset_getitem d' (Int i')
     = bind (seg_make_sample d' p (seg_get_y_Path d' p) i')
         (fun x => Ok (One x))).
Proof.
  intros Hi Hi'. split.
  - destruct (list_getitem_negative (inf_dcm_paths d) i Hi) as (p & Hp & Hget).
    exists p. split; [exact Hp|].
    simpl. unfold InferenceDataset_getitem_int. rewrite Hget. reflexivity.
  - destruct (list_getitem_negative (seg_dcm_paths d') i' Hi')
      as (p & Hp & Hget).
    assert (Hl : - Z.of_nat (length (seg_label_paths d')) <= i' < 0).
    { unfold seg_label_paths. rewrite length_fmap. exact Hi'. }
    destruct (list_getitem_negative (seg_label_paths d') i' Hl)
      as (q & Hq & Hgetq).
    unfold seg_label_paths in Hq. rewrite length_fmap in Hq.
    rewrite list_lookup_fmap in Hq. unfold SegmentationDataset_len in Hp.
    rewrite Hp in Hq. simpl in Hq. inversion Hq; subst q.
    exists p. split; [exact Hp|].
    simpl. unfold SegmentationDataset_getitem_int. rewrite Hget. simpl.
    rewrite Hgetq. reflexivity.
Qed.

Lemma getitem_negative_index_witness :
  InferenceDataset_getitem three_samples (Int (-1))
  = Ok (One (["/"; "data"; "s1"; "c.dcm"]%string, -1)) /\
  SegmentationDataset_getitem three_labelled (Int (-3))
  = Ok (One (["/"; "data"; "s1"; "a.dcm"]%string,
             ["/"; "data"; "s1"; "a.dcm"; "label"]%string, -3)).
Proof.
  destruct (getitem_negative_index three_samples three_labelled (-1) (-3))
    as [(p & Hp & Hget) (q & Hq & Hget')];
    [vm_compute; split; congruence|vm_compute; split; congruence|].
  vm_compute in Hp, Hq. inversion Hp; inversion Hq; subst p q.
  rewrite Hget, Hget'. split; reflexivity.
Defined.

(** X2.  An int index outside [-len(d), len(d)) raises [IndexError], and
    a slice whose step is zero raises [ValueError] whatever its bounds
    are; both happen before the sample pipeline is reached.  Holds for
    [InferenceDataset] and for [SegmentationDataset]. *)
Theorem getitem_index_errors {sample sample'}
    (d : @InferenceSamples sample) (d' : @SegmentationDataset sample')
    (i i' : Z) (start stop : option Z) :
  i < - InferenceDataset_len d \/ InferenceDataset_len d <= i ->
  i' < - SegmentationDataset_len d' \/ SegmentationDataset_len d' <= i' ->
  InferenceDataset_getitem d (Int i) = Raise "IndexError" /\
  SegmentationDataset_getitem d' (Int i') = Raise "IndexError" /\
  InferenceDataset_getitem d (Slc (Slice start stop (Some 0)))
  = Raise "ValueError" /\
  SegmentationDataset_getitem d' (Slc (Slice start stop (Some 0)))
  = Raise "ValueError".
Proof.
  intros Hi Hi'. repeat split.
  - simpl. unfold InferenceDataset_getitem_int.
    rewrite (list_getitem_outside _ _ Hi). reflexivity.
  - simpl. unfold SegmentationDataset_getitem_int.
    rewrite (list_getitem_outside _ _ Hi'). reflexivity.
Qed.

Lemma getitem_index_errors_witness :
  InferenceDataset_getitem three_samples (Int 3) = Raise "IndexError" /\
  SegmentationDataset_getitem three_labelled (Int (-4)) = Raise "IndexError" /\
  InferenceDataset_getitem three_samples (Slc (Slice None (Some 2) (Some 0)))
  = Raise "ValueError".
Proof.
  destruct (getitem_index_errors three_samples three_labelled 3 (-4)
              None (Some 2)) as (H1 & H2 & H3 & _);
    [right; vm_compute; congruence|left; reflexivity|].
  auto.
Defined.


Lemma comprehension_Forall2 {A A' B} (f : A -> result B) (g : A' -> result B)
    (l : list A) (l' : list A') :
  Forall2 (fun x y => f x = g y) l l' ->
  comprehension f l = comprehension g l'.
Proof.
  induction 1 as [|x y l l' Hxy _ IH]; [reflexivity|].
  simpl. rewrite Hxy, IH. reflexivity.
Qed.

(** The indices of [d[start:stop]] when neither bound is negative. *)
Lemma range_of_slice_forward (start stop : option Z) (n : Z) :
  0 <= n -> 0 <= default 0 start -> 0 <= default n stop ->
  let a := Z.min (default 0 start) n in
  let b := Z.min (default n stop) n in
  range_of_slice (Slice start stop None) n = Ok (seqZ a (Z.max 0 (b - a))).
Proof.
  intros Hn Ha Hb a b. unfold range_of_slice, slice_indices. simpl.
  assert (Hstart : (match start with
                    | Some v => if v <? 0 then Z.max (v + n) 0 else Z.min v n
                    | None => 0
                    end) = a).
  { subst a. destruct start as [v|]; simpl in *.
    - destruct (Z.ltb_spec v 0); [lia|reflexivity].
    - lia. }
  assert (Hstop : (match stop with
                   | Some v => if v <? 0 then Z.max (v + n) 0 else Z.min v n
                   | None => n
                   end) = b).
  { subst b. destruct stop as [v|]; simpl in *.
    - destruct (Z.ltb_spec v 0); [lia|reflexivity].
    - lia. }
  rewrite Hstart, Hstop. unfold range, range_len. simpl. f_equal.
  rewrite (list_fmap_ext _ (Z.add a)) by (intros; lia).
  rewrite fmap_add_seqZ, Z.add_0_r. f_equal.
  destruct (Z.ltb_spec a b).
  - rewrite Z.div_1_r. lia.
  - lia.
Qed.

Lemma slice_of_indexed {A B} (l : list A) (getitem : Z -> result B)
    (f : A -> Z -> result B) (start stop : Z) :
  0 <= start -> 0 <= stop ->
  (forall i x, l !! i = Some x -> getitem (Z.of_nat i) = f x (Z.of_nat i)) ->
  let n := Z.of_nat (length l) in
  let a := Z.min start n in
  let b := Z.min stop n in
  comprehension getitem (seqZ a (Z.max 0 (b - a)))
  = comprehension (fun ix => f ix.2 (Z.of_nat ix.1))
      (drop (Z.to_nat start) (take (Z.to_nat stop) (indexed l))).
Proof.
  intros Ha Hb Hget n a b. apply comprehension_Forall2.
  assert (Hlen : length (indexed l) = length l).
  { unfold indexed. rewrite length_zip_with, length_seq. lia. }
  apply Forall2_same_length_lookup_2.
  - rewrite length_seqZ, length_drop, length_take, Hlen. subst a b n. lia.
  - intros k x [i y] Hx Hy.
    apply lookup_seqZ in Hx as [-> Hk].
    rewrite lookup_drop in Hy. apply lookup_take_Some in Hy as [Hy Hlt].
    unfold indexed in Hy.
    apply lookup_zip_with_Some in Hy as (i' & y' & Heq & Hi & Hy).
    inversion Heq; subst i' y'. apply lookup_seq in Hi as [-> Hi].
    simpl. rewrite <- (Hget _ _ Hy). f_equal. subst a n. lia.
Qed.

(** X3.  For a slice without a step whose bounds are not negative,
    [d[start:stop]] is built from the files [dcm_paths[start:stop]], in
    order, each with its own position as index; a bound beyond the end
    is cut to the length, an omitted bound is the start or the end.
    Holds for [InferenceDataset] and for [SegmentationDataset]. *)
Theorem getitem_slice_of_paths {sample sample'}
    (d : @InferenceSamples sample) (d' : @SegmentationDataset sample')
    (start stop : option Z) :
  0 <= default 0 start -> 0 <= default 0 stop ->
  InferenceDataset_getitem d (Slc (Slice start stop None))
  = bind (comprehension (fun ip => inf_make_sample d ip.2 (Z.of_nat ip.1))
            (drop (Z.to_nat (default 0 start))
               (take (Z.to_nat (default (InferenceDataset_len d) stop))
                  (indexed (inf_dcm_paths d)))))
      (fun xs => Ok (Many xs)) /\
  SegmentationDataset_getitem d' (Slc (Slice start stop None))
  = bind (comprehension
            (fun ip => seg_make_sample d' ip.2 (seg_get_y_Path d' ip.2)
                         (Z.of_nat ip.1))
            (drop (Z.to_nat (default 0 start))
               (take (Z.to_nat (default (SegmentationDataset_len d') stop))
                  (indexed (seg_dcm_paths d')))))
      (fun xs => Ok (Many xs)).
Proof.
  intros Ha Hb. split.
  - assert (Hn : 0 <= InferenceDataset_len d)
      by (unfold InferenceDataset_len; lia).
    assert (Hb' : 0 <= default (InferenceDataset_len d) stop)
      by (destruct stop; simpl in *; lia).
    unfold InferenceDataset_getitem.
    rewrite (range_of_slice_forward start stop _ Hn Ha Hb'). cbn [bind].
    unfold InferenceDataset_len.
    rewrite (slice_of_indexed (inf_dcm_paths d)
               (InferenceDataset_getitem_int d) (inf_make_sample d)
               (default 0 start)
               (default (Z.of_nat (length (inf_dcm_paths d))) stop) Ha Hb');
      [reflexivity|].
    intros i p Hp.
    destruct (InferenceDataset_getitem_int_valid d (Z.of_nat i))
      as (p' & Hp' & ->).
    + unfold InferenceDataset_len. apply lookup_lt_Some in Hp. lia.
    + rewrite Nat2Z.id, Hp in Hp'. inversion Hp'. reflexivity.
  - assert (Hn : 0 <= SegmentationDataset_len d')
      by (unfold SegmentationDataset_len; lia).
    assert (Hb' : 0 <= default (SegmentationDataset_len d') stop)
      by (destruct stop; simpl in *; lia).
    unfold SegmentationDataset_getitem.
    rewrite (range_of_slice_forward start stop _ Hn Ha Hb'). cbn [bind].
    unfold SegmentationDataset_len.
    rewrite (slice_of_indexed (seg_dcm_paths d')
               (SegmentationDataset_getitem_int d')
               (fun p i => seg_make_sample d' p (seg_get_y_Path d' p) i)
               (default 0 start)
               (default (Z.of_nat (length (seg_dcm_paths d'))) stop) Ha Hb');
      [reflexivity|].
    intros i p Hp.
    destruct (SegmentationDataset_getitem_int_valid d' (Z.of_nat i))
      as (p' & Hp' & ->).
    + unfold SegmentationDataset_len. apply lookup_lt_Some in Hp. lia.
    + rewrite Nat2Z.id, Hp in Hp'. inversion Hp'. reflexivity.
Qed.

Lemma getitem_slice_of_paths_witness :
  InferenceDataset_getitem three_samples (Slc (Slice (Some 1) None None))
  = Ok (Many [(["/"; "data"; "s1"; "b.dcm"]%string, 1);
              (["/"; "data"; "s1"; "c.dcm"]%string, 2)]) /\
  SegmentationDataset_getitem three_labelled (Slc (Slice (Some 1) None None))
  = Ok (Many [(["/"; "data"; "s1"; "b.dcm"]%string,
               ["/"; "data"; "s1"; "b.dcm"; "label"]%string, 1);
              (["/"; "data"; "s1"; "c.dcm"]%string,
               ["/"; "data"; "s1"; "c.dcm"; "label"]%string, 2)]).
Proof.
  destruct (getitem_slice_of_paths three_samples three_labelled
              (Some 1) None) as [H1 H2]; [simpl; lia|simpl; lia|].
  rewrite H1, H2. split; reflexivity.
Defined.

End IndexingFacts.

Module OrderingFacts.
Import Datasets PyFacts DatasetsFacts Ranking.

Lemma dict_get_NoDup {K V} `{EqDecision K} (d : list (K * V)) (i : nat)
    (k : K) (v : V) :
  NoDup d.*1 -> d !! i = Some (k, v) -> dict_get d k = Some v.
Proof.
  intros Hnd Hi. unfold dict_get.
  assert (Hfind : list_find (fun kv => kv.1 = k) d = Some (i, (k, v))).
  { apply list_find_Some. split; [exact Hi|]. split; [reflexivity|].
    intros j [k' v'] Hj Hlt Heq. simpl in Heq. subst k'.
    assert (i = j); [|lia].
    eapply (NoDup_lookup _ _ _ k Hnd); rewrite list_lookup_fmap.
    - rewrite Hi. reflexivity.
    - rewrite Hj. reflexivity. }
  rewrite Hfind. reflexivity.
Qed.

Lemma collect_fold (patient2dcm l : list (string * list Path))
    (acc : list Path) :
  (forall k v, (k, v) ∈ l -> dict_get patient2dcm k = Some v) ->
  foldl (fun acc p => acc ++ default [] (dict_get patient2dcm p)) acc l.*1
  = acc ++ concat l.*2.
Proof.
  revert acc. induction l as [|[k v] l IH]; intros acc Hl; simpl.
  - rewrite app_nil_r. reflexivity.
  - rewrite IH by (intros; apply Hl; right; assumption).
    rewrite (Hl k v) by left. simpl. rewrite <- app_assoc. reflexivity.
Qed.

Lemma collect_dcm_paths_concat (patient2dcm : list (string * list Path)) :
  NoDup patient2dcm.*1 ->
  collect_dcm_paths patient2dcm = concat patient2dcm.*2.
Proof.
  intros Hnd. unfold collect_dcm_paths.
  rewrite (collect_fold patient2dcm patient2dcm []); [reflexivity|].
  intros k v Hkv. apply list_elem_of_lookup in Hkv as [i Hi].
  eapply dict_get_NoDup; eassumption.
Qed.

(** X4.  When the keys of [patient2dcm] are distinct, as in a dict,
    [InferenceDataset] ends with [dcm_paths] equal to the concatenation
    of the file lists in key order: no file is dropped, repeated or
    moved.  The frame [df] has one row per file in that order, and its
    columns other than [slice_pos] hold what was read from the path and
    the header of the file.  Construction returns when every file can
    be read and has each element that is read from it, with a position
    of three components at least. *)
Theorem InferenceDataset_keeps_input_order
    (patient2dcm : list (string * list Path))
    (dcmread : Path -> result dcm_header) :
  NoDup patient2dcm.*1 ->
  (Forall (fun p => exists h, dcmread p = Ok h /\ complete h)
     (concat patient2dcm.*2) ->
   exists d, InferenceDataset_init patient2dcm dcmread = Ok d) /\
  forall d,
    InferenceDataset_init patient2dcm dcmread = Ok d ->
    dcm_paths d = concat patient2dcm.*2 /\
    col_dcm_paths <$> df d = dcm_paths d /\
    make_frame dcmread (dcm_paths d) = Ok (set_slice_pos None <$> df d).
Proof.
  intros Hnd. split.
  - intros Hall. rewrite <- (collect_dcm_paths_concat _ Hnd) in Hall.
    destruct (make_frame_returns _ _ Hall) as [frame Hframe].
    destruct (InferenceDataset_init_of_frame _ _ _ Hframe) as (d & Hd & _).
    eauto.
  - intros d Hd.
    assert (Hpaths := InferenceDataset_dcm_paths_input_order _ _ _ Hd).
    apply InferenceDataset_init_inv in Hd as (frame & Hframe & Hdf & Hcol).
    split; [rewrite Hpaths; apply collect_dcm_paths_concat, Hnd|].
    split; [symmetry; exact Hcol|].
    rewrite Hpaths, Hframe, Hdf, <- list_fmap_compose. f_equal.
    transitivity (id <$> frame); [symmetry; apply list_fmap_id|].
    apply list_fmap_ext. intros i r Hr. simpl.
    destruct (ranked_keeps frame r) as (_ & _ & _ & ->).
    symmetry. apply (make_frame_unranked _ _ _ _ Hframe).
    apply list_elem_of_lookup. eauto.
Qed.

Lemma InferenceDataset_keeps_input_order_witness :
  exists d,
    InferenceDataset_init two_files two_headers = Ok d /\
    dcm_paths d = two_paths /\
    make_frame two_headers two_paths = Ok (set_slice_pos None <$> df d).
Proof.
  destruct (InferenceDataset_keeps_input_order two_files two_headers)
    as [Hreturns Hd].
  - apply (bool_decide_unpack _). vm_compute. reflexivity.
  - destruct Hreturns as [d Hinit].
    { repeat constructor; (eexists; split; [reflexivity|]);
        unfold complete, described, positioned; simpl;
        repeat split; try discriminate;
        (eexists; split; [reflexivity|simpl; lia]). }
    exists d. destruct (Hd d Hinit) as (H1 & _ & H3).
    split; [exact Hinit|]. split; [exact H1|].
    rewrite H1 in H3. exact H3.
Defined.

Lemma rank_of_below_size (G : list row) (r : row) :
  r ∈ G -> exists v, rank_of G r = Some v /\ (v < length G)%nat.
Proof.
  intros Hr.
  assert (Hpos : (0 < length G)%nat).
  { destruct G; [apply elem_of_nil in Hr; contradiction|simpl; lia]. }
  unfold rank_of. destruct (mapM col_z_pos G) as [zs|] eqn:E.
  - eexists. split; [reflexivity|].
    apply length_mapM in E. unfold count_le.
    pose proof (length_filter
      (fun x => (x <=? default 0 (col_z_pos r)) = true) zs). lia.
  - eexists. split; [reflexivity|]. unfold count_le.
    pose proof (length_filter
      (fun x => Path_leb x (col_dcm_paths r) = true) (col_dcm_paths <$> G))
      as Hle.
    rewrite length_fmap in Hle. lia.
Qed.

(** X5.  After construction a row of [df] whose key columns all hold a
    value carries a rank, and the rank is below the number of rows of
    [df] that belong to the group of the row.  A row in which a key
    column holds no value, as when [SeriesNumber] is empty in the file,
    is in no group and keeps the [slice_pos] it started with. *)
Theorem rows_with_keys_are_ranked (patient2dcm : list (string * list Path))
    (dcmread : Path -> result dcm_header) (d : InferenceDataset) (i : nat)
    (r : row) :
  InferenceDataset_init patient2dcm dcmread = Ok d ->
  df d !! i = Some r ->
  match group_keys r with
  | Some _ =>
      exists v,
        col_slice_pos r = Some v /\ (v < length (group_of (df d) r))%nat
  | None => col_slice_pos r = None
  end.
Proof.
  intros Hinit Hi.
  apply InferenceDataset_init_inv in Hinit as (frame & Hframe & Hdf & _).
  rewrite Hdf in *. rewrite list_lookup_fmap in Hi.
  destruct (frame !! i) as [r0|] eqn:E; [|discriminate].
  simpl in Hi. inversion Hi; subst r; clear Hi.
  destruct (ranked_keeps frame r0) as (_ & _ & Hk & _). rewrite Hk.
  destruct (group_keys r0) as [k|] eqn:Ek.
  - rewrite (group_of_fmap (ranked frame) frame r0)
      by (intros r'; apply ranked_keeps).
    rewrite length_fmap.
    destruct (rank_of_below_size (group_of frame r0) r0) as (v & Hv & Hlt).
    { eapply group_of_elem; [exact E|reflexivity]. }
    exists v. unfold ranked. rewrite Ek. split; [exact Hv|exact Hlt].
  - unfold ranked. rewrite Ek.
    destruct (make_frame_lookup _ _ _ _ _ Hframe E) as (p & _ & Hrow).
    apply read_row_inv in Hrow as (_ & _ & Hnone & _). exact Hnone.
Qed.

Lemma rows_with_keys_are_ranked_witness :
  exists d r0 r1,
    InferenceDataset_init two_files two_headers_unnumbered = Ok d /\
    df d !! 0%nat = Some r0 /\ df d !! 1%nat = Some r1 /\
    col_slice_pos r0 = Some 0%nat /\
    group_keys r1 = None /\ col_slice_pos r1 = None.
Proof.
  eexists _, _, _. split; [vm_compute; reflexivity|].
  split; [reflexivity|]. split; [reflexivity|]. split; [|split].
  - destruct (rows_with_keys_are_ranked two_files two_headers_unnumbered
                _ 0 _ eq_refl eq_refl) as (v & Hv & Hlt).
    transitivity (Some v); [exact Hv|]. f_equal. vm_compute in Hlt. lia.
  - reflexivity.
  - exact (rows_with_keys_are_ranked two_files two_headers_unnumbered
             _ 1 _ eq_refl eq_refl).
Defined.

Lemma length_filter_mono {A} (P Q : A -> Prop) `{forall x, Decision (P x)}
    `{forall x, Decision (Q x)} (l : list A) :
  (forall x, x ∈ l -> P x -> Q x) ->
  (length (filter P l) <= length (filter Q l))%nat.
Proof.
  induction l as [|x l IH]; intros Hl; [reflexivity|].
  rewrite !filter_cons.
  assert (IH' : (length (filter P l) <= length (filter Q l))%nat).
  { apply IH. intros z Hz. apply Hl. right. exact Hz. }
  destruct (decide (P x)) as [HP|_], (decide (Q x)) as [_|HnQ]; simpl;
    try lia.
  exfalso. apply HnQ, Hl; [left|exact HP].
Qed.

Lemma filter_ext_elem {A} (P Q : A -> Prop) `{forall x, Decision (P x)}
    `{forall x, Decision (Q x)} (l : list A) :
  (forall x, x ∈ l -> P x <-> Q x) -> filter P l = filter Q l.
Proof.
  induction l as [|x l IH]; intros Hl; [reflexivity|].
  rewrite !filter_cons.
  rewrite IH by (intros z Hz; apply Hl; right; exact Hz).
  assert (Hx : P x <-> Q x) by (apply Hl; left).
  destruct (decide (P x)) as [HP|HP], (decide (Q x)) as [HQ|HQ];
    try reflexivity; tauto.
Qed.

(** With every position of the group present, a row is ranked by the
    number of rows that lie at most as deep, less one. *)
Lemma rank_of_upto (G : list row) (r : row) :
  Forall (fun r' => is_Some (col_z_pos r')) G -> is_Some (col_z_pos r) ->
  rank_of G r = Some (length (filter (fun r' => z_upto r' r) G) - 1)%nat.
Proof.
  intros Hall [z Hz]. unfold rank_of.
  destruct (mapM col_z_pos G) as [zs|] eqn:E.
  - rewrite (mapM_default _ 0 _ _ E). unfold count_le.
    rewrite length_filter_fmap, Hz. simpl.
    rewrite (filter_ext_elem _ (fun r' => z_upto r' r) G); [reflexivity|].
    intros r' Hr'. rewrite Forall_forall in Hall.
    destruct (Hall r' Hr') as [z' Hz']. unfold z_upto.
    rewrite Hz, Hz'. simpl. apply Z.leb_le.
  - apply mapM_None_1 in E. apply Exists_exists in E as (r' & Hr' & Hn).
    rewrite Forall_forall in Hall. destruct (Hall r' Hr') as [z' Hz'].
    congruence.
Qed.

(** X6.  The positions of a group are all present once the frame is
    built, and the rank of a row is then the number of rows of the
    group that lie at most as deep, less one.  Rows at the same position
    therefore share one rank, the highest of the positions they take in
    sorted order, and a row that lies no deeper than another has no
    higher rank. *)
Theorem equal_positions_share_rank (patient2dcm : list (string * list Path))
    (dcmread : Path -> result dcm_header) (frame : list row) (i j : nat)
    (ri rj : row) :
  make_frame dcmread (collect_dcm_paths patient2dcm) = Ok frame ->
  let G := group_of frame ri in
  frame !! i = Some ri -> frame !! j = Some rj ->
  is_Some (group_keys ri) ->
  group_keys rj = group_keys ri ->
  Forall (fun r => is_Some (col_z_pos r)) G /\
  exists (d : InferenceDataset) (vi vj : nat),
    InferenceDataset_init patient2dcm dcmread = Ok d /\
    df d !! i = Some (set_slice_pos (Some vi) ri) /\
    df d !! j = Some (set_slice_pos (Some vj) rj) /\
    Datatypes.S vi = length (filter (fun r => z_upto r ri) G) /\
    (col_z_pos ri = col_z_pos rj -> vi = vj) /\
    (z_upto ri rj -> (vi <= vj)%nat).
Proof.
  intros Hframe G Hi Hj [k Hki] Hk.
  assert (Hall : Forall (fun r => is_Some (col_z_pos r)) G).
  { apply Forall_forall. intros r' Hr'.
    apply list_elem_of_filter in Hr' as [_ Hr'].
    pose proof (make_frame_positions _ _ _ Hframe) as Hp.
    rewrite Forall_forall in Hp. apply Hp, Hr'. }
  split; [exact Hall|].
  destruct (InferenceDataset_init_of_frame _ _ _ Hframe) as (d & Hd & Hdf).
  exists d.
  assert (Hdi : df d !! i = Some (ranked frame ri))
    by (rewrite Hdf, list_lookup_fmap, Hi; reflexivity).
  assert (Hdj : df d !! j = Some (ranked frame rj))
    by (rewrite Hdf, list_lookup_fmap, Hj; reflexivity).
  unfold ranked in Hdi, Hdj. rewrite Hk, Hki in Hdj. rewrite Hki in Hdi.
  rewrite (group_of_same frame rj ri Hk) in Hdj. fold G in Hdi, Hdj.
  assert (Hri : ri ∈ G) by (eapply group_of_elem; eauto).
  assert (Hrj : rj ∈ G) by (eapply group_of_elem; eauto).
  pose proof Hall as Hall'. rewrite Forall_forall in Hall'.
  destruct (Hall' ri Hri) as [zi Hzi]. destruct (Hall' rj Hrj) as [zj Hzj].
  rewrite (rank_of_upto G ri Hall) in Hdi by eauto.
  rewrite (rank_of_upto G rj Hall) in Hdj by eauto.
  assert (Hpos : forall r z, r ∈ G -> col_z_pos r = Some z ->
            (0 < length (filter (fun r' => z_upto r' r) G))%nat).
  { intros r z Hr Hz.
    assert (Hin : r ∈ filter (fun r' => z_upto r' r) G).
    { apply list_elem_of_filter. split; [|exact Hr].
      unfold z_upto. rewrite Hz. lia. }
    destruct (filter (fun r' => z_upto r' r) G);
      [apply elem_of_nil in Hin; contradiction|simpl; lia]. }
  pose proof (Hpos ri zi Hri Hzi). pose proof (Hpos rj zj Hrj Hzj).
  eexists _, _. split; [exact Hd|]. split; [exact Hdi|]. split; [exact Hdj|].
  split; [lia|]. split.
  - intros Heq.
    rewrite (list_filter_iff (fun r => z_upto r ri) (fun r => z_upto r rj));
      [reflexivity|].
    intros r. unfold z_upto. rewrite Heq. reflexivity.
  - intros Hle.
    assert ((length (filter (fun r => z_upto r ri) G)
             <= length (filter (fun r => z_upto r rj) G))%nat); [|lia].
    apply length_filter_mono. intros r _. unfold z_upto in *.
    rewrite Hzi, Hzj in *. destruct (col_z_pos r); [lia|auto].
Qed.

Lemma equal_positions_share_rank_witness :
  exists d ri rj,
    InferenceDataset_init two_files two_headers_tie = Ok d /\
    df d !! 0%nat = Some ri /\ df d !! 1%nat = Some rj /\
    col_slice_pos ri = Some 1%nat /\ col_slice_pos rj = Some 1%nat.
Proof.
  destruct (equal_positions_share_rank two_files two_headers_tie _ 0 1 _ _
              eq_refl eq_refl eq_refl (ex_intro _ _ eq_refl) eq_refl)
    as (_ & d & vi & vj & Hd & Hi & Hj & Hvi & Heq & _).
  assert (vi = 1%nat) as -> by (vm_compute in Hvi; congruence).
  rewrite <- (Heq eq_refl) in Hj.
  eexists d, _, _. split; [exact Hd|]. split; [exact Hi|].
  split; [exact Hj|]. split; reflexivity.
Defined.

(** *** Any sorting permutation gives the same ranks *)

Section AnyArgsort.

Context `{Countable V} (leb : V -> V -> bool).
Hypothesis leb_total : forall a b, leb a b = true \/ leb b a = true.
Hypothesis leb_trans :
  forall a b c, leb a b = true -> leb b c = true -> leb a c = true.
Hypothesis leb_antisym :
  forall a b, leb a b = true -> leb b a = true -> a = b.

Lemma values_of_permutation (zs vals : list V) (idxs : list nat) :
  idxs ≡ₚ seq 0 (length zs) ->
  Forall2 (fun idx v => zs !! idx = Some v) idxs vals ->
  vals ≡ₚ zs.
Proof.
  intros Hperm Hvals.
  assert (Hv : vals = omap (fun i => zs !! i) idxs).
  { clear Hperm. induction Hvals as [|i v idxs vals Hiv _ IH]; [reflexivity|].
    simpl. rewrite Hiv. simpl. f_equal. exact IH. }
  assert (Hz : omap (fun i => zs !! i) (seq 0 (length zs)) = zs).
  { clear. induction zs as [|z zs IH] using rev_ind; [reflexivity|].
    rewrite length_app. simpl. rewrite Nat.add_1_r, seq_S, omap_app. simpl.
    rewrite lookup_app_r, Nat.sub_diag by lia. simpl.
    f_equal. etransitivity; [|exact IH].
    apply list_omap_ext. apply Forall2_same_length_lookup_2; [reflexivity|].
    intros i a b Ha Hb. rewrite Ha in Hb. inversion Hb; subst b.
    apply lookup_seq in Ha as [-> Hi]. simpl.
    rewrite lookup_app_l by exact Hi. reflexivity. }
  subst vals. etransitivity; [apply omap_Permutation, Hperm|].
  rewrite Hz. reflexivity.
Qed.

(** X7.  The ranks do not depend on how [np.argsort] orders equal
    values.  Let [sorted_idxs] be any permutation of the positions of
    [zs] that lists the values [vals] of [zs] in ascending order; then
    mapping [zs] through the dict built from [sorted_idxs] gives the
    ranks that [rank_column] gives. *)
Theorem rank_column_any_argsort (zs vals : list V) (sorted_idxs : list nat) :
  sorted_idxs ≡ₚ seq 0 (length zs) ->
  Forall2 (fun idx v => zs !! idx = Some v) sorted_idxs vals ->
  StronglySorted (fun a b => leb a b = true) vals ->
  (fun z => slice_map_of zs sorted_idxs !! z) <$> zs = rank_column leb zs.
Proof.
  intros Hperm Hvals Hsorted.
  rewrite (rank_column_count leb leb_total leb_trans leb_antisym).
  pose proof (values_of_permutation _ _ _ Hperm Hvals) as Hpv.
  pose proof (Forall2_length _ _ _ Hvals) as Hlen.
  unfold slice_map_of.
  set (sp := zip sorted_idxs vals).
  assert (Hsp1 : sp.*1 = sorted_idxs) by (apply fst_zip; lia).
  assert (Hsp2 : sp.*2 = vals) by (apply snd_zip; lia).
  assert (Hfill :
    foldl (fun (m : gmap V nat) '(idx, pos) =>
             match zs !! idx with
             | Some z => <[z := pos]> m
             | None => m
             end) ∅ (zip sorted_idxs (seq 0 (length zs)))
    = foldl (fun (m : gmap V nat) '(z, pos) => <[z := pos]> m) ∅
        (zip vals (seq 0 (length vals)))).
  { rewrite <- Hsp1 at 1. rewrite fill_by_index.
    - rewrite Hsp2. do 3 f_equal. rewrite Hpv. reflexivity.
    - subst sp. clear -Hvals.
      induction Hvals as [|i v idxs vals Hiv _ IH]; constructor; assumption. }
  rewrite Hfill.
  apply list_fmap_ext. intros i z Hz.
  rewrite (sorted_fill_lookup leb leb_total leb_antisym vals 0 ∅ z Hsorted).
  rewrite decide_True by (rewrite Hpv; apply list_elem_of_lookup; eauto).
  rewrite (count_le_perm leb z _ _ Hpv). reflexivity.
Qed.

End AnyArgsort.

Lemma rank_column_any_argsort_witness :
  (fun z => slice_map_of [3; 3; 1] [2; 1; 0]%nat !! z) <$> [3; 3; 1]
  = rank_column Z.leb [3; 3; 1] /\
  rank_column Z.leb [3; 3; 1] = [Some 2%nat; Some 2%nat; Some 0%nat].
Proof.
  split; [|reflexivity].
  apply (rank_column_any_argsort Z.leb Zleb_total Zleb_trans Zleb_antisym
           [3; 3; 1] [1; 3; 3] [2; 1; 0]%nat).
  - apply (bool_decide_unpack _). vm_compute. reflexivity.
  - repeat constructor.
  - repeat constructor.
Defined.

End OrderingFacts.

Module StatisticsFacts.
Import Notebook PyFacts NotebookFacts Viewing.

Local Open Scope Qc_scope.

(** What a returning call of [exam_preds_to_stat] has read and
    written. *)
Lemma exam_stats_inv (epsilon : Qc) (pred_vol ground_vol : ndarray)
    (pred_process : Qc -> Qc) (d d' : gmap string pyval)
    (pred_std : option root) :
  exam_stats epsilon pred_vol ground_vol pred_process d pred_std = Ok d' ->
  exists dim rd vv patient MR num den vox_vol study,
    d !! "dim"%string = Some dim /\ item0_squared dim = Ok num /\
    d !! "transform_resize_dim"%string = Some rd /\
    item0_squared rd = Ok den /\ den <> 0 /\
    d !! "vox_vol"%string = Some vv /\ as_number vv = Ok vox_vol /\
    d !! "patient"%string = Some patient /\ d !! "MR"%string = Some MR /\
    py_add patient MR = Ok study /\
    d' = <["Pred_stdev"%string := option_root pred_std]>
         (<["scale_factor"%string := VNum (num / den)]>
         (<["study"%string := study]>
         (<["patient_dice"%string :=
              VNum (Dice pred_process epsilon pred_vol ground_vol)]>
         (<["TKV_Pred"%string :=
              VNum (num / den * vox_vol
                    * sumQ (pred_process <$> data pred_vol))]>
         (<["TKV_GT"%string :=
              VNum (num / den * vox_vol
                    * sumQ (pred_process <$> data ground_vol))]> d))))).
Proof.
  unfold exam_stats, dict_item. intros H.
  destruct (d !! "dim"%string) as [dim|] eqn:E1; [|discriminate].
  simpl in H.
  destruct (item0_squared dim) as [num|] eqn:E2; [|discriminate].
  simpl in H.
  destruct (d !! "transform_resize_dim"%string) as [rd|] eqn:E3;
    [|discriminate].
  simpl in H.
  destruct (item0_squared rd) as [den|] eqn:E4; [|discriminate].
  simpl in H. unfold truediv in H.
  destruct (decide (den = 0)) as [|Hden]; [discriminate|]. simpl in H.
  destruct (d !! "vox_vol"%string) as [vv|] eqn:E5; [|discriminate].
  simpl in H.
  destruct (as_number vv) as [vox_vol|] eqn:E6; [|discriminate].
  simpl in H.
  destruct (d !! "patient"%string) as [patient|] eqn:E7; [|discriminate].
  simpl in H.
  destruct (d !! "MR"%string) as [MR|] eqn:E8; [|discriminate].
  simpl in H.
  destruct (py_add patient MR) as [study|] eqn:E9; [|discriminate].
  simpl in H.
  inversion H. exists dim, rd, vv, patient, MR, num, den, vox_vol, study.
  repeat split; auto.
Qed.

(** Only a list that starts with a number has an item 0 to square. *)
Lemma item0_squared_Ok (v : pyval) (q : Qc) :
  item0_squared v = Ok q -> exists x tl, v = VList (VNum x :: tl) /\ q = x * x.
Proof.
  destruct v as [| |s|l|]; try discriminate.
  - destruct s; discriminate.
  - destruct l as [|[| x | | |] tl]; try discriminate.
    intros H. inversion H. eauto.
Qed.

(** X8.  A call of [exam_preds_to_stat] that returns was given a
    reference to an existing dict that holds [dim],
    [transform_resize_dim], [vox_vol], [patient] and [MR], the first
    entry of [transform_resize_dim] being a number other than zero. *)
Theorem returning_call_had_fields (epsilon : Qc) (h h' : store)
    (pred_vol ground_vol : ndarray) (pred_process : Qc -> Qc) (r r' : ref)
    (pred_std : option root) :
  exam_preds_to_stat epsilon h pred_vol ground_vol pred_process r pred_std
  = Ok (r', h') ->
  (r < length h)%nat /\
  Forall (fun k => is_Some (deref h r !! k)) read_keys /\
  exists den tl,
    deref h r !! "transform_resize_dim"%string
    = Some (VList (VNum den :: tl)) /\ den <> 0.
Proof.
  intros H. apply exam_preds_to_stat_inv in H as (-> & d' & Hd' & ->).
  apply exam_stats_inv in Hd'
    as (dim & rd & vv & patient & MR & num & den & vox_vol & study
        & Hdim & Hnum & Hrd & Hden & Hnz & Hvv & Hvox & Hp & Hm & Hst & _).
  split; [|split].
  - destruct (decide (r < length h)%nat) as [Hlt|Hge]; [exact Hlt|].
    unfold deref in Hdim. rewrite (proj2 (lookup_ge_None h r)) in Hdim by lia.
    simpl in Hdim. rewrite lookup_empty in Hdim. discriminate.
  - unfold read_keys. repeat constructor; eauto.
  - apply item0_squared_Ok in Hden as (x & tl & -> & ->).
    exists x, tl. split; [exact Hrd|].
    intros ->. apply Hnz. ring.
Qed.

Lemma returning_call_had_fields_witness :
  Forall (fun k => is_Some (sample_attrib !! k)) read_keys.
Proof.
  destruct (exam_preds_to_stat_Ok eps [sample_attrib] sample_pred_vol
              sample_ground_vol SigmoidBinarize 0%nat None sample_attrib
              (Qc_of_Z 4) (Qc_of_Z 2) (Q2Qc (3 # 2)) "P1" "MR1"
              eq_refl sample_attrib_fields two_nonzero) as [Hex _].
  apply (returning_call_had_fields eps [sample_attrib] _ sample_pred_vol
           sample_ground_vol SigmoidBinarize 0%nat 0%nat None Hex).
Defined.

(** X9.  With [dim] in place: attributes that lack
    [transform_resize_dim], the key that [inference_to_disk] adds, make
    [exam_preds_to_stat] raise [KeyError], and a resize target of zero
    makes it raise [ZeroDivisionError]. *)
Theorem resize_target_missing_or_zero (epsilon : Qc) (h : store)
    (pred_vol ground_vol : ndarray) (pred_process : Qc -> Qc) (r : ref)
    (pred_std : option root) (d : gmap string pyval) (rows : Qc)
    (tl : list pyval) :
  h !! r = Some d ->
  d !! "dim"%string = Some (VList (VNum rows :: tl)) ->
  (d !! "transform_resize_dim"%string = None ->
   exam_preds_to_stat epsilon h pred_vol ground_vol pred_process r pred_std
   = Raise "KeyError") /\
  (forall tl', d !! "transform_resize_dim"%string
               = Some (VList (VNum 0 :: tl')) ->
   exam_preds_to_stat epsilon h pred_vol ground_vol pred_process r pred_std
   = Raise "ZeroDivisionError").
Proof.
  intros Hr Hdim. unfold exam_preds_to_stat, deref. rewrite Hr. simpl.
  unfold exam_stats, dict_item. rewrite Hdim. simpl. split.
  - intros ->. reflexivity.
  - intros tl' ->. cbn [bind item0_squared]. unfold truediv.
    destruct (decide (0 * 0 = 0)) as [_|Hn]; [reflexivity|].
    exfalso. apply Hn. ring.
Qed.

Lemma resize_target_missing_or_zero_witness :
  exam_preds_to_stat eps [raw_attrib] sample_pred_vol sample_ground_vol
    SigmoidBinarize 0 None = Raise "KeyError" /\
  exam_preds_to_stat eps [zero_target_attrib] sample_pred_vol
    sample_ground_vol SigmoidBinarize 0 None = Raise "ZeroDivisionError".
Proof.
  split.
  - apply (resize_target_missing_or_zero eps [raw_attrib] sample_pred_vol
             sample_ground_vol SigmoidBinarize 0%nat None raw_attrib
             (Qc_of_Z 4) [VNum (Qc_of_Z 4)] eq_refl eq_refl).
    reflexivity.
  - apply (resize_target_missing_or_zero eps [zero_target_attrib]
             sample_pred_vol sample_ground_vol SigmoidBinarize 0%nat None
             zero_target_attrib (Qc_of_Z 4) [VNum (Qc_of_Z 4)]
             eq_refl eq_refl) with (tl' := [VNum 0]).
    reflexivity.
Defined.


(** *** The tables of a run *)

Lemma odict_set_keys {V} (k : string) (v : V) (d : list (string * V)) :
  (odict_set k v d).*1 = if decide (k ∈ d.*1) then d.*1 else d.*1 ++ [k].
Proof.
  induction d as [|[k' v'] d IH]; [reflexivity|]. cbn [odict_set].
  destruct (decide (k' = k)) as [->|Hne]; rewrite !fmap_cons; cbn [fst].
  - rewrite decide_True by left. reflexivity.
  - rewrite IH. destruct (decide (k ∈ d.*1)) as [Hin|Hnin].
    + rewrite decide_True by (right; exact Hin). reflexivity.
    + rewrite decide_False; [reflexivity|].
      intros Hin. apply elem_of_cons in Hin as [?|?]; auto.
Qed.

Lemma odict_set_keeps_keys {V} (k k' : string) (v : V)
    (d : list (string * V)) :
  k' ∈ d.*1 -> k' ∈ (odict_set k v d).*1.
Proof.
  intros Hin. rewrite odict_set_keys. destruct (decide (k ∈ d.*1)); [exact Hin|].
  apply elem_of_app. left. exact Hin.
Qed.

Section Tables.

Variable epsilon : Qc.
Variable cv2_resize : ndarray -> list nat -> result ndarray.

Lemma process_study_inv (st st' : stats) (sd : study_dir) :
  process_study epsilon st sd = Ok st' ->
  exists key r,
    Metric_data st' = odict_set key r (Metric_data st) /\
    Combined_metric_data st' = Combined_metric_data st /\
    csvs st' = csvs st.
Proof.
  intros H. unfold process_study in H. bind_inv H.
  match type of H with
  | context [let '(_, _) := ?x in _] => destruct x as [summary h']
  end.
  bind_inv H. inversion H; subst; clear H. simpl. eauto.
Qed.

Lemma process_studies_inv (l : list study_dir) (st st' : stats) :
  foldM (process_study epsilon) st l = Ok st' ->
  (forall k, k ∈ (Metric_data st).*1 -> k ∈ (Metric_data st').*1) /\
  csvs st' = csvs st.
Proof.
  revert st. induction l as [|sd l IH]; intros st H; simpl in H.
  - inversion H. auto.
  - destruct (process_study epsilon st sd) as [st1|] eqn:E; [|discriminate].
    simpl in H. apply process_study_inv in E as (key & r & HM & _ & Hc).
    destruct (IH st1 H) as [IHk IHc]. split.
    + intros k Hk. apply IHk. rewrite HM. apply odict_set_keeps_keys, Hk.
    + rewrite IHc. exact Hc.
Qed.

Lemma to_frame_keys (h : store) (table : list (string * ref)) :
  (to_frame h table).*1 = table.*1.
Proof.
  unfold to_frame. rewrite <- list_fmap_compose. reflexivity.
Qed.

(** X10.  [Metric_data] is never emptied between models.  Once a
    model directory has been processed, [Metric_data] still has a key
    for every study it had before; the table written for the model
    (with [output=True]) has one row per key of [Metric_data], hence a
    row for every study of the models processed before it, besides its
    own.  With [output=False] no table is written. *)
Theorem model_table_rows (output : bool) (st st' : stats) (m : model_dir) :
  process_model epsilon output st m = Ok st' ->
  (forall k, k ∈ (Metric_data st).*1 -> k ∈ (Metric_data st').*1) /\
  (output = true ->
   exists df,
     csvs st' = csvs st ++ [(("stats-" ++ model_name m ++ ".csv")%string, df)] /\
     df.*1 = (Metric_data st').*1 /\
     forall k, k ∈ (Metric_data st).*1 -> k ∈ df.*1) /\
  (output = false -> csvs st' = csvs st).
Proof.
  intros H. unfold process_model in H.
  destruct (foldM (process_study epsilon) st (studies m)) as [st1|] eqn:E;
    [|discriminate].
  simpl in H. inversion H; subst; clear H. simpl.
  destruct (process_studies_inv _ _ _ E) as [Hk Hc].
  split; [exact Hk|]. split.
  - intros ->. eexists. rewrite Hc. split; [reflexivity|].
    rewrite to_frame_keys. split; [reflexivity|exact Hk].
  - intros ->. exact Hc.
Qed.

(** The state after a model directory that holds one study directory
    with its volumes and attributes in place. *)
Lemma process_model_one_study (output : bool) (st : stats) (mdl : model_dir)
    (sd : study_dir) (I P G : ndarray) (d : gmap string pyval)
    (tl : list (gmap string pyval)) (a b vv : Qc) (p m : string) :
  studies mdl = [sd] ->
  np_stack (imgs sd) = Ok I -> np_stack (preds sd) = Ok P ->
  np_stack (grounds sd) = Ok G -> attribs sd = d :: tl ->
  attrib_fields d a b vv p m -> b <> 0 ->
  exists st',
    process_model epsilon output st mdl = Ok st' /\
    Metric_data st'
    = odict_set (p ++ m)%string (length (heap st)) (Metric_data st).
Proof.
  intros Hsd HI HP HG Hat Hd Hb. unfold process_model.
  rewrite Hsd. cbn [foldM].
  rewrite (process_study_Ok epsilon st sd I P G d tl a b vv p m
             HI HP HG Hat Hd Hb).
  cbn [bind]. eexists. split; reflexivity.
Qed.

Lemma combine_study_csvs (st st' : stats) (kv : string * list ndarray) :
  combine_study epsilon cv2_resize st kv = Ok st' -> csvs st' = csvs st.
Proof.
  intros H. unfold combine_study in H. destruct kv as [key value].
  bind_inv H.
  match type of H with
  | context [let '(_, _) := ?x in _] => destruct x as [summary h']
  end.
  bind_inv H. inversion H; subst; clear H. reflexivity.
Qed.

Lemma combine_studies_csvs (l : list (string * list ndarray))
    (st st' : stats) :
  foldM (combine_study epsilon cv2_resize) st l = Ok st' ->
  csvs st' = csvs st.
Proof.
  revert st. induction l as [|kv l IH]; intros st H; simpl in H.
  - inversion H. reflexivity.
  - destruct (combine_study epsilon cv2_resize st kv) as [st1|] eqn:E;
      [|discriminate].
    simpl in H. rewrite (IH st1 H). eapply combine_study_csvs, E.
Qed.

Lemma process_models_csvs (output : bool) (l : list model_dir)
    (st st' : stats) :
  foldM (process_model epsilon output) st l = Ok st' ->
  (csvs st').*1
  = (csvs st).*1
    ++ (if output
        then (fun m => ("stats-" ++ model_name m ++ ".csv")%string) <$> l
        else []).
Proof.
  revert st. induction l as [|m l IH]; intros st H; simpl in H.
  - inversion H. destruct output; simpl; rewrite app_nil_r; reflexivity.
  - destruct (process_model epsilon output st m) as [st1|] eqn:E;
      [|discriminate].
    simpl in H. rewrite (IH st1 H).
    destruct (model_table_rows output st st1 m E) as (_ & Hon & Hoff).
    destruct output.
    + destruct (Hon eq_refl) as (df & -> & _).
      rewrite fmap_app, <- app_assoc. reflexivity.
    + rewrite (Hoff eq_refl). reflexivity.
Qed.

(** X11.  A run that completes with [output=True] has written one
    table per model directory, in the order of the directories, under
    the name [stats-<model>.csv], and then [stats-combined_models.csv];
    with [output=False] it has written none. *)
Theorem written_tables (model_inferences : list model_dir) (output : bool)
    (st : stats) :
  compute_inference_stats epsilon cv2_resize model_inferences output = Ok st ->
  (csvs st).*1
  = if output
    then ((fun m => ("stats-" ++ model_name m ++ ".csv")%string)
            <$> model_inferences)
         ++ ["stats-combined_models.csv"%string]
    else [].
Proof.
  intros H. unfold compute_inference_stats in H.
  destruct (foldM (process_model epsilon output) init_stats model_inferences)
    as [st1|] eqn:E1; [|discriminate].
  simpl in H.
  destruct (foldM (combine_study epsilon cv2_resize) st1 (all_pred_vol st1))
    as [st2|] eqn:E2; [|discriminate].
  simpl in H. inversion H; subst; clear H. simpl.
  apply process_models_csvs in E1. apply combine_studies_csvs in E2.
  rewrite E2. destruct output.
  - rewrite fmap_app, E1. reflexivity.
  - rewrite E1. reflexivity.
Qed.

Lemma idle_models_fold (output : bool) (l : list model_dir) (st : stats) :
  Forall (fun m => studies m = []) l ->
  Metric_data st = [] -> all_pred_vol st = [] ->
  Combined_metric_data st = [] ->
  exists st',
    foldM (process_model epsilon output) st l = Ok st' /\
    Metric_data st' = [] /\ all_pred_vol st' = [] /\
    Combined_metric_data st' = [] /\
    csvs st'
    = csvs st
      ++ (if output
          then (fun m => (("stats-" ++ model_name m ++ ".csv")%string,
                          @nil (string * gmap string pyval))) <$> l
          else []).
Proof.
  intros Hl. revert st. induction Hl as [|m l Hm _ IH]; intros st HM HP HC.
  - exists st. simpl. destruct output; rewrite app_nil_r; auto.
  - simpl. unfold process_model at 1. rewrite Hm. cbn [foldM bind].
    edestruct IH as (st' & Hrun & HM' & HP' & HC' & Hcsv);
      [| | |rewrite Hrun]; try assumption.
    exists st'. split; [reflexivity|]. repeat (split; [assumption|]).
    rewrite Hcsv. simpl. rewrite HM. destruct output; simpl;
      [rewrite <- app_assoc|]; reflexivity.
Qed.

(** X12.  When none of the model directories holds a study directory
    the run completes, and every table, the combined one included, is
    written without rows. *)
Theorem run_without_studies (model_inferences : list model_dir)
    (output : bool) :
  Forall (fun m => studies m = []) model_inferences ->
  exists st,
    compute_inference_stats epsilon cv2_resize model_inferences output = Ok st /\
    csvs st
    = if output
      then ((fun m => (("stats-" ++ model_name m ++ ".csv")%string,
                       @nil (string * gmap string pyval)))
              <$> model_inferences)
           ++ [("stats-combined_models.csv"%string, [])]
      else [].
Proof.
  intros Hl.
  destruct (idle_models_fold output model_inferences init_stats Hl)
    as (st' & Hrun & HM & HP & HC & Hcsv); try reflexivity.
  unfold compute_inference_stats. rewrite Hrun. cbn [bind].
  rewrite HP. cbn [foldM bind]. eexists. split; [reflexivity|].
  simpl. rewrite HC, Hcsv. destruct output; reflexivity.
Qed.

End Tables.

Lemma other_attrib_fields :
  attrib_fields other_attrib (Qc_of_Z 4) (Qc_of_Z 2) (Q2Qc (3 # 2)) "P2" "MR1".
Proof. repeat split; try (eexists; reflexivity); reflexivity. Qed.

Lemma model_table_rows_witness :
  exists st1 st2 df,
    process_model eps true init_stats other_model = Ok st1 /\
    (Metric_data st1).*1 = ["P2MR1"%string] /\
    process_model eps true st1 model_a = Ok st2 /\
    csvs st2 = csvs st1 ++ [("stats-model_a.csv"%string, df)] /\
    df.*1 = ["P2MR1"; "P1MR1"]%string.
Proof.
  destruct (process_model_one_study eps true init_stats other_model
              other_study sample_pred_vol sample_pred_vol sample_ground_vol
              other_attrib [other_attrib]
              (Qc_of_Z 4) (Qc_of_Z 2) (Q2Qc (3 # 2)) "P2" "MR1"
              eq_refl eq_refl eq_refl eq_refl eq_refl
              other_attrib_fields two_nonzero) as (st1 & Hrun1 & Hkeys1).
  destruct (process_model_one_study eps true st1 model_a
              sample_study sample_pred_vol sample_pred_vol sample_ground_vol
              sample_attrib [sample_attrib]
              (Qc_of_Z 4) (Qc_of_Z 2) (Q2Qc (3 # 2)) "P1" "MR1"
              eq_refl eq_refl eq_refl eq_refl eq_refl
              sample_attrib_fields two_nonzero) as (st2 & Hrun2 & Hkeys2).
  destruct (model_table_rows eps true st1 st2 model_a Hrun2)
    as (_ & Hon & _).
  destruct (Hon eq_refl) as (df & Hcsv & Hkeys & _).
  exists st1, st2, df. split; [exact Hrun1|].
  split; [rewrite Hkeys1; reflexivity|]. split; [exact Hrun2|].
  split; [exact Hcsv|].
  rewrite Hkeys, Hkeys2, Hkeys1. reflexivity.
Defined.

Lemma written_tables_witness :
  exists st,
    compute_inference_stats eps keep_size [idle_model] true = Ok st /\
    (csvs st).*1 = ["stats-model_c.csv"; "stats-combined_models.csv"]%string.
Proof.
  eexists. split; [reflexivity|].
  apply (written_tables eps keep_size [idle_model] true _ eq_refl).
Defined.

Lemma run_without_studies_witness :
  exists st,
    compute_inference_stats eps keep_size [idle_model] true = Ok st /\
    csvs st = [("stats-model_c.csv"%string, []);
               ("stats-combined_models.csv"%string, [])].
Proof.
  apply (run_without_studies eps keep_size [idle_model] true).
  repeat constructor.
Defined.


(** *** Volumes through [reshape] and back *)

Lemma transpose_buffer_row (R : nat) (D : list Qc) :
  length D = R -> transpose_buffer 1 R D = D.
Proof.
  intros Hlen. unfold transpose_buffer.
  transitivity (seq 0 R ≫= fun j => [default 0 (D !! j)]).
  - apply list_bind_ext; [|reflexivity]. intros j. simpl. unfold at2.
    simpl. reflexivity.
  - transitivity ((fun j => default 0 (D !! j)) <$> seq 0 R);
      [|apply lookup_default_seq, Hlen].
    clear. induction (seq 0 R) as [|j l IH]; [reflexivity|].
    rewrite bind_cons, fmap_cons, IH. reflexivity.
Qed.

(** X13.  For a volume of several slices of several pixels a side,
    the inner [reshape] of [resized_stack] gives an array of shape
    (n, n, S), and [np.moveaxis(., -1, 0)] followed by
    [np.expand_dims(., axis=1)], as [compute_inference_stats] applies
    them, gives the volume back. *)
Theorem reshape_round_trip (S n : nat) (D : list Qc) :
  S <> 1%nat -> n <> 1%nat -> length D = prod_shape [S; 1; n; n]%nat ->
  let P := {| shape := [S; 1; n; n]%nat; data := D |} in
  shape (reshape P) = [n; n; S] /\
  expand_dims_1 (moveaxis_last_0 (reshape P)) = Ok P.
Proof.
  intros HS Hn Hlen P. subst P.
  rewrite (reshape_volume S n D HS Hn). split; [reflexivity|].
  unfold moveaxis_last_0. simpl. unfold expand_dims_1. simpl.
  f_equal. f_equal.
  replace (n * (n * 1) + 0)%nat with (n * (n * 1))%nat by lia.
  apply transpose_buffer_twice. rewrite Hlen. simpl. lia.
Qed.

Lemma reshape_round_trip_witness :
  expand_dims_1 (moveaxis_last_0 (reshape sample_pred_vol))
  = Ok sample_pred_vol.
Proof.
  apply (reshape_round_trip 2 2 (data sample_pred_vol)); try discriminate.
  reflexivity.
Defined.

(** X14.  For a volume of a single slice, [np.squeeze] removes the
    slice axis as well: [reshape] gives the (n, n) image, and the way
    back gives an array of shape (n, 1, n) that holds the transposed
    image, not the (1, 1, n, n) volume. *)
Theorem single_slice_volume_is_transposed (n : nat) (D : list Qc) :
  n <> 1%nat -> length D = (n * n)%nat ->
  let P := {| shape := [1; 1; n; n]%nat; data := D |} in
  reshape P = {| shape := [n; n]; data := D |} /\
  expand_dims_1 (moveaxis_last_0 (reshape P))
  = Ok {| shape := [n; 1; n]%nat; data := transpose_buffer n n D |}.
Proof.
  intros Hn Hlen P.
  assert (Hre : reshape P = {| shape := [n; n]; data := D |}).
  { unfold reshape, np_squeeze, moveaxis_0_last. simpl. f_equal.
    - rewrite !filter_cons, filter_nil.
      rewrite !(decide_True (P := n <> 1%nat)) by exact Hn.
      rewrite !decide_False by (intros H; apply H; reflexivity).
      reflexivity.
    - apply transpose_buffer_row. rewrite Hlen. lia. }
  split; [exact Hre|]. rewrite Hre.
  unfold moveaxis_last_0. simpl. unfold expand_dims_1. simpl.
  replace (n * 1)%nat with n by lia. reflexivity.
Qed.

Lemma single_slice_volume_is_transposed_witness :
  expand_dims_1
    (moveaxis_last_0
       (reshape {| shape := [1; 1; 2; 2]%nat; data := [1; 1; 0; 0] |}))
  = Ok {| shape := [2; 1; 2]%nat; data := [1; 0; 1; 0] |}.
Proof.
  destruct (single_slice_volume_is_transposed 2 [1; 1; 0; 0])
    as [_ H]; [discriminate|reflexivity|].
  rewrite H. reflexivity.
Defined.

(** *** What [resized_stack] checks *)

(** X15.  [resized_stack] raises [IndexError] on an empty list.  Its
    two assertions look at the first array only.  For a first array of
    four axes or more they raise [AssertionError] when its second axis
    is not of length one or its image is not square; otherwise every
    array of the list, whatever its shape, is reshaped and handed to
    [cv2.resize] with the size of the first, and the results go to
    [np.stack].  The first array that [cv2.resize] raises for ends the
    call with that exception, before [np.stack] is reached. *)
Theorem resized_stack_checks_first_array
    (cv2_resize : ndarray -> list nat -> result ndarray) (first : ndarray)
    (rest : list ndarray) (s c hh ww : nat) (more : list nat) :
  shape first = s :: c :: hh :: ww :: more ->
  let dsize := take 2 (shape (reshape first)) in
  resized_stack cv2_resize [] = Raise "IndexError" /\
  (c <> 1%nat \/ hh <> ww ->
   resized_stack cv2_resize (first :: rest) = Raise "AssertionError") /\
  (c = 1%nat -> hh = ww ->
   resized_stack cv2_resize (first :: rest)
   = (resized <- comprehension (fun src => cv2_resize src dsize)
                   (reshape <$> first :: rest);;
      np_stack resized) /\
   forall (before after : list ndarray) (arr : ndarray) (cls : string),
     first :: rest = before ++ arr :: after ->
     Forall (fun a => exists r, cv2_resize (reshape a) dsize = Ok r) before ->
     cv2_resize (reshape arr) dsize = Raise cls ->
     resized_stack cv2_resize (first :: rest) = Raise cls).
Proof.
  intros Hsh dsize. split; [reflexivity|].
  unfold resized_stack, shape_at. rewrite Hsh. cbn [lookup list_lookup bind].
  split.
  - intros [Hc|Hw].
    + rewrite (proj2 (Nat.eqb_neq c 1) Hc). reflexivity.
    + destruct (Nat.eqb c 1); [|reflexivity]. cbn [py_assert bind].
      rewrite (proj2 (Nat.eqb_neq hh ww) Hw). reflexivity.
  - intros -> ->. rewrite !Nat.eqb_refl. cbn [py_assert bind].
    split; [reflexivity|].
    intros before after arr cls Hlist Hbefore Harr. rewrite Hlist.
    rewrite fmap_app, fmap_cons.
    rewrite (comprehension_raises _ (reshape <$> before) _ (reshape arr) cls);
      [reflexivity| |exact Harr].
    apply Forall_fmap. exact Hbefore.
Qed.

Lemma resized_stack_checks_first_array_witness :
  resized_stack keep_size
    [{| shape := [2; 3; 2; 2]%nat; data := [] |}; sample_pred_vol]
  = Raise "AssertionError" /\
  shape (reshape {| shape := [2; 3; 2; 5]%nat; data := [] |})
  = [3; 2; 5; 2]%nat /\
  resized_stack keep_size
    [sample_pred_vol; {| shape := [2; 3; 2; 5]%nat; data := [] |}]
  = Raise "cv2.error".
Proof.
  split; [|split; [reflexivity|]].
  - destruct (resized_stack_checks_first_array keep_size
                {| shape := [2; 3; 2; 2]%nat; data := [] |} [sample_pred_vol]
                2 3 2 2 [] eq_refl) as (_ & H & _).
    apply H. left. discriminate.
  - destruct (resized_stack_checks_first_array keep_size sample_pred_vol
                [{| shape := [2; 3; 2; 5]%nat; data := [] |}]
                2 1 2 2 [] eq_refl) as (_ & _ & H).
    destruct (H eq_refl eq_refl) as [_ Hraise].
    apply (Hraise [sample_pred_vol] []
             {| shape := [2; 3; 2; 5]%nat; data := [] |}).
    + reflexivity.
    + repeat constructor. eexists. reflexivity.
    + reflexivity.
Defined.

(** The axes that [reshape] leaves after the first two, for a volume
    of images more than one pixel wide: the slices, unless there is a
    single one. *)
Lemma reshape_channels (S n : nat) (D : list Qc) :
  n <> 1%nat ->
  drop 2 (shape (reshape {| shape := [S; 1; n; n]%nat; data := D |}))
  = if decide (S = 1%nat) then [] else [S].
Proof.
  intros Hn. unfold reshape, np_squeeze, moveaxis_0_last. simpl.
  rewrite !filter_cons, filter_nil.
  rewrite decide_False by (intros H; apply H; reflexivity).
  rewrite !(decide_True (P := n <> 1%nat)) by exact Hn.
  destruct (decide (S = 1%nat)) as [->|HS].
  - rewrite decide_False by (intros H; apply H; reflexivity). reflexivity.
  - rewrite decide_True by exact HS. reflexivity.
Qed.

(** X16.  Take the volumes that two models saved for a study, of
    square images other than one pixel wide, with different numbers of
    slices.  [resized_stack] raises on them: [cv2.resize] changes
    height and width only, so when it returns for both, the arrays to
    stack differ in the axes after the first two and [np.stack] raises
    [ValueError]. *)
Theorem different_slice_counts_raise
    (cv2_resize : ndarray -> list nat -> result ndarray)
    (S1 S2 n1 n2 : nat) (D1 D2 : list Qc) :
  keeps_channels cv2_resize ->
  n1 <> 1%nat -> n2 <> 1%nat -> S1 <> S2 ->
  let A1 := {| shape := [S1; 1; n1; n1]%nat; data := D1 |} in
  let A2 := {| shape := [S2; 1; n2; n2]%nat; data := D2 |} in
  let dsize := take 2 (shape (reshape A1)) in
  (exists cls, resized_stack cv2_resize [A1; A2] = Raise cls) /\
  (forall r1 r2,
     cv2_resize (reshape A1) dsize = Ok r1 ->
     cv2_resize (reshape A2) dsize = Ok r2 ->
     resized_stack cv2_resize [A1; A2] = Raise "ValueError").
Proof.
  intros Hcv Hn1 Hn2 Hne A1 A2 dsize.
  destruct (resized_stack_checks_first_array cv2_resize A1 [A2]
              S1 1 n1 n1 [] eq_refl) as (_ & _ & H).
  destruct (H eq_refl eq_refl) as [Hrun _]. fold dsize in Hrun.
  assert (Hboth : forall r1 r2,
            cv2_resize (reshape A1) dsize = Ok r1 ->
            cv2_resize (reshape A2) dsize = Ok r2 ->
            resized_stack cv2_resize [A1; A2] = Raise "ValueError").
  { intros r1 r2 H1 H2. rewrite Hrun. cbn [fmap list_fmap comprehension].
    rewrite H1, H2. cbn [bind]. unfold np_stack.
    rewrite bool_decide_eq_false_2; [reflexivity|].
    intros Hall. apply Forall_cons in Hall as [Heq _].
    apply (f_equal (drop 2)) in Heq.
    rewrite (Hcv _ _ _ (reshape_no_unit_axis A1) H1) in Heq.
    rewrite (Hcv _ _ _ (reshape_no_unit_axis A2) H2) in Heq.
    unfold A1, A2 in Heq.
    rewrite (reshape_channels S1 n1 D1 Hn1) in Heq.
    rewrite (reshape_channels S2 n2 D2 Hn2) in Heq.
    destruct (decide (S1 = 1%nat)), (decide (S2 = 1%nat));
      try discriminate; [congruence|].
    inversion Heq. congruence. }
  split; [|exact Hboth].
  destruct (cv2_resize (reshape A1) dsize) as [r1|cls1] eqn:E1.
  - destruct (cv2_resize (reshape A2) dsize) as [r2|cls2] eqn:E2.
    + exists "ValueError"%string. eapply Hboth; reflexivity.
    + exists cls2. rewrite Hrun. cbn [fmap list_fmap comprehension].
      rewrite E1, E2. reflexivity.
  - exists cls1. rewrite Hrun. cbn [fmap list_fmap comprehension].
    rewrite E1. reflexivity.
Qed.

Lemma different_slice_counts_raise_witness :
  resized_stack keep_size
    [{| shape := [2; 1; 2; 2]%nat; data := [1; 1; 0; 0; 0; 0; 0; 1] |};
     {| shape := [3; 1; 2; 2]%nat;
        data := [1; 1; 0; 0; 0; 0; 0; 1; 0; 0; 0; 0] |}]
  = Raise "ValueError".
Proof.
  destruct (different_slice_counts_raise keep_size 2 3 2 2
              [1; 1; 0; 0; 0; 0; 0; 1] [1; 1; 0; 0; 0; 0; 0; 1; 0; 0; 0; 0]
              keep_size_keeps_channels) as [_ H]; try discriminate.
  eapply H; reflexivity.
Defined.

(** *** [display_volumes] *)

Lemma comprehension_all_Ok {A B} (f : A -> result B) (y : B) (l : list A) :
  Forall (fun x => f x = Ok y) l ->
  comprehension f l = Ok (replicate (length l) y).
Proof.
  induction 1 as [|x l Hx _ IH]; [reflexivity|].
  simpl. rewrite Hx, IH. reflexivity.
Qed.

Lemma display_slices_in_range (n : Z) :
  (0 < n)%Z -> Forall (fun s => (0 <= s < n)%Z) (display_slices n).
Proof.
  intros Hn. unfold display_slices.
  assert (H6 : (0 <= n / 6)%Z) by (apply Z.div_pos; lia).
  assert (Hm : (6 * (n / 6) <= n)%Z) by (apply Z.mul_div_le; lia).
  repeat constructor; lia.
Qed.

(** X17.  For volumes of [n >= 1] slices with a channel axis,
    [display_volumes] reads the slices [k * (n // 6)] for [k] from 1 to
    5 without an [IndexError]: they all lie in [0, n).  With fewer than
    six slices all five rows show slice 0. *)
Theorem display_volumes_in_range (img_vol pred_vol ground_vol : ndarray)
    (n c1 c2 c3 : nat) (r1 r2 r3 : list nat) :
  (0 < n)%nat ->
  shape img_vol = n :: Datatypes.S c1 :: r1 ->
  shape pred_vol = n :: Datatypes.S c2 :: r2 ->
  shape ground_vol = n :: Datatypes.S c3 :: r3 ->
  display_volumes img_vol pred_vol ground_vol
  = Ok (display_slices (Z.of_nat n)) /\
  Forall (fun s => (0 <= s < Z.of_nat n)%Z) (display_slices (Z.of_nat n)) /\
  ((n < 6)%nat -> display_slices (Z.of_nat n) = [0; 0; 0; 0; 0]%Z).
Proof.
  intros Hn Hi Hp Hg.
  pose proof (display_slices_in_range (Z.of_nat n)) as Hrange.
  assert (Hok : forall vol c r, shape vol = n :: Datatypes.S c :: r ->
                Forall (fun s => slice_channel_0 vol s = Ok tt)
                  (display_slices (Z.of_nat n))).
  { intros vol c r Hv. eapply Forall_impl; [apply Hrange; lia|].
    intros s Hs. simpl in Hs. unfold slice_channel_0. rewrite Hv.
    destruct (Z.ltb_spec s (Z.of_nat n)); [|lia].
    destruct (Z.ltb_spec 0 (Z.of_nat (Datatypes.S c))); [|lia].
    reflexivity. }
  split; [|split].
  - unfold display_volumes, shape_at. rewrite Hp. cbn [lookup list_lookup bind].
    rewrite (comprehension_all_Ok _ tt).
    2:{ eapply Forall_impl; [apply (Hok img_vol c1 r1 Hi)|].
        intros s Hs. simpl in Hs. rewrite Hs. reflexivity. }
    cbn [bind].
    rewrite (comprehension_all_Ok _ tt).
    2:{ pose proof (Hok pred_vol c2 r2 Hp) as H2.
        pose proof (Hok ground_vol c3 r3 Hg) as H3.
        rewrite Forall_forall in H2, H3. apply Forall_forall.
        intros s Hs. rewrite (H2 s Hs). exact (H3 s Hs). }
    reflexivity.
  - apply Hrange. lia.
  - intros Hlt. unfold display_slices.
    rewrite (Z.div_small (Z.of_nat n) 6) by lia. reflexivity.
Qed.

Lemma display_volumes_in_range_witness :
  display_volumes sample_pred_vol sample_pred_vol sample_ground_vol
  = Ok [0; 0; 0; 0; 0]%Z.
Proof.
  destruct (display_volumes_in_range sample_pred_vol sample_pred_vol
              sample_ground_vol 2 0 0 0 [2; 2]%nat [2; 2]%nat [2; 2]%nat)
    as (H & _ & H0); [lia|reflexivity|reflexivity|reflexivity|].
  rewrite H. rewrite H0 by lia. reflexivity.
Defined.


(** *** The combined row *)

(** Writing the summary a second time, over the values of the first
    call, changes [Pred_stdev] only. *)
Lemma summary_of_again (epsilon : Qc) (pred_vol ground_vol : ndarray)
    (pred_process : Qc -> Qc) (d : gmap string pyval) (std : root)
    (a b vv : Qc) (p m : string) :
  let s := summary_of epsilon pred_vol ground_vol pred_process d None
             a b vv p m in
  summary_of epsilon pred_vol ground_vol pred_process s (Some std)
    a b vv p m
  = <["Pred_stdev"%string := VRoot std]> s.
Proof.
  intros s. subst s. unfold summary_of. apply map_eq. intros k.
  rewrite !lookup_insert. repeat case_decide; reflexivity.
Qed.

Lemma Qc_of_nat_1 : Qc_of_nat 1 = 1.
Proof. apply Qc_is_canon. reflexivity. Qed.

(** The mean over the model axis of a single volume is the volume. *)
Lemma mean_of_single (sh : list nat) (T : list Qc) :
  length T = prod_shape sh ->
  np_mean_axis0 {| shape := 1%nat :: sh; data := T |}
  = {| shape := sh; data := T |}.
Proof.
  intros Hlen. unfold np_mean_axis0. simpl. f_equal.
  transitivity ((fun j => default 0 (T !! j)) <$> seq 0 (prod_shape sh));
    [|apply lookup_default_seq, Hlen].
  apply list_fmap_ext. intros i j Hj. unfold at2. simpl.
  rewrite Qc_of_nat_1. field. discriminate.
Qed.

Section Ensemble.

Variable epsilon : Qc.
Variable cv2_resize : ndarray -> list nat -> result ndarray.
Hypothesis cv2_resize_same_size : same_size_is_identity cv2_resize.

Variables (S n : nat) (D : list Qc).
Hypothesis several_slices : S <> 1%nat.
Hypothesis several_pixels : n <> 1%nat.
Hypothesis buffer_size : length D = prod_shape [S; 1; n; n]%nat.

Variables (m1 : model_dir) (sd1 : study_dir) (I1 G1 : ndarray).
Variables (d1 : gmap string pyval) (tl1 : list (gmap string pyval)).
Variables (a1 b1 v1 : Qc) (p m : string).

Hypothesis one_study_1 : studies m1 = [sd1].
Hypothesis imgs_1 : np_stack (imgs sd1) = Ok I1.
Hypothesis preds_1 :
  np_stack (preds sd1) = Ok {| shape := [S; 1; n; n]%nat; data := D |}.
Hypothesis grounds_1 : np_stack (grounds sd1) = Ok G1.
Hypothesis attribs_1 : attribs sd1 = d1 :: tl1.
Hypothesis fields_1 : attrib_fields d1 a1 b1 v1 p m.
Hypothesis target_1 : b1 <> 0.

Lemma resized_stack_single :
  resized_stack cv2_resize [{| shape := [S; 1; n; n]%nat; data := D |}]
  = Ok {| shape := [1; n; n; S]%nat;
          data := transpose_buffer S (prod_shape [1; n; n]%nat) D |}.
Proof.
  set (P := {| shape := [S; 1; n; n]%nat; data := D |}).
  set (T := transpose_buffer S (prod_shape [1; n; n]%nat) D).
  assert (Hre : reshape P = {| shape := [n; n; S]; data := T |})
    by (apply reshape_volume; assumption).
  unfold resized_stack, shape_at. cbn [P shape lookup list_lookup bind].
  rewrite !Nat.eqb_refl. cbn [py_assert bind fmap list_fmap].
  fold P. rewrite Hre. cbn [shape take comprehension].
  rewrite (cv2_resize_same_size {| shape := [n; n; S]; data := T |} n);
    [|rewrite <- Hre; apply reshape_no_unit_axis|reflexivity|apply le_n].
  cbn [bind]. unfold np_stack.
  rewrite bool_decide_eq_true_2 by constructor.
  simpl. rewrite app_nil_r. reflexivity.
Qed.

Lemma combined_volume_single :
  expand_dims_1
    (moveaxis_last_0
       (np_mean_axis0
          {| shape := [1; n; n; S]%nat;
             data := transpose_buffer S (prod_shape [1; n; n]%nat) D |}))
  = Ok {| shape := [S; 1; n; n]%nat; data := D |}.
Proof.
  rewrite mean_of_single.
  2:{ rewrite transpose_buffer_length. simpl. lia. }
  destruct (reshape_round_trip S n D several_slices several_pixels
              buffer_size) as [_ Hback].
  rewrite (reshape_volume S n D several_slices several_pixels) in Hback.
  exact Hback.
Qed.

(** The state in which the run of a single model ends. *)
Lemma one_model_run (output : bool) :
  let P := {| shape := [S; 1; n; n]%nat; data := D |} in
  let key := (p ++ m)%string in
  let s1 := summary_of epsilon P G1 SigmoidBinarize d1 None a1 b1 v1 p m in
  let stacked := {| shape := [1; n; n; S]%nat;
                    data := transpose_buffer S (prod_shape [1; n; n]%nat) D |}
  in
  exists st,
    compute_inference_stats epsilon cv2_resize [m1] output = Ok st /\
    Metric_data st = [(key, 0%nat)] /\
    Combined_metric_data st = [(key, 0%nat)] /\
    csvs st
    = if output
      then [(("stats-" ++ model_name m1 ++ ".csv")%string, [(key, s1)]);
            ("stats-combined_models.csv"%string,
             [(key, <["Pred_stdev"%string := VRoot (np_std stacked)]> s1)])]
      else [].
Proof.
  intros P key s1 stacked.
  unfold compute_inference_stats.
  cbn [foldM]. unfold process_model at 1. rewrite one_study_1. cbn [foldM].
  rewrite (process_study_Ok epsilon init_stats sd1 I1 P G1 d1 tl1 a1 b1 v1 p m
             imgs_1 preds_1 grounds_1 attribs_1 fields_1 target_1).
  cbn [bind heap Metric_data Combined_metric_data all_pred_vol all_ground_vol
       all_summaries stacked_pred_vol csvs init_stats length app].
  rewrite !odict_append_nil. cbn [odict_set app].
  change (<[0%nat := summary_of epsilon P G1 SigmoidBinarize d1 None
                       a1 b1 v1 p m]> (d1 :: tl1)) with (s1 :: tl1).
  fold key.
  cbn [foldM all_pred_vol]. unfold combine_study at 1.
  cbn [all_ground_vol all_summaries heap Metric_data Combined_metric_data
       all_pred_vol stacked_pred_vol csvs].
  assert (Hrs : resized_stack cv2_resize [P] = Ok stacked)
    by apply resized_stack_single.
  assert (Hcv : expand_dims_1 (moveaxis_last_0 (np_mean_axis0 stacked))
                = Ok P)
    by apply combined_volume_single.
  rewrite Hrs. cbn [bind]. rewrite Hcv. cbn [bind].
  rewrite !odict_get_same. cbn [from_option id].
  rewrite !list_getitem_head. cbn [bind].
  assert (Hh0 : (s1 :: tl1) !! 0%nat = Some s1) by reflexivity.
  assert (Hf1 : attrib_fields s1 a1 b1 v1 p m)
    by (apply summary_of_fields, fields_1).
  destruct (exam_preds_to_stat_Ok epsilon (s1 :: tl1) P G1 SigmoidBinarize 0
              (Some (np_std stacked)) s1 a1 b1 v1 p m Hh0 Hf1 target_1)
    as (Hex & Hde).
  rewrite Hex. cbn [bind]. rewrite Hde.
  destruct (summary_of_lookup epsilon P G1 SigmoidBinarize s1
              (Some (np_std stacked)) a1 b1 v1 p m) as (_ & _ & Hstudy & _).
  unfold dict_item. rewrite Hstudy. cbn [bind as_key].
  fold key. cbn [odict_set Metric_data Combined_metric_data all_pred_vol
                 all_ground_vol all_summaries stacked_pred_vol heap csvs].
  eexists. split; [reflexivity|].
  cbn [Metric_data Combined_metric_data csvs].
  split; [reflexivity|]. split; [reflexivity|].
  unfold to_frame. cbn [fmap list_fmap fst snd csvs].
  rewrite Hde.
  assert (Hd0 : deref (s1 :: tl1) 0 = s1) by reflexivity.
  rewrite Hd0.
  unfold s1 at 2. rewrite summary_of_again. fold s1.
  destruct output; reflexivity.
Qed.

(** X18.  One model with one study directory whose predictions stack
    to a volume of [S] slices of [n] by [n] pixels ([S] and [n] other
    than 1), with the attribute fields in place, a non-zero resize
    target, and a [cv2.resize] that leaves an image of the target size
    as it is.  The run returns; it writes the row of the model with
    [Pred_stdev] empty, and a combined row that equals it except for
    [Pred_stdev], which holds [np.std] of the array of shape
    [1, n, n, S] that [resized_stack] returns for the one prediction:
    the population standard deviation over all voxels of the model's
    prediction, zero exactly when they all have one value. *)
Theorem single_model_combined_row :
  let P := {| shape := [S; 1; n; n]%nat; data := D |} in
  let key := (p ++ m)%string in
  let stacked :=
    {| shape := [1; n; n; S]%nat;
       data := transpose_buffer S (prod_shape [1; n; n]%nat) D |} in
  exists st s1,
    compute_inference_stats epsilon cv2_resize [m1] true = Ok st /\
    csvs st
    = [(("stats-" ++ model_name m1 ++ ".csv")%string, [(key, s1)]);
       ("stats-combined_models.csv"%string,
        [(key, <["Pred_stdev"%string := VRoot (np_std stacked)]> s1)])] /\
    s1 !! "Pred_stdev"%string = Some VNone /\
    s1 !! "patient_dice"%string
    = Some (VNum (Dice SigmoidBinarize epsilon P G1)) /\
    resized_stack cv2_resize [P] = Ok stacked /\
    (forall x, x ∈ data stacked <-> x ∈ D) /\
    (D <> [] ->
     root_is_zero (np_std stacked) <-> forall x y, x ∈ D -> y ∈ D -> x = y).
Proof.
  intros P key stacked.
  destruct (one_model_run true) as (st & Hrun & _ & _ & Hcsv).
  assert (Hel : forall x,
            x ∈ transpose_buffer S (prod_shape [1; n; n]%nat) D <-> x ∈ D)
    by (intros x; apply transpose_buffer_elem; exact buffer_size).
  eexists st, _. split; [exact Hrun|]. split; [exact Hcsv|].
  split; [apply summary_of_lookup|]. split; [apply summary_of_lookup|].
  split; [apply resized_stack_single|]. split; [exact Hel|].
  intros HD.
  rewrite np_std_zero_iff; cbn [data stacked].
  - split; intros H x y Hx Hy; apply H; apply Hel; assumption.
  - destruct (nonempty_elem D HD) as [x Hx]. apply Hel in Hx.
    intros Hnil. rewrite Hnil in Hx. apply elem_of_nil in Hx. exact Hx.
Qed.

Variables (m2 : model_dir) (sd2 : study_dir) (I2 G2 : ndarray).
Variables (d2 : gmap string pyval) (tl2 : list (gmap string pyval)).
Variables (a2 b2 v2 : Qc).

Hypothesis one_study_2 : studies m2 = [sd2].
Hypothesis imgs_2 : np_stack (imgs sd2) = Ok I2.
Hypothesis preds_2 :
  np_stack (preds sd2) = Ok {| shape := [S; 1; n; n]%nat; data := D |}.
Hypothesis grounds_2 : np_stack (grounds sd2) = Ok G2.
Hypothesis attribs_2 : attribs sd2 = d2 :: tl2.
Hypothesis fields_2 : attrib_fields d2 a2 b2 v2 p m.
Hypothesis target_2 : b2 <> 0.

(** X19.  Two models with one study directory each, for the same
    patient and MR, whose predictions stack to the same volume of [S]
    slices of [n] by [n] pixels ([S] and [n] other than 1), with the
    attribute fields in place, non-zero resize targets, and a
    [cv2.resize] that leaves an image of the target size as it is.  The
    combined row is the row of the first model with [Pred_stdev]
    replaced by [np.std] of the stacked predictions: [TKV_Pred],
    [TKV_GT], the scale factor and the attributes come from the
    attribute file and the ground truth of the first model, not of the
    second. *)
Theorem ensemble_row_of_identical_models :
  let P := {| shape := [S; 1; n; n]%nat; data := D |} in
  let key := (p ++ m)%string in
  let T := transpose_buffer S (prod_shape [1; n; n]%nat) D in
  let stacked := {| shape := [2; n; n; S]%nat; data := T ++ T |} in
  exists st s1 s2,
    compute_inference_stats epsilon cv2_resize [m1; m2] true = Ok st /\
    csvs st
    = [(("stats-" ++ model_name m1 ++ ".csv")%string, [(key, s1)]);
       (("stats-" ++ model_name m2 ++ ".csv")%string, [(key, s2)]);
       ("stats-combined_models.csv"%string,
        [(key, <["Pred_stdev"%string := VRoot (np_std stacked)]> s1)])] /\
    s1 = summary_of epsilon P G1 SigmoidBinarize d1 None a1 b1 v1 p m /\
    s2 = summary_of epsilon P G2 SigmoidBinarize d2 None a2 b2 v2 p m /\
    s1 !! "TKV_Pred"%string
    = Some (VNum (a1 * a1 / (b1 * b1) * v1
                  * sumQ (SigmoidBinarize <$> D))) /\
    s1 !! "TKV_GT"%string
    = Some (VNum (a1 * a1 / (b1 * b1) * v1
                  * sumQ (SigmoidBinarize <$> data G1))) /\
    s2 !! "TKV_GT"%string
    = Some (VNum (a2 * a2 / (b2 * b2) * v2
                  * sumQ (SigmoidBinarize <$> data G2))).
Proof.
  intros P key T stacked.
  destruct (two_models_run epsilon cv2_resize cv2_resize_same_size S n D
              several_slices several_pixels buffer_size m1 m2 sd1 sd2
              I1 I2 G1 G2 d1 d2 tl1 tl2 a1 b1 v1 a2 b2 v2 p m
              one_study_1 one_study_2 imgs_1 imgs_2 preds_1 preds_2
              grounds_1 grounds_2 attribs_1 attribs_2 fields_1 fields_2
              target_1 target_2 true)
    as (stacked' & st & Hrs & Hrun & _ & _ & _ & _ & _ & _ & Hcsv).
  assert (Hrs' : resized_stack cv2_resize [P; P] = Ok stacked)
    by (apply resized_stack_twins; assumption).
  assert (stacked' = stacked) as ->.
  { subst P. rewrite Hrs' in Hrs. inversion Hrs. reflexivity. }
  rewrite summary_of_again in Hcsv.
  eexists st, _, _. split; [exact Hrun|]. split; [exact Hcsv|].
  split; [reflexivity|]. split; [reflexivity|].
  split; [apply summary_of_lookup|]. split; apply summary_of_lookup.
Qed.

End Ensemble.


Lemma single_model_combined_row_witness :
  exists st s1,
    compute_inference_stats eps keep_size [model_a] true = Ok st /\
    csvs st
    = [("stats-model_a.csv"%string, [("P1MR1"%string, s1)]);
       ("stats-combined_models.csv"%string,
        [("P1MR1"%string,
          <["Pred_stdev"%string :=
              VRoot (np_std {| shape := [1; 2; 2; 2]%nat;
                               data := [1; 0; 1; 0; 0; 0; 0; 1] |})]> s1)])] /\
    s1 !! "Pred_stdev"%string = Some VNone.
Proof.
  assert (H21 : 2%nat <> 1%nat) by discriminate.
  destruct (single_model_combined_row eps keep_size
              keep_size_same_size 2 2 (data sample_pred_vol) H21 H21 eq_refl
              model_a sample_study sample_pred_vol sample_ground_vol
              sample_attrib [sample_attrib]
              (Qc_of_Z 4) (Qc_of_Z 2) (Q2Qc (3 # 2)) "P1" "MR1"
              eq_refl eq_refl eq_refl eq_refl eq_refl
              sample_attrib_fields two_nonzero)
    as (st & s1 & Hrun & Hcsv & Hnone & _).
  exists st, s1. auto.
Defined.

Lemma ensemble_row_of_identical_models_witness :
  exists st s1 s2,
    compute_inference_stats eps keep_size two_models true = Ok st /\
    csvs st
    = [("stats-model_a.csv"%string, [("P1MR1"%string, s1)]);
       ("stats-model_b.csv"%string, [("P1MR1"%string, s2)]);
       ("stats-combined_models.csv"%string,
        [("P1MR1"%string,
          <["Pred_stdev"%string :=
              VRoot (np_std {| shape := [2; 2; 2; 2]%nat;
                               data := [1; 0; 1; 0; 0; 0; 0; 1;
                                        1; 0; 1; 0; 0; 0; 0; 1] |})]> s1)])].
Proof.
  assert (H21 : 2%nat <> 1%nat) by discriminate.
  destruct (ensemble_row_of_identical_models eps keep_size
              keep_size_same_size 2 2 (data sample_pred_vol) H21 H21 eq_refl
              model_a sample_study sample_pred_vol sample_ground_vol
              sample_attrib [sample_attrib]
              (Qc_of_Z 4) (Qc_of_Z 2) (Q2Qc (3 # 2)) "P1" "MR1"
              eq_refl eq_refl eq_refl eq_refl eq_refl
              sample_attrib_fields two_nonzero
              model_b sample_study sample_pred_vol sample_ground_vol
              sample_attrib [sample_attrib]
              (Qc_of_Z 4) (Qc_of_Z 2) (Q2Qc (3 # 2))
              eq_refl eq_refl eq_refl eq_refl eq_refl
              sample_attrib_fields two_nonzero)
    as (st & s1 & s2 & Hrun & Hcsv & _).
  exists st, s1, s2. auto.
Defined.

End StatisticsFacts.

Module ConstructionFacts.
Import Datasets Notebook PyFacts DatasetsFacts NotebookFacts Construction.

Lemma collect_fold_from (patient2dcm : list (string * list Path))
    (ids : list string) (acc : list Path) :
  foldM (fun dcm_paths p =>
           files <- dict_getitem patient2dcm p;; Ok (dcm_paths ++ files))
        acc ids
  = if decide (Forall (fun p => is_Some (dict_get patient2dcm p)) ids)
    then Ok (acc ++ (ids ≫= fun p => default [] (dict_get patient2dcm p)))
    else Raise "KeyError".
Proof.
  revert acc. induction ids as [|p ids IH]; intros acc.
  - destruct (decide (Forall (fun p => is_Some (dict_get patient2dcm p)) []))
      as [_|Hn]; [|exfalso; apply Hn; constructor].
    simpl. rewrite app_nil_r. reflexivity.
  - cbn [foldM]. unfold dict_getitem at 1.
    destruct (dict_get patient2dcm p) as [files|] eqn:E; cbn [bind].
    + rewrite IH.
      destruct (decide (Forall (fun p => is_Some (dict_get patient2dcm p)) ids))
        as [Hall|Hnot].
      * rewrite decide_True by (constructor; [rewrite E; eauto|exact Hall]).
        rewrite bind_cons, E, app_assoc. reflexivity.
      * rewrite decide_False; [reflexivity|].
        intros Hall. apply Forall_cons in Hall as [_ Hall]. contradiction.
    + rewrite decide_False; [reflexivity|].
      intros Hall. apply Forall_cons in Hall as [[files Hp] _]. congruence.
Qed.

(** X20.  With [patient_IDS] given, [dcm_paths] is made of the file
    lists of the listed patients in the order of the list, a patient
    listed twice contributing twice and a patient not listed not at
    all; as soon as one listed patient is no key of [patient2dcm],
    construction raises [KeyError]. *)
Theorem patient_IDS_decide_paths (patient2dcm : list (string * list Path))
    (patient_IDS : list string) :
  collect_paths patient2dcm (Some patient_IDS)
  = if decide (Forall (fun p => is_Some (dict_get patient2dcm p)) patient_IDS)
    then Ok (patient_IDS ≫= fun p => default [] (dict_get patient2dcm p))
    else Raise "KeyError".
Proof. unfold collect_paths. simpl. apply collect_fold_from. Qed.

Lemma dict_get_key {V} (d : list (string * V)) (k : string) :
  k ∈ d.*1 -> is_Some (dict_get d k).
Proof.
  intros Hk. apply list_elem_of_fmap in Hk as ([k' v] & -> & Hin).
  unfold dict_get.
  destruct (list_find _ d) as [found|] eqn:Hf; [simpl; eauto|].
  apply list_find_None in Hf. rewrite Forall_forall in Hf.
  exfalso. apply (Hf (k', v) Hin). reflexivity.
Qed.

Lemma bind_as_foldl {A B} (f : A -> list B) (l : list A) (acc : list B) :
  foldl (fun acc x => acc ++ f x) acc l = acc ++ (l ≫= f).
Proof.
  revert acc. induction l as [|x l IH]; intros acc; simpl.
  - rewrite app_nil_r. reflexivity.
  - rewrite IH, app_assoc. reflexivity.
Qed.

(** X21.  Without [patient_IDS], a [SegmentationDataset] collects the
    file lists of [patient2dcm] in key order, and these are the same
    [dcm_paths], in the same order, as an [InferenceDataset] built from
    the same [patient2dcm] exposes. *)
Theorem paths_without_patient_IDS (patient2dcm : list (string * list Path))
    (dcmread : Path -> result dcm_header) :
  collect_paths patient2dcm None = Ok (collect_dcm_paths patient2dcm) /\
  forall d : InferenceDataset,
    InferenceDataset_init patient2dcm dcmread = Ok d ->
    collect_paths patient2dcm None = Ok (dcm_paths d).
Proof.
  assert (Hpaths : collect_paths patient2dcm None
                   = Ok (collect_dcm_paths patient2dcm)).
  { unfold collect_paths, collect_dcm_paths. simpl.
    rewrite collect_fold_from, decide_True.
    - rewrite bind_as_foldl. reflexivity.
    - apply Forall_forall. intros k Hk. apply dict_get_key, Hk. }
  split; [exact Hpaths|].
  intros d Hd. rewrite (InferenceDataset_dcm_paths_input_order _ _ _ Hd).
  exact Hpaths.
Qed.

Lemma paths_without_patient_IDS_witness :
  exists d,
    InferenceDataset_init two_files two_headers = Ok d /\
    collect_paths two_files None = Ok (dcm_paths d) /\
    dcm_paths d = two_paths.
Proof.
  eexists. split; [vm_compute; reflexivity|]. split; [|reflexivity].
  apply (paths_without_patient_IDS two_files two_headers). reflexivity.
Defined.

(** *** The pass over the samples *)

Lemma foldM_app {S A} (body : S -> A -> result S) (l l' : list A) (st : S) :
  foldM body st (l ++ l') = (st' <- foldM body st l;; foldM body st' l').
Proof.
  revert st. induction l as [|x l IH]; intros st; [reflexivity|].
  simpl. destruct (body st x); simpl; [apply IH|reflexivity].
Qed.

(** A loop through [__getitem__] that returns has run its body on the
    samples before the first one that raised an exception ending the
    iteration. *)
Lemma for_enumerate_seq_Ok {X S} (getitem : Z -> result X)
    (body : S -> nat -> result S) (j k : nat) (st st' : S) :
  for_enumerate getitem body (seq j k) st = Ok st' ->
  exists built,
    (built <= k)%nat /\
    (forall i, (j <= i < j + built)%nat ->
               exists x, getitem (Z.of_nat i) = Ok x) /\
    ((built < k)%nat ->
     exists cls, getitem (Z.of_nat (j + built)) = Raise cls /\
                 ends_iteration cls = true) /\
    foldM body st (seq j built) = Ok st'.
Proof.
  revert j st. induction k as [|k IH]; intros j st H.
  - exists 0%nat. simpl in *. split; [lia|]. split; [intros; lia|].
    split; [intros; lia|exact H].
  - cbn [seq for_enumerate] in H.
    destruct (getitem (Z.of_nat j)) as [x|cls] eqn:E.
    + destruct (body st j) as [st1|] eqn:Eb; [|discriminate]. cbn [bind] in H.
      destruct (IH (Datatypes.S j) st1 H) as (built & Hle & Hok & Hstop & Hf).
      exists (Datatypes.S built). split; [lia|]. split; [|split].
      * intros i Hi. destruct (decide (i = j)) as [->|Hne]; [eauto|].
        apply Hok. lia.
      * intros Hlt. destruct Hstop as (cls & Hcls & He); [lia|].
        exists cls. split; [|exact He].
        replace (j + Datatypes.S built)%nat with (Datatypes.S j + built)%nat
          by lia. exact Hcls.
      * cbn [seq foldM]. rewrite Eb. exact Hf.
    + destruct (ends_iteration cls) eqn:He; [|discriminate].
      exists 0%nat. split; [lia|]. split; [intros; lia|]. split.
      * intros _. exists cls. rewrite Nat.add_0_r. auto.
      * simpl. exact H.
Qed.

Lemma odict_set_elem {V} (k k0 : string) (v v0 : V) (d : list (string * V)) :
  (k, v) ∈ odict_set k0 v0 d -> (k, v) = (k0, v0) \/ (k, v) ∈ d.
Proof.
  induction d as [|[k' v'] d IH]; simpl.
  - intros H. apply list_elem_of_singleton in H. auto.
  - destruct (decide (k' = k0)) as [->|Hne]; intros H;
      apply elem_of_cons in H as [H|H]; auto.
    + right. right. exact H.
    + right. rewrite H. left.
    + destruct (IH H) as [?|?]; auto. right. right. assumption.
Qed.

Section Pass.

Context {sample V E dtype studies_t : Type}.
Variable get_y_Path : Path -> Path.
Variable make_sample : Path -> Path -> Z -> result sample.
Variable TKV_update :
  gmap Path (gmap string V) -> studies_t * gmap Path (gmap string V).
Variable torch_dtype : string -> result dtype.
Variable zero : dtype -> E.
Variable convert : dtype -> V -> result E.

Lemma zeros_dict_from (n : nat) (types : list (string * string))
    (td0 td : list (string * @tensor E dtype)) :
  foldM (fun tensor_dict kv =>
           dt <- torch_dtype kv.2;;
           Ok (odict_set kv.1
                 {| tensor_dtype := dt;
                    tensor_values := replicate n (zero dt) |} tensor_dict))
        td0 types = Ok td ->
  Forall (fun kt => tensor_values kt.2
                    = replicate n (zero (tensor_dtype kt.2))) td0 ->
  Forall (fun kt => tensor_values kt.2
                    = replicate n (zero (tensor_dtype kt.2))) td.
Proof.
  revert td0. induction types as [|[k v] types IH]; intros td0 H Hz.
  - inversion H; subst. exact Hz.
  - cbn [foldM] in H. simpl in H.
    destruct (torch_dtype v) as [dt|]; [|discriminate]. cbn [bind] in H.
    apply (IH _ H). apply Forall_forall. intros [k' t'] Hin.
    apply odict_set_elem in Hin as [Heq|Hin].
    + inversion Heq; subst. reflexivity.
    + rewrite Forall_forall in Hz. apply (Hz _ Hin).
Qed.

Lemma fill_rows (paths : list Path) (dcm2attribs : gmap Path (gmap string V))
    (built : nat) (td0 td : list (string * @tensor E dtype)) :
  foldM (fill_row convert paths dcm2attribs) td0 (seq 0 built) = Ok td ->
  Forall2 (filled convert paths dcm2attribs built) td0 td /\
  (forall i p, (i < built)%nat -> paths !! i = Some p ->
               is_Some (dcm2attribs !! p)).
Proof.
  revert td. induction built as [|built IH]; intros td H.
  - simpl in H. inversion H; subst. split; [|intros; lia].
    apply Forall2_same_length_lookup_2; [reflexivity|].
    intros q kt0 kt H0 H1. rewrite H0 in H1. inversion H1; subst.
    repeat split; auto. intros; lia.
  - rewrite seq_S, foldM_app in H. simpl in H.
    destruct (foldM (fill_row convert paths dcm2attribs) td0 (seq 0 built))
      as [td1|] eqn:E1; [|discriminate]. cbn [bind] in H.
    destruct (IH td1 eq_refl) as [IHf IHa]. clear IH. rename IHf into IH.
    destruct (fill_row convert paths dcm2attribs td1 built) as [td2|] eqn:E2;
      [|discriminate].
    cbn [bind] in H. inversion H; subst td2; clear H.
    unfold fill_row in E2.
    destruct (list_getitem paths (Z.of_nat built)) as [p|] eqn:Ep;
      [|discriminate]. cbn [bind] in E2.
    destruct (dcm2attribs !! p) as [attribs|] eqn:Ea; [|discriminate].
    cbn [bind] in E2. apply comprehension_Ok in E2.
    assert (Hp : paths !! built = Some p).
    { unfold list_getitem in Ep.
      destruct (Z.ltb_spec (Z.of_nat built) 0); [lia|].
      destruct ((Z.of_nat built <? 0) || (Z.of_nat (length paths) <=? Z.of_nat built));
        [discriminate|].
      rewrite Nat2Z.id in Ep. destruct (paths !! built); [|discriminate].
      inversion Ep. reflexivity. }
    split.
    2:{ intros i p' Hi Hp'. destruct (decide (i = built)) as [->|Hne].
        - rewrite Hp in Hp'. inversion Hp'; subst p'. eauto.
        - apply (IHa i); [lia|exact Hp']. }
    apply Forall2_same_length_lookup_2.
    { rewrite (Forall2_length _ _ _ IH). apply (Forall2_length _ _ _ E2). }
    intros q kt0 kt H0 H2.
    destruct (Forall2_lookup_r _ _ _ _ _ E2 H2) as (kt1 & H1 & Hstep).
    pose proof (Forall2_lookup_lr _ _ _ _ _ _ IH H0 H1)
      as (Hk & Hdt & Hlen & Hrest & Hdone).
    destruct (attribs !! kt1.1) as [x|] eqn:Ex; [|discriminate].
    cbn [bind] in Hstep.
    destruct (convert (tensor_dtype kt1.2) x) as [e|] eqn:Ec; [|discriminate].
    cbn [bind] in Hstep. inversion Hstep; subst kt; clear Hstep.
    unfold filled. cbn [fst snd tensor_dtype tensor_values].
    split; [exact Hk|]. split; [exact Hdt|].
    split; [rewrite length_insert; exact Hlen|]. split.
    + intros i Hi. rewrite list_lookup_insert_ne by lia. apply Hrest. lia.
    + intros i p' Hi Hlt Hp'.
      destruct (decide (i = built)) as [->|Hne].
      * rewrite Hp in Hp'. inversion Hp'; subst p'.
        exists attribs, x, e. repeat split; auto.
        apply list_lookup_insert_eq. lia.
      * rewrite list_lookup_insert_ne by lia.
        apply Hdone; [lia|exact Hlt|exact Hp'].
Qed.


(** What a returning construction has done: the paths collected, the
    samples up to [built] made, and the rows below [built] filled. *)
Lemma construction_pass (dcm2attribs : gmap Path (gmap string V))
    (patient2dcm : list (string * list Path))
    (patient_IDS : option (list string))
    (attrib_types : list (string * string))
    (st : @segmentation_dataset sample V E dtype studies_t) :
  SegmentationDataset_init get_y_Path make_sample TKV_update torch_dtype zero
    convert dcm2attribs patient2dcm patient_IDS attrib_types = Ok st ->
  let d := sd_samples st in
  let paths := seg_dcm_paths d in
  collect_paths patient2dcm patient_IDS = Ok paths /\
  seg_get_y_Path d = get_y_Path /\ seg_make_sample d = make_sample /\
  sd_dcm2attribs st = (TKV_update dcm2attribs).2 /\
  exists built td0,
    (built <= length paths)%nat /\
    (forall i, (i < built)%nat ->
       exists x, SegmentationDataset_getitem_int d (Z.of_nat i) = Ok x) /\
    ((built < length paths)%nat ->
     exists cls,
       SegmentationDataset_getitem_int d (Z.of_nat built) = Raise cls /\
       ends_iteration cls = true) /\
    Forall (fun kt => tensor_values kt.2
                      = replicate (length paths) (zero (tensor_dtype kt.2)))
      td0 /\
    Forall2 (filled convert paths (sd_dcm2attribs st) built) td0
      (sd_tensor_dict st) /\
    (forall i p, (i < built)%nat -> paths !! i = Some p ->
                 is_Some (sd_dcm2attribs st !! p)).
Proof.
  intros H. unfold SegmentationDataset_init in H.
  destruct (collect_paths patient2dcm patient_IDS) as [paths|] eqn:Ec;
    [|discriminate].
  cbn [bind] in H. unfold prepare_tensor_dict in H. cbn [seg_dcm_paths] in H.
  destruct (zeros_dict torch_dtype zero (length paths) attrib_types)
    as [td0|] eqn:Ez; [|discriminate].
  cbn [bind] in H.
  match type of H with
  | context [for_enumerate ?g ?b ?l ?s] =>
      destruct (for_enumerate g b l s) as [td|] eqn:Ef; [|discriminate]
  end.
  cbn [bind] in H. inversion H; subst st; clear H.
  cbn [sd_samples sd_dcm2attribs sd_tensor_dict seg_dcm_paths seg_get_y_Path
       seg_make_sample].
  split; [reflexivity|]. split; [reflexivity|]. split; [reflexivity|].
  split; [reflexivity|].
  apply for_enumerate_seq_Ok in Ef as (built & Hle & Hok & Hstop & Hfold).
  set (d := {| seg_dcm_paths := paths; seg_get_y_Path := get_y_Path;
               seg_make_sample := make_sample |}) in *.
  assert (Hend : SegmentationDataset_getitem_int d (Z.of_nat (length paths))
                 = Raise "IndexError").
  { unfold SegmentationDataset_getitem_int.
    rewrite (IndexingFacts.list_getitem_outside (seg_dcm_paths d));
      [reflexivity|]. right. simpl. lia. }
  assert (Hb : (built <= length paths)%nat).
  { destruct (decide (built <= length paths)%nat) as [?|Hgt]; [assumption|].
    destruct (Hok (length paths)) as [x Hx]; [lia|]. congruence. }
  exists built, td0. split; [exact Hb|]. split; [|split; [|split]].
  - intros i Hi. apply Hok. lia.
  - intros Hlt. apply Hstop. lia.
  - apply (zeros_dict_from _ _ [] td0 Ez). constructor.
  - apply fill_rows. exact Hfold.
Qed.

(** X22.  Construction of a [SegmentationDataset] builds the samples
    [self[0]], [self[1]], ... through the sample pipeline and stops,
    without an error, at the first sample that raises [IndexError] or
    [StopIteration].  When it returns, every tensor of [tensor_dict] has
    [len(self)] entries: the entry of each sample built holds the
    converted attribute of its file, the entries from the stopping
    sample on are zero. *)
Theorem tensor_dict_after_construction
    (dcm2attribs : gmap Path (gmap string V))
    (patient2dcm : list (string * list Path))
    (patient_IDS : option (list string))
    (attrib_types : list (string * string))
    (st : @segmentation_dataset sample V E dtype studies_t) :
  SegmentationDataset_init get_y_Path make_sample TKV_update torch_dtype zero
    convert dcm2attribs patient2dcm patient_IDS attrib_types = Ok st ->
  let d := sd_samples st in
  let paths := seg_dcm_paths d in
  exists built,
    (built <= length paths)%nat /\
    (forall i, (i < built)%nat ->
       exists x, SegmentationDataset_getitem_int d (Z.of_nat i) = Ok x) /\
    ((built < length paths)%nat ->
     exists cls,
       SegmentationDataset_getitem_int d (Z.of_nat built) = Raise cls /\
       ends_iteration cls = true) /\
    forall k t, (k, t) ∈ sd_tensor_dict st ->
      length (tensor_values t) = length paths /\
      (forall i, (built <= i < length paths)%nat ->
         tensor_values t !! i = Some (zero (tensor_dtype t))) /\
      (forall i p, (i < built)%nat -> paths !! i = Some p ->
         exists attribs x e,
           sd_dcm2attribs st !! p = Some attribs /\
           attribs !! k = Some x /\
           convert (tensor_dtype t) x = Ok e /\
           tensor_values t !! i = Some e).
Proof.
  intros H d paths.
  destruct (construction_pass _ _ _ _ _ H)
    as (_ & _ & _ & _ & built & td0 & Hb & Hok & Hstop & Hz & Hfill & _).
  fold d in Hb, Hok, Hstop, Hz, Hfill. fold paths in Hb, Hok, Hstop, Hz, Hfill.
  exists built. split; [exact Hb|]. split; [exact Hok|].
  split; [exact Hstop|].
  intros k t Hkt. apply list_elem_of_lookup in Hkt as [q Hq].
  destruct (Forall2_lookup_r _ _ _ _ _ Hfill Hq)
    as (kt0 & Hq0 & Hk & Hdt & Hlen & Hrest & Hdone).
  rewrite Forall_forall in Hz.
  assert (Hz0 : tensor_values kt0.2
                = replicate (length paths) (zero (tensor_dtype kt0.2))).
  { apply Hz. apply list_elem_of_lookup. eauto. }
  cbn [fst snd] in *.
  assert (Hn : length (tensor_values kt0.2) = length paths)
    by (rewrite Hz0; apply length_replicate).
  split; [rewrite Hlen; exact Hn|]. split.
  - intros i Hi. rewrite Hrest by lia. rewrite Hz0, Hdt.
    apply lookup_replicate_2. lia.
  - intros i p Hi Hp. apply Hdone; [exact Hi| |exact Hp]. lia.
Qed.

(** X23.  When the sample pipeline raises neither [IndexError] nor
    [StopIteration], a construction that returns has built every
    sample, found the attributes of every file and stored every declared
    attribute of every file in [tensor_dict]; so one file that cannot be
    decoded, or that lacks a declared attribute, makes construction
    fail. *)
Theorem construction_builds_every_sample
    (dcm2attribs : gmap Path (gmap string V))
    (patient2dcm : list (string * list Path))
    (patient_IDS : option (list string))
    (attrib_types : list (string * string))
    (st : @segmentation_dataset sample V E dtype studies_t) :
  SegmentationDataset_init get_y_Path make_sample TKV_update torch_dtype zero
    convert dcm2attribs patient2dcm patient_IDS attrib_types = Ok st ->
  (forall p l i cls, make_sample p l i = Raise cls ->
                     ends_iteration cls = false) ->
  forall i p,
    seg_dcm_paths (sd_samples st) !! i = Some p ->
    exists x attribs,
      make_sample p (get_y_Path p) (Z.of_nat i) = Ok x /\
      sd_dcm2attribs st !! p = Some attribs /\
      forall k t, (k, t) ∈ sd_tensor_dict st ->
        exists v e,
          attribs !! k = Some v /\ convert (tensor_dtype t) v = Ok e /\
          tensor_values t !! i = Some e.
Proof.
  intros H Hpipe i p Hp.
  destruct (construction_pass _ _ _ _ _ H)
    as (_ & Hy & Hm & _ & built & td0 & Hb & Hok & Hstop & Hz & Hfill & Hattr).
  set (d := sd_samples st) in *.
  assert (Hi : (i < length (seg_dcm_paths d))%nat)
    by (eapply lookup_lt_Some, Hp).
  assert (Hval : forall j, (j < length (seg_dcm_paths d))%nat ->
            exists q, seg_dcm_paths d !! j = Some q /\
                      SegmentationDataset_getitem_int d (Z.of_nat j)
                      = make_sample q (get_y_Path q) (Z.of_nat j)).
  { intros j Hj.
    destruct (SegmentationDataset_getitem_int_valid d (Z.of_nat j))
      as (q & Hq & Hget); [unfold SegmentationDataset_len; lia|].
    rewrite Nat2Z.id in Hq. exists q. split; [exact Hq|].
    rewrite Hget, Hy, Hm. reflexivity. }
  assert (Hall : built = length (seg_dcm_paths d)).
  { destruct (decide (built < length (seg_dcm_paths d))%nat) as [Hlt|?];
      [|lia].
    destruct (Hstop Hlt) as (cls & Hcls & He).
    destruct (Hval built Hlt) as (q & _ & Hget). rewrite Hget in Hcls.
    rewrite (Hpipe _ _ _ _ Hcls) in He. discriminate. }
  destruct (Hok i) as [x Hx]; [lia|].
  destruct (Hval i Hi) as (q & Hq & Hget).
  rewrite Hp in Hq. inversion Hq; subst q. rewrite Hget in Hx.
  destruct (Hattr i p) as [attribs Ha]; [lia|exact Hp|].
  exists x, attribs. split; [exact Hx|]. split; [exact Ha|].
  intros k t Hkt. apply list_elem_of_lookup in Hkt as [q Hq'].
  destruct (Forall2_lookup_r _ _ _ _ _ Hfill Hq')
    as (kt0 & Hq0 & Hk & Hdt & Hlen & Hrest & Hdone).
  rewrite Forall_forall in Hz.
  assert (Hz0 : tensor_values kt0.2
                = replicate (length (seg_dcm_paths d))
                    (zero (tensor_dtype kt0.2))).
  { apply Hz. apply list_elem_of_lookup. eauto. }
  destruct (Hdone i p) as (attribs' & v & e & Ha' & Hv & He & Hrow);
    [lia|rewrite Hz0, length_replicate; exact Hi|exact Hp|].
  cbn [fst snd] in *. rewrite Ha in Ha'. inversion Ha'; subst attribs'.
  exists v, e. auto.
Qed.

End Pass.


Lemma tensor_dict_after_construction_witness :
  exists st,
    build stops_at_1 = Ok st /\
    seg_dcm_paths (sd_samples st) = two_paths /\
    sd_tensor_dict st
    = [("vox_vol"%string,
        {| tensor_dtype := "float32"%string; tensor_values := [7; 0] |})] /\
    exists built, (built <= 2)%nat.
Proof.
  destruct (build stops_at_1) as [st|e] eqn:E;
    [|vm_compute in E; discriminate E].
  destruct (tensor_dict_after_construction (fun p => p) stops_at_1
              (fun d => (tt, d)) (fun name => Ok name) (fun _ => 0)
              (fun _ v => Ok v) plain_attribs two_files None
              [("vox_vol", "float32")]%string st E) as (built & Hb & _).
  assert (Hst : seg_dcm_paths (sd_samples st) = two_paths /\
                sd_tensor_dict st
                = [("vox_vol"%string,
                    {| tensor_dtype := "float32"%string;
                       tensor_values := [7; 0] |})]).
  { vm_compute in E. inversion E. split; reflexivity. }
  destruct Hst as [Hpaths Htd]. rewrite Hpaths in Hb.
  exists st. split; [reflexivity|]. split; [exact Hpaths|].
  split; [exact Htd|]. exists built. exact Hb.
Defined.

Lemma construction_builds_every_sample_witness :
  exists st,
    build decodes_all = Ok st /\
    sd_tensor_dict st
    = [("vox_vol"%string,
        {| tensor_dtype := "float32"%string; tensor_values := [7; 9] |})] /\
    exists attribs,
      sd_dcm2attribs st !! (["/"; "data"; "s1"; "b.dcm"]%string : Path)
      = Some attribs.
Proof.
  destruct (build decodes_all) as [st|e] eqn:E;
    [|vm_compute in E; discriminate E].
  assert (Hst : seg_dcm_paths (sd_samples st) = two_paths /\
                sd_tensor_dict st
                = [("vox_vol"%string,
                    {| tensor_dtype := "float32"%string;
                       tensor_values := [7; 9] |})]).
  { vm_compute in E. inversion E. split; reflexivity. }
  destruct Hst as [Hpaths Htd].
  destruct (construction_builds_every_sample (fun p => p) decodes_all
              (fun d => (tt, d)) (fun name => Ok name) (fun _ => 0)
              (fun _ v => Ok v) plain_attribs two_files None
              [("vox_vol", "float32")]%string st E)
    with (i := 1%nat) (p := ["/"; "data"; "s1"; "b.dcm"]%string)
    as (x & attribs & _ & Ha & _).
  - intros p l i cls H. discriminate H.
  - rewrite Hpaths. reflexivity.
  - exists st. split; [reflexivity|]. split; [exact Htd|]. eauto.
Defined.

End ConstructionFacts.

Module ArtifactsFacts.
Import Datasets Notebook PyFacts DatasetsFacts NotebookFacts Artifacts.

(** *** Names of the files of a slice *)

Lemma string_app_inv_head (s a b : string) :
  (s ++ a = s ++ b)%string -> a = b.
Proof.
  induction s as [|c s IH]; simpl; [auto|].
  intros H. inversion H. auto.
Qed.

Lemma app_singleton_inj {A} (l : list A) (x y : A) :
  l ++ [x] = l ++ [y] -> x = y.
Proof. intros H. apply app_inv_head in H. inversion H. reflexivity. Qed.

(** *** File names and their order *)

Lemma string_app_cons (c : ascii) (a b : string) :
  (String c a ++ b)%string = String c (a ++ b)%string.
Proof. reflexivity. Qed.

Lemma string_app_nil (b : string) : (EmptyString ++ b)%string = b.
Proof. reflexivity. Qed.

Ltac sapp := rewrite ?string_app_cons, ?string_app_nil in *.

Lemma rev_onto_app (s t acc : string) :
  rev_onto (s ++ t) acc = rev_onto t (rev_onto s acc).
Proof.
  revert acc. induction s as [|c s IH]; intros acc; sapp; [reflexivity|].
  simpl. apply IH.
Qed.

Lemma string_app_assoc (a b c : string) :
  ((a ++ b) ++ c = a ++ (b ++ c))%string.
Proof.
  induction a as [|x a IH]; sapp; [reflexivity|]. f_equal. exact IH.
Qed.

Lemma rev_onto_acc (s acc : string) :
  rev_onto s acc = (rev_onto s EmptyString ++ acc)%string.
Proof.
  revert acc. induction s as [|c s IH]; intros acc; [reflexivity|].
  simpl. rewrite IH, (IH (String c EmptyString)), string_app_assoc.
  reflexivity.
Qed.

Lemma prefix_app (x y : string) : String.prefix x (x ++ y) = true.
Proof.
  induction x as [|c x IH]; sapp; simpl; [destruct y; reflexivity|].
  destruct (ascii_dec c c); [exact IH|contradiction].
Qed.

Lemma rev_of_app (s t : string) :
  rev_onto (s ++ t) EmptyString
  = (rev_onto t EmptyString ++ rev_onto s EmptyString)%string.
Proof. rewrite rev_onto_app. apply rev_onto_acc. Qed.

Lemma ends_with_app (s t : string) : ends_with t (s ++ t) = true.
Proof. unfold ends_with. rewrite rev_of_app. apply prefix_app. Qed.

(** A name written for one of the four suffixes matches the pattern of
    no other. *)
Lemma ends_with_suffixes (s a b : string) :
  a ∈ suffixes -> b ∈ suffixes -> ends_with a (s ++ b) = true -> a = b.
Proof.
  unfold suffixes, ends_with. intros Ha Hb. rewrite rev_of_app.
  repeat (apply elem_of_cons in Ha as [->|Ha]);
    [..|apply elem_of_nil in Ha; contradiction];
    repeat (apply elem_of_cons in Hb as [->|Hb]);
    try (apply elem_of_nil in Hb; contradiction);
    try reflexivity; cbn [rev_onto]; sapp; simpl; intros H; discriminate H.
Qed.

Lemma string_length_app (a b : string) :
  String.length (a ++ b) = (String.length a + String.length b)%nat.
Proof.
  induction a as [|c a IH]; sapp; simpl; [reflexivity|]. f_equal. exact IH.
Qed.

Lemma rev_onto_twice (s acc : string) :
  rev_onto (rev_onto s acc) EmptyString
  = (rev_onto acc EmptyString ++ s)%string.
Proof.
  revert acc. induction s as [|c s IH]; intros acc; simpl.
  - induction (rev_onto acc EmptyString) as [|c r IHr]; sapp;
      [reflexivity|]. f_equal. exact IHr.
  - rewrite IH. simpl. rewrite rev_onto_acc, string_app_assoc.
    reflexivity.
Qed.

Lemma string_app_inv_tail (a b t : string) :
  (a ++ t = b ++ t)%string -> a = b.
Proof.
  intros H.
  assert (Hr : (rev_onto t EmptyString ++ rev_onto a EmptyString
                = rev_onto t EmptyString ++ rev_onto b EmptyString)%string)
    by (rewrite <- !rev_of_app, H; reflexivity).
  apply string_app_inv_head in Hr.
  assert (Hrev : forall s, rev_onto (rev_onto s EmptyString) EmptyString = s)
    by (intros s; apply (rev_onto_twice s EmptyString)).
  rewrite <- (Hrev a), <- (Hrev b), Hr. reflexivity.
Qed.

Lemma compare_app_head (s x y : string) :
  String.compare (s ++ x) (s ++ y) = String.compare x y.
Proof.
  induction s as [|c s IH]; sapp; simpl; [reflexivity|].
  unfold Ascii.compare. rewrite N.compare_refl. exact IH.
Qed.

(** Appending to two names, neither a prefix of the other, leaves
    their order as it is. *)
Lemma compare_app_tail (a b t t' : string) :
  String.prefix a b = false -> String.prefix b a = false ->
  String.compare (a ++ t) (b ++ t') = String.compare a b.
Proof.
  revert b. induction a as [|c a IH]; intros [|d b]; sapp; simpl;
    try discriminate.
  destruct (ascii_dec c d) as [->|Hne].
  - destruct (ascii_dec d d) as [_|?]; [|contradiction].
    intros H1 H2. unfold Ascii.compare. rewrite N.compare_refl.
    apply IH; assumption.
  - intros _ _. unfold Ascii.compare.
    destruct (N.compare_spec (N_of_ascii c) (N_of_ascii d)) as [Heq|?|?];
      try reflexivity.
    exfalso. apply Hne.
    rewrite <- (ascii_N_embedding c), <- (ascii_N_embedding d), Heq.
    reflexivity.
Qed.

Lemma Path_compare_file (dir : Path) (x y : string) :
  Path_compare (dir ++ [x]) (dir ++ [y]) = String.compare x y.
Proof.
  unfold Path_compare. rewrite (list_compare_app _ string_compare_eq).
  simpl. destruct (String.compare x y); reflexivity.
Qed.

Lemma Path_leb_file (dir : Path) (x y : string) :
  Path_leb (dir ++ [x]) (dir ++ [y]) = string_leb x y.
Proof. unfold Path_leb, string_leb. rewrite Path_compare_file. reflexivity. Qed.

(** *** Sorting *)

Lemma sorted_unique {A} (leb : A -> A -> bool) (l l' : list A) :
  (forall a b, leb a b = true -> leb b a = true -> a = b) ->
  StronglySorted (fun a b => leb a b = true) l ->
  StronglySorted (fun a b => leb a b = true) l' ->
  l ≡ₚ l' -> l = l'.
Proof.
  intros Hanti Hl. revert l'.
  induction Hl as [|x l Hl IH Hx]; intros l' Hl' Hp.
  - apply Permutation_nil_l in Hp. auto.
  - destruct Hl' as [|y l' Hl' Hy].
    { symmetry in Hp. apply Permutation_nil_l in Hp. discriminate. }
    assert (x = y).
    { assert (Hxin : x ∈ y :: l') by (rewrite <- Hp; left).
      assert (Hyin : y ∈ x :: l) by (rewrite Hp; left).
      apply elem_of_cons in Hxin as [?|Hxin]; [assumption|].
      apply elem_of_cons in Hyin as [?|Hyin]; [auto|].
      rewrite Forall_forall in Hx, Hy. apply Hanti; auto. }
    subst y. f_equal. apply IH; [exact Hl'|].
    apply (Permutation_cons_inv Hp).
Qed.

Lemma isort_of_perm (l l' : list Path) :
  l ≡ₚ l' -> isort Path_leb l = isort Path_leb l'.
Proof.
  intros Hp. apply (sorted_unique Path_leb).
  - apply Path_leb_antisym.
  - apply isort_sorted; [apply Path_leb_total|apply Path_leb_trans].
  - apply isort_sorted; [apply Path_leb_total|apply Path_leb_trans].
  - rewrite !isort_perm. exact Hp.
Qed.

Lemma insert_sorted_fmap {A B} (leb : B -> B -> bool) (f : A -> B) (x : A)
    (l : list A) :
  insert_sorted leb (f x) (f <$> l)
  = f <$> insert_sorted (fun a b => leb (f a) (f b)) x l.
Proof.
  induction l as [|y l IH]; [reflexivity|]. simpl.
  destruct (leb (f x) (f y)); [reflexivity|].
  rewrite fmap_cons. f_equal. exact IH.
Qed.

Lemma isort_fmap {A B} (leb : B -> B -> bool) (f : A -> B) (l : list A) :
  isort leb (f <$> l) = f <$> isort (fun a b => leb (f a) (f b)) l.
Proof.
  induction l as [|x l IH]; [reflexivity|]. rewrite fmap_cons.
  change (isort leb (f x :: (f <$> l)))
    with (insert_sorted leb (f x) (isort leb (f <$> l))).
  rewrite IH. apply insert_sorted_fmap.
Qed.

Lemma insert_sorted_ext {A} (leb leb' : A -> A -> bool) (x : A) (l : list A) :
  (forall b, b ∈ l -> leb x b = leb' x b) ->
  insert_sorted leb x l = insert_sorted leb' x l.
Proof.
  induction l as [|y l IH]; intros H; [reflexivity|]. simpl.
  rewrite <- (H y) by left. destruct (leb x y); [reflexivity|].
  f_equal. apply IH. intros b Hb. apply H. right. exact Hb.
Qed.

Lemma isort_ext {A} (leb leb' : A -> A -> bool) (l : list A) :
  (forall a b, a ∈ l -> b ∈ l -> leb a b = leb' a b) ->
  isort leb l = isort leb' l.
Proof.
  induction l as [|x l IH]; intros H; [reflexivity|].
  change (insert_sorted leb x (isort leb l)
          = insert_sorted leb' x (isort leb' l)).
  rewrite IH by (intros a b Ha Hb; apply H; right; assumption).
  apply insert_sorted_ext. intros b Hb. apply H; [left|right].
  rewrite isort_perm in Hb. exact Hb.
Qed.


Lemma name_suffix_inj (a b s s' : string) :
  s ∈ suffixes -> s' ∈ suffixes -> (a ++ s = b ++ s')%string ->
  a = b /\ s = s'.
Proof.
  intros Hs Hs' H.
  assert (s = s').
  { apply (ends_with_suffixes b); [assumption..|].
    rewrite <- H. apply ends_with_app. }
  subst s'. split; [|reflexivity]. eapply string_app_inv_tail, H.
Qed.

(** *** Paths *)

Lemma Path_truediv_component (p : Path) (s : string) :
  component s -> Path_truediv p s = p ++ [s].
Proof.
  intros (Hp & Hs & _). unfold Path_truediv. rewrite Hp, Hs. reflexivity.
Qed.

Lemma snoc_not_root {A} (p : list A) (x y : A) : p <> [] -> p ++ [x] <> [y].
Proof. destruct p as [|a [|b p]]; [congruence|discriminate..]. Qed.

Lemma Path_parent_snoc (p : Path) (x : string) :
  p <> [] -> Path_parent (p ++ [x]) = p.
Proof.
  intros Hp. unfold Path_parent.
  destruct (decide (is_root (p ++ [x]))) as [[H|H]|_].
  - exfalso. exact (snoc_not_root p x _ Hp H).
  - exfalso. exact (snoc_not_root p x _ Hp H).
  - apply removelast_last.
Qed.

Lemma str_plus_snoc (p : Path) (x suffix : string) :
  p <> [] -> str_plus (p ++ [x]) suffix = p ++ [(x ++ suffix)%string].
Proof.
  intros Hp. unfold str_plus. rewrite last_snoc.
  destruct (decide (is_root (p ++ [x]))) as [[H|H]|_].
  - exfalso. exact (snoc_not_root p x _ Hp H).
  - exfalso. exact (snoc_not_root p x _ Hp H).
  - rewrite removelast_last. reflexivity.
Qed.

Lemma Path_name_file (dir : Path) (s sfx : string) :
  sfx ∈ suffixes -> Path_name (dir ++ [(s ++ sfx)%string]) = (s ++ sfx)%string.
Proof.
  intros Hs. unfold Path_name. rewrite last_snoc.
  destruct (decide (is_root [(s ++ sfx)%string])) as [Hr|_]; [|reflexivity].
  exfalso.
  assert (E : (String.length (s ++ sfx) <= 2)%nat)
    by (destruct Hr as [Hr|Hr]; inversion Hr as [Hr']; rewrite Hr'; simpl; lia).
  rewrite string_length_app in E. unfold suffixes in Hs.
  repeat (apply elem_of_cons in Hs as [->|Hs]); simpl in E; try lia.
  apply elem_of_nil in Hs. contradiction.
Qed.

Lemma under_length (d q : Path) : under d q -> (length d < length q)%nat.
Proof. intros [_ H]. exact H. Qed.

Lemma under_snoc (d : Path) (x : string) : under d (d ++ [x]).
Proof.
  split; [|rewrite length_app; simpl; lia].
  rewrite take_app_length. reflexivity.
Qed.

Lemma elem_of_prefixes (d q : Path) :
  q ∈ prefixes d <-> exists k, (1 <= k <= length d)%nat /\ q = take k d.
Proof.
  unfold prefixes. rewrite list_elem_of_fmap. split.
  - intros (k & -> & Hk). apply elem_of_seq in Hk. exists k. split; [lia|done].
  - intros (k & Hk & ->). exists k. split; [done|]. apply elem_of_seq. lia.
Qed.

Lemma prefixes_length (d q : Path) :
  q ∈ prefixes d -> (length q <= length d)%nat.
Proof.
  rewrite elem_of_prefixes. intros (k & Hk & ->). rewrite length_take. lia.
Qed.

Lemma prefixes_self (d : Path) : d <> [] -> d ∈ prefixes d.
Proof.
  intros Hd. apply elem_of_prefixes. exists (length d). split.
  - destruct d; [congruence|simpl; lia].
  - rewrite firstn_all. reflexivity.
Qed.

(** *** The file system *)

Lemma elem_of_keys (m : gmap Path file) (q : Path) :
  q ∈ (map_to_list m).*1 <-> is_Some (m !! q).
Proof.
  rewrite list_elem_of_fmap. split.
  - intros ([k v] & -> & H). apply elem_of_map_to_list in H. eauto.
  - intros [v H]. exists (q, v). split; [reflexivity|].
    apply elem_of_map_to_list. exact H.
Qed.

Lemma elem_of_entries (w : world) (q : Path) :
  q ∈ entries w <-> is_Some (disk w !! q) \/ q ∈ dirs w.
Proof. unfold entries. rewrite elem_of_app, elem_of_keys. reflexivity. Qed.

Lemma is_dir_spec (w : world) (t : Path) :
  is_dir w t <->
  is_root t \/ t ∈ dirs w \/ exists q, q ∈ entries w /\ under t q.
Proof. unfold is_dir. rewrite Exists_exists. reflexivity. Qed.

Lemma not_dir_after (w w' : world) (t : Path) :
  ~ is_dir w t ->
  (forall q, q ∈ entries w' ->
             q ∈ entries w \/ (length q <= length t)%nat /\ q <> t) ->
  (forall q, q ∈ dirs w' ->
             q ∈ dirs w \/ (length q <= length t)%nat /\ q <> t) ->
  ~ is_dir w' t.
Proof.
  rewrite !is_dir_spec. intros Hno He Hd [Hr|[Hin|(q & Hq & Hu)]].
  - apply Hno. left. exact Hr.
  - destruct (Hd _ Hin) as [?|[_ ?]]; [|congruence].
    apply Hno. right. left. assumption.
  - destruct (He _ Hq) as [?|[Hle _]].
    + apply Hno. right. right. exists q. split; assumption.
    + apply under_length in Hu. lia.
Qed.

Lemma mkdir_parents_Ok (d : Path) (w : world) :
  d <> [] -> Forall (fun q => disk w !! q = None) (prefixes d) ->
  mkdir_parents d w
  = (Ok tt, {| disk := disk w; dirs := prefixes d ++ dirs w;
               dicts := dicts w |}).
Proof.
  intros Hd Hall. unfold mkdir_parents. rewrite Forall_forall in Hall.
  destruct (decide (is_Some (disk w !! d))) as [[v Hv]|_].
  { rewrite (Hall d (prefixes_self d Hd)) in Hv. discriminate. }
  destruct (decide (Exists _ (prefixes d))) as [Hex|_]; [|reflexivity].
  apply Exists_exists in Hex as (q & Hq & [v Hv]).
  rewrite (Hall q Hq) in Hv. discriminate.
Qed.

Lemma write_file_Ok (p : Path) (f : file) (w : world) :
  ~ is_dir w p ->
  write_file p f w
  = (Ok tt, {| disk := <[p := f]> (disk w); dirs := dirs w;
               dicts := dicts w |}).
Proof.
  intros H. unfold write_file.
  destruct (decide (is_dir w p)); [contradiction|reflexivity].
Qed.

Lemma read_study_in_store (h : list (gmap string pyval)) (r : ref)
    (patient MR : string) :
  read_study (deref h r) = Ok (patient, MR) ->
  (r < length h)%nat /\
  deref h r !! "patient"%string = Some (VStr patient) /\
  deref h r !! "MR"%string = Some (VStr MR).
Proof.
  unfold read_study, dict_item. intros H.
  destruct (deref h r !! "patient"%string) as [[| |p| |]|] eqn:Ep;
    try discriminate.
  cbn [bind as_key] in H.
  destruct (deref h r !! "MR"%string) as [[| |m| |]|] eqn:Em;
    try discriminate.
  cbn [bind as_key] in H. inversion H; subst.
  split; [|auto].
  destruct (decide (r < length h)%nat) as [?|Hge]; [assumption|].
  unfold deref in Ep. rewrite (proj2 (lookup_ge_None h r)) in Ep by lia.
  simpl in Ep. rewrite lookup_empty in Ep. discriminate.
Qed.

Lemma read_study_with_resize_dim (d : gmap string pyval) (hw : Z * Z) :
  read_study (with_resize_dim d hw) = read_study d.
Proof.
  unfold read_study, dict_item, with_resize_dim.
  rewrite !lookup_insert_ne by done. reflexivity.
Qed.

Lemma with_resize_dim_twice (d : gmap string pyval) (hw : Z * Z) :
  with_resize_dim (with_resize_dim d hw) hw = with_resize_dim d hw.
Proof. unfold with_resize_dim. apply insert_insert_eq. Qed.

Lemma first_Resize_none (transforms : list transform) :
  Forall (fun t => exists name, t = OtherTransform name) transforms ->
  first_Resize transforms = Raise "StopIteration".
Proof.
  induction 1 as [|t ts [name ->] _ IH]; [reflexivity|]. simpl. exact IH.
Qed.

(** A path that is there after a step was there before, or is one the
    step has made. *)
Ltac new_entry Hq :=
  try (apply elem_of_entries in Hq; rewrite elem_of_entries);
  cbn [disk dirs] in Hq;
  rewrite ?lookup_insert_is_Some, ?elem_of_app in Hq;
  repeat match type of Hq with
         | _ \/ _ => destruct Hq as [Hq|Hq]
         | _ /\ _ => destruct Hq as [_ Hq]
         end;
  try match type of Hq with _ = _ => destruct Hq end;
  auto.

Section Saving.

Context {sample : Type}.
Variable stem : string -> string.
Variable predict : list ndarray -> list ndarray.
Variable root : Path.
Variable model_name : string.

Lemma study_path_parts (patient MR : string) :
  component patient -> component MR ->
  study_path root model_name patient MR
  = Path_truediv root model_name ++ [patient; MR].
Proof.
  intros Hp Hm. unfold study_path.
  rewrite (Path_truediv_component _ MR Hm).
  rewrite (Path_truediv_component _ patient Hp).
  rewrite <- app_assoc. reflexivity.
Qed.

Lemma study_path_not_nil (patient MR : string) :
  component patient -> component MR ->
  study_path root model_name patient MR <> [].
Proof.
  intros Hp Hm. rewrite study_path_parts by assumption.
  intros H. apply app_eq_nil in H as [_ H]. discriminate.
Qed.

Lemma parent_of_out_dir (patient MR name : string) :
  component patient -> component MR -> component name ->
  Path_parent (out_dir_of root model_name patient MR name)
  = study_path root model_name patient MR.
Proof.
  intros Hp Hm Hn. unfold out_dir_of.
  rewrite (Path_truediv_component _ name Hn).
  apply Path_parent_snoc, study_path_not_nil; assumption.
Qed.

Lemma artifact_parts (patient MR name suffix : string) :
  component patient -> component MR -> component name ->
  artifact root model_name patient MR name suffix
  = study_path root model_name patient MR ++ [(name ++ suffix)%string].
Proof.
  intros Hp Hm Hn. unfold artifact, out_dir_of.
  rewrite (Path_truediv_component _ name Hn).
  apply str_plus_snoc, study_path_not_nil; assumption.
Qed.

Lemma file_not_a_prefix (d q : Path) (x : string) (f : file)
    (m : gmap Path file) :
  q ∈ prefixes d -> m !! q = None -> <[d ++ [x] := f]> m !! q = None.
Proof.
  intros Hq Hm. rewrite lookup_insert_ne; [exact Hm|].
  intros <-. apply prefixes_length in Hq. rewrite length_app in Hq.
  simpl in Hq. lia.
Qed.

(** A slice up to its three arrays: what is left to do is to look for
    the [Resize] and to write the attributes. *)
Lemma save_slice_arrays (dataset : @eval_dataset sample) (w : world)
    (it : slice_item) (patient MR : string) :
  read_study (deref (dicts w) (file_attrib it)) = Ok (patient, MR) ->
  component patient -> component MR -> component (file_name it) ->
  let dir := study_path root model_name patient MR in
  let out := fun suffix : string => dir ++ [(file_name it ++ suffix)%string] in
  Forall (fun q => disk w !! q = None) (prefixes dir) ->
  (forall suffix, suffix ∈ suffixes -> ~ is_dir w (out suffix)) ->
  save_slice root model_name dataset it w
  = (hw <~ pure_result
             (transforms <- match ev_augmentation dataset with
                            | Some ts => Ok ts
                            | None => Raise "AttributeError"
                            end;;
              first_Resize transforms);;
     attribs <~ set_resize_dim (file_attrib it) hw;;
     write_file (out "_attrib.json"%string) (JsonFile attribs))
      {| disk := <[out "_ground.npy"%string := NpyFile (ground it)]>
                   (<[out "_pred.npy"%string := NpyFile (pred it)]>
                      (<[out "_img.npy"%string := NpyFile (img it)]>
                         (disk w)));
         dirs := prefixes dir ++ dirs w;
         dicts := dicts w |} /\
  ~ is_dir {| disk := <[out "_ground.npy"%string := NpyFile (ground it)]>
                        (<[out "_pred.npy"%string := NpyFile (pred it)]>
                           (<[out "_img.npy"%string := NpyFile (img it)]>
                              (disk w)));
              dirs := prefixes dir ++ dirs w;
              dicts := dicts w |} (out "_attrib.json"%string).
Proof.
  intros Hst Hp Hm Hn dir out Hfree Hnd.
  assert (Hdir : dir <> []) by (apply study_path_not_nil; assumption).
  assert (Hlen : forall s, length (out s) = S (length dir))
    by (intros s; unfold out; rewrite length_app; simpl; lia).
  assert (Hstep : forall w' s,
            (forall q, q ∈ entries w' ->
               q ∈ entries w \/ (length q <= S (length dir))%nat /\ q <> out s) ->
            (forall q, q ∈ dirs w' ->
               q ∈ dirs w \/ (length q <= S (length dir))%nat /\ q <> out s) ->
            s ∈ suffixes -> ~ is_dir w' (out s)).
  { intros w' s He Hd Hs. apply (not_dir_after w); [apply Hnd, Hs|..].
    - intros q Hq. rewrite Hlen. apply He, Hq.
    - intros q Hq. rewrite Hlen. apply Hd, Hq. }
  assert (Hin : forall s : string,
            s ∈ suffixes ->
            (forall q, q ∈ prefixes dir ->
               (length q <= S (length dir))%nat /\ q <> out s) /\
            (forall a : string, a ∈ suffixes -> a <> s ->
               (length (out a) <= S (length dir))%nat /\ out a <> out s)).
  { intros s Hs. split.
    - intros q Hq. apply prefixes_length in Hq. split; [lia|].
      intros ->. rewrite Hlen in Hq. lia.
    - intros a Ha Hab. split; [rewrite Hlen; lia|].
      intros H. apply Hab. unfold out in H. apply app_singleton_inj in H.
      eapply string_app_inv_head, H. }
  assert (Hlast : ~ is_dir
            {| disk := <[out "_ground.npy"%string := NpyFile (ground it)]>
                         (<[out "_pred.npy"%string := NpyFile (pred it)]>
                            (<[out "_img.npy"%string := NpyFile (img it)]>
                               (disk w)));
               dirs := prefixes dir ++ dirs w;
               dicts := dicts w |} (out "_attrib.json"%string)).
  { assert (Hs : "_attrib.json"%string ∈ suffixes)
      by (unfold suffixes; repeat constructor).
    destruct (Hin _ Hs) as [Hpre Hout].
    apply Hstep; [| |exact Hs]; intros q Hq; new_entry Hq;
      first [right; apply Hpre; assumption
            |right; apply Hout; [unfold suffixes; repeat constructor
                                |discriminate]]. }
  split; [|exact Hlast].
  unfold save_slice. unfold and_then at 1. rewrite Hst. cbn [fst snd].
  rewrite parent_of_out_dir by assumption. fold dir.
  unfold and_then at 1.
  rewrite (mkdir_parents_Ok dir w Hdir Hfree).
  fold (artifact root model_name patient MR (file_name it) "_img.npy").
  fold (artifact root model_name patient MR (file_name it) "_pred.npy").
  fold (artifact root model_name patient MR (file_name it) "_ground.npy").
  fold (artifact root model_name patient MR (file_name it) "_attrib.json").
  rewrite !artifact_parts by assumption. fold dir.
  change (dir ++ [(file_name it ++ "_img.npy")%string])
    with (out "_img.npy"%string).
  change (dir ++ [(file_name it ++ "_pred.npy")%string])
    with (out "_pred.npy"%string).
  change (dir ++ [(file_name it ++ "_ground.npy")%string])
    with (out "_ground.npy"%string).
  change (dir ++ [(file_name it ++ "_attrib.json")%string])
    with (out "_attrib.json"%string).
  unfold and_then at 1.
  rewrite write_file_Ok; cycle 1.
  { assert (Hs : "_img.npy"%string ∈ suffixes)
      by (unfold suffixes; repeat constructor).
    destruct (Hin _ Hs) as [Hpre Hout].
    apply Hstep; [| |exact Hs]; intros q Hq; new_entry Hq;
      right; apply Hpre; assumption. }
  unfold and_then at 1.
  rewrite write_file_Ok; cycle 1.
  { assert (Hs : "_pred.npy"%string ∈ suffixes)
      by (unfold suffixes; repeat constructor).
    destruct (Hin _ Hs) as [Hpre Hout].
    apply Hstep; [| |exact Hs]; intros q Hq; new_entry Hq;
      first [right; apply Hpre; assumption
            |right; apply Hout; [unfold suffixes; repeat constructor
                                |discriminate]]. }
  unfold and_then at 1.
  rewrite write_file_Ok; cycle 1.
  { assert (Hs : "_ground.npy"%string ∈ suffixes)
      by (unfold suffixes; repeat constructor).
    destruct (Hin _ Hs) as [Hpre Hout].
    apply Hstep; [| |exact Hs]; intros q Hq; new_entry Hq;
      first [right; apply Hpre; assumption
            |right; apply Hout; [unfold suffixes; repeat constructor
                                |discriminate]]. }
  reflexivity.
Qed.

(** The world that a slice leaves when every step goes through. *)
Lemma save_slice_Ok (dataset : @eval_dataset sample) (w : world)
    (it : slice_item) (patient MR : string) (transforms : list transform)
    (hw : Z * Z) :
  read_study (deref (dicts w) (file_attrib it)) = Ok (patient, MR) ->
  component patient -> component MR -> component (file_name it) ->
  ev_augmentation dataset = Some transforms ->
  first_Resize transforms = Ok hw ->
  let dir := study_path root model_name patient MR in
  let out := fun suffix : string => dir ++ [(file_name it ++ suffix)%string] in
  let attribs := with_resize_dim (deref (dicts w) (file_attrib it)) hw in
  Forall (fun q => disk w !! q = None) (prefixes dir) ->
  (forall suffix, suffix ∈ suffixes -> ~ is_dir w (out suffix)) ->
  save_slice root model_name dataset it w
  = (Ok tt,
     {| disk := <[out "_attrib.json"%string := JsonFile attribs]>
                  (<[out "_ground.npy"%string := NpyFile (ground it)]>
                     (<[out "_pred.npy"%string := NpyFile (pred it)]>
                        (<[out "_img.npy"%string := NpyFile (img it)]>
                           (disk w))));
        dirs := prefixes dir ++ dirs w;
        dicts := <[file_attrib it := attribs]> (dicts w) |}).
Proof.
  intros Hst Hp Hm Hn Haug Hfirst dir out attribs Hfree Hnd.
  destruct (save_slice_arrays dataset w it patient MR Hst Hp Hm Hn Hfree Hnd)
    as [-> Hlast].
  fold dir. fold out. unfold and_then at 1.
  unfold pure_result. rewrite Haug. cbn [bind]. rewrite Hfirst.
  unfold and_then, set_resize_dim. cbn [disk dirs dicts]. fold attribs.
  rewrite write_file_Ok; [reflexivity|].
  intros H. apply Hlast. exact H.
Qed.

End Saving.

Section Study.

Context {sample : Type}.
Variable root : Path.
Variable model_name : string.
Variable dataset : @eval_dataset sample.
Variables patient MR : string.
Variable transforms : list transform.
Variable hw : Z * Z.
Hypothesis patient_part : component patient.
Hypothesis MR_part : component MR.
Hypothesis has_transforms : ev_augmentation dataset = Some transforms.
Hypothesis has_Resize : first_Resize transforms = Ok hw.

Lemma target_inj (dir : Path) (a b : slice_item) (s s' : string) :
  s ∈ suffixes -> s' ∈ suffixes ->
  dir ++ [(file_name a ++ s)%string] = dir ++ [(file_name b ++ s')%string] ->
  file_name a = file_name b /\ s = s'.
Proof.
  intros Hs Hs' H. apply app_singleton_inj in H.
  apply name_suffix_inj; assumption.
Qed.

(** The slices of one study, saved one after the other. *)
Lemma save_slices_Ok (items : list slice_item) :
  let dir := study_path root model_name patient MR in
  let target : slice_item -> string -> Path :=
    fun it suffix => dir ++ [(file_name it ++ suffix)%string] in
  forall w : world,
  (forall it, it ∈ items ->
     read_study (deref (dicts w) (file_attrib it)) = Ok (patient, MR)) ->
  (forall it, it ∈ items -> component (file_name it)) ->
  Forall (fun q => disk w !! q = None) (prefixes dir) ->
  (forall it suffix, it ∈ items -> suffix ∈ suffixes ->
     ~ is_dir w (target it suffix)) ->
  NoDup (file_name <$> items) ->
  exists w',
    for_each (save_slice root model_name dataset) items w = (Ok tt, w') /\
    (forall r, deref (dicts w') r = deref (dicts w) r \/
               deref (dicts w') r = with_resize_dim (deref (dicts w) r) hw) /\
    (forall it, it ∈ items ->
       disk w' !! target it "_img.npy"%string = Some (NpyFile (img it)) /\
       disk w' !! target it "_pred.npy"%string = Some (NpyFile (pred it)) /\
       disk w' !! target it "_ground.npy"%string
       = Some (NpyFile (ground it)) /\
       disk w' !! target it "_attrib.json"%string
       = Some (JsonFile
                 (with_resize_dim (deref (dicts w) (file_attrib it)) hw))) /\
    (forall p, (forall it suffix, it ∈ items -> suffix ∈ suffixes ->
                  p <> target it suffix) ->
               disk w' !! p = disk w !! p) /\
    (forall q, q ∈ dirs w' -> q ∈ prefixes dir \/ q ∈ dirs w).
Proof.
  intros dir target.
  assert (Hlen : forall it s, length (target it s) = S (length dir))
    by (intros it s; unfold target; rewrite length_app; simpl; lia).
  induction items as [|it rest IH]; intros w Hst Hn Hfree Hnd Hnames.
  { exists w. split; [reflexivity|]. split; [auto|].
    split; [intros it Hit; apply elem_of_nil in Hit; contradiction|].
    split; [reflexivity|auto]. }
  rewrite fmap_cons in Hnames. apply NoDup_cons in Hnames as [Hnew Hnames].
  assert (Hit : it ∈ it :: rest) by left.
  pose proof (save_slice_Ok root model_name dataset w it patient MR
                transforms hw (Hst it Hit) patient_part MR_part (Hn it Hit)
                has_transforms has_Resize Hfree
                (fun s Hs => Hnd it s Hit Hs)) as Hone.
  cbv zeta in Hone. fold dir in Hone.
  change (fun suffix : string => dir ++ [(file_name it ++ suffix)%string])
    with (target it) in Hone.
  set (attribs := with_resize_dim (deref (dicts w) (file_attrib it)) hw)
    in Hone.
  match type of Hone with _ = (_, ?x) => set (w1 := x) in Hone end.
  assert (Hderef : forall r,
            deref (dicts w1) r = deref (dicts w) r \/
            deref (dicts w1) r = with_resize_dim (deref (dicts w) r) hw).
  { intros r. unfold w1, deref. cbn [dicts].
    destruct (decide (r = file_attrib it)) as [->|Hne].
    - destruct (read_study_in_store _ _ _ _ (Hst it Hit)) as (Hlt & _).
      rewrite list_lookup_insert_eq by exact Hlt. right. reflexivity.
    - rewrite list_lookup_insert_ne by congruence. left. reflexivity. }
  assert (Hother : forall it' s s', it' ∈ rest -> s ∈ suffixes ->
                     s' ∈ suffixes -> target it s <> target it' s').
  { intros it' s s' Hin Hs Hs' H.
    apply target_inj in H as [H _]; [|assumption..].
    apply Hnew. rewrite H. apply list_elem_of_fmap. eauto. }
  destruct (IH w1) as (w' & Hrun & Hd' & Hfiles & Hframe & Hdirs).
  - intros it' Hin. destruct (Hderef (file_attrib it')) as [->| ->].
    + apply Hst. right. exact Hin.
    + rewrite read_study_with_resize_dim. apply Hst. right. exact Hin.
  - intros it' Hin. apply Hn. right. exact Hin.
  - unfold w1. cbn [disk]. rewrite Forall_forall in Hfree |- *.
    intros q Hq. unfold target.
    repeat (apply file_not_a_prefix; [exact Hq|]). apply Hfree, Hq.
  - intros it' s Hin Hs. apply (not_dir_after w).
    + apply Hnd; [right; exact Hin|exact Hs].
    + intros q Hq. rewrite Hlen. unfold w1 in Hq. new_entry Hq;
        right; first [split; [rewrite Hlen; lia|];
                      apply Hother; [exact Hin|unfold suffixes;
                                               repeat constructor|exact Hs]
                     |split; [apply prefixes_length in Hq; lia|];
                      intros ->; apply prefixes_length in Hq;
                      rewrite Hlen in Hq; lia].
    + intros q Hq. rewrite Hlen. unfold w1 in Hq. new_entry Hq.
      right. split; [apply prefixes_length in Hq; lia|].
      intros ->. apply prefixes_length in Hq. rewrite Hlen in Hq. lia.
  - exact Hnames.
  - exists w'. split.
    { cbn [for_each]. unfold and_then. rewrite Hone. exact Hrun. }
    assert (Hsame : forall r,
              with_resize_dim (deref (dicts w1) r) hw
              = with_resize_dim (deref (dicts w) r) hw).
    { intros r. destruct (Hderef r) as [->| ->]; [reflexivity|].
      apply with_resize_dim_twice. }
    split; [|split; [|split]].
    + intros r. destruct (Hd' r) as [->| ->].
      * apply Hderef.
      * right. apply Hsame.
    + intros it' Hin. apply elem_of_cons in Hin as [->|Hin].
      * assert (Hne : forall a b : string, a <> b ->
                        target it a <> target it b).
        { intros a b Hab H. apply Hab. unfold target in H.
          apply app_singleton_inj in H. eapply string_app_inv_head, H. }
        rewrite !Hframe
          by (intros it' s Hin Hs; apply Hother;
              [exact Hin|unfold suffixes; repeat constructor|exact Hs]).
        unfold w1. cbn [disk].
        split; [|split; [|split]].
        -- rewrite !lookup_insert_ne by (apply Hne; discriminate).
           apply lookup_insert_eq.
        -- rewrite !lookup_insert_ne by (apply Hne; discriminate).
           apply lookup_insert_eq.
        -- rewrite lookup_insert_ne by (apply Hne; discriminate).
           apply lookup_insert_eq.
        -- apply lookup_insert_eq.
      * rewrite <- Hsame. apply Hfiles, Hin.
    + intros p Hp. rewrite Hframe
        by (intros it' s Hin Hs; apply Hp; [right; exact Hin|exact Hs]).
      unfold w1. cbn [disk].
      rewrite !lookup_insert_ne; [reflexivity|..];
        (apply not_eq_sym, Hp; [left|unfold suffixes; repeat constructor]).
    + intros q Hq. destruct (Hdirs q Hq) as [?|Hq1]; [auto|].
      unfold w1 in Hq1. cbn [dirs] in Hq1. apply elem_of_app in Hq1. exact Hq1.
Qed.

End Study.

(** *** Reading the files back *)

Lemma comprehension_fmap_Ok {A B C} (load : B -> result C) (f : A -> B)
    (c : A -> C) (l : list A) :
  (forall x, x ∈ l -> load (f x) = Ok (c x)) ->
  comprehension load (f <$> l) = Ok (c <$> l).
Proof.
  induction l as [|x l IH]; intros H; [reflexivity|].
  rewrite !fmap_cons. cbn [comprehension].
  rewrite (H x) by left. cbn [bind].
  rewrite IH by (intros y Hy; apply H; right; exact Hy). reflexivity.
Qed.

Lemma string_leb_refl (a : string) : string_leb a a = true.
Proof.
  unfold string_leb. rewrite (proj2 (string_compare_eq a a) eq_refl).
  reflexivity.
Qed.

(** Two names, neither the beginning of the other, stand in the same
    order with a suffix as without. *)
Lemma string_leb_suffix (a b suffix : string) :
  (a <> b -> String.prefix a b = false /\ String.prefix b a = false) ->
  string_leb (a ++ suffix) (b ++ suffix) = string_leb a b.
Proof.
  intros H. destruct (decide (a = b)) as [->|Hne].
  - rewrite !string_leb_refl. reflexivity.
  - destruct (H Hne) as [Hab Hba]. unfold string_leb.
    rewrite compare_app_tail by assumption. reflexivity.
Qed.

(** A name and the same name continued by an underscore and more,
    both before a suffix that begins with an underscore: the letter
    after the underscore decides. *)
Lemma continued_name_before (n t rest : string) (c x : ascii) :
  Ascii.compare x c = Lt ->
  string_leb (n ++ String "_" (String x rest))
             ((n ++ String "_" (String c t)) ++ String "_" (String x rest))
  = true.
Proof.
  intros H. unfold string_leb. rewrite string_app_assoc, compare_app_head.
  sapp. cbn [String.compare].
  replace (Ascii.compare "_" "_") with Eq by reflexivity.
  rewrite H. reflexivity.
Qed.

Lemma continued_name_after (n t rest : string) (c x : ascii) :
  Ascii.compare x c = Gt ->
  string_leb (n ++ String "_" (String x rest))
             ((n ++ String "_" (String c t)) ++ String "_" (String x rest))
  = false.
Proof.
  intros H. unfold string_leb. rewrite string_app_assoc, compare_app_head.
  sapp. cbn [String.compare].
  replace (Ascii.compare "_" "_") with Eq by reflexivity.
  rewrite H. reflexivity.
Qed.

Lemma under_below_snoc (d q : Path) (x : string) :
  under (d ++ [x]) q -> under d q.
Proof.
  intros [Ht Hl]. rewrite length_app in Hl, Ht. simpl in Hl, Ht. split; [|lia].
  apply (f_equal (take (length d))) in Ht.
  rewrite take_take, take_app_length in Ht.
  replace (length d `min` (length d + 1))%nat with (length d) in Ht by lia.
  exact Ht.
Qed.

(** In a directory with nothing in it, no file of it is a directory. *)
Lemma fresh_not_dir (w : world) (d : Path) (x : string) :
  d <> [] -> Forall (fun q => ~ under d q) (entries w) ->
  ~ is_dir w (d ++ [x]).
Proof.
  intros Hd Hfresh. rewrite Forall_forall in Hfresh.
  rewrite is_dir_spec. intros [[H|H]|[H|(q & Hq & Hu)]].
  - exact (snoc_not_root d x _ Hd H).
  - exact (snoc_not_root d x _ Hd H).
  - apply (Hfresh (d ++ [x])); [|apply under_snoc].
    apply elem_of_entries. right. exact H.
  - apply (Hfresh q Hq). eapply under_below_snoc, Hu.
Qed.

Section Loading.

Variables (w w' : world) (dir : Path) (items : list slice_item).

Let target (it : slice_item) (suffix : string) : Path :=
  dir ++ [(file_name it ++ suffix)%string].

Hypothesis fresh : Forall (fun q => ~ under dir q) (entries w).
Hypothesis written :
  forall it suffix, it ∈ items -> suffix ∈ suffixes ->
    is_Some (disk w' !! target it suffix).
Hypothesis frame :
  forall p, (forall it suffix, it ∈ items -> suffix ∈ suffixes ->
               p <> target it suffix) ->
            disk w' !! p = disk w !! p.
Hypothesis made :
  forall q, q ∈ dirs w' -> q ∈ prefixes dir \/ q ∈ dirs w.
Hypothesis names : NoDup (file_name <$> items).

Lemma glob_of_saved (suffix : string) :
  suffix ∈ suffixes ->
  glob_suffix w' dir suffix ≡ₚ (fun it => target it suffix) <$> items.
Proof.
  intros Hs. rewrite Forall_forall in fresh.
  apply NoDup_Permutation.
  - apply NoDup_filter, NoDup_remove_dups.
  - rewrite (list_fmap_compose file_name
               (fun n : string => dir ++ [(n ++ suffix)%string])).
    apply NoDup_fmap_2; [|exact names].
    intros a b H. apply app_singleton_inj in H.
    eapply string_app_inv_tail, H.
  - intros p. unfold glob_suffix, children.
    rewrite list_elem_of_filter, elem_of_remove_dups, !list_elem_of_fmap.
    split.
    + intros (Hend & q & -> & Hq).
      apply list_elem_of_filter in Hq as [Hu Hq].
      set (targets := items ≫= fun it => target it <$> suffixes).
      assert (Hin : q ∈ targets).
      { destruct (decide (q ∈ targets)) as [?|Hout]; [assumption|].
        exfalso. apply (fresh q); [|exact Hu].
        apply elem_of_entries in Hq as [Hq|Hq]; apply elem_of_entries.
        - left. rewrite <- frame; [exact Hq|].
          intros it s Hit Hsfx ->. apply Hout.
          apply list_elem_of_bind. exists it. split; [|exact Hit].
          apply list_elem_of_fmap. eauto.
        - destruct (made q Hq) as [Hp|?]; [|right; assumption].
          apply prefixes_length in Hp. apply under_length in Hu. lia. }
      apply list_elem_of_bind in Hin as (it & Hin & Hit).
      apply list_elem_of_fmap in Hin as (s & -> & Hsfx).
      assert (Hfull : take (S (length dir)) (target it s) = target it s).
      { apply take_ge. unfold target. rewrite length_app. simpl. lia. }
      rewrite Hfull in Hend |- *. unfold target in Hend.
      rewrite Path_name_file in Hend by exact Hsfx.
      apply ends_with_suffixes in Hend; [|assumption..]. subst s.
      exists it. split; [reflexivity|exact Hit].
    + intros (it & -> & Hit). split.
      * unfold target. rewrite Path_name_file by exact Hs.
        apply ends_with_app.
      * exists (target it suffix). split.
        -- symmetry. apply take_ge. unfold target. rewrite length_app.
           simpl. lia.
        -- apply list_elem_of_filter. split; [apply under_snoc|].
           apply elem_of_entries. left. apply written; assumption.
Qed.

Lemma load_sorted {A} (load : Path -> result A) (c : slice_item -> A)
    (suffix : string) :
  suffix ∈ suffixes ->
  (forall it, it ∈ items -> load (target it suffix) = Ok (c it)) ->
  comprehension load (sorted (glob_suffix w' dir suffix))
  = Ok (c <$> isort (fun a b => string_leb (file_name a ++ suffix)
                                           (file_name b ++ suffix)) items).
Proof.
  intros Hs Hload. unfold sorted.
  rewrite (isort_of_perm _ _ (glob_of_saved suffix Hs)), isort_fmap.
  rewrite (isort_ext _ (fun a b => string_leb (file_name a ++ suffix)
                                              (file_name b ++ suffix)))
    by (intros a b _ _; apply Path_leb_file).
  apply comprehension_fmap_Ok. intros it Hit. apply Hload.
  rewrite isort_perm in Hit. exact Hit.
Qed.

End Loading.

(** *** What a run leaves untouched *)

Lemma extends_refl (w : world) : extends w w.
Proof. repeat split; auto. Qed.

Lemma extends_trans (w1 w2 w3 : world) :
  extends w1 w2 -> extends w2 w3 -> extends w1 w3.
Proof.
  intros (Hf & Hd & Hl & Hr) (Hf' & Hd' & Hl' & Hr').
  split; [auto|]. split; [auto|]. split; [congruence|].
  intros r. destruct (Hr' r) as [->|[hw' ->]]; [apply Hr|].
  right. exists hw'. destruct (Hr r) as [->|[hw ->]]; [reflexivity|].
  unfold with_resize_dim. apply insert_insert_eq.
Qed.

Lemma and_then_extends {A B} (m : action A) (k : A -> action B) :
  (forall w, extends w (m w).2) ->
  (forall a w, extends w (k a w).2) ->
  forall w, extends w (and_then m k w).2.
Proof.
  intros Hm Hk w. unfold and_then. specialize (Hm w).
  destruct (m w) as [[a|cls] w1]; cbn [snd] in *; [|exact Hm].
  eapply extends_trans; [exact Hm|apply Hk].
Qed.

Lemma for_each_extends {A} (body : A -> action unit) (l : list A) :
  (forall x w, extends w (body x w).2) ->
  forall w, extends w (for_each body l w).2.
Proof.
  intros Hb. induction l as [|x l IH]; intros w.
  - apply extends_refl.
  - cbn [for_each]. apply and_then_extends; [apply Hb|intros _; exact IH].
Qed.

Lemma mkdir_parents_extends (d : Path) (w : world) :
  extends w (mkdir_parents d w).2.
Proof.
  unfold mkdir_parents.
  destruct (decide (is_Some (disk w !! d))); [apply extends_refl|].
  destruct (decide (Exists _ (prefixes d))); [apply extends_refl|].
  cbn [snd]. repeat split; cbn [disk dirs dicts]; auto.
  intros q Hq. apply elem_of_app. right. exact Hq.
Qed.

Lemma write_file_extends (p : Path) (f : file) (w : world) :
  extends w (write_file p f w).2.
Proof.
  unfold write_file. destruct (decide (is_dir w p)); [apply extends_refl|].
  cbn [snd]. repeat split; cbn [disk dirs dicts]; auto.
  intros q Hq. apply lookup_insert_is_Some.
  destruct (decide (p = q)); auto.
Qed.

Lemma set_resize_dim_extends (r : ref) (hw : Z * Z) (w : world) :
  extends w (set_resize_dim r hw w).2.
Proof.
  unfold set_resize_dim. cbn [snd].
  repeat split; cbn [disk dirs dicts]; auto.
  - apply length_insert.
  - intros r'. unfold deref.
    destruct (decide (r' = r)) as [->|Hne].
    + destruct (decide (r < length (dicts w))%nat) as [Hlt|Hge].
      * rewrite list_lookup_insert_eq by exact Hlt. right. exists hw.
        reflexivity.
      * rewrite list_insert_ge by lia. left. reflexivity.
    + rewrite list_lookup_insert_ne by congruence. left. reflexivity.
Qed.

Section Runs.

Context {sample : Type}.
Variable stem : string -> string.
Variable predict : list ndarray -> list ndarray.
Variable root : Path.
Variable model_name : string.

Lemma save_slice_extends (dataset : @eval_dataset sample) (it : slice_item)
    (w : world) :
  extends w (save_slice root model_name dataset it w).2.
Proof.
  revert w. unfold save_slice.
  apply and_then_extends; [intros w; apply extends_refl|intros study].
  apply and_then_extends; [apply mkdir_parents_extends|intros _].
  apply and_then_extends; [apply write_file_extends|intros _].
  apply and_then_extends; [apply write_file_extends|intros _].
  apply and_then_extends; [apply write_file_extends|intros _].
  apply and_then_extends; [intros w; apply extends_refl|intros hw].
  apply and_then_extends; [apply set_resize_dim_extends|intros attribs].
  apply write_file_extends.
Qed.

(** X24.  [inference_to_disk] needs a dataset with [output_idx] set
    and batches of three parts.  Without [output_idx] it raises
    [AssertionError]; with it, a first batch of two parts, as an
    [InferenceDataset] gives them, raises [ValueError] at the
    unpacking.  In both cases no file is written and no dict
    changed. *)
Theorem inference_needs_indexed_triples (dataset : @eval_dataset sample)
    (batches : list batch) (w : world) :
  ev_output_idx dataset = false \/
  (exists x_batch idxs_batch rest, batches = Pair x_batch idxs_batch :: rest) ->
  exists cls,
    inference_to_disk stem predict root model_name dataset batches w
    = (Raise cls, w) /\
    (ev_output_idx dataset = false -> cls = "AssertionError"%string) /\
    (ev_output_idx dataset = true -> cls = "ValueError"%string).
Proof.
  unfold inference_to_disk. intros [Hno|(x & i & rest & ->)].
  - rewrite Hno. eexists. split; [reflexivity|]. split; congruence.
  - destruct (ev_output_idx dataset) eqn:E.
    + eexists. split; [reflexivity|]. split; congruence.
    + eexists. split; [reflexivity|]. split; congruence.
Qed.

(** X25.  When the augmentation of the dataset has no [Resize], the
    first slice raises [StopIteration] at [next], so that the assertion
    after it is never reached; by then its three arrays have been
    written, while its attribute file has not and its attribute dict is
    as it was.  The directory of the study can be made and none of the
    files is a directory. *)
Theorem save_slice_without_Resize (dataset : @eval_dataset sample) (w : world)
    (it : slice_item) (patient MR : string) (transforms : list transform) :
  read_study (deref (dicts w) (file_attrib it)) = Ok (patient, MR) ->
  component patient -> component MR -> component (file_name it) ->
  ev_augmentation dataset = Some transforms ->
  Forall (fun t => exists name, t = OtherTransform name) transforms ->
  let dir := study_path root model_name patient MR in
  let out := artifact root model_name patient MR (file_name it) in
  Forall (fun q => disk w !! q = None) (prefixes dir) ->
  (forall suffix, suffix ∈ suffixes -> ~ is_dir w (out suffix)) ->
  exists w',
    save_slice root model_name dataset it w = (Raise "StopIteration", w') /\
    dicts w' = dicts w /\
    disk w' !! out "_img.npy"%string = Some (NpyFile (img it)) /\
    disk w' !! out "_pred.npy"%string = Some (NpyFile (pred it)) /\
    disk w' !! out "_ground.npy"%string = Some (NpyFile (ground it)) /\
    disk w' !! out "_attrib.json"%string
    = disk w !! out "_attrib.json"%string.
Proof.
  intros Hst Hp Hm Hn Haug Hno dir out Hfree Hnd.
  assert (Hout : forall s, out s = dir ++ [(file_name it ++ s)%string])
    by (intros s; apply artifact_parts; assumption).
  assert (Hnd' : forall s, s ∈ suffixes ->
                   ~ is_dir w (dir ++ [(file_name it ++ s)%string]))
    by (intros s Hs; rewrite <- Hout; apply Hnd, Hs).
  destruct (save_slice_arrays root model_name dataset w it patient MR
              Hst Hp Hm Hn Hfree Hnd') as [-> _].
  unfold and_then at 1. unfold pure_result. rewrite Haug. cbn [bind].
  rewrite (first_Resize_none _ Hno).
  eexists. split; [reflexivity|]. cbn [disk dicts]. fold dir.
  split; [reflexivity|]. rewrite !Hout.
  assert (Hne : forall a b : string, a <> b ->
            dir ++ [(file_name it ++ a)%string]
            <> dir ++ [(file_name it ++ b)%string]).
  { intros a b Hab H. apply Hab. apply app_singleton_inj in H.
    eapply string_app_inv_head, H. }
  split; [|split; [|split]].
  - rewrite !lookup_insert_ne by (apply Hne; discriminate).
    apply lookup_insert_eq.
  - rewrite lookup_insert_ne by (apply Hne; discriminate).
    apply lookup_insert_eq.
  - apply lookup_insert_eq.
  - rewrite !lookup_insert_ne by (apply Hne; discriminate). reflexivity.
Qed.

(** X26.  A slice that goes through leaves four files named after
    the stem of its DICOM file in the directory of its study: the
    image, the prediction, the ground truth, and the attributes with
    [transform_resize_dim] added.  The key has been added to the
    attribute dict of the dataset itself, and no other file has
    changed.  Patient, study and stem are single path components, the
    directory of the study can be made and none of the four files is a
    directory. *)
Theorem save_slice_writes_four_files (dataset : @eval_dataset sample)
    (w : world) (it : slice_item) (patient MR : string)
    (transforms : list transform) (hw : Z * Z) :
  read_study (deref (dicts w) (file_attrib it)) = Ok (patient, MR) ->
  component patient -> component MR -> component (file_name it) ->
  ev_augmentation dataset = Some transforms ->
  first_Resize transforms = Ok hw ->
  let dir := study_path root model_name patient MR in
  let out := artifact root model_name patient MR (file_name it) in
  let attribs := with_resize_dim (deref (dicts w) (file_attrib it)) hw in
  Forall (fun q => disk w !! q = None) (prefixes dir) ->
  (forall suffix, suffix ∈ suffixes -> ~ is_dir w (out suffix)) ->
  exists w',
    save_slice root model_name dataset it w = (Ok tt, w') /\
    dicts w' = <[file_attrib it := attribs]> (dicts w) /\
    deref (dicts w') (file_attrib it) = attribs /\
    disk w' !! out "_img.npy"%string = Some (NpyFile (img it)) /\
    disk w' !! out "_pred.npy"%string = Some (NpyFile (pred it)) /\
    disk w' !! out "_ground.npy"%string = Some (NpyFile (ground it)) /\
    disk w' !! out "_attrib.json"%string = Some (JsonFile attribs) /\
    (forall p, p ∉ out <$> suffixes -> disk w' !! p = disk w !! p).
Proof.
  intros Hst Hp Hm Hn Haug Hfirst dir out attribs Hfree Hnd.
  assert (Hout : forall s, out s = dir ++ [(file_name it ++ s)%string])
    by (intros s; apply artifact_parts; assumption).
  assert (Hnd' : forall s, s ∈ suffixes ->
                   ~ is_dir w (dir ++ [(file_name it ++ s)%string]))
    by (intros s Hs; rewrite <- Hout; apply Hnd, Hs).
  destruct (read_study_in_store _ _ _ _ Hst) as (Hlt & _ & _).
  rewrite (save_slice_Ok root model_name dataset w it patient MR transforms
             hw Hst Hp Hm Hn Haug Hfirst Hfree Hnd').
  eexists. split; [reflexivity|]. cbn [disk dicts]. fold dir. fold attribs.
  split; [reflexivity|].
  assert (Hne : forall a b : string, a <> b ->
            dir ++ [(file_name it ++ a)%string]
            <> dir ++ [(file_name it ++ b)%string]).
  { intros a b Hab H. apply Hab. apply app_singleton_inj in H.
    eapply string_app_inv_head, H. }
  split; [|split; [|split; [|split; [|split]]]].
  - unfold deref. rewrite list_lookup_insert_eq by exact Hlt. reflexivity.
  - rewrite Hout. rewrite !lookup_insert_ne by (apply Hne; discriminate).
    apply lookup_insert_eq.
  - rewrite Hout. rewrite !lookup_insert_ne by (apply Hne; discriminate).
    apply lookup_insert_eq.
  - rewrite Hout. rewrite lookup_insert_ne by (apply Hne; discriminate).
    apply lookup_insert_eq.
  - rewrite Hout. apply lookup_insert_eq.
  - intros p Hp'. unfold suffixes in Hp'.
    rewrite !lookup_insert_ne; [reflexivity|..];
      intros <-; apply Hp'; cbn [fmap list_fmap]; rewrite !Hout;
      repeat first [left; reflexivity|right].
Qed.

(** X27.  Whether [inference_to_disk] returns or raises, it has
    removed no file and no directory, has made or dropped no dict
    object, and has changed a dict at most by setting its
    [transform_resize_dim]. *)
Theorem inference_to_disk_only_adds (dataset : @eval_dataset sample)
    (batches : list batch) (w : world) :
  extends w
    (inference_to_disk stem predict root model_name dataset batches w).2.
Proof.
  unfold inference_to_disk.
  destruct (ev_output_idx dataset); [|apply extends_refl].
  apply for_each_extends. clear. intros [x y idxs|x idxs] w.
  - unfold process_batch. revert w.
    apply and_then_extends; [intros w; apply extends_refl|intros names].
    apply for_each_extends. intros it w. apply save_slice_extends.
  - apply extends_refl.
Qed.

(** What is read back from a directory that held nothing, each of
    the four lists in the order of its own file names. *)
Lemma saved_study_by_file_name (dataset : @eval_dataset sample) (w : world)
    (items : list slice_item) (patient MR : string)
    (transforms : list transform) (hw : Z * Z) :
  component patient -> component MR ->
  ev_augmentation dataset = Some transforms ->
  first_Resize transforms = Ok hw ->
  (forall it, it ∈ items ->
     read_study (deref (dicts w) (file_attrib it)) = Ok (patient, MR)) ->
  (forall it, it ∈ items -> component (file_name it)) ->
  NoDup (file_name <$> items) ->
  let dir := study_path root model_name patient MR in
  Forall (fun q => disk w !! q = None) (prefixes dir) ->
  Forall (fun q => ~ under dir q) (entries w) ->
  let by_name := fun suffix : string =>
    isort (fun a b => string_leb (file_name a ++ suffix)
                                 (file_name b ++ suffix)) items in
  exists w',
    for_each (save_slice root model_name dataset) items w = (Ok tt, w') /\
    read_study_dir w' dir
    = Ok {| imgs := img <$> by_name "_img.npy"%string;
            preds := pred <$> by_name "_pred.npy"%string;
            grounds := ground <$> by_name "_ground.npy"%string;
            attribs :=
              (fun it =>
                 with_resize_dim (deref (dicts w) (file_attrib it)) hw)
                <$> by_name "_attrib.json"%string |}.
Proof.
  intros Hp Hm Haug Hfirst Hst Hn Hnames dir Hfree Hfresh by_name.
  assert (Hdir : dir <> []) by (apply study_path_not_nil; assumption).
  destruct (save_slices_Ok root model_name dataset patient MR transforms hw
              Hp Hm Haug Hfirst items w Hst Hn Hfree
              (fun it s _ _ => fresh_not_dir w dir _ Hdir Hfresh) Hnames)
    as (w' & Hrun & _ & Hfiles & Hframe & Hdirs).
  fold dir in Hfiles, Hframe, Hdirs.
  exists w'. split; [exact Hrun|].
  assert (Hwritten : forall it s, it ∈ items -> s ∈ suffixes ->
            is_Some (disk w' !! (dir ++ [(file_name it ++ s)%string]))).
  { intros it s Hit Hs. destruct (Hfiles it Hit) as (H1 & H2 & H3 & H4).
    unfold suffixes in Hs.
    repeat (apply elem_of_cons in Hs as [->|Hs]); eauto.
    apply elem_of_nil in Hs. contradiction. }
  unfold read_study_dir.
  rewrite (load_sorted w w' dir items Hfresh Hwritten Hframe Hdirs Hnames
             (np_load w') img "_img.npy"); cycle 1.
  { unfold suffixes. repeat constructor. }
  { intros it Hit. unfold np_load. cbv beta zeta.
    destruct (Hfiles it Hit) as (-> & _). reflexivity. }
  rewrite (load_sorted w w' dir items Hfresh Hwritten Hframe Hdirs Hnames
             (np_load w') pred "_pred.npy"); cycle 1.
  { unfold suffixes. repeat constructor. }
  { intros it Hit. unfold np_load. cbv beta zeta.
    destruct (Hfiles it Hit) as (_ & -> & _). reflexivity. }
  rewrite (load_sorted w w' dir items Hfresh Hwritten Hframe Hdirs Hnames
             (np_load w') ground "_ground.npy"); cycle 1.
  { unfold suffixes. repeat constructor. }
  { intros it Hit. unfold np_load. cbv beta zeta.
    destruct (Hfiles it Hit) as (_ & _ & -> & _). reflexivity. }
  rewrite (load_sorted w w' dir items Hfresh Hwritten Hframe Hdirs Hnames
             (json_load w')
             (fun it => with_resize_dim (deref (dicts w) (file_attrib it)) hw)
             "_attrib.json"); cycle 1.
  { unfold suffixes. repeat constructor. }
  { intros it Hit. unfold json_load. cbv beta zeta.
    destruct (Hfiles it Hit) as (_ & _ & _ & ->). reflexivity. }
  reflexivity.
Qed.

(** X28.  The slices of a study, with distinct stems none of which
    begins another, are saved into a directory that held nothing and
    read back as [compute_inference_stats] reads a study directory.
    The four lists come back sorted by stem: images, predictions,
    ground truths and attributes of the same position belong to the
    same slice.  Patient, study and stems are single path components,
    and no file lies where the directory of the study has to be. *)
Theorem saved_study_reads_back (dataset : @eval_dataset sample) (w : world)
    (items : list slice_item) (patient MR : string)
    (transforms : list transform) (hw : Z * Z) :
  component patient -> component MR ->
  ev_augmentation dataset = Some transforms ->
  first_Resize transforms = Ok hw ->
  (forall it, it ∈ items ->
     read_study (deref (dicts w) (file_attrib it)) = Ok (patient, MR)) ->
  (forall it, it ∈ items -> component (file_name it)) ->
  NoDup (file_name <$> items) ->
  (forall a b, a ∈ items -> b ∈ items -> file_name a <> file_name b ->
     String.prefix (file_name a) (file_name b) = false) ->
  let dir := study_path root model_name patient MR in
  Forall (fun q => disk w !! q = None) (prefixes dir) ->
  Forall (fun q => ~ under dir q) (entries w) ->
  let ordered :=
    isort (fun a b => string_leb (file_name a) (file_name b)) items in
  exists w',
    for_each (save_slice root model_name dataset) items w = (Ok tt, w') /\
    read_study_dir w' dir
    = Ok {| imgs := img <$> ordered;
            preds := pred <$> ordered;
            grounds := ground <$> ordered;
            attribs :=
              (fun it =>
                 with_resize_dim (deref (dicts w) (file_attrib it)) hw)
                <$> ordered |}.
Proof.
  intros Hp Hm Haug Hfirst Hst Hn Hnames Hpre dir Hfree Hfresh ordered.
  destruct (saved_study_by_file_name dataset w items patient MR transforms
              hw Hp Hm Haug Hfirst Hst Hn Hnames Hfree Hfresh)
    as (w' & Hrun & Hread).
  exists w'. split; [exact Hrun|]. fold dir in Hread. rewrite Hread.
  assert (Hord : forall s,
            isort (fun a b => string_leb (file_name a ++ s)
                                         (file_name b ++ s)) items
            = ordered).
  { intros s. apply isort_ext. intros a b Ha Hb.
    apply string_leb_suffix. intros Hab. split; apply Hpre; auto. }
  rewrite !Hord. reflexivity.
Qed.

(** X29.  When the stem of one slice continues the stem of another
    by an underscore and a character between [i] and [p], as [s1_left]
    continues [s1], the sorted lists of a study directory disagree: the
    predictions are read with the longer stem first, the images, the
    ground truths and the attributes with the shorter stem first.  The
    prediction volume then has its slices in another order than the
    image and the ground truth volume. *)
Theorem suffix_orders_disagree (dataset : @eval_dataset sample) (w : world)
    (a b : slice_item) (patient MR : string) (transforms : list transform)
    (hw : Z * Z) (c : ascii) (t : string) :
  component patient -> component MR ->
  ev_augmentation dataset = Some transforms ->
  first_Resize transforms = Ok hw ->
  read_study (deref (dicts w) (file_attrib a)) = Ok (patient, MR) ->
  read_study (deref (dicts w) (file_attrib b)) = Ok (patient, MR) ->
  component (file_name a) -> component (file_name b) ->
  file_name b = (file_name a ++ String "_" (String c t))%string ->
  (N_of_ascii "i" < N_of_ascii c < N_of_ascii "p")%N ->
  let dir := study_path root model_name patient MR in
  Forall (fun q => disk w !! q = None) (prefixes dir) ->
  Forall (fun q => ~ under dir q) (entries w) ->
  exists w',
    for_each (save_slice root model_name dataset) [a; b] w = (Ok tt, w') /\
    read_study_dir w' dir
    = Ok {| imgs := [img a; img b];
            preds := [pred b; pred a];
            grounds := [ground a; ground b];
            attribs :=
              [with_resize_dim (deref (dicts w) (file_attrib a)) hw;
               with_resize_dim (deref (dicts w) (file_attrib b)) hw] |}.
Proof.
  intros Hp Hm Haug Hfirst Hsa Hsb Hna Hnb Hname Hc dir Hfree Hfresh.
  assert (Hnames : NoDup (file_name <$> [a; b])).
  { cbn [fmap list_fmap]. apply NoDup_cons. split; [|apply NoDup_singleton].
    intros Hin. apply list_elem_of_singleton in Hin.
    rewrite Hname in Hin. apply (f_equal String.length) in Hin.
    rewrite string_length_app in Hin. simpl in Hin. lia. }
  destruct (saved_study_by_file_name dataset w [a; b] patient MR transforms
              hw Hp Hm Haug Hfirst) as (w' & Hrun & Hread);
    [intros it Hit| intros it Hit|exact Hnames|exact Hfree|exact Hfresh|].
  { apply elem_of_cons in Hit as [->|Hit]; [exact Hsa|].
    apply list_elem_of_singleton in Hit as ->. exact Hsb. }
  { apply elem_of_cons in Hit as [->|Hit]; [exact Hna|].
    apply list_elem_of_singleton in Hit as ->. exact Hnb. }
  exists w'. split; [exact Hrun|]. fold dir in Hread. rewrite Hread.
  unfold isort. cbn [foldr insert_sorted]. rewrite Hname.
  rewrite (continued_name_before (file_name a) t "mg.npy" c "i")
    by (unfold Ascii.compare; apply N.compare_lt_iff; simpl; simpl in Hc; lia).
  rewrite (continued_name_before (file_name a) t "round.npy" c "g")
    by (unfold Ascii.compare; apply N.compare_lt_iff; simpl; simpl in Hc; lia).
  rewrite (continued_name_before (file_name a) t "ttrib.json" c "a")
    by (unfold Ascii.compare; apply N.compare_lt_iff; simpl; simpl in Hc; lia).
  rewrite (continued_name_after (file_name a) t "red.npy" c "p")
    by (unfold Ascii.compare; apply N.compare_gt_iff; simpl; simpl in Hc; lia).
  reflexivity.
Qed.

(** X30.  When a file lies where the directory of the study, or a
    directory above it, has to be, the slice raises at [mkdir] and
    writes nothing: [FileExistsError] when the file is at the path of
    the study directory itself, [NotADirectoryError] otherwise. *)
Theorem save_slice_blocked_by_file (dataset : @eval_dataset sample)
    (w : world) (it : slice_item) (patient MR : string) (q : Path) :
  read_study (deref (dicts w) (file_attrib it)) = Ok (patient, MR) ->
  component patient -> component MR -> component (file_name it) ->
  let dir := study_path root model_name patient MR in
  q ∈ prefixes dir -> is_Some (disk w !! q) ->
  exists cls,
    save_slice root model_name dataset it w = (Raise cls, w) /\
    (is_Some (disk w !! dir) -> cls = "FileExistsError"%string) /\
    (disk w !! dir = None -> cls = "NotADirectoryError"%string).
Proof.
  intros Hst Hp Hm Hn dir Hq Hfile.
  unfold save_slice. unfold and_then at 1. rewrite Hst. cbn [fst snd].
  rewrite parent_of_out_dir by assumption. fold dir.
  unfold and_then at 1. unfold mkdir_parents.
  destruct (decide (is_Some (disk w !! dir))) as [Hd|Hd].
  - eexists. split; [reflexivity|]. split; [reflexivity|].
    intros Hnone. rewrite Hnone in Hd. destruct Hd. discriminate.
  - destruct (decide (Exists _ (prefixes dir))) as [_|Hex].
    + eexists. split; [reflexivity|]. split; [contradiction|reflexivity].
    + exfalso. apply Hex, Exists_exists. exists q. split; assumption.
Qed.

End Runs.

(** *** The theorems on the sample data *)

Lemma component_P1 : component "P1".
Proof. split; [reflexivity|split; [vm_compute; reflexivity|discriminate]]. Qed.

Lemma component_MR1 : component "MR1".
Proof. split; [reflexivity|split; [vm_compute; reflexivity|discriminate]]. Qed.

Lemma component_s1 : component "s1".
Proof. split; [reflexivity|split; [vm_compute; reflexivity|discriminate]]. Qed.

Lemma component_s2 : component "s2".
Proof. split; [reflexivity|split; [vm_compute; reflexivity|discriminate]]. Qed.

Lemma component_s1_left : component "s1_left".
Proof. split; [reflexivity|split; [vm_compute; reflexivity|discriminate]]. Qed.

Lemma sample_attrib_study : read_study sample_attrib = Ok ("P1", "MR1")%string.
Proof. vm_compute. reflexivity. Qed.

Lemma empty_disk_free (l : list Path) :
  Forall (fun q => disk empty_disk !! q = None) l.
Proof. apply Forall_forall. intros q _. apply lookup_empty. Qed.

Lemma empty_disk_fresh (d : Path) :
  Forall (fun q => ~ under d q) (entries empty_disk).
Proof.
  unfold entries, empty_disk. cbn [disk dirs].
  rewrite map_to_list_empty. constructor.
Qed.

Lemma empty_disk_no_dir (patient MR name suffix : string) :
  component patient -> component MR -> component name ->
  ~ is_dir empty_disk
      (artifact save_root "model_a" patient MR name suffix).
Proof.
  intros Hp Hm Hn. rewrite artifact_parts by assumption.
  apply fresh_not_dir; [|apply empty_disk_fresh].
  apply study_path_not_nil; assumption.
Qed.

Lemma inference_needs_indexed_triples_witness :
  exists cls,
    inference_to_disk (fun name => name) (fun x_batch => x_batch) save_root
      "model_a" unindexed [Triple [] [] []] empty_disk
    = (Raise cls, empty_disk) /\
    cls = "AssertionError"%string.
Proof.
  destruct (inference_needs_indexed_triples (fun name => name)
              (fun x_batch => x_batch) save_root "model_a" unindexed
              [Triple [] [] []] empty_disk) as (cls & Hrun & Hcls & _).
  - left. reflexivity.
  - exists cls. split; [exact Hrun|]. apply Hcls. reflexivity.
Defined.

Lemma save_slice_without_Resize_witness :
  exists w',
    save_slice save_root "model_a" flipping slice_s1 empty_disk
    = (Raise "StopIteration", w') /\
    dicts w' = dicts empty_disk /\
    disk w' !! artifact save_root "model_a" "P1" "MR1" "s1" "_pred.npy"
    = Some (NpyFile pred_slice_1) /\
    disk w' !! artifact save_root "model_a" "P1" "MR1" "s1" "_attrib.json"
    = None.
Proof.
  destruct (save_slice_without_Resize save_root "model_a" flipping empty_disk
              slice_s1 "P1" "MR1" [OtherTransform "HorizontalFlip"])
    as (w' & Hrun & Hdicts & _ & Hpred & _ & Hjson).
  - exact sample_attrib_study.
  - exact component_P1.
  - exact component_MR1.
  - exact component_s1.
  - reflexivity.
  - repeat constructor. eexists. reflexivity.
  - apply empty_disk_free.
  - intros suffix _.
    apply empty_disk_no_dir;
      [exact component_P1|exact component_MR1|exact component_s1].
  - exists w'. split; [exact Hrun|]. split; [exact Hdicts|].
    split; [exact Hpred|]. etransitivity; [exact Hjson|apply lookup_empty].
Defined.

Lemma save_slice_writes_four_files_witness :
  exists w',
    save_slice save_root "model_a" resizing slice_s1 empty_disk
    = (Ok tt, w') /\
    disk w' !! artifact save_root "model_a" "P1" "MR1" "s1" "_attrib.json"
    = Some (JsonFile (with_resize_dim sample_attrib (2, 2))) /\
    deref (dicts w') 0 = with_resize_dim sample_attrib (2, 2).
Proof.
  destruct (save_slice_writes_four_files save_root "model_a" resizing
              empty_disk slice_s1 "P1" "MR1" flip_then_resize (2, 2))
    as (w' & Hrun & _ & Hderef & _ & _ & _ & Hjson & _).
  - exact sample_attrib_study.
  - exact component_P1.
  - exact component_MR1.
  - exact component_s1.
  - reflexivity.
  - reflexivity.
  - apply empty_disk_free.
  - intros suffix _.
    apply empty_disk_no_dir;
      [exact component_P1|exact component_MR1|exact component_s1].
  - exists w'. split; [exact Hrun|]. split; [exact Hjson|exact Hderef].
Defined.

Lemma saved_study_reads_back_witness :
  exists w',
    for_each (save_slice save_root "model_a" resizing) [slice_s2; slice_s1]
      empty_disk = (Ok tt, w') /\
    read_study_dir w' (study_path save_root "model_a" "P1" "MR1")
    = Ok {| imgs := [pred_slice_1; pred_slice_2];
            preds := [pred_slice_1; pred_slice_2];
            grounds := [ground_slice_1; ground_slice_2];
            attribs := [with_resize_dim sample_attrib (2, 2);
                        with_resize_dim sample_attrib (2, 2)] |}.
Proof.
  apply (saved_study_reads_back save_root "model_a" resizing empty_disk
           [slice_s2; slice_s1] "P1" "MR1" flip_then_resize (2, 2)).
  - exact component_P1.
  - exact component_MR1.
  - reflexivity.
  - reflexivity.
  - intros it Hit. apply elem_of_cons in Hit as [->|Hit];
      [exact sample_attrib_study|].
    apply list_elem_of_singleton in Hit as ->. exact sample_attrib_study.
  - intros it Hit. apply elem_of_cons in Hit as [->|Hit];
      [exact component_s2|].
    apply list_elem_of_singleton in Hit as ->. exact component_s1.
  - cbn [fmap list_fmap file_name slice_s1 slice_s2].
    apply NoDup_cons. split; [|apply NoDup_singleton].
    intros Hin. apply list_elem_of_singleton in Hin. discriminate.
  - intros a b Ha Hb Hab.
    apply elem_of_cons in Ha as [->|Ha];
      [|apply list_elem_of_singleton in Ha as ->];
      (apply elem_of_cons in Hb as [->|Hb];
       [|apply list_elem_of_singleton in Hb as ->]);
      first [reflexivity|contradiction].
  - apply empty_disk_free.
  - apply empty_disk_fresh.
Defined.

Lemma suffix_orders_disagree_witness :
  exists w',
    for_each (save_slice save_root "model_a" resizing)
      [slice_s1; slice_s1_left] empty_disk = (Ok tt, w') /\
    read_study_dir w' (study_path save_root "model_a" "P1" "MR1")
    = Ok {| imgs := [pred_slice_1; pred_slice_2];
            preds := [pred_slice_2; pred_slice_1];
            grounds := [ground_slice_1; ground_slice_2];
            attribs := [with_resize_dim sample_attrib (2, 2);
                        with_resize_dim sample_attrib (2, 2)] |}.
Proof.
  apply (suffix_orders_disagree save_root "model_a" resizing empty_disk
           slice_s1 slice_s1_left "P1" "MR1" flip_then_resize (2, 2)
           "l" "eft").
  - exact component_P1.
  - exact component_MR1.
  - reflexivity.
  - reflexivity.
  - exact sample_attrib_study.
  - exact sample_attrib_study.
  - exact component_s1.
  - exact component_s1_left.
  - reflexivity.
  - simpl. lia.
  - apply empty_disk_free.
  - apply empty_disk_fresh.
Defined.

Lemma save_slice_blocked_by_file_witness :
  exists cls,
    save_slice save_root "model_a" resizing slice_s1 patient_is_a_file
    = (Raise cls, patient_is_a_file) /\
    cls = "NotADirectoryError"%string.
Proof.
  destruct (save_slice_blocked_by_file save_root "model_a" resizing
              patient_is_a_file slice_s1 "P1" "MR1"
              (save_root ++ ["model_a"; "P1"]%string))
    as (cls & Hrun & _ & Hcls).
  - exact sample_attrib_study.
  - exact component_P1.
  - exact component_MR1.
  - exact component_s1.
  - apply elem_of_prefixes. exists 5%nat. split; [simpl; lia|reflexivity].
  - eexists. apply lookup_singleton_eq.
  - exists cls. split; [exact Hrun|]. apply Hcls.
    apply lookup_singleton_ne. intros H. discriminate H.
Defined.

End ArtifactsFacts.
